(** * flowfish: configuration rewriting, hashing, graph and node life cycle

    A shallow embedding of the parts of flowfish that the specification
    makes claims about: the rewrite pipeline of [conf.py], the hashing of
    [utils.py] and [node.py], the graph of [graph.py], the argument
    splitting of [func.py], node setup and invocation of [node.py], and the
    file helpers of [utils.py].

    Conventions.  A Python [str] is a list of Unicode code points
    ([pystr]); [lit] turns an ASCII literal into one.  A Python [int] is a
    [Z].  A [dict] is an association list in insertion order.  Functions
    that can raise return in the monad [M], which threads the mutable
    state and reports the exception that was raised. *)

From Stdlib Require Import ZArith NArith List String Ascii Lia Bool.
From Stdlib Require Import Permutation Sorted.
From Stdlib Require Import Floats.SpecFloat.
From Stdlib Require Import DecimalString.
From stdpp Require Import base option list gmap.
Import ListNotations.

Set Warnings "-register-all".

(** ** Python strings *)

Abbreviation pychar := N (only parsing).
Abbreviation pystr := (list N) (only parsing).

Definition lit (s : string) : pystr := map N_of_ascii (list_ascii_of_string s).

(** [a.startswith(p)] *)
Fixpoint startswith (p a : pystr) : bool :=
  match p, a with
  | [], _ => true
  | c :: p', d :: a' => (c =? d)%N && startswith p' a'
  | _ :: _, [] => false
  end.

Fixpoint pystr_eqb (a b : pystr) : bool :=
  match a, b with
  | [], [] => true
  | c :: a', d :: b' => (c =? d)%N && pystr_eqb a' b'
  | _, _ => false
  end.

(** [a < b] on strings: lexicographic on code points. *)
Fixpoint pystr_ltb (a b : pystr) : bool :=
  match a, b with
  | _, [] => false
  | [], _ :: _ => true
  | c :: a', d :: b' => (c <? d)%N || ((c =? d)%N && pystr_ltb a' b')
  end.

Definition pystr_leb (a b : pystr) : bool := negb (pystr_ltb b a).

(** [sep.join(parts)] *)
Fixpoint join (sep : pystr) (parts : list pystr) : pystr :=
  match parts with
  | [] => []
  | [p] => p
  | p :: rest => p ++ sep ++ join sep rest
  end.

(** [str(n)] for an [int]. *)
Definition str_of_Z (n : Z) : pystr := lit (NilZero.string_of_int (Z.to_int n)).

(** One lowercase hexadecimal digit. *)
Definition hex_digit (d : Z) : pychar :=
  if (d <? 10)%Z then Z.to_N (48 + d) else Z.to_N (87 + d).

Fixpoint hex_loop (fuel : nat) (n : Z) (acc : pystr) : pystr :=
  match fuel with
  | O => acc
  | S fuel' =>
      let acc' := hex_digit (n mod 16) :: acc in
      if (n / 16 =? 0)%Z then acc' else hex_loop fuel' (n / 16) acc'
  end.

(** [format(n, 'x')] for [n >= 0]: lowercase, no prefix, no padding. *)
Definition format_x (n : Z) : pystr :=
  hex_loop (S (Z.to_nat (Z.log2 n))) n [].

(** [c] padded to four lowercase hexadecimal digits, as ['{0:04x}'.format(c)]. *)
Definition hex4 (c : Z) : pystr :=
  [hex_digit (c / 4096 mod 16); hex_digit (c / 256 mod 16);
   hex_digit (c / 16 mod 16); hex_digit (c mod 16)].

(** ** Exceptions *)

Module error.

Inductive exn_class : Type :=
| FlowError
| NodeNotFoundError
| ScopeNotFoundError
| StopRewrite
| RecursionError
| TypeError
| ValueError
| KeyError
| AttributeError
| IndexError
| AssertionError
| FileNotFoundError
| FileExistsError
| NotADirectoryError
| IsADirectoryError
| PermissionError
| OSError
| UnicodeEncodeError
| UnicodeDecodeError
| KeyboardInterrupt
| OutOfFuel.

Inductive exn : Type :=
| Exn (cls : exn_class) (msg : pystr) (cause : option exn).

Definition exn_cls (e : exn) : exn_class := let 'Exn c _ _ := e in c.
Definition exn_msg (e : exn) : pystr := let 'Exn _ m _ := e in m.
Definition exn_cause (e : exn) : option exn := let 'Exn _ _ c := e in c.

Definition exn_class_eqb (a b : exn_class) : bool :=
  match a, b with
  | FlowError, FlowError | NodeNotFoundError, NodeNotFoundError
  | ScopeNotFoundError, ScopeNotFoundError | StopRewrite, StopRewrite
  | RecursionError, RecursionError | TypeError, TypeError
  | ValueError, ValueError | KeyError, KeyError
  | AttributeError, AttributeError | FileNotFoundError, FileNotFoundError
  | FileExistsError, FileExistsError | NotADirectoryError, NotADirectoryError
  | IsADirectoryError, IsADirectoryError | PermissionError, PermissionError
  | OSError, OSError | UnicodeDecodeError, UnicodeDecodeError
  | IndexError, IndexError | AssertionError, AssertionError
  | OutOfFuel, OutOfFuel
  | UnicodeEncodeError, UnicodeEncodeError
  | KeyboardInterrupt, KeyboardInterrupt => true
  | _, _ => false
  end.

(** [isinstance(e, FlowError)]: the two lookup errors subclass [FlowError]. *)
Definition is_FlowError (c : exn_class) : bool :=
  match c with
  | FlowError | NodeNotFoundError | ScopeNotFoundError => true
  | _ => false
  end.

(** [isinstance(e, OSError)]: the errors of the file system are its
    subclasses.  [shutil.SameFileError] is one too and is reported as
    [OSError]. *)
Definition is_OSError (c : exn_class) : bool :=
  match c with
  | OSError | FileNotFoundError | FileExistsError | NotADirectoryError
  | IsADirectoryError | PermissionError => true
  | _ => false
  end.

(** [isinstance(e, Exception)]: everything but [KeyboardInterrupt], which
    derives from [BaseException] only.  [OutOfFuel] is no exception of
    Python: a function of the model that loops takes a bound on its
    iterations and reports it this way when the bound is reached; no
    handler catches it. *)
Definition is_Exception (c : exn_class) : bool :=
  match c with
  | KeyboardInterrupt | OutOfFuel => false
  | _ => true
  end.

Definition out_of_fuel : exn := Exn OutOfFuel [] None.

End error.
Import error.

(** ** Results and the state-and-exception monad *)

Inductive res (A : Type) : Type :=
| Ok (a : A)
| Raise (e : exn).
Arguments Ok {A} a.
Arguments Raise {A} e.

Definition M (S A : Type) : Type := S -> res A * S.

Definition ret {S A} (a : A) : M S A := fun s => (Ok a, s).
Definition raise {S A} (e : exn) : M S A := fun s => (Raise e, s).
Definition bind {S A B} (c : M S A) (k : A -> M S B) : M S B :=
  fun s => match c s with
           | (Ok a, s') => k a s'
           | (Raise e, s') => (Raise e, s')
           end.
Definition get {S} : M S S := fun s => (Ok s, s).
Definition put {S} (s : S) : M S unit := fun _ => (Ok tt, s).
Definition modify {S} (f : S -> S) : M S unit := fun s => (Ok tt, f s).

(** [try: c except cls: h] *)
Definition try_except {S A} (c : M S A) (catches : exn -> bool) (h : exn -> M S A)
  : M S A :=
  fun s => match c s with
           | (Ok a, s') => (Ok a, s')
           | (Raise e, s') => if catches e then h e s' else (Raise e, s')
           end.

(** A pure computation run inside [M]. *)
Definition lift {S A} (r : res A) : M S A := fun s => (r, s).

Declare Scope monad_scope.
Delimit Scope monad_scope with monad.
Notation "'let*' x ':=' c 'in' k" := (bind c (fun x => k))
  (at level 10, x pattern, c at level 100, k at level 200) : monad_scope.
Open Scope monad_scope.

Definition res_bind {A B} (r : res A) (k : A -> res B) : res B :=
  match r with
  | Ok a => k a
  | Raise e => Raise e
  end.

(** Run a stateless computation. *)
Definition run {A} (c : M unit A) : res A := fst (c tt).

(** ** The value model

    A configuration is a JSON-like tree whose leaves may also be links
    (made by [RewriteBaseConf]) and foreign Python objects. *)

Definition node_id := nat.

(** A Python [float] is an IEEE binary64 number; [f_repr] caches the text
    of [repr(f)], which the model does not recompute. *)
Record pyfloat : Type := {
  f_val : spec_float;
  f_repr : pystr
}.

Module link.

(** [class Link]: the five fields of [Link.__init__].  [l_id] stands for
    the identity of the Python object: [Link] defines neither [__eq__]
    nor [__hash__], so two links are the same key of a [dict] only when
    they are the same object. *)
Record Link : Type := {
  l_id : nat;
  l_source : node_id;
  l_target : node_id;
  l_param : option pystr;
  l_value : option pystr;
  l_kind : pychar
}.

(** [Link.internal] *)
Definition internal (l : Link) : bool :=
  match l_param l with
  | Some p => startswith (lit "_") p
  | None => false
  end.

End link.
Import link.

Inductive value : Type :=
| VNone
| VBool (b : bool)
| VInt (n : Z)
| VFloat (f : pyfloat)
| VStr (s : pystr)
| VList (l : list value)
| VTuple (l : list value)
| VDict (d : list (pystr * value))
| VLink (l : Link)
| VObj (o_type : pystr) (o_id : Z) (o_pickle : option (list Z))
       (o_dict : option (list (pystr * value))).

(** A foreign object ([VObj]) carries what the code asks of it: the name
    of its type, its identity [id(o)], the bytes of
    [cloudpickle.dumps(o, protocol=4)] ([None] when pickling raises) and
    the result of its bound method [o.dict(exclude_unset=True)] when it has
    one (a pydantic model). *)

Definition dict := list (pystr * value).

(** [type(v).__name__] *)
Definition type_name (v : value) : pystr :=
  match v with
  | VNone => lit "NoneType"
  | VBool _ => lit "bool"
  | VInt _ => lit "int"
  | VFloat _ => lit "float"
  | VStr _ => lit "str"
  | VList _ => lit "list"
  | VTuple _ => lit "tuple"
  | VDict _ => lit "dict"
  | VLink _ => lit "Link"
  | VObj t _ _ _ => t
  end.

(** *** Dictionaries in insertion order *)

Section Dict.
Context {V : Type}.

(** [d.get(k)] *)
Fixpoint dict_get (k : pystr) (d : list (pystr * V)) : option V :=
  match d with
  | [] => None
  | (k', v) :: d' => if pystr_eqb k k' then Some v else dict_get k d'
  end.

(** [k in d] *)
Definition dict_mem (k : pystr) (d : list (pystr * V)) : bool :=
  match dict_get k d with
  | Some _ => true
  | None => false
  end.

(** [d[k] = v]: an existing key keeps its position, a new key goes last. *)
Fixpoint dict_set (k : pystr) (v : V) (d : list (pystr * V)) : list (pystr * V) :=
  match d with
  | [] => [(k, v)]
  | (k', v') :: d' =>
      if pystr_eqb k k' then (k, v) :: d' else (k', v') :: dict_set k v d'
  end.

(** [del d[k]] for a key that may be absent ([d.pop(k, None)]). *)
Fixpoint dict_del (k : pystr) (d : list (pystr * V)) : list (pystr * V) :=
  match d with
  | [] => []
  | (k', v') :: d' => if pystr_eqb k k' then d' else (k', v') :: dict_del k d'
  end.

Definition dict_keys (d : list (pystr * V)) : list pystr := map fst d.

(** [{**a, **b}] and [a.update(b)] *)
Definition dict_update (a b : list (pystr * V)) : list (pystr * V) :=
  fold_left (fun acc kv => dict_set (fst kv) (snd kv) acc) b a.

(** [dict(items)] *)
Definition dict_of_items (items : list (pystr * V)) : list (pystr * V) :=
  dict_update [] items.

(** Insertion before the first entry whose key is not smaller. *)
Fixpoint insert_by_key (kv : pystr * V) (l : list (pystr * V)) : list (pystr * V) :=
  match l with
  | [] => [kv]
  | kv' :: l' =>
      if pystr_leb (fst kv) (fst kv') then kv :: kv' :: l'
      else kv' :: insert_by_key kv l'
  end.

(** [sorted(items, key=lambda i: i[0])]: a stable sort by key. *)
Definition sorted_items (items : list (pystr * V)) : list (pystr * V) :=
  fold_right insert_by_key [] items.
End Dict.

(** *** Python equality [a == b] on values

    Numbers compare by value across [bool], [int] and [float]; lists and
    tuples compare element by element and never equal one another; dicts
    compare as mappings, whatever the order of their keys; links and
    foreign objects compare by identity (a class with its own [__eq__] is
    outside the model).  The values of the model other than objects have
    no identity, so the short-cut by which a container takes an element
    that is the same object for equal is not here: a NaN inside a list
    differs from itself, as two NaN of different objects do in Python. *)

Definition Z_of_bool (b : bool) : Z := if b then 1%Z else 0%Z.

(** [float == int], compared exactly as CPython does. *)
Definition sf_eq_Z (f : spec_float) (z : Z) : bool :=
  match f with
  | S754_zero _ => (z =? 0)%Z
  | S754_finite s m e =>
      let v := if s then Z.neg m else Z.pos m in
      if (0 <=? e)%Z then (z =? v * 2 ^ e)%Z
      else ((v mod 2 ^ (- e) =? 0) && (z =? v / 2 ^ (- e)))%Z
  | _ => false
  end.

Fixpoint py_eq (a b : value) {struct a} : bool :=
  match a, b with
  | VNone, VNone => true
  | VBool x, VBool y => Bool.eqb x y
  | VBool x, VInt n => (Z_of_bool x =? n)%Z
  | VInt n, VBool x => (n =? Z_of_bool x)%Z
  | VBool x, VFloat f => sf_eq_Z (f_val f) (Z_of_bool x)
  | VFloat f, VBool x => sf_eq_Z (f_val f) (Z_of_bool x)
  | VInt n, VInt m => (n =? m)%Z
  | VInt n, VFloat f => sf_eq_Z (f_val f) n
  | VFloat f, VInt n => sf_eq_Z (f_val f) n
  | VFloat f, VFloat g => SFeqb (f_val f) (f_val g)
  | VStr s, VStr t => pystr_eqb s t
  | VList l, VList l' =>
      (fix go (l l' : list value) : bool :=
         match l, l' with
         | [], [] => true
         | x :: t, y :: t' => py_eq x y && go t t'
         | _, _ => false
         end) l l'
  | VTuple l, VTuple l' =>
      (fix go (l l' : list value) : bool :=
         match l, l' with
         | [], [] => true
         | x :: t, y :: t' => py_eq x y && go t t'
         | _, _ => false
         end) l l'
  | VDict d, VDict d' =>
      (length d =? length d')%nat &&
      (fix go (d : list (pystr * value)) : bool :=
         match d with
         | [] => true
         | (k, v) :: t =>
             match dict_get k d' with
             | Some v' => py_eq v v'
             | None => false
             end && go t
         end) d
  | VLink l, VLink l' => (l_id l =? l_id l')%nat
  | VObj _ i _ _, VObj _ j _ _ => (i =? j)%Z
  | _, _ => false
  end.

(** ** The [json] module of the standard library

    [json.dumps(o, sort_keys=...)]] with its defaults: separators [", "] and
    [": "], [ensure_ascii=True], [allow_nan=True].  The text it returns is
    pure ASCII. *)

Module json.

(** One character inside a JSON string ([encode_basestring_ascii]):
    printable ASCII stands for itself, the quote and the backslash are
    escaped, five control characters have short escapes, and every other
    code point is written as [\uXXXX], above the basic plane as a surrogate
    pair. *)
Definition escape_char (c : pychar) : pystr :=
  (if c =? 34 then [92; 34]
   else if c =? 92 then [92; 92]
   else if c =? 10 then [92; 110]
   else if c =? 13 then [92; 114]
   else if c =? 9 then [92; 116]
   else if c =? 8 then [92; 98]
   else if c =? 12 then [92; 102]
   else if (32 <=? c) && (c <=? 126) then [c]
   else if c <? 65536 then [92; 117] ++ hex4 (Z.of_N c)
   else
     let n := (Z.of_N c - 65536)%Z in
     let s1 := Z.lor 55296%Z (Z.land (Z.shiftr n 10%Z) 1023%Z) in
     let s2 := Z.lor 56320%Z (Z.land n 1023%Z) in
     [92; 117] ++ hex4 s1 ++ [92; 117] ++ hex4 s2)%N.

Definition encode_str (s : pystr) : pystr :=
  [34%N] ++ concat (map escape_char s) ++ [34%N].

(** [float.__repr__], with the three names JSON has no literal for. *)
Definition encode_float (f : pyfloat) : pystr :=
  match f_val f with
  | S754_nan => lit "NaN"
  | S754_infinity false => lit "Infinity"
  | S754_infinity true => lit "-Infinity"
  | _ => f_repr f
  end.

Definition not_serializable (v : value) : exn :=
  Exn TypeError
      (lit "Object of type " ++ type_name v ++ lit " is not JSON serializable")
      None.

(** The first exception of a list of results, or all the values. *)
Fixpoint sequence {A} (l : list (res A)) : res (list A) :=
  match l with
  | [] => Ok []
  | Ok a :: t => res_bind (sequence t) (fun t' => Ok (a :: t'))
  | Raise e :: _ => Raise e
  end.

Fixpoint sequence_items {A} (l : list (pystr * res A)) : res (list (pystr * A)) :=
  match l with
  | [] => Ok []
  | (k, Ok a) :: t => res_bind (sequence_items t) (fun t' => Ok ((k, a) :: t'))
  | (_, Raise e) :: _ => Raise e
  end.

Definition encode_item (kv : pystr * pystr) : pystr :=
  encode_str (fst kv) ++ lit ": " ++ snd kv.

Fixpoint dumps (sort_keys : bool) (v : value) {struct v} : res pystr :=
  match v with
  | VNone => Ok (lit "null")
  | VBool true => Ok (lit "true")
  | VBool false => Ok (lit "false")
  | VInt n => Ok (str_of_Z n)
  | VFloat f => Ok (encode_float f)
  | VStr s => Ok (encode_str s)
  | VList l | VTuple l =>
      res_bind (sequence (map (dumps sort_keys) l))
               (fun parts => Ok (lit "[" ++ join (lit ", ") parts ++ lit "]"))
  | VDict d =>
      let dumped := map (fun kv => (fst kv, dumps sort_keys (snd kv))) d in
      let items := if sort_keys then sorted_items dumped else dumped in
      res_bind (sequence_items items)
               (fun parts =>
                  Ok (lit "{" ++ join (lit ", ") (map encode_item parts) ++ lit "}"))
  | VLink _ | VObj _ _ _ _ => Raise (not_serializable v)
  end.

(** [json.loads(json.dumps(o))] on a tree that [dumps] accepts: the tree is
    rebuilt with every tuple turned into a list.  (The text between the
    two calls is not materialised here; numbers, strings and the three
    constants read back as they were written.) *)
Fixpoint roundtrip (v : value) {struct v} : res value :=
  match v with
  | VList l | VTuple l =>
      res_bind (sequence (map roundtrip l)) (fun l' => Ok (VList l'))
  | VDict d =>
      res_bind (sequence_items (map (fun kv => (fst kv, roundtrip (snd kv))) d))
               (fun d' => Ok (VDict d'))
  | VLink _ | VObj _ _ _ _ => Raise (not_serializable v)
  | _ => Ok v
  end.

End json.

(** ** The file system

    What [os], [shutil] and [pathlib] do for the code: names are bound to
    inodes, an inode holds the bytes of a file, a hard link binds a second
    name to the same inode.  [fs_dirs] holds the directories that were
    made; the root [/] and the working directory [.] are always there.
    [fs_can_link] says whether [os.link] is possible at all (it is not
    across devices, for one).

    A path is identified by its text, so the paths of one file system are
    in normal form ([is_normal]), as the text of a [pathlib.Path] or the
    result of [os.path.abspath] is, and they are all absolute or all
    relative to the one working directory.  Symbolic links, permissions,
    the limits on the length of a name and on the space that is left are
    not part of the model: what fails for these reasons only does not fail
    here. *)

Module os.

Record fs : Type := {
  fs_names : gmap pystr nat;
  fs_inodes : gmap nat (list Z);
  fs_dirs : gset pystr;
  fs_next : nat;
  fs_can_link : bool
}.

(** [path.is_file()] *)
Definition is_file (path : pystr) (f : fs) : bool :=
  match fs_names f !! path with
  | Some _ => true
  | None => false
  end.

(** [path.is_dir()], [os.path.isdir(path)] *)
Definition is_dir (path : pystr) (f : fs) : bool :=
  negb (is_file path f)
  && (pystr_eqb path (lit ".") || pystr_eqb path (lit "/")
      || bool_decide (path ∈ fs_dirs f)).

(** The bytes of the file at [path]. *)
Definition read_bytes (path : pystr) (f : fs) : option (list Z) :=
  match fs_names f !! path with
  | Some i => fs_inodes f !! i
  | None => None
  end.

(** [path.lstat().st_size] *)
Definition lstat_size (path : pystr) : M fs Z :=
  fun f => match read_bytes path f with
           | Some b => (Ok (Z.of_nat (length b)), f)
           | None => (Raise (Exn FileNotFoundError path None), f)
           end.

(** [path[:path.rfind('/') + 1]]: the path up to its last [/], the slash
    included. *)
Fixpoint head_of (path : pystr) : pystr :=
  match path with
  | [] => []
  | c :: rest => if existsb (N.eqb 47) path then c :: head_of rest else []
  end.

(** [s.rstrip('/')] *)
Fixpoint rstrip_slash (s : pystr) : pystr :=
  match s with
  | [] => []
  | c :: rest =>
      match rstrip_slash rest with
      | [] => if (c =? 47)%N then [] else [c]
      | r => c :: r
      end
  end.

(** [os.path.dirname(path)]: the head, without the slashes at its end
    unless it is made of slashes only. *)
Definition dirname (path : pystr) : pystr :=
  let head := head_of path in
  if forallb (N.eqb 47) head then head else rstrip_slash head.

(** [os.path.basename(path)]: what follows the last [/]. *)
Definition basename (path : pystr) : pystr := skipn (length (head_of path)) path.

(** [path.parent] of [pathlib]: a name without a directory lies in [.]. *)
Definition parent (path : pystr) : pystr :=
  match dirname path with
  | [] => lit "."
  | d => d
  end.

(** [path.name] of [pathlib]: the last component, empty for the root and
    for [.]. *)
Definition name (path : pystr) : pystr :=
  if pystr_eqb path (lit ".") then [] else basename path.

(** [os.path.join(dir, name)] for a relative [name] *)
Definition join (dir name : pystr) : pystr :=
  match dir with
  | [] => name
  | _ => if (List.last dir 0 =? 47)%N then dir ++ name else dir ++ lit "/" ++ name
  end.

(** The directories above [path], the nearest first: [a/b] and [a] for
    [a/b/c]; [/a] and [/] for [/a/b]. *)
Fixpoint above (n : nat) (path : pystr) : list pystr :=
  match n with
  | O => []
  | S n' =>
      let d := dirname path in
      if pystr_eqb d [] || pystr_eqb d path then [] else d :: above n' d
  end.

Definition ancestors (path : pystr) : list pystr := above (length path) path.

(** The components of a path, the texts between its slashes. *)
Fixpoint components (path : pystr) : list pystr :=
  match path with
  | [] => [[]]
  | c :: rest =>
      if (c =? 47)%N then [] :: components rest
      else match components rest with
           | x :: xs => (c :: x) :: xs
           | [] => [[c]]
           end
  end.

(** A component that names a file or a directory: not empty, not [.] or
    [..], and of characters that a file name can have (no NUL, no
    surrogate). *)
Definition is_name (c : pystr) : bool :=
  negb (pystr_eqb c [] || pystr_eqb c (lit ".") || pystr_eqb c (lit ".."))
  && forallb (fun x => negb (x =? 0)%N && ((x <? 55296)%N || (57343 <? x)%N)) c.

(** A path in normal form: the root, or names between single slashes. *)
Definition is_normal (path : pystr) : bool :=
  pystr_eqb path (lit "/")
  || forallb is_name
       (components (if startswith (lit "/") path then tl path else path)).


Definition with_names (names : gmap pystr nat) (f : fs) : fs :=
  {| fs_names := names; fs_inodes := fs_inodes f; fs_dirs := fs_dirs f;
     fs_next := fs_next f; fs_can_link := fs_can_link f |}.

Definition with_dirs (dirs : gset pystr) (f : fs) : fs :=
  {| fs_names := fs_names f; fs_inodes := fs_inodes f; fs_dirs := dirs;
     fs_next := fs_next f; fs_can_link := fs_can_link f |}.

(** [os.makedirs(path, exist_ok=True)]: the directory and the missing
    ones above it are made.  It fails when the path is a regular file
    ([FileExistsError]), when a directory above it is one
    ([NotADirectoryError]), and for the empty path. *)
Definition makedirs (path : pystr) : M fs unit :=
  fun f =>
    if pystr_eqb path [] then (Raise (Exn FileNotFoundError path None), f)
    else if is_file path f then (Raise (Exn FileExistsError path None), f)
    else if existsb (fun a => is_file a f) (ancestors path)
    then (Raise (Exn NotADirectoryError path None), f)
    else (Ok tt, with_dirs (list_to_set (path :: ancestors path) ∪ fs_dirs f) f).

(** The error for a path whose directory is not there: a regular file
    stands in the way, or nothing is there. *)
Definition missing_dir (path : pystr) (f : fs) : exn :=
  if existsb (fun a => is_file a f) (ancestors path)
  then Exn NotADirectoryError path None
  else Exn FileNotFoundError path None.

(** [os.link(src, dst)]: fails when [src] is no regular file, when [dst]
    exists, when the directory of [dst] does not, and when the file
    system cannot link. *)
Definition link (src dst : pystr) : M fs unit :=
  fun f =>
    match fs_names f !! src with
    | Some i =>
        if is_file dst f || is_dir dst f
        then (Raise (Exn FileExistsError dst None), f)
        else if negb (is_dir (parent dst) f) then (Raise (missing_dir dst f), f)
        else if negb (fs_can_link f) then (Raise (Exn OSError dst None), f)
        else (Ok tt, with_names (<[dst := i]> (fs_names f)) f)
    | None =>
        if is_dir src f then (Raise (Exn PermissionError src None), f)
        else (Raise (Exn FileNotFoundError src None), f)
    end.

(** [open(path, 'w')] and writing [data]: the file is truncated if it
    exists (its other names see the change), else created in its
    directory, which must exist.  A directory cannot be opened for
    writing. *)
Definition write_bytes (path : pystr) (data : list Z) : M fs unit :=
  fun f =>
    if is_dir path f then (Raise (Exn IsADirectoryError path None), f)
    else
      match fs_names f !! path with
      | Some i =>
          (Ok tt, {| fs_names := fs_names f; fs_inodes := <[i := data]> (fs_inodes f);
                     fs_dirs := fs_dirs f; fs_next := fs_next f;
                     fs_can_link := fs_can_link f |})
      | None =>
          if pystr_eqb path [] then (Raise (Exn FileNotFoundError path None), f)
          else if is_dir (parent path) f then
            (Ok tt, {| fs_names := <[path := fs_next f]> (fs_names f);
                       fs_inodes := <[fs_next f := data]> (fs_inodes f);
                       fs_dirs := fs_dirs f; fs_next := S (fs_next f);
                       fs_can_link := fs_can_link f |})
          else (Raise (missing_dir path f), f)
      end.

(** [shutil.copy(src, dst)]: into the directory [dst] if it is one.
    Copying a file onto itself raises [SameFileError], an [OSError]. *)
Definition copy (src dst : pystr) : M fs unit :=
  fun f =>
    let dst := if is_dir dst f then join dst (basename src) else dst in
    match read_bytes src f with
    | Some data =>
        if bool_decide (fs_names f !! src = fs_names f !! dst)
        then (Raise (Exn OSError src None), f)
        else write_bytes dst data f
    | None =>
        if is_dir src f then (Raise (Exn IsADirectoryError src None), f)
        else (Raise (Exn FileNotFoundError src None), f)
    end.

(** [path] lies below the directory [dir]. *)
Definition below (dir path : pystr) : bool := startswith (dir ++ lit "/") path.

(** The directory [dir] has an entry. *)
Definition has_entries (dir : pystr) (f : fs) : bool :=
  existsb (below dir) (map fst (map_to_list (fs_names f)) ++ elements (fs_dirs f)).

(** Where [path] is after the directory [src] was renamed to [dst]. *)
Definition moved (src dst path : pystr) : pystr :=
  if pystr_eqb path src then dst
  else if below src path then dst ++ skipn (length src) path
  else path.

(** [os.rename(src, dst)].  A regular file replaces the file [dst], but
    no directory; two names of one file are left as they are.  A
    directory moves with what is below it, to a path that is free or an
    empty directory and not below itself. *)
Definition rename (src dst : pystr) : M fs unit :=
  fun f =>
    match fs_names f !! src with
    | Some i =>
        if is_dir dst f then (Raise (Exn IsADirectoryError dst None), f)
        else
          match fs_names f !! dst with
          | Some j =>
              if Nat.eqb i j then (Ok tt, f)
              else (Ok tt, with_names (<[dst := i]> (delete src (fs_names f))) f)
          | None =>
              if is_dir (parent dst) f
              then (Ok tt, with_names (<[dst := i]> (delete src (fs_names f))) f)
              else (Raise (missing_dir dst f), f)
          end
    | None =>
        if is_dir src f then
          if is_file dst f then (Raise (Exn NotADirectoryError dst None), f)
          else if pystr_eqb src (lit ".") || pystr_eqb src (lit "/")
                  || pystr_eqb dst (lit ".") || pystr_eqb dst (lit "/")
          then (Raise (Exn OSError dst None), f)
          else if pystr_eqb src dst then (Ok tt, f)
          else if below src dst || has_entries dst f
          then (Raise (Exn OSError dst None), f)
          else if is_dir dst f || is_dir (parent dst) f then
            (Ok tt, {| fs_names := kmap (moved src dst) (fs_names f);
                       fs_inodes := fs_inodes f;
                       fs_dirs := set_map (moved src dst) (fs_dirs f);
                       fs_next := fs_next f; fs_can_link := fs_can_link f |})
          else (Raise (missing_dir dst f), f)
        else (Raise (Exn FileNotFoundError src None), f)
    end.

End os.

(** ** [utils.py] *)

Module utils.

(** *** MurmurHash3 (x86, 32 bit), the [hash] of the [murmurhash] package,
    with its default seed 0.  All arithmetic is on unsigned 32-bit words. *)

Definition wrap32 (x : Z) : Z := (x mod 2 ^ 32)%Z.

Definition rotl32 (x r : Z) : Z :=
  wrap32 (Z.lor (Z.shiftl x r) (Z.shiftr x (32 - r))).

Definition mix_k1 (k1 : Z) : Z :=
  wrap32 (rotl32 (wrap32 (k1 * 0xcc9e2d51)) 15 * 0x1b873593).

Definition mix_h1 (h1 k1 : Z) : Z :=
  wrap32 (rotl32 (Z.lxor h1 (mix_k1 k1)) 13 * 5 + 0xe6546b64).

Definition fmix32 (h : Z) : Z :=
  let h := Z.lxor h (Z.shiftr h 16) in
  let h := wrap32 (h * 0x85ebca6b) in
  let h := Z.lxor h (Z.shiftr h 13) in
  let h := wrap32 (h * 0xc2b2ae35) in
  Z.lxor h (Z.shiftr h 16).

(** The blocks of four bytes, little endian, then the tail of one to
    three bytes. *)
Fixpoint murmur_body (data : list Z) (h1 : Z) : Z :=
  match data with
  | b0 :: b1 :: b2 :: b3 :: rest =>
      murmur_body rest
        (mix_h1 h1 (b0 + Z.shiftl b1 8 + Z.shiftl b2 16 + Z.shiftl b3 24))
  | [b0; b1; b2] =>
      Z.lxor h1 (mix_k1 (Z.lxor (Z.lxor (Z.shiftl b2 16) (Z.shiftl b1 8)) b0))
  | [b0; b1] => Z.lxor h1 (mix_k1 (Z.lxor (Z.shiftl b1 8) b0))
  | [b0] => Z.lxor h1 (mix_k1 b0)
  | [] => h1
  end.

Definition murmurhash (data : list Z) : Z :=
  fmix32 (Z.lxor (murmur_body data 0) (wrap32 (Z.of_nat (length data)))).

(** [s.encode('utf8')]; a lone surrogate cannot be encoded. *)
Definition utf8_char (c : Z) : res (list Z) :=
  (if c <? 128 then Ok [c]
   else if c <? 2048 then Ok [192 + c / 64; 128 + c mod 64]
   else if (55296 <=? c) && (c <=? 57343) then
     Raise (Exn UnicodeEncodeError (lit "surrogates not allowed") None)
   else if c <? 65536 then
     Ok [224 + c / 4096; 128 + c / 64 mod 64; 128 + c mod 64]
   else if c <? 1114112 then
     Ok [240 + c / 262144; 128 + c / 4096 mod 64;
         128 + c / 64 mod 64; 128 + c mod 64]
   else Raise (Exn UnicodeEncodeError (lit "not a code point") None))%Z.

Definition utf8_encode (s : pystr) : res (list Z) :=
  res_bind (json.sequence (map (fun c => utf8_char (Z.of_N c)) s))
           (fun bs => Ok (concat bs)).

(** [hash32(dump)] for [bytes]:
    [format(murmurhash.hash(dump) & (1 << 32)-1, 'x')] *)
Definition hash32_bytes (dump : list Z) : pystr :=
  format_x (Z.land (murmurhash dump) (Z.shiftl 1 32 - 1)).

(** [hash32(dump)] for [str], which [murmurhash.hash] encodes first. *)
Definition hash32 (dump : pystr) : res pystr :=
  res_bind (utf8_encode dump) (fun bs => Ok (hash32_bytes bs)).

(** [fake_hash(obj)]: [format(id(obj) & (1 << 32)-1, 'x')] *)
Definition fake_hash (obj_id : Z) : pystr :=
  format_x (Z.land obj_id (Z.shiftl 1 32 - 1)).

(** [sorted_dict(d)]: [dict(sorted(d.items(), key=lambda i: i[0]))] *)
Definition sorted_dict (d : dict) : dict := dict_of_items (sorted_items d).

(** [copy_props(source, target, prefixes, overwrite)]; the new [target]
    is returned. *)
Definition copy_props (source : option dict) (target : dict)
    (prefixes : list pystr) (overwrite : bool) : dict :=
  match source with
  | None | Some [] => target
  | Some source =>
      let prefix := match prefixes with
                    | [] => None
                    | _ => Some (join (lit ".") prefixes ++ lit ".")
                    end in
      fold_left
        (fun target kv =>
           let '(k, v) := kv in
           match prefix with
           | None =>
               if overwrite || negb (dict_mem k target)
               then dict_set k v target else target
           | Some prefix =>
               if startswith prefix k then
                 let k := skipn (length prefix) k in
                 if overwrite || negb (dict_mem k target)
                 then dict_set k v target else target
               else target
           end)
        source target
  end.

(** *** Text files

    [open(path, 'w', encoding='utf-8')] and [open(path, 'r',
    encoding='utf-8')] on a POSIX system: what is written is encoded as
    UTF-8 with [\n] left alone; what is read is decoded strictly and every
    [\r\n] and [\r] becomes [\n]. *)

Definition decode_error : exn :=
  Exn UnicodeDecodeError (lit "invalid utf-8") None.

Definition is_cont (b : Z) : bool := ((128 <=? b) && (b <=? 191))%Z.

(** [b.decode('utf8')] *)
Fixpoint utf8_decode (b : list Z) : res pystr :=
  match b with
  | [] => Ok []
  | b0 :: r0 =>
      if (b0 <? 128)%Z then
        res_bind (utf8_decode r0) (fun s => Ok (Z.to_N b0 :: s))
      else
        match r0 with
        | [] => Raise decode_error
        | b1 :: r1 =>
            if ((192 <=? b0) && (b0 <? 224))%Z then
              let c := ((b0 - 192) * 64 + (b1 - 128))%Z in
              if is_cont b1 && (128 <=? c)%Z then
                res_bind (utf8_decode r1) (fun s => Ok (Z.to_N c :: s))
              else Raise decode_error
            else
              match r1 with
              | [] => Raise decode_error
              | b2 :: r2 =>
                  if ((224 <=? b0) && (b0 <? 240))%Z then
                    let c := ((b0 - 224) * 4096 + (b1 - 128) * 64 + (b2 - 128))%Z in
                    if is_cont b1 && is_cont b2 && (2048 <=? c)%Z
                       && negb ((55296 <=? c) && (c <=? 57343))%Z then
                      res_bind (utf8_decode r2) (fun s => Ok (Z.to_N c :: s))
                    else Raise decode_error
                  else
                    match r2 with
                    | [] => Raise decode_error
                    | b3 :: r3 =>
                        if ((240 <=? b0) && (b0 <? 248))%Z then
                          let c := ((b0 - 240) * 262144 + (b1 - 128) * 4096
                                    + (b2 - 128) * 64 + (b3 - 128))%Z in
                          if is_cont b1 && is_cont b2 && is_cont b3
                             && (65536 <=? c)%Z && (c <? 1114112)%Z then
                            res_bind (utf8_decode r3)
                                     (fun s => Ok (Z.to_N c :: s))
                          else Raise decode_error
                        else Raise decode_error
                    end
              end
        end
  end.

(** The newline translation of a text file opened for reading. *)
Fixpoint translate_newlines (s : pystr) : pystr :=
  match s with
  | [] => []
  | c :: rest =>
      if (c =? 13)%N then
        match rest with
        | d :: rest' =>
            if (d =? 10)%N then 10%N :: translate_newlines rest'
            else 10%N :: translate_newlines rest
        | [] => [10%N]
        end
      else c :: translate_newlines rest
  end.

(** [for line in f]: the lines of a text, each with its [\n]; a last
    line without one is a line too, unless it is empty.  [cur] is the
    line read so far. *)
Fixpoint file_lines (s : pystr) (cur : pystr) : list pystr :=
  match s with
  | [] => match cur with
          | [] => []
          | _ => [cur]
          end
  | c :: rest =>
      if (c =? 10)%N then (cur ++ [c]) :: file_lines rest []
      else file_lines rest (cur ++ [c])
  end.

(** [c.isspace()] *)
Definition isspace (c : pychar) : bool :=
  (((9 <=? c) && (c <=? 13)) || ((28 <=? c) && (c <=? 32))
   || (c =? 133) || (c =? 160) || (c =? 5760)
   || ((8192 <=? c) && (c <=? 8202)) || (c =? 8232) || (c =? 8233)
   || (c =? 8239) || (c =? 8287) || (c =? 12288))%N.

Fixpoint lstrip (s : pystr) : pystr :=
  match s with
  | c :: rest => if isspace c then lstrip rest else s
  | [] => []
  end.

(** [s.rstrip()] *)
Definition rstrip (s : pystr) : pystr := rev (lstrip (rev s)).



Section TextFiles.
(** [expand_path] of this module, and [os.path.abspath]: they depend on
    the environment of the process. *)
Context (expand_path : pystr -> pystr) (abspath : pystr -> pystr).

(** [readlines(path, binary=False, skip_rows)], consumed to the end. *)
Definition readlines (path : pystr) (skip_rows : nat) : M os.fs (list pystr) :=
  let path := expand_path path in
  fun f =>
    match os.read_bytes path f with
    | None =>
        if os.is_dir path f then (Raise (Exn IsADirectoryError path None), f)
        else (Raise (Exn FileNotFoundError path None), f)
    | Some b =>
        match utf8_decode b with
        | Raise e => (Raise e, f)
        | Ok text =>
            (Ok (map rstrip
                     (skipn skip_rows
                            (file_lines (translate_newlines text) []))), f)
        end
    end.


End TextFiles.

(** [os.utime(dst)]: modification times are not part of the model. *)
Definition utime (dst : pystr) : M os.fs unit := ret tt.

(** [path.with_name(name)] of [pathlib]: the last component is replaced; a
    path without one, the root or [.], has no name to replace. *)
Definition with_name (path name : pystr) : M os.fs pystr :=
  if pystr_eqb (os.name path) [] then raise (Exn ValueError path None)
  else ret (os.head_of path ++ name).

(** [copy_file(src, dst)] *)
Definition copy_file (src dst : pystr) : M os.fs unit :=
  let* f := get in
  if negb (os.is_file src f) then raise (Exn FileNotFoundError src None)
  else
    let* modified :=
      (if os.is_file dst f then
         let* src_size := os.lstat_size src in
         let* dst_size := os.lstat_size src in
         ret (negb (src_size =? dst_size)%Z)
       else ret true) in
    if modified : bool then
      let* _ := os.makedirs (os.parent dst) in
      try_except
        (let* _ := os.link src dst in utime dst)
        (fun e => is_OSError (exn_cls e))
        (fun _ =>
           let* tmp := with_name dst (os.name dst ++ lit ".tmp") in
           let* _ := os.copy src tmp in
           os.rename tmp dst)
    else ret tt.

End utils.

(** ** [conf.py]: the generic rewriter and its subclasses *)

Module conf.

Definition stop_rewrite : exn := Exn StopRewrite [] None.

Definition is_StopRewrite (e : exn) : bool :=
  exn_class_eqb (exn_cls e) StopRewrite.

(** [class Rewrite]: the depth bound and the methods that subclasses
    override.  [rewrite_none], [rewrite_bool], [rewrite_int],
    [rewrite_float] and [rewrite_list] are overridden nowhere and return
    their argument, so they are not fields.  [S] is the state a subclass
    mutates while it rewrites. *)
Record Rewrite (S : Type) : Type := {
  _max_depth : Z;
  discard_item : pystr -> value -> Z -> dict -> M S bool;
  rewrite_str : option pystr -> pystr -> Z -> M S value;
  rewrite_dict : option pystr -> dict -> Z -> M S value;
  rewrite_object : option pystr -> value -> Z -> M S value
}.
Arguments _max_depth {S} _.
Arguments discard_item {S} _ _ _ _ _.
Arguments rewrite_str {S} _ _ _ _.
Arguments rewrite_dict {S} _ _ _ _.
Arguments rewrite_object {S} _ _ _ _.

(** The methods of the base class. *)
Definition Rewrite_discard_item {S} : pystr -> value -> Z -> dict -> M S bool :=
  fun _ _ _ _ => ret false.

Definition Rewrite_rewrite_str {S} : option pystr -> pystr -> Z -> M S value :=
  fun _ v _ => ret (VStr v).

Definition Rewrite_rewrite_dict {S} : option pystr -> dict -> Z -> M S value :=
  fun _ v _ => ret (VDict v).

(** [Rewrite.rewrite_object]: an object with a bound method [dict] (a
    pydantic model) is replaced by [self.rewrite_dict] of that mapping. *)
Definition Rewrite_rewrite_object {S}
    (self_rewrite_dict : option pystr -> dict -> Z -> M S value)
    : option pystr -> value -> Z -> M S value :=
  fun k v depth =>
    match v with
    | VObj _ _ _ (Some to_dict) => self_rewrite_dict k to_dict depth
    | _ => ret v
    end.

Section Loops.
Context {S : Type} (self : Rewrite S).

(** The loop of [_rewrite_list]; [rw] is [self._rewrite(k, _, depth+1)]. *)
Fixpoint _rewrite_list_loop (rw : value -> M S value)
    (v : list value) (new_list : list value) : M S (list value) :=
  match v with
  | [] => ret new_list
  | v_ :: rest =>
      let* new_list' :=
        try_except
          (let* x := rw v_ in ret (new_list ++ [x]))
          is_StopRewrite (fun _ => ret new_list) in
      _rewrite_list_loop rw rest new_list'
  end.

(** The loop of [_rewrite_dict]; [rw] is [self._rewrite(_, _, depth+1)],
    [depth1] is [depth+1] and [parent] the mapping being rewritten. *)
Fixpoint _rewrite_dict_loop (rw : pystr -> value -> M S value)
    (depth1 : Z) (parent : dict) (items : dict) (new_dict : dict) : M S dict :=
  match items with
  | [] => ret new_dict
  | (k_, v_) :: rest =>
      let* discard := discard_item self k_ v_ depth1 parent in
      if discard : bool then _rewrite_dict_loop rw depth1 parent rest new_dict
      else
        let* new_dict' :=
          try_except
            (let* x := (if negb (startswith (lit "#") k_) then rw k_ v_
                        else ret v_) in
             ret (dict_set k_ x new_dict))
            is_StopRewrite (fun _ => ret new_dict) in
        _rewrite_dict_loop rw depth1 parent rest new_dict'
  end.
End Loops.

(** [Rewrite._rewrite(k, v, depth)].  The order of the tests is the order
    of the [isinstance] chain; a [StopRewrite] raised by any handler is
    caught here, and the method then returns [None]. *)
Fixpoint _rewrite {S} (self : Rewrite S) (k : option pystr) (v : value)
    (depth : Z) {struct v} : M S value :=
  if (negb (_max_depth self =? -1) && (depth >? _max_depth self))%Z then ret v
  else
    try_except
      (match v with
       | VStr s => rewrite_str self k s depth
       | VNone => ret v
       | VBool _ => ret v
       | VInt _ => ret v
       | VFloat _ => ret v
       | VList l | VTuple l =>
           let* new_list :=
             _rewrite_list_loop
               (fun v_ => _rewrite self k v_ (depth + 1)%Z) l [] in
           ret (VList new_list)
       | VDict d =>
           let* new_dict :=
             _rewrite_dict_loop self
               (fun k_ v_ => _rewrite self (Some k_) v_ (depth + 1)%Z)
               (depth + 1)%Z d d [] in
           rewrite_dict self k new_dict depth
       | VLink _ | VObj _ _ _ _ => rewrite_object self k v depth
       end)
      is_StopRewrite (fun _ => ret VNone).

Definition _rewrite_list {S} (self : Rewrite S) (k : option pystr)
    (v : list value) (depth : Z) : M S (list value) :=
  _rewrite_list_loop (fun v_ => _rewrite self k v_ (depth + 1)%Z) v [].

Definition _rewrite_dict {S} (self : Rewrite S) (k : option pystr)
    (v : dict) (depth : Z) : M S dict :=
  _rewrite_dict_loop self
    (fun k_ v_ => _rewrite self (Some k_) v_ (depth + 1)%Z) (depth + 1)%Z v v [].

(** [Rewrite.rewrite(v)] *)
Definition rewrite {S} (self : Rewrite S) (v : value) : M S value :=
  _rewrite self None v 0.

(** *** The regular expressions of [RewriteBaseConf.rewrite_str] *)

Definition is_newline (c : pychar) : bool := (c =? 10)%N.

(** One of [/], [|] and [:], the class [[/|:]]. *)
Definition is_suffix_start (c : pychar) : bool :=
  ((c =? 47) || (c =? 124) || (c =? 58))%N.

(** [re.match(r'(@[^@]|&[^&]).*', v)]: a sigil followed by a different
    character. *)
Definition looks_like_link (v : pystr) : bool :=
  match v with
  | c :: d :: _ => (((c =? 64) || (c =? 38)) && negb (c =? d))%N
  | _ => false
  end.

(** [$]: the end of the string, or just before a final newline. *)
Definition at_end (t : pystr) : bool :=
  match t with
  | [] => true
  | [c] => is_newline c
  | _ => false
  end.

(** [.*$], returning what [.*] matched. *)
Fixpoint dotstar_end (t : pystr) : option pystr :=
  match t with
  | [] => Some []
  | c :: t' =>
      if is_newline c then (if at_end t then Some [] else None)
      else match dotstar_end t' with
           | Some m => Some (c :: m)
           | None => None
           end
  end.

(** The optional third group, a suffix that starts with one of [/], [|]
    and [:] and runs to the end, followed by [$]. *)
Definition suffix_end (t : pystr) : option (option pystr) :=
  match t with
  | c :: t' =>
      if is_suffix_start c then
        match dotstar_end t' with
        | Some m => Some (Some (c :: m))
        | None => None
        end
      else if at_end t then Some None else None
  | [] => Some None
  end.

(** The lazy [.+?] and what follows it: the shortest run of one or more
    characters after which the rest matches the third group and [$]. *)
Fixpoint lazy_target (t : pystr) : option (pystr * option pystr) :=
  match t with
  | [] => None
  | c :: t' =>
      if is_newline c then None
      else match suffix_end t' with
           | Some g => Some ([c], g)
           | None =>
               match lazy_target t' with
               | Some (l, g) => Some (c :: l, g)
               | None => None
               end
           end
  end.

(** The alternative [.+#.+?] and what follows it: the greedy [.+] gives
    way from the right, so the last [#] that lets the rest match is taken;
    [seen] counts the characters before [t]. *)
Fixpoint file_target (t : pystr) (seen : nat) : option (pystr * option pystr) :=
  match t with
  | [] => None
  | c :: t' =>
      if is_newline c then None
      else match file_target t' (S seen) with
           | Some (l, g) => Some (c :: l, g)
           | None =>
               if ((c =? 35)%N && (0 <? seen)%nat) then
                 match lazy_target t' with
                 | Some (l, g) => Some (c :: l, g)
                 | None => None
                 end
               else None
           end
  end.

(** The three groups of the second [re.match] of [rewrite_str]: the
    sigil [[@&]], the target [.+#.+?|.+?] and the optional suffix. *)
Definition match_link (v : pystr) : option (pychar * pystr * option pystr) :=
  match v with
  | c :: t =>
      if ((c =? 64) || (c =? 38))%N then
        match file_target t 0 with
        | Some (l, g) => Some (c, l, g)
        | None =>
            match lazy_target t with
            | Some (l, g) => Some (c, l, g)
            | None => None
            end
        end
      else None
  | [] => None
  end.

(** [str(k)] for an optional key. *)
Definition str_of_key (k : option pystr) : pystr :=
  match k with
  | Some k => k
  | None => lit "None"
  end.

(** *** [class RewriteBaseConf]: create links between nodes

    The state is the list [self.links] together with the identity the next
    [Link] object gets.  [crumb] is [self.target._node_crumb()] and
    [find_node] is [self.target._find_node]. *)

Record base_state : Type := {
  bs_next : nat;
  bs_links : list Link
}.

Section RewriteBaseConf.
Context (target : node_id) (crumb : pystr) (find_node : pystr -> res node_id).

Definition RewriteBaseConf_discard_item
    : pystr -> value -> Z -> dict -> M base_state bool :=
  fun k v depth parent =>
    ret ((depth =? 1)%Z && startswith (lit "#") k && dict_mem (tl k) parent).

Definition RewriteBaseConf_rewrite_str
    : option pystr -> pystr -> Z -> M base_state value :=
  fun k v depth =>
    if ((depth <=? 2)%Z && looks_like_link v) then
      match match_link v with
      | None =>
          raise (Exn FlowError
                   (crumb ++ lit ": " ++ str_of_key k ++ [61; 34]%N ++ v
                      ++ [34%N] ++ lit " is invalid") None)
      | Some (kind, link, value) =>
          let* source :=
            (if pystr_eqb link (lit ".") then ret target
             else
               match find_node link with
               | Ok n => ret n
               | Raise e =>
                   if is_FlowError (exn_cls e) then
                     raise (Exn NodeNotFoundError
                              (crumb ++ lit ": " ++ str_of_key k ++ [61; 34]%N
                                 ++ v ++ [34%N] ++ lit " not found") (Some e))
                   else raise e
               end) in
          let* st := get in
          let link := {| l_id := bs_next st; l_source := source;
                         l_target := target; l_param := k;
                         l_value := value; l_kind := kind |} in
          let* _ := put {| bs_next := S (bs_next st);
                           bs_links := bs_links st ++ [link] |} in
          ret (VLink link)
      end
    else ret (VStr v).

Definition RewriteBaseConf : Rewrite base_state := {|
  _max_depth := 2;
  discard_item := RewriteBaseConf_discard_item;
  rewrite_str := RewriteBaseConf_rewrite_str;
  rewrite_dict := Rewrite_rewrite_dict;
  rewrite_object := Rewrite_rewrite_object Rewrite_rewrite_dict
|}.
End RewriteBaseConf.

(** *** [class RewriteNodeConf]: add the defaults of the function *)

Section RewriteNodeConf.
Context (func_defs : dict).

Definition RewriteNodeConf_discard_item
    : pystr -> value -> Z -> dict -> M unit bool :=
  fun k v depth parent =>
    ret ((depth =? 1)%Z && startswith (lit "#") k && dict_mem (tl k) func_defs).

Definition RewriteNodeConf_rewrite_dict
    : option pystr -> dict -> Z -> M unit value :=
  fun k v depth =>
    if (depth =? 0)%Z then ret (VDict (dict_update func_defs v))
    else ret (VDict v).

Definition RewriteNodeConf : Rewrite unit := {|
  _max_depth := 2;
  discard_item := RewriteNodeConf_discard_item;
  rewrite_str := Rewrite_rewrite_str;
  rewrite_dict := RewriteNodeConf_rewrite_dict;
  rewrite_object := Rewrite_rewrite_object RewriteNodeConf_rewrite_dict
|}.
End RewriteNodeConf.

(** *** [class StopRewriteObjects] *)

Definition StopRewriteObjects : Rewrite unit := {|
  _max_depth := -1;
  discard_item := Rewrite_discard_item;
  rewrite_str := Rewrite_rewrite_str;
  rewrite_dict := Rewrite_rewrite_dict;
  rewrite_object := fun _ _ _ => raise stop_rewrite
|}.

(** *** [class RewriteArgsConf]: the displayable configuration

    [link_str] is [str(link)], that is [Link.__repr__]. *)

Section RewriteArgsConf.
Context (func_defs : dict) (link_str : Link -> pystr).

(** [json.loads(json.dumps(StopRewriteObjects().rewrite(o)))] *)
Definition _json_coerce (o : value) : M unit value :=
  let* o' := rewrite StopRewriteObjects o in
  lift (json.roundtrip o').

Definition RewriteArgsConf_discard_item
    : pystr -> value -> Z -> dict -> M unit bool :=
  fun k v depth parent =>
    if ((depth =? 1)%Z && startswith (lit "#") k) || startswith (lit "_") k
    then ret true
    else if (depth =? 1)%Z && dict_mem k func_defs then
      match dict_get k func_defs with
      | Some d =>
          if py_eq v d then ret true
          else
            let* v' := _json_coerce v in
            let* d' := _json_coerce d in
            ret (py_eq v' d')
      | None => ret false
      end
    else ret false.

Definition RewriteArgsConf_rewrite_dict
    : option pystr -> dict -> Z -> M unit value :=
  fun k v depth => ret (VDict (utils.sorted_dict v)).

Definition RewriteArgsConf_rewrite_object
    : option pystr -> value -> Z -> M unit value :=
  fun k v depth =>
    match v with
    | VLink link => if (depth <=? 2)%Z then ret (VStr (link_str link)) else ret v
    | _ => ret v
    end.

Definition RewriteArgsConf : Rewrite unit := {|
  _max_depth := 2;
  discard_item := RewriteArgsConf_discard_item;
  rewrite_str := Rewrite_rewrite_str;
  rewrite_dict := RewriteArgsConf_rewrite_dict;
  rewrite_object := RewriteArgsConf_rewrite_object
|}.
End RewriteArgsConf.

(** *** [class RewriteHashConf]: the hashable configuration

    The class has no [__init__], so its depth is unbounded.  [slug] is
    [link.source._slug]; [link_pickle] is what [cloudpickle.dumps] makes of
    a link that is met below depth 2. *)

Section RewriteHashConf.
Context (slug : node_id -> res pystr) (link_pickle : Link -> option (list Z)).

Definition RewriteHashConf_discard_item
    : pystr -> value -> Z -> dict -> M unit bool :=
  fun k v depth parent =>
    ret ((depth =? 1)%Z && (startswith (lit "#") k || startswith (lit "_") k)).

Definition RewriteHashConf_rewrite_dict
    : option pystr -> dict -> Z -> M unit value :=
  fun k v depth => ret (VDict (utils.sorted_dict v)).

(** [hash32(cloudpickle.dumps(v, protocol=4))], or [fake_hash(v)] when
    pickling raises. *)
Definition hash_of_object (pickle : option (list Z)) (obj_id : Z) : value :=
  match pickle with
  | Some dump => VStr (utils.hash32_bytes dump)
  | None => VStr (utils.fake_hash obj_id)
  end.

Definition RewriteHashConf_rewrite_object
    : option pystr -> value -> Z -> M unit value :=
  fun k v depth =>
    match v with
    | VLink link =>
        if (depth <=? 2)%Z then
          let* src :=
            (if (l_source link =? l_target link)%nat then ret (lit ".")
             else lift (slug (l_source link))) in
          let suffix := match l_value link with
                        | Some (c :: s) => c :: s
                        | _ => []
                        end in
          ret (VStr ([l_kind link] ++ src ++ suffix))
        else ret (hash_of_object (link_pickle link) (Z.of_nat (l_id link)))
    | VObj _ obj_id pickle _ => ret (hash_of_object pickle obj_id)
    | _ => ret v
    end.

Definition RewriteHashConf : Rewrite unit := {|
  _max_depth := -1;
  discard_item := RewriteHashConf_discard_item;
  rewrite_str := Rewrite_rewrite_str;
  rewrite_dict := RewriteHashConf_rewrite_dict;
  rewrite_object := RewriteHashConf_rewrite_object
|}.
End RewriteHashConf.

(** *** [class RewriteFlowConf]: the dumpable configuration *)

Section RewriteFlowConf.
Context (link_str : Link -> pystr).

Definition RewriteFlowConf_discard_item
    : pystr -> value -> Z -> dict -> M unit bool :=
  fun k v depth parent => ret ((depth =? 1)%Z && pystr_eqb k (lit "_agent")).

Definition RewriteFlowConf_rewrite_object
    : option pystr -> value -> Z -> M unit value :=
  fun k v depth =>
    match v with
    | VLink link =>
        if (depth <=? 2)%Z then ret (VStr (link_str link))
        else raise stop_rewrite
    | _ => raise stop_rewrite
    end.

Definition RewriteFlowConf : Rewrite unit := {|
  _max_depth := -1;
  discard_item := RewriteFlowConf_discard_item;
  rewrite_str := Rewrite_rewrite_str;
  rewrite_dict := Rewrite_rewrite_dict;
  rewrite_object := RewriteFlowConf_rewrite_object
|}.
End RewriteFlowConf.

(** *** [class RewriteCallConf]: the configuration a call is made with

    What the class reaches outside the repository is taken as given:
    [call_func name v] is [Func.find(name).func(v)] of a [_type.] directive,
    [resolve] is [link.resolve] at the values of [node_vals], which may
    create the work directory of the source, [environ] is
    [os.environ], [expanduser] is [os.path.expanduser] and [is_word] is
    the class [\w] of [re]. *)

(** The longest prefix whose characters satisfy [p], and the rest. *)
Fixpoint span (p : pychar -> bool) (s : pystr) : pystr * pystr :=
  match s with
  | [] => ([], [])
  | c :: s' =>
      if p c then let '(a, b) := span p s' in (c :: a, b) else ([], s)
  end.

(** Truth of a value, as [if v:] tests it. *)
Definition truthy (v : value) : bool :=
  match v with
  | VNone => false
  | VBool b => b
  | VInt n => negb (n =? 0)%Z
  | VFloat f => negb (sf_eq_Z (f_val f) 0)
  | VStr s => negb (pystr_eqb s [])
  | VList l | VTuple l => negb (length l =? 0)%nat
  | VDict d => negb (length d =? 0)%nat
  | VLink _ => true
  | VObj _ _ _ _ => true
  end.

Section RewriteCallConf.
Context (call_func : pystr -> value -> res value)
        (func_pars : list pystr)
        (resolve : Link -> M os.fs value)
        (environ : pystr -> option pystr)
        (expanduser : pystr -> pystr)
        (is_word : pychar -> bool).

Definition RewriteCallConf_discard_item
    : pystr -> value -> Z -> dict -> M os.fs bool :=
  fun k v depth parent =>
    if (depth =? 1)%Z then
      if startswith (lit "_type.") k then ret false
      else if startswith (lit "#") k
              || (startswith (lit "_") k
                  && negb (existsb (pystr_eqb k) func_pars))
      then ret true
      else ret false
    else ret false.

(** The inner [_coerce(v, name)] *)
Definition _coerce (v : value) (name : option value) : res value :=
  match name with
  | Some (VStr (c :: n)) => call_func (c :: n) v
  | Some name' =>
      if truthy name' then
        Raise (Exn TypeError (lit "Function not found") None)
      else Ok v
  | None => Ok v
  end.

Definition RewriteCallConf_rewrite_dict
    : option pystr -> dict -> Z -> M os.fs value :=
  fun k v depth =>
    if (depth =? 0)%Z then
      let types :=
        fold_left (fun types kv =>
                     if startswith (lit "_type.") (fst kv)
                     then dict_set (skipn 6 (fst kv)) (snd kv) types
                     else types) v [] in
      let v' := List.filter (fun kv => negb (startswith (lit "_type.") (fst kv))) v in
      match types with
      | [] => ret (VDict v')
      | _ =>
          let* items :=
            lift (json.sequence_items
                    (map (fun kv => (fst kv,
                                     _coerce (snd kv) (dict_get (fst kv) types)))
                         v')) in
          ret (VDict (dict_of_items items))
      end
    else ret (VDict v).

Definition RewriteCallConf_rewrite_str
    : option pystr -> pystr -> Z -> M os.fs value :=
  fun k v depth =>
    let escaped :=
      match v with
      | c :: d :: e :: _ =>
          (((c =? 64) || (c =? 38) || (c =? 36)) && (c =? d))%N
          && negb (is_newline e)
      | _ => false
      end in
    if (depth <=? 2)%Z && escaped then ret (VStr (tl v))
    else
      let env_case :=
        if (depth =? 1)%Z && startswith (lit "$") v then
          match span is_word (tl v) with
          | (c :: name, rest) => Some (c :: name, rest)
          | _ => None
          end
        else None in
      match env_case with
      | Some (name, rest) =>
          match environ name with
          | Some x => ret (VStr (x ++ rest))
          | None => raise (Exn KeyError name None)
          end
      | None =>
          if (depth =? 1)%Z && startswith (lit "~") v
          then ret (VStr (expanduser v))
          else ret (VStr v)
      end.

Definition RewriteCallConf_rewrite_object
    : option pystr -> value -> Z -> M os.fs value :=
  fun k v depth =>
    match v with
    | VLink link => if (depth <=? 2)%Z then resolve link else ret v
    | _ => ret v
    end.

Definition RewriteCallConf : Rewrite os.fs := {|
  _max_depth := 2;
  discard_item := RewriteCallConf_discard_item;
  rewrite_str := RewriteCallConf_rewrite_str;
  rewrite_dict := RewriteCallConf_rewrite_dict;
  rewrite_object := RewriteCallConf_rewrite_object
|}.
End RewriteCallConf.

End conf.

(** ** [graph.py] *)

Module graph.

(** [class Graph].  The three dicts keep insertion order; [_nodes] and the
    inner dicts of the adjacency maps hold [None] as value, so they are
    ordered sets, of nodes and of links. *)
Record Graph : Type := {
  _nodes : list node_id;
  _outgoing : list (node_id * list Link);
  _incoming : list (node_id * list Link)
}.

(** [Graph.__init__] *)
Definition empty : Graph := {| _nodes := []; _outgoing := []; _incoming := [] |}.

(** Links are keys by identity. *)
Definition link_eqb (a b : Link) : bool := (l_id a =? l_id b)%nat.

(** [d[x] = None] on an ordered set. *)
Definition oset_add {A} (eqb : A -> A -> bool) (x : A) (d : list A) : list A :=
  if existsb (eqb x) d then d else d ++ [x].

(** [node in adj] *)
Definition adj_mem (node : node_id) (adj : list (node_id * list Link)) : bool :=
  existsb (fun e => (fst e =? node)%nat) adj.

(** [adj[node]] *)
Fixpoint adj_get (node : node_id) (adj : list (node_id * list Link))
    : option (list Link) :=
  match adj with
  | [] => None
  | (n, links) :: rest => if (n =? node)%nat then Some links else adj_get node rest
  end.

(** [adj[node] = links] *)
Fixpoint adj_set (node : node_id) (links : list Link)
    (adj : list (node_id * list Link)) : list (node_id * list Link) :=
  match adj with
  | [] => [(node, links)]
  | (n, old) :: rest =>
      if (n =? node)%nat then (n, links) :: rest
      else (n, old) :: adj_set node links rest
  end.

(** [adj[node][link] = None], for a [node] that is a key of [adj]. *)
Fixpoint adj_add (node : node_id) (link : Link)
    (adj : list (node_id * list Link)) : list (node_id * list Link) :=
  match adj with
  | [] => []
  | (n, links) :: rest =>
      if (n =? node)%nat then (n, oset_add link_eqb link links) :: rest
      else (n, links) :: adj_add node link rest
  end.

(** [Graph.nodes] *)
Definition nodes (g : Graph) : list node_id := _nodes g.

(** [Graph.add_node] *)
Definition add_node (node : node_id) : M Graph unit :=
  modify (fun g => {| _nodes := oset_add Nat.eqb node (_nodes g);
                      _outgoing := _outgoing g; _incoming := _incoming g |}).

Section AddLink.
Context (link_str : Link -> pystr).

(** [Graph.add_link] *)
Definition add_link (link : Link) : M Graph unit :=
  if (l_source link =? l_target link)%nat then
    raise (Exn RecursionError
             (lit "Link failed: " ++ link_str link ++ lit " (self reference)")
             None)
  else
    let* _ := modify (fun g =>
      {| _nodes := oset_add Nat.eqb (l_source link) (_nodes g);
         _outgoing := _outgoing g; _incoming := _incoming g |}) in
    let* _ := modify (fun g =>
      if negb (adj_mem (l_source link) (_outgoing g)) then
        {| _nodes := _nodes g;
           _outgoing := adj_set (l_source link) [] (_outgoing g);
           _incoming := _incoming g |}
      else g) in
    let* _ := modify (fun g =>
      {| _nodes := _nodes g;
         _outgoing := adj_add (l_source link) link (_outgoing g);
         _incoming := _incoming g |}) in
    let* _ := modify (fun g =>
      {| _nodes := oset_add Nat.eqb (l_target link) (_nodes g);
         _outgoing := _outgoing g; _incoming := _incoming g |}) in
    let* _ := modify (fun g =>
      if negb (adj_mem (l_target link) (_incoming g)) then
        {| _nodes := _nodes g; _outgoing := _outgoing g;
           _incoming := adj_set (l_target link) [] (_incoming g) |}
      else g) in
    modify (fun g =>
      {| _nodes := _nodes g; _outgoing := _outgoing g;
         _incoming := adj_add (l_target link) link (_incoming g) |}).
End AddLink.

(** The links the graph holds, outgoing and incoming. *)
Definition edges (g : Graph) : list Link :=
  concat (map snd (_outgoing g)) ++ concat (map snd (_incoming g)).

Section Tree.
(** [until_done] may read the state [St] of the caller; [repr_node] is
    [repr(node)], for the message of a loop. *)
Context {St : Type} (self : Graph)
        (until_done : node_id -> M St bool)
        (repr_node : node_id -> M St pystr)
        (omit_internal : bool).

(** The names of a loop, the closing node in braces. *)
Fixpoint loop_names (trail : list node_id) (closing : node_id) : M St (list pystr) :=
  match trail with
  | [] => ret []
  | n :: rest =>
      let* r := repr_node n in
      let* names := loop_names rest closing in
      ret ((if (n =? closing)%nat then lit "{" ++ r ++ lit "}" else r) :: names)
  end.

(** [Graph._tree] for a node, in one direction ([+1] along the outgoing
    links, [-1] along the incoming ones) or in both ([0]).  [nodes] and
    [links] are the two dicts that collect the result. *)
Fixpoint _tree (fuel : nat) (node : node_id) (direction : Z)
    (nodes : list node_id) (links : list Link) (branch : list node_id)
    {struct fuel} : M St (list node_id * list Link) :=
  match fuel with
  | O => raise out_of_fuel
  | S fuel' =>
      let nodes := oset_add Nat.eqb node nodes in
      let* done := until_done node in
      if done : bool then ret (nodes, links)
      else
        let* (nodes, links, branch) :=
          (if (direction =? 0)%Z || (direction =? 1)%Z then
             let branch := branch ++ [node] in
             let* (nodes, links) :=
               (fix walk (out : list Link) (nodes : list node_id)
                    (links : list Link) : M St (list node_id * list Link) :=
                  match out with
                  | [] => ret (nodes, links)
                  | link :: rest =>
                      if omit_internal && internal link then walk rest nodes links
                      else
                        let target := l_target link in
                        if existsb (Nat.eqb target) branch then
                          let* names := loop_names (branch ++ [target]) target in
                          raise (Exn RecursionError
                                   (lit "loop detected: "
                                      ++ join (lit " -> ") names) None)
                        else
                          let links := oset_add link_eqb link links in
                          let* (nodes, links) :=
                            _tree fuel' target 1 nodes links branch in
                          walk rest nodes links
                  end)
                 match adj_get node (_outgoing self) with
                 | Some out => out
                 | None => []
                 end nodes links in
             ret (nodes, links, branch)
           else ret (nodes, links, branch)) in
        if (direction =? 0)%Z || (direction =? -1)%Z then
          let branch := branch ++ [node] in
          (fix walk (inc : list Link) (nodes : list node_id)
               (links : list Link) : M St (list node_id * list Link) :=
             match inc with
             | [] => ret (nodes, links)
             | link :: rest =>
                 if omit_internal && internal link then walk rest nodes links
                 else
                   let source := l_source link in
                   if existsb (Nat.eqb source) branch then
                     let* names := loop_names (rev (branch ++ [source])) source in
                     raise (Exn RecursionError
                              (lit "loop detected: "
                                 ++ join (lit " <- ") names) None)
                   else
                     let links := oset_add link_eqb link links in
                     let* (nodes, links) :=
                       _tree fuel' source (-1) nodes links branch in
                     walk rest nodes links
             end)
            match adj_get node (_incoming self) with
            | Some inc => inc
            | None => []
            end nodes links
        else ret (nodes, links)
  end.

(** [Graph.tree(node, direction, until_done, omit_internal)] for a node
    that is given. *)
Definition tree (fuel : nat) (node : node_id) (direction : Z)
    : M St (list node_id * list Link) :=
  _tree fuel node direction [] [] [].
End Tree.

End graph.

(** ** [func.py] *)

Module func.

(** [inspect.Parameter.kind] *)
Inductive kind : Type :=
| POSITIONAL_ONLY
| POSITIONAL_OR_KEYWORD
| VAR_POSITIONAL
| KEYWORD_ONLY
| VAR_KEYWORD.

(** [inspect.Parameter]; [p_default = None] is [Parameter.empty]. *)
Record Param : Type := {
  p_name : pystr;
  p_kind : kind;
  p_default : option value
}.

(** [inspect.Signature]: the parameters in order. *)
Definition Signature := list Param.

Definition is_positional (p : Param) : bool :=
  match p_kind p with
  | POSITIONAL_ONLY | POSITIONAL_OR_KEYWORD => true
  | _ => false
  end.

(** [k in sign.parameters] and [sign.parameters[k]] *)
Fixpoint find_param (k : pystr) (sign : Signature) : option Param :=
  match sign with
  | [] => None
  | p :: rest => if pystr_eqb k (p_name p) then Some p else find_param k rest
  end.

(** [param_idcs.get(k, -1)] *)
Fixpoint param_index (k : pystr) (sign : Signature) (i : Z) : Z :=
  match sign with
  | [] => (-1)%Z
  | p :: rest => if pystr_eqb k (p_name p) then i else param_index k rest (i + 1)%Z
  end.

(** [_func_pars(sign)]: the names of the parameters but [**kwargs]. *)
Definition _func_pars (sign : Signature) : list pystr :=
  map p_name (List.filter (fun p => match p_kind p with
                               | VAR_KEYWORD => false
                               | _ => true
                               end) sign).

(** [_func_defs(sign)]: the parameters that have a default. *)
Definition _func_defs (sign : Signature) : dict :=
  dict_of_items
    (flat_map (fun p => match p_default p with
                        | Some d => [(p_name p, d)]
                        | None => []
                        end) sign).

(** [f'{type(v)}'] *)
Definition str_of_type (v : value) : pystr :=
  lit "<class '" ++ type_name v ++ lit "'>".

(** The first loop of [_split_args], over [enumerate(args)] from index [i]. *)
Fixpoint split_positional (param_list : Signature) (n_pos : nat) (i : nat)
    (args : list value) (pos_args var_args : dict) : res (dict * dict) :=
  match args with
  | [] => Ok (pos_args, var_args)
  | v :: rest =>
      match nth_error param_list i with
      | None => Raise (Exn IndexError (lit "list index out of range") None)
      | Some p =>
          if (i <? n_pos)%nat then
            split_positional param_list n_pos (S i) rest
                             (dict_set (p_name p) v pos_args) var_args
          else Ok (pos_args, dict_set (p_name p) (VTuple args) var_args)
      end
  end.

(** Stable insertion by the index of the parameter. *)
Fixpoint insert_by_index (sign : Signature) (kv : pystr * value)
    (l : list (pystr * value)) : list (pystr * value) :=
  match l with
  | [] => [kv]
  | kv' :: l' =>
      if (param_index (fst kv) sign 0 <=? param_index (fst kv') sign 0)%Z
      then kv :: kv' :: l'
      else kv' :: insert_by_index sign kv l'
  end.

(** [sorted(kwargs.items(), key=lambda i: param_idcs.get(i[0], -1))] *)
Definition sorted_kwargs (sign : Signature) (kwargs : dict) : dict :=
  fold_right (insert_by_index sign) [] kwargs.

(** The second loop of [_split_args]. *)
Fixpoint split_keywords (sign : Signature) (kwargs : dict)
    (pos_args var_args key_args : dict) : res (dict * dict * dict) :=
  match kwargs with
  | [] => Ok (pos_args, var_args, key_args)
  | (k, v) :: rest =>
      match find_param k sign with
      | Some p =>
          match p_kind p with
          | POSITIONAL_OR_KEYWORD | POSITIONAL_ONLY =>
              split_keywords sign rest
                (if dict_mem k pos_args then pos_args else dict_set k v pos_args)
                var_args key_args
          | VAR_POSITIONAL =>
              if dict_mem k var_args then
                split_keywords sign rest pos_args var_args key_args
              else
                match v with
                | VList _ | VTuple _ =>
                    split_keywords sign rest pos_args (dict_set k v var_args) key_args
                | _ =>
                    Raise (Exn TypeError
                             (lit "Invalid varargs: " ++ str_of_type v
                                ++ lit " (must be list)") None)
                end
          | _ => split_keywords sign rest pos_args var_args (dict_set k v key_args)
          end
      | None => split_keywords sign rest pos_args var_args (dict_set k v key_args)
      end
  end.

(** The last loop of [_split_args]: the arguments that are missing. *)
Definition missing_args (sign : Signature) (pos_args key_args : dict) : list pystr :=
  flat_map
    (fun p =>
       match p_kind p with
       | POSITIONAL_OR_KEYWORD | POSITIONAL_ONLY =>
           if dict_mem (p_name p) pos_args then [] else [p_name p]
       | KEYWORD_ONLY =>
           match p_default p with
           | None => if dict_mem (p_name p) key_args then [] else [p_name p]
           | Some _ => []
           end
       | _ => []
       end) sign.

(** [_split_args(sign, *args, **kwargs)] *)
Definition _split_args (sign : Signature) (args : list value) (kwargs : dict)
    : res (dict * dict * dict * list pystr) :=
  let n_pos := length (List.filter is_positional sign) in
  res_bind (split_positional sign n_pos 0 args [] [])
    (fun '(pos_args, var_args) =>
       res_bind (split_keywords sign (sorted_kwargs sign kwargs) pos_args var_args [])
         (fun '(pos_args, var_args, key_args) =>
            Ok (pos_args, var_args, key_args,
                missing_args sign pos_args key_args))).

(** [class Func].  [func] is the Python callable, applied to positional
    and keyword arguments; [coerce] is the inner function of [Func.call]
    that converts an argument to the type hint of its parameter
    ([self.typs]); [fake_sign] is [Func.fake_sign], which only builds the
    signature that is displayed, but raises when a key is no identifier. *)
Record Func : Type := {
  name : pystr;
  func : list value -> dict -> res value;
  code : option pystr;
  sign : option Signature;
  coerce : pystr -> value -> value;
  fake_sign : dict -> res unit
}.

(** [self.defs] and [self.pars], as [Func.__init__] sets them. *)
Definition defs (f : Func) : dict :=
  match sign f with
  | Some s => _func_defs s
  | None => []
  end.

Definition pars (f : Func) : list pystr :=
  match sign f with
  | Some s => _func_pars s
  | None => []
  end.

(** [repr] of a list of parameter names, as [f'{missing}'] prints it. *)
Definition repr_names (names : list pystr) : pystr :=
  lit "[" ++ join (lit ", ") (map (fun n => lit "'" ++ n ++ lit "'") names) ++ lit "]".

(** The values that [*var_vals] unpacks. *)
Definition unpack (v : value) : res (list value) :=
  match v with
  | VList l | VTuple l => Ok l
  | VStr s => Ok (map (fun c => VStr [c]) s)
  | VDict d => Ok (map (fun kv => VStr (fst kv)) d)
  | _ => Raise (Exn TypeError
                  (lit "argument after * must be an iterable, not " ++ type_name v)
                  None)
  end.

(** [Func.call], applied to [args] and [kwargs] *)
Definition call (self : Func) (args : list value) (kwargs : dict) : res value :=
  res_bind
    (match sign self with
     | Some s => _split_args s args kwargs
     | None => Ok ([], [(lit "*", VTuple args)], kwargs, [])
     end)
    (fun '(pos_args, var_args, key_args, missing) =>
       match missing with
       | _ :: _ =>
           Raise (Exn TypeError
                    (name self ++ lit "() is missing arguments: "
                       ++ repr_names missing) None)
       | [] =>
           let '(var_args, key_args) :=
             match dict_get (lit "*") key_args with
             | Some star => ([(lit "*", star)], dict_del (lit "*") key_args)
             | None => (var_args, key_args)
             end in
           let pos_args := map (fun kv => (fst kv, coerce self (fst kv) (snd kv))) pos_args in
           let key_args := map (fun kv => (fst kv, coerce self (fst kv) (snd kv))) key_args in
           match var_args with
           | (_, var_vals) :: _ =>
               res_bind (unpack var_vals)
                 (fun var_vals => func self (map snd pos_args ++ var_vals) key_args)
           | [] => func self (map snd pos_args) key_args
           end
       end).

(** [Func.call_args], applied to [args] and [kwargs] *)
Definition call_args (self : Func) (args : list value) (kwargs : dict) : res dict :=
  res_bind
    (match sign self with
     | Some s => _split_args s args kwargs
     | None => Ok ([], [(lit "*", VTuple args)], kwargs, [])
     end)
    (fun '(pos_args, var_args, key_args, _) =>
       Ok (dict_update (dict_update pos_args var_args) key_args)).

End func.

(** ** [flux.py], [flow.py], [scope.py] and [node.py]

    One flow, made from a configuration given as a dict, and the flux it
    lives in.  Nodes and scopes are Python objects that refer to one
    another; here they are entries of two tables of the flux, and a
    reference is an index.  No flow file exists on disk, so a name that
    refers to one is not found. *)

Module node.
Import func graph.

(** [class Node].  A field of type [option] is an attribute that is set
    later than [__init__]: [None] is [not hasattr(self, ...)]. *)
Record Node : Type := {
  n_scope : nat;
  n_name : pystr;
  n_conf : dict;
  n_init_conf : dict;
  n_base_node : option (option node_id);
  n_func : option Func;
  n_links : option (list Link);
  n_base_conf : option value;
  n_node_conf : option value;
  n_args_conf : option value;
  n_hash_conf : option value;
  n_hash : option pystr
}.

(** [class Scope] *)
Record Scope : Type := {
  s_name : pystr;
  s_conf : dict;
  s_props : dict;
  s_nodes : list (pystr * node_id);
  s_base_scope : option (option nat)
}.

(** [class Flux] with its one [Flow]: the cache of functions, the graph,
    the configuration, properties and scopes of the flow, the two tables
    and the identity of the next object that is created. *)
Record Flux : Type := {
  fx_funcs : list (pystr * Func);
  fx_graph : Graph;
  fx_conf : dict;
  fx_props : dict;
  fx_scopes : list (pystr * nat);
  fx_scope_tab : list Scope;
  fx_node_tab : list Node;
  fx_next_id : nat;
  fx_cache : list (pystr * value);
  fx_data_dir : pystr;
  fx_fs : os.fs
}.

(** *** Access to the tables *)

Definition lookup_node (n : node_id) (fx : Flux) : option Node :=
  nth_error (fx_node_tab fx) n.

Definition lookup_scope (s : nat) (fx : Flux) : option Scope :=
  nth_error (fx_scope_tab fx) s.

Definition dangling : exn :=
  Exn AttributeError (lit "no such object") None.

Definition the_node (n : node_id) : M Flux Node :=
  fun fx => match lookup_node n fx with
            | Some nd => (Ok nd, fx)
            | None => (Raise dangling, fx)
            end.

Definition the_scope (s : nat) : M Flux Scope :=
  fun fx => match lookup_scope s fx with
            | Some sc => (Ok sc, fx)
            | None => (Raise dangling, fx)
            end.

Fixpoint list_set {A} (i : nat) (x : A) (l : list A) : list A :=
  match l, i with
  | [], _ => []
  | _ :: t, O => x :: t
  | h :: t, S i' => h :: list_set i' x t
  end.

Definition with_node_tab (tab : list Node) (fx : Flux) : Flux :=
  {| fx_funcs := fx_funcs fx; fx_graph := fx_graph fx; fx_conf := fx_conf fx;
     fx_props := fx_props fx; fx_scopes := fx_scopes fx;
     fx_scope_tab := fx_scope_tab fx; fx_node_tab := tab;
     fx_next_id := fx_next_id fx; fx_cache := fx_cache fx;
     fx_data_dir := fx_data_dir fx; fx_fs := fx_fs fx |}.

Definition with_scope_tab (tab : list Scope) (fx : Flux) : Flux :=
  {| fx_funcs := fx_funcs fx; fx_graph := fx_graph fx; fx_conf := fx_conf fx;
     fx_props := fx_props fx; fx_scopes := fx_scopes fx;
     fx_scope_tab := tab; fx_node_tab := fx_node_tab fx;
     fx_next_id := fx_next_id fx; fx_cache := fx_cache fx;
     fx_data_dir := fx_data_dir fx; fx_fs := fx_fs fx |}.

Definition with_scopes (scopes : list (pystr * nat)) (fx : Flux) : Flux :=
  {| fx_funcs := fx_funcs fx; fx_graph := fx_graph fx; fx_conf := fx_conf fx;
     fx_props := fx_props fx; fx_scopes := scopes;
     fx_scope_tab := fx_scope_tab fx; fx_node_tab := fx_node_tab fx;
     fx_next_id := fx_next_id fx; fx_cache := fx_cache fx;
     fx_data_dir := fx_data_dir fx; fx_fs := fx_fs fx |}.

Definition with_funcs (funcs : list (pystr * Func)) (fx : Flux) : Flux :=
  {| fx_funcs := funcs; fx_graph := fx_graph fx; fx_conf := fx_conf fx;
     fx_props := fx_props fx; fx_scopes := fx_scopes fx;
     fx_scope_tab := fx_scope_tab fx; fx_node_tab := fx_node_tab fx;
     fx_next_id := fx_next_id fx; fx_cache := fx_cache fx;
     fx_data_dir := fx_data_dir fx; fx_fs := fx_fs fx |}.

Definition with_graph (g : Graph) (fx : Flux) : Flux :=
  {| fx_funcs := fx_funcs fx; fx_graph := g; fx_conf := fx_conf fx;
     fx_props := fx_props fx; fx_scopes := fx_scopes fx;
     fx_scope_tab := fx_scope_tab fx; fx_node_tab := fx_node_tab fx;
     fx_next_id := fx_next_id fx; fx_cache := fx_cache fx;
     fx_data_dir := fx_data_dir fx; fx_fs := fx_fs fx |}.

Definition with_next_id (k : nat) (fx : Flux) : Flux :=
  {| fx_funcs := fx_funcs fx; fx_graph := fx_graph fx; fx_conf := fx_conf fx;
     fx_props := fx_props fx; fx_scopes := fx_scopes fx;
     fx_scope_tab := fx_scope_tab fx; fx_node_tab := fx_node_tab fx;
     fx_next_id := k; fx_cache := fx_cache fx;
     fx_data_dir := fx_data_dir fx; fx_fs := fx_fs fx |}.

Definition with_cache (c : list (pystr * value)) (fx : Flux) : Flux :=
  {| fx_funcs := fx_funcs fx; fx_graph := fx_graph fx; fx_conf := fx_conf fx;
     fx_props := fx_props fx; fx_scopes := fx_scopes fx;
     fx_scope_tab := fx_scope_tab fx; fx_node_tab := fx_node_tab fx;
     fx_next_id := fx_next_id fx; fx_cache := c;
     fx_data_dir := fx_data_dir fx; fx_fs := fx_fs fx |}.

Definition with_fs (f : os.fs) (fx : Flux) : Flux :=
  {| fx_funcs := fx_funcs fx; fx_graph := fx_graph fx; fx_conf := fx_conf fx;
     fx_props := fx_props fx; fx_scopes := fx_scopes fx;
     fx_scope_tab := fx_scope_tab fx; fx_node_tab := fx_node_tab fx;
     fx_next_id := fx_next_id fx; fx_cache := fx_cache fx;
     fx_data_dir := fx_data_dir fx; fx_fs := f |}.

(** Assignment to the attributes of a node. *)
Definition set_conf (c : dict) (nd : Node) : Node :=
  {| n_scope := n_scope nd; n_name := n_name nd; n_conf := c;
     n_init_conf := n_init_conf nd; n_base_node := n_base_node nd;
     n_func := n_func nd; n_links := n_links nd; n_base_conf := n_base_conf nd;
     n_node_conf := n_node_conf nd; n_args_conf := n_args_conf nd;
     n_hash_conf := n_hash_conf nd; n_hash := n_hash nd |}.

Definition set_base_node (b : option node_id) (nd : Node) : Node :=
  {| n_scope := n_scope nd; n_name := n_name nd; n_conf := n_conf nd;
     n_init_conf := n_init_conf nd; n_base_node := Some b;
     n_func := n_func nd; n_links := n_links nd; n_base_conf := n_base_conf nd;
     n_node_conf := n_node_conf nd; n_args_conf := n_args_conf nd;
     n_hash_conf := n_hash_conf nd; n_hash := n_hash nd |}.

Definition set_func (f : Func) (nd : Node) : Node :=
  {| n_scope := n_scope nd; n_name := n_name nd; n_conf := n_conf nd;
     n_init_conf := n_init_conf nd; n_base_node := n_base_node nd;
     n_func := Some f; n_links := n_links nd; n_base_conf := n_base_conf nd;
     n_node_conf := n_node_conf nd; n_args_conf := n_args_conf nd;
     n_hash_conf := n_hash_conf nd; n_hash := n_hash nd |}.

Definition set_links (ls : list Link) (nd : Node) : Node :=
  {| n_scope := n_scope nd; n_name := n_name nd; n_conf := n_conf nd;
     n_init_conf := n_init_conf nd; n_base_node := n_base_node nd;
     n_func := n_func nd; n_links := Some ls; n_base_conf := n_base_conf nd;
     n_node_conf := n_node_conf nd; n_args_conf := n_args_conf nd;
     n_hash_conf := n_hash_conf nd; n_hash := n_hash nd |}.

Definition set_base_conf (c : value) (nd : Node) : Node :=
  {| n_scope := n_scope nd; n_name := n_name nd; n_conf := n_conf nd;
     n_init_conf := n_init_conf nd; n_base_node := n_base_node nd;
     n_func := n_func nd; n_links := n_links nd; n_base_conf := Some c;
     n_node_conf := n_node_conf nd; n_args_conf := n_args_conf nd;
     n_hash_conf := n_hash_conf nd; n_hash := n_hash nd |}.

Definition set_node_conf (c : value) (nd : Node) : Node :=
  {| n_scope := n_scope nd; n_name := n_name nd; n_conf := n_conf nd;
     n_init_conf := n_init_conf nd; n_base_node := n_base_node nd;
     n_func := n_func nd; n_links := n_links nd; n_base_conf := n_base_conf nd;
     n_node_conf := Some c; n_args_conf := n_args_conf nd;
     n_hash_conf := n_hash_conf nd; n_hash := n_hash nd |}.

Definition set_args_conf (c : value) (nd : Node) : Node :=
  {| n_scope := n_scope nd; n_name := n_name nd; n_conf := n_conf nd;
     n_init_conf := n_init_conf nd; n_base_node := n_base_node nd;
     n_func := n_func nd; n_links := n_links nd; n_base_conf := n_base_conf nd;
     n_node_conf := n_node_conf nd; n_args_conf := Some c;
     n_hash_conf := n_hash_conf nd; n_hash := n_hash nd |}.

Definition set_hash_conf (c : value) (nd : Node) : Node :=
  {| n_scope := n_scope nd; n_name := n_name nd; n_conf := n_conf nd;
     n_init_conf := n_init_conf nd; n_base_node := n_base_node nd;
     n_func := n_func nd; n_links := n_links nd; n_base_conf := n_base_conf nd;
     n_node_conf := n_node_conf nd; n_args_conf := n_args_conf nd;
     n_hash_conf := Some c; n_hash := n_hash nd |}.

Definition set_hash (h : pystr) (nd : Node) : Node :=
  {| n_scope := n_scope nd; n_name := n_name nd; n_conf := n_conf nd;
     n_init_conf := n_init_conf nd; n_base_node := n_base_node nd;
     n_func := n_func nd; n_links := n_links nd; n_base_conf := n_base_conf nd;
     n_node_conf := n_node_conf nd; n_args_conf := n_args_conf nd;
     n_hash_conf := n_hash_conf nd; n_hash := Some h |}.

(** [update_node n f]: the node [n] becomes [f n]. *)
Definition update_node (n : node_id) (f : Node -> Node) : M Flux unit :=
  fun fx => match lookup_node n fx with
            | Some nd => (Ok tt, with_node_tab (list_set n (f nd) (fx_node_tab fx)) fx)
            | None => (Raise dangling, fx)
            end.

Definition set_scope_conf (c : dict) (sc : Scope) : Scope :=
  {| s_name := s_name sc; s_conf := c; s_props := s_props sc;
     s_nodes := s_nodes sc; s_base_scope := s_base_scope sc |}.

Definition set_scope_nodes (ns : list (pystr * node_id)) (sc : Scope) : Scope :=
  {| s_name := s_name sc; s_conf := s_conf sc; s_props := s_props sc;
     s_nodes := ns; s_base_scope := s_base_scope sc |}.

Definition set_base_scope (b : option nat) (sc : Scope) : Scope :=
  {| s_name := s_name sc; s_conf := s_conf sc; s_props := s_props sc;
     s_nodes := s_nodes sc; s_base_scope := Some b |}.

Definition update_scope (s : nat) (f : Scope -> Scope) : M Flux unit :=
  fun fx => match lookup_scope s fx with
            | Some sc => (Ok tt, with_scope_tab (list_set s (f sc) (fx_scope_tab fx)) fx)
            | None => (Raise dangling, fx)
            end.

(** [d[k]], which raises [KeyError]. *)
Definition dict_item {S} (k : pystr) (d : dict) : M S value :=
  match dict_get k d with
  | Some v => ret v
  | None => raise (Exn KeyError k None)
  end.

(** A value that the code takes for a [str]. *)
Definition as_str {S} (v : value) : M S pystr :=
  match v with
  | VStr s => ret s
  | _ => raise (Exn TypeError (lit "expected str, not " ++ type_name v) None)
  end.

(** A value that the code takes for a [dict]. *)
Definition as_dict {S} (v : value) : M S dict :=
  match v with
  | VDict d => ret d
  | _ => raise (Exn TypeError (lit "expected dict, not " ++ type_name v) None)
  end.

(** [f'{v}'] for the values that are formatted into names and messages. *)
Definition str_value (v : value) : pystr :=
  match v with
  | VStr s => s
  | VInt n => str_of_Z n
  | VNone => lit "None"
  | VBool true => lit "True"
  | VBool false => lit "False"
  | VFloat f => f_repr f
  | _ => lit "<" ++ type_name v ++ lit ">"
  end.


(** *** The regular expressions of names, all with [re.ASCII] *)

(** [\w]: a letter, a digit or the underscore. *)
Definition is_word (c : pychar) : bool :=
  (((97 <=? c) && (c <=? 122)) || ((65 <=? c) && (c <=? 90))
   || ((48 <=? c) && (c <=? 57)) || (c =? 95))%N.

(** [[a-z0-9]] *)
Definition is_hash_char (c : pychar) : bool :=
  (((97 <=? c) && (c <=? 122)) || ((48 <=? c) && (c <=? 57)))%N.

(** What is left of [s] for a pattern that ends in [$]: [s] itself or [s]
    without its final newline. *)
Definition before_end (s : pystr) : pystr :=
  match rev s with
  | c :: r => if (c =? 10)%N then rev r else s
  | [] => s
  end.

(** [\w+] on all of [s]. *)
Definition is_words (s : pystr) : bool :=
  negb (pystr_eqb s []) && forallb is_word s.

(** [re.match(r'^\w+$', s, re.ASCII)] *)
Definition match_name (s : pystr) : bool := is_words (before_end s).

(** [s.split(c, 1)] when [c] is in [s]. *)
Fixpoint split1 (c : pychar) (s : pystr) : option (pystr * pystr) :=
  match s with
  | [] => None
  | d :: s' =>
      if (c =? d)%N then Some ([], s')
      else match split1 c s' with
           | Some (a, b) => Some (d :: a, b)
           | None => None
           end
  end.

(** [re.match(r'^\w+\.\w+$', s, re.ASCII)], with the two parts of
    [s.split('.')]. *)
Definition match_scope_node (s : pystr) : option (pystr * pystr) :=
  match split1 46 s with
  | Some (a, b) => if is_words a && is_words (before_end b) then Some (a, b) else None
  | None => None
  end.

(** [re.match(r'^[^#]+#\w+$', s, re.ASCII)], with the two parts of
    [s.split('#')]. *)
Definition match_file_scope (s : pystr) : option (pystr * pystr) :=
  match split1 35 s with
  | Some (a, b) =>
      if negb (pystr_eqb a []) && is_words (before_end b) then Some (a, b) else None
  | None => None
  end.

(** [re.match(r'^[^#]+#\w+\.\w+$', s, re.ASCII)], with the two parts of
    [s.split('#')]. *)
Definition match_file_node (s : pystr) : option (pystr * pystr) :=
  match split1 35 s with
  | Some (a, b) =>
      match match_scope_node b with
      | Some _ => if negb (pystr_eqb a []) then Some (a, b) else None
      | None => None
      end
  | None => None
  end.

(** [re.match(r'^\w+#\w+\.[a-z0-9]{1,8}$', s, re.ASCII)], with the two
    parts of [s.split('#')]. *)
Definition match_slug (s : pystr) : option (pystr * pystr) :=
  match split1 35 s with
  | Some (path, slug) =>
      match split1 46 slug with
      | Some (base, h) =>
          let h' := before_end h in
          if is_words path && is_words base && forallb is_hash_char h'
             && (1 <=? length h')%nat && (length h' <=? 8)%nat
          then Some (path, slug) else None
      | None => None
      end
  | None => None
  end.

(** *** Breadcrumbs and [repr]; the flow has no file *)

(** [Scope._scope_crumb()] *)
Definition _scope_crumb (sc : Scope) : pystr := s_name sc.

(** [Scope._node_crumb(node_name)] *)
Definition scope_node_crumb (sc : Scope) (node_name : pystr) : pystr :=
  s_name sc ++ lit "." ++ node_name.

(** [Node._node_crumb()] *)
Definition _node_crumb (self : node_id) : M Flux pystr :=
  let* nd := the_node self in
  let* sc := the_scope (n_scope nd) in
  ret (s_name sc ++ lit "." ++ n_name nd).

(** [f'{n.scope}.{n.name}'] *)
Definition scope_dot_name (n : node_id) : M Flux pystr := _node_crumb n.

(** [Node.__repr__] *)
Definition repr_node (self : node_id) : M Flux pystr :=
  let* nd := the_node self in
  let* sc := the_scope (n_scope nd) in
  let value := s_name sc ++ lit "." ++ n_name nd in
  let value :=
    match dict_get (lit "_base") (n_conf nd) with
    | Some base =>
        if conf.truthy base && negb (py_eq base (VStr (n_name nd)))
        then value ++ lit "@" ++ str_value base else value
    | None => value
    end in
  match dict_get (lit "_func") (n_conf nd) with
  | Some f => if conf.truthy f then ret (value ++ lit "[" ++ str_value f ++ lit "]")
              else ret value
  | None => ret value
  end.

(** [Link.__repr__], for two nodes of the one flow. *)
Definition repr_link (fx : Flux) (l : Link) : pystr :=
  let value := [l_kind l] in
  let value :=
    if (l_source l =? l_target l)%nat then value ++ lit "."
    else
      match lookup_node (l_source l) fx, lookup_node (l_target l) fx with
      | Some src, Some tgt =>
          match lookup_scope (n_scope src) fx, lookup_scope (n_scope tgt) fx with
          | Some ssc, Some tsc =>
              if negb (pystr_eqb (s_name ssc) (s_name tsc))
              then value ++ s_name ssc ++ lit "." ++ n_name src
              else value ++ n_name src
          | _, _ => value
          end
      | _, _ => value
      end in
  match l_value l with
  | Some (c :: s) => value ++ c :: s
  | _ => value
  end.

(** The trail of a loop: [' @ '.join] of the names, the one that closes
    the loop in brackets. *)
Fixpoint loop_trail (names : list (node_id * pystr)) (closing : node_id)
    : list pystr :=
  match names with
  | [] => []
  | (n, s) :: rest =>
      (if (n =? closing)%nat then lit "[" ++ s ++ lit "]" else s)
        :: loop_trail rest closing
  end.

(** *** [scope.py]: finding scopes and nodes *)

Definition flow_not_found (file : pystr) : exn :=
  Exn FlowError (lit "Flow not found: " ++ file) None.

(** [Scope._find_scope(link)] *)
Definition _find_scope (self : nat) (link : pystr) : M Flux nat :=
  let* sc := the_scope self in
  let* fx := get in
  let not_found :=
    raise (Exn ScopeNotFoundError
             (_scope_crumb sc ++ lit ": " ++ [34%N] ++ link ++ [34%N]) None) in
  match match_file_scope link with
  | Some (file, _) => raise (flow_not_found file)
  | None =>
      if match_name link then
        match dict_get link (fx_scopes fx) with
        | Some s => ret s
        | None => not_found
        end
      else not_found
  end.

Definition is_not_found (e : exn) : bool :=
  match exn_cls e with
  | ScopeNotFoundError | NodeNotFoundError => true
  | _ => false
  end.

(** [n in branch] *)
Definition in_branch (n : nat) (branch : list nat) : bool :=
  existsb (Nat.eqb n) branch.

(** The message of the loop that [Scope._resolve_base] detects.  It is
    made of [s.name], and a scope has no attribute [name] unless one of
    its nodes is called so; then the attribute is that node. *)
Fixpoint scope_loop_names (trail : list nat) : M Flux (list (nat * pystr)) :=
  match trail with
  | [] => ret []
  | s :: rest =>
      let* sc := the_scope s in
      match dict_get (lit "name") (s_nodes sc) with
      | Some n =>
          let* r := repr_node n in
          let* names := scope_loop_names rest in
          ret ((s, r) :: names)
      | None =>
          raise (Exn AttributeError
                   (lit "'Scope' object has no attribute 'name'") None)
      end
  end.

(** [Scope._resolve_base()]; [fuel] bounds the depth of the recursion and
    the length of the walk along the bases. *)
Fixpoint scope_resolve_base (fuel : nat) (self : nat) : M Flux (option nat) :=
  match fuel with
  | O => raise out_of_fuel
  | S fuel' =>
      let* sc := the_scope self in
      match s_base_scope sc with
      | Some b => ret b
      | None =>
          let* base_name := dict_item (lit "_base") (s_conf sc) in
          let* base_name := as_str base_name in
          try_except
            (let* base_scope := _find_scope self base_name in
             let* _ := update_scope self
                         (set_base_scope
                            (if (base_scope =? self)%nat then None
                             else Some base_scope)) in
             let* _ :=
               (fix walk (steps : nat) (branch : list nat) (scope : nat)
                  : M Flux unit :=
                  match steps with
                  | O => raise out_of_fuel
                  | S steps' =>
                      let branch := branch ++ [scope] in
                      let* next := scope_resolve_base fuel' scope in
                      match next with
                      | None => ret tt
                      | Some s =>
                          if in_branch s branch then
                            let* names := scope_loop_names (branch ++ [s]) in
                            raise (Exn RecursionError
                                     (lit "loop detected: "
                                        ++ join (lit " @ ") (loop_trail names s))
                                     None)
                          else walk steps' branch s
                      end
                  end) fuel' [] self in
             let* sc := the_scope self in
             match s_base_scope sc with
             | Some b => ret b
             | None => raise dangling
             end)
            (fun e => is_FlowError (exn_cls e))
            (fun e =>
               raise (Exn FlowError
                        (_scope_crumb sc ++ lit " @ " ++ [34%N] ++ base_name
                           ++ [34%N]) (Some e)))
      end
  end.

(** The loop of the third case of [Scope._find_node]: through the scope
    named in the link, then through the bases. *)
Fixpoint find_in_scopes (fuel : nat) (steps : nat) (scope_name node_name : pystr)
    (in_flow : bool) (scope : nat) : M Flux (option node_id) :=
  match steps with
  | O => raise out_of_fuel
  | S steps' =>
      let* fx := get in
      let scope := if in_flow then
                     match dict_get scope_name (fx_scopes fx) with
                     | Some s => s
                     | None => scope
                     end
                   else scope in
      let* sc := the_scope scope in
      match dict_get node_name (s_nodes sc) with
      | Some n => ret (Some n)
      | None =>
          let* base := scope_resolve_base fuel scope in
          match base with
          | Some b => find_in_scopes fuel steps' scope_name node_name true b
          | None => ret None
          end
      end
  end.

(** The loop of the last case of [Scope._find_node]: through the scope
    and its bases. *)
Fixpoint find_in_bases (fuel : nat) (steps : nat) (node_name : pystr)
    (scope : nat) : M Flux (option node_id) :=
  match steps with
  | O => raise out_of_fuel
  | S steps' =>
      let* sc := the_scope scope in
      match dict_get node_name (s_nodes sc) with
      | Some n => ret (Some n)
      | None =>
          let* base := scope_resolve_base fuel scope in
          match base with
          | Some b => find_in_bases fuel steps' node_name b
          | None => ret None
          end
      end
  end.

(** [Scope._find_node(link)] *)
Definition scope_find_node (fuel : nat) (self : nat) (link : pystr)
    : M Flux node_id :=
  let* sc := the_scope self in
  let* fx := get in
  let not_found :=
    raise (Exn NodeNotFoundError
             (_scope_crumb sc ++ lit ": " ++ [34%N] ++ link ++ [34%N]) None) in
  match match_slug link with
  | Some (path, slug) =>
      raise (Exn FlowError
               (fx_data_dir fx ++ lit "/" ++ path ++ lit "/" ++ slug
                  ++ lit ".json not found") None)
  | None =>
      match match_file_node link with
      | Some (file, _) => raise (flow_not_found file)
      | None =>
          match match_scope_node link with
          | Some (scope_name, node_name) =>
              let* found := find_in_scopes fuel fuel scope_name node_name true self in
              match found with
              | Some n => ret n
              | None => not_found
              end
          | None =>
              if match_name link then
                let* found := find_in_bases fuel fuel link self in
                match found with
                | Some n => ret n
                | None => not_found
                end
              else not_found
          end
      end
  end.


(** *** [flux.py], [flow.py], [scope.py]: building the flow *)

(** [conf.get('_props', None)] as the [source] of [copy_props], which
    asserts that it is a dict. *)
Definition props_of {S} (c : dict) : M S (option dict) :=
  match dict_get (lit "_props") c with
  | None => ret None
  | Some v =>
      if conf.truthy v then
        match v with
        | VDict d => ret (Some d)
        | _ => raise (Exn AssertionError
                        (lit "expect dict and not " ++ func.str_of_type v) None)
        end
      else ret None
  end.

(** The properties that are copied into a configuration: those that
    start with an underscore, but [_props]. *)
Definition hidden_props (props : dict) : dict :=
  List.filter (fun kv => startswith (lit "_") (fst kv)
                         && negb (pystr_eqb (fst kv) (lit "_props"))) props.

Definition is_meta_key (k : pystr) : bool :=
  startswith (lit "#") k || startswith (lit "_") k.

(** [name.split('@', 1)] when ['@' in name]. *)
Definition split_base (name : pystr) : option (pystr * pystr) := split1 64 name.

(** [Scope._add_node(node_name, node_conf)] *)
Definition _add_node (self : nat) (node_name : pystr) (node_conf : value)
    : M Flux node_id :=
  let* sc := the_scope self in
  let* node_conf :=
    match node_conf with
    | VNone => ret []
    | VDict d => ret d
    | _ => raise (Exn FlowError
                    (scope_node_crumb sc node_name
                       ++ lit ": conf must be dict and not "
                       ++ func.str_of_type node_conf) None)
    end in
  let '(node_name, node_conf) :=
    match split_base node_name with
    | Some (node_name, base_name) =>
        (node_name, dict_set (lit "_base") (VStr base_name) node_conf)
    | None =>
        (node_name,
         if dict_mem (lit "_base") node_conf then node_conf
         else dict_set (lit "_base") (VStr node_name) node_conf)
    end in
  if negb (match_name node_name) then
    raise (Exn FlowError
             (scope_node_crumb sc node_name ++ lit ": invalid node name") None)
  else
    let* node_conf :=
      match dict_get node_name (s_props sc) with
      | None => ret node_conf
      | Some prop_value =>
          match prop_value with
          | VDict d => ret (utils.copy_props (Some d) node_conf [] true)
          | VObj _ _ _ (Some d) => ret (utils.copy_props (Some d) node_conf [] true)
          | VStr base_name =>
              if negb (startswith (lit "@") base_name) then
                raise (Exn FlowError
                         (scope_node_crumb sc node_name ++ lit " @ " ++ [34%N]
                            ++ base_name ++ [34%N] ++ lit " should be "
                            ++ [34%N] ++ lit "@" ++ base_name ++ [34%N]) None)
              else
                ret (dict_del (lit "_func")
                       (dict_set (lit "_base") (VStr (tl base_name)) node_conf))
          | _ => ret node_conf
          end
      end in
    let* base := dict_item (lit "_base") node_conf in
    let* base := as_str base in
    let* node_conf :=
      match split1 36 base with
      | Some (module, callee) =>
          let* param := dict_item callee node_conf in
          let* param := as_str param in
          ret (dict_set (lit "_base") (VStr node_name)
                 (dict_set (lit "_func") (VStr (module ++ lit "." ++ param))
                    (dict_del callee node_conf)))
      | None => ret node_conf
      end in
    let node_conf := utils.copy_props (Some (s_props sc)) node_conf [node_name] true in
    if dict_mem node_name (s_nodes sc) then
      raise (Exn AttributeError
               (lit "'Node' object has no attribute '_hash'") None)
    else
      let* fx := get in
      let n := length (fx_node_tab fx) in
      let nd := {| n_scope := self; n_name := node_name; n_conf := node_conf;
                   n_init_conf := node_conf; n_base_node := None;
                   n_func := None; n_links := None; n_base_conf := None;
                   n_node_conf := None; n_args_conf := None;
                   n_hash_conf := None; n_hash := None |} in
      let* _ := put (with_node_tab (fx_node_tab fx ++ [nd]) fx) in
      let* _ := update_scope self
                  (fun sc => set_scope_nodes (dict_set node_name n (s_nodes sc)) sc) in
      ret n.

(** The two loops of [Scope.__init__]. *)
Fixpoint add_nodes (self : nat) (items : dict) : M Flux unit :=
  match items with
  | [] => ret tt
  | (node_name, node_conf) :: rest =>
      let* _ := (if is_meta_key node_name then ret tt
                 else let* _ := _add_node self node_name node_conf in ret tt) in
      add_nodes self rest
  end.

Fixpoint add_prop_nodes (self : nat) (props : dict) : M Flux unit :=
  match props with
  | [] => ret tt
  | (k, v) :: rest =>
      let* _ :=
        (if is_meta_key k then ret tt
         else
           let* sc := the_scope self in
           match v with
           | VStr s =>
               if negb (existsb (N.eqb 46) k) && startswith (lit "@") s
                  && negb (dict_mem k (s_nodes sc))
               then let* _ := _add_node self (k ++ s) (VDict []) in ret tt
               else ret tt
           | _ => ret tt
           end) in
      add_prop_nodes self rest
  end.

(** [Flow._add_scope(scope_name, scope_conf)], with [Scope.__init__]. *)
Definition _add_scope (scope_name : pystr) (scope_conf : value) : M Flux nat :=
  let* scope_conf :=
    match scope_conf with
    | VNone => ret []
    | VDict d => ret d
    | _ => raise (Exn FlowError
                    (scope_name ++ lit ": conf must be dict and not "
                       ++ func.str_of_type scope_conf) None)
    end in
  let '(scope_name, scope_conf) :=
    match split_base scope_name with
    | Some (scope_name, base_name) =>
        (scope_name, dict_set (lit "_base") (VStr base_name) scope_conf)
    | None =>
        (scope_name,
         if dict_mem (lit "_base") scope_conf then scope_conf
         else dict_set (lit "_base") (VStr scope_name) scope_conf)
    end in
  if negb (match_name scope_name) then
    raise (Exn FlowError (scope_name ++ lit ": invalid scope name") None)
  else
    let* fx := get in
    let* flow_props := props_of (fx_conf fx) in
    let scope_props := utils.copy_props flow_props [] [scope_name] true in
    let* own_props := props_of scope_conf in
    let scope_props := utils.copy_props own_props scope_props [] true in
    let scope_props :=
      utils.copy_props (Some (fx_props fx)) scope_props [scope_name] true in
    let scope_conf :=
      utils.copy_props (Some (hidden_props scope_props)) scope_conf [] true in
    let s := length (fx_scope_tab fx) in
    let sc := {| s_name := scope_name; s_conf := scope_conf;
                 s_props := scope_props; s_nodes := []; s_base_scope := None |} in
    let* _ := put (with_scope_tab (fx_scope_tab fx ++ [sc]) fx) in
    let* _ := add_nodes s scope_conf in
    let* _ := add_prop_nodes s scope_props in
    let* _ := modify (fun fx => with_scopes (dict_set scope_name s (fx_scopes fx)) fx) in
    ret s.

(** The loop of [Flow.__init__]. *)
Fixpoint add_scopes (items : dict) : M Flux unit :=
  match items with
  | [] => ret tt
  | (scope_name, scope_conf) :: rest =>
      let* _ := (if is_meta_key scope_name then ret tt
                 else let* _ := _add_scope scope_name scope_conf in ret tt) in
      add_scopes rest
  end.

(** [Flux.__init__], with the empty graph and the functions [funcs] that
    [flow] registers. *)
Definition new_flux (funcs : list (pystr * Func)) (data_dir : pystr) (fs : os.fs)
    : Flux :=
  {| fx_funcs := funcs; fx_graph := graph.empty; fx_conf := []; fx_props := [];
     fx_scopes := []; fx_scope_tab := []; fx_node_tab := [];
     fx_next_id := 0; fx_cache := []; fx_data_dir := data_dir; fx_fs := fs |}.

(** [Flux._add_flow(conf, props, file=None)], with [Flow.__init__]. *)
Definition _add_flow (conf : dict) (props : option dict) : M Flux unit :=
  let* own_props := props_of conf in
  let flow_props := utils.copy_props own_props [] [] true in
  let flow_props := utils.copy_props props flow_props [] true in
  let flow_conf := utils.copy_props (Some (hidden_props flow_props)) conf [] true in
  let* _ := modify (fun fx =>
    {| fx_funcs := fx_funcs fx; fx_graph := fx_graph fx; fx_conf := flow_conf;
       fx_props := flow_props; fx_scopes := fx_scopes fx;
       fx_scope_tab := fx_scope_tab fx; fx_node_tab := fx_node_tab fx;
       fx_next_id := fx_next_id fx; fx_cache := fx_cache fx;
       fx_data_dir := fx_data_dir fx; fx_fs := fx_fs fx |}) in
  add_scopes flow_conf.


(** *** Merging scopes and nodes *)

(** The loop of [_merge_scope] over the nodes of the base scope. *)
Fixpoint adopt_nodes (self : nat) (base_nodes : list (pystr * node_id))
    : M Flux unit :=
  match base_nodes with
  | [] => ret tt
  | (node_name, base_node) :: rest =>
      let* sc := the_scope self in
      let* _ :=
        (if dict_mem node_name (s_nodes sc) then ret tt
         else
           let* bn := the_node base_node in
           let node_conf := utils.copy_props (Some (n_init_conf bn)) [] [] true in
           let* _ := _add_node self node_name (VDict node_conf) in
           ret tt) in
      adopt_nodes self rest
  end.

(** [Scope._merge_scope()] *)
Fixpoint _merge_scope (fuel : nat) (self : nat) : M Flux unit :=
  match fuel with
  | O => raise out_of_fuel
  | S fuel' =>
      let* base_scope := scope_resolve_base fuel self in
      match base_scope with
      | Some b =>
          let* _ := _merge_scope fuel' b in
          let* bsc := the_scope b in
          let* base := dict_item (lit "_base") (s_conf bsc) in
          let* _ := update_scope self
                      (fun sc => set_scope_conf (dict_set (lit "_base") base (s_conf sc)) sc) in
          let hidden := List.filter (fun kv => startswith (lit "_") (fst kv)) (s_conf bsc) in
          let* _ := update_scope self
                      (fun sc => set_scope_conf
                                   (utils.copy_props (Some hidden) (s_conf sc) [] false) sc) in
          adopt_nodes self (s_nodes bsc)
      | None =>
          update_scope self
            (fun sc => if dict_mem (lit "_base") (s_conf sc) then sc
                       else set_scope_conf
                              (dict_set (lit "_base") (VStr (s_name sc)) (s_conf sc)) sc)
      end
  end.

(** The names of a trail of nodes, as [f'{n.scope}.{n.name}']. *)
Fixpoint node_loop_names (trail : list node_id) : M Flux (list (node_id * pystr)) :=
  match trail with
  | [] => ret []
  | n :: rest =>
      let* s := scope_dot_name n in
      let* names := node_loop_names rest in
      ret ((n, s) :: names)
  end.

(** [RecursionError(f'Loop detected: {" @ ".join(loop)}')], where [loop]
    maps the trail to names and brackets the node that closes it. *)
Definition loop_detected (trail : list node_id) (closing : node_id) : M Flux unit :=
  let* names := node_loop_names trail in
  raise (Exn RecursionError
           (lit "Loop detected: " ++ join (lit " @ ") (loop_trail names closing))
           None).

(** [Node._resolve_base()] *)
Fixpoint _resolve_base (fuel : nat) (self : node_id) : M Flux (option node_id) :=
  match fuel with
  | O => raise out_of_fuel
  | S fuel' =>
      let* nd := the_node self in
      match n_base_node nd with
      | Some b => ret b
      | None =>
          if match dict_get (lit "_root") (n_conf nd) with
             | Some r => conf.truthy r
             | None => false
             end
          then
            let* _ := update_node self (set_base_node None) in ret None
          else
            let* base_name := dict_item (lit "_base") (n_conf nd) in
            let* base_name := as_str base_name in
            try_except
              (let* base_node :=
                 try_except
                   (let* b := scope_find_node fuel (n_scope nd) base_name in
                    ret (Some b))
                   is_not_found (fun _ => ret None) in
               let* _ :=
                 match base_node with
                 | Some b =>
                     if (b =? self)%nat then
                       let* base_scope := scope_resolve_base fuel (n_scope nd) in
                       match base_scope with
                       | Some bs =>
                           let* found :=
                             try_except
                               (let* b' := scope_find_node fuel bs base_name in
                                ret (Some b'))
                               is_not_found (fun _ => ret None) in
                           update_node self (set_base_node found)
                       | None => update_node self (set_base_node None)
                       end
                     else update_node self (set_base_node (Some b))
                 | None => update_node self (set_base_node None)
                 end in
               let* _ :=
                 (fix walk (steps : nat) (branch : list node_id) (node : node_id)
                    : M Flux unit :=
                    match steps with
                    | O => raise out_of_fuel
                    | S steps' =>
                        let branch := branch ++ [node] in
                        let* next := _resolve_base fuel' node in
                        match next with
                        | None => ret tt
                        | Some m =>
                            if in_branch m branch
                            then loop_detected (branch ++ [m]) m
                            else walk steps' branch m
                        end
                    end) fuel' [] self in
               let* nd := the_node self in
               match n_base_node nd with
               | Some b => ret b
               | None => raise dangling
               end)
              (fun e => is_FlowError (exn_cls e))
              (fun e =>
                 let* crumb := _node_crumb self in
                 raise (Exn FlowError
                          (crumb ++ lit " @ " ++ [34%N] ++ base_name ++ [34%N])
                          (Some e)))
      end
  end.

(** [Node._find_node(link)] *)
Definition _find_node (fuel : nat) (self : node_id) (link : pystr) : M Flux node_id :=
  (fix loop (steps : nat) (node : node_id) : M Flux node_id :=
     match steps with
     | O => raise out_of_fuel
     | S steps' =>
         let* nd := the_node node in
         let* found :=
           try_except
             (let* n := scope_find_node fuel (n_scope nd) link in ret (Some n))
             is_not_found (fun _ => ret None) in
         match found with
         | Some n => ret n
         | None =>
             let* base := _resolve_base fuel node in
             match base with
             | Some b => loop steps' b
             | None =>
                 let* crumb := _node_crumb self in
                 raise (Exn NodeNotFoundError
                          (crumb ++ lit ": " ++ [34%N] ++ link ++ [34%N]) None)
             end
         end
     end) fuel self.

(** [Node._merge_node()] *)
Fixpoint _merge_node (fuel : nat) (self : node_id) : M Flux unit :=
  match fuel with
  | O => raise out_of_fuel
  | S fuel' =>
      let* base_node := _resolve_base fuel self in
      let* _ :=
        match base_node with
        | Some b =>
            let* _ := _merge_node fuel' b in
            let* bn := the_node b in
            let* f := dict_item (lit "_func") (n_conf bn) in
            let* base := dict_item (lit "_base") (n_conf bn) in
            let* _ := update_node self
                        (fun nd => set_conf
                                     (dict_set (lit "_base") base
                                        (dict_set (lit "_func") f (n_conf nd))) nd) in
            update_node self
              (fun nd => set_conf
                           (utils.copy_props (Some (n_conf bn)) (n_conf nd) [] false) nd)
        | None =>
            let* nd := the_node self in
            if negb (dict_mem (lit "_func") (n_conf nd)) then
              let* base := dict_item (lit "_base") (n_conf nd) in
              update_node self
                (fun nd => set_conf
                             (dict_set (lit "_base") (VStr (n_name nd))
                                (dict_set (lit "_func") base (n_conf nd))) nd)
            else if negb (dict_mem (lit "_base") (n_conf nd)) then
              update_node self
                (fun nd => set_conf
                             (dict_set (lit "_base") (VStr (n_name nd)) (n_conf nd)) nd)
            else ret tt
        end in
      update_node self
        (fun nd => set_conf (dict_set (lit "_root") (VBool true) (n_conf nd)) nd)
  end.

(** A loop over a list of objects, calling a method on each. *)
Fixpoint for_each {A} (f : A -> M Flux unit) (l : list A) : M Flux unit :=
  match l with
  | [] => ret tt
  | x :: rest => let* _ := f x in for_each f rest
  end.

(** [Scope._merge_nodes()] *)
Definition _merge_nodes (fuel : nat) (self : nat) : M Flux unit :=
  let* sc := the_scope self in
  for_each (_merge_node fuel) (map snd (s_nodes sc)).


(** *** [node.py]: setting up a node *)

(** [self._slug], that is [f'{self.base}.{self.hash}'] *)
Definition slug_of (nd : Node) : res pystr :=
  match dict_get (lit "_base") (n_conf nd) with
  | None => Raise (Exn KeyError (lit "_base") None)
  | Some base =>
      match n_hash nd with
      | None => Raise (Exn AttributeError
                         (lit "'Node' object has no attribute '_hash'") None)
      | Some h => Ok (str_value base ++ lit "." ++ h)
      end
  end.

(** [node._slug] for a node of the flux [fx]. *)
Definition _slug (fx : Flux) (n : node_id) : res pystr :=
  match lookup_node n fx with
  | Some nd => slug_of nd
  | None => Raise dangling
  end.

(** [re.match(r'[a-z0-9]{1,8}', hash_)]: [match] anchors the pattern at
    the start of the string only. *)
Definition match_hash (hash_ : pystr) : bool :=
  match hash_ with
  | c :: _ => is_hash_char c
  | [] => false
  end.

Section HashOfNode.
Context (slug : node_id -> res pystr) (link_pickle : Link -> option (list Z)).

(** [{self.base: RewriteHashConf().rewrite(self._node_conf)}] *)
Definition hash_conf_of (base : pystr) (node_conf : value) : res value :=
  res_bind (run (conf.rewrite (conf.RewriteHashConf slug link_pickle) node_conf))
           (fun h => Ok (VDict [(base, h)])).

(** The end of [_setup_node]: a new hash is made or the given one is
    reused.  The result is [self._hash] with the new [self._base_conf]
    and [self._node_conf]. *)
Definition _setup_hash (hash_conf : value) (base_conf node_conf : dict)
    : res (pystr * dict * dict) :=
  match dict_get (lit "_hash") node_conf with
  | None =>
      res_bind (json.dumps true hash_conf) (fun dump =>
      res_bind (utils.hash32 dump) (fun h =>
      Ok (h, dict_set (lit "_hash") (VStr h) base_conf,
             dict_set (lit "_hash") (VStr h) node_conf)))
  | Some hash_ =>
      let invalid :=
        Raise (Exn ValueError
                 ([34%N] ++ lit "_hash" ++ [34%N]
                    ++ lit " must be a 32-bit hex string and not: "
                    ++ str_value hash_) None) in
      match hash_ with
      | VStr s => if match_hash s then Ok (s, base_conf, node_conf) else invalid
      | _ => invalid
      end
  end.
End HashOfNode.

(** An operation on the graph of the flux. *)
Definition in_graph {A} (c : M Graph A) : M Flux A :=
  fun fx => let '(r, g) := c (fx_graph fx) in (r, with_graph g fx).

Section Setup.
(** The Python environment: [find_func] is [Func.find(name, code)],
    which imports or compiles the function; [install] is what
    [resolve_packages] and [pip_install] do with [self._requires];
    [link_pickle] is as in [RewriteHashConf]. *)
Context (find_func : pystr -> option value -> res Func)
        (install : value -> res unit)
        (link_pickle : Link -> option (list Z)).

(** [self._requires]: of the node, else of its scope, else of the flow,
    else the empty list. *)
Definition _requires (nd : Node) (sc : Scope) (fx : Flux) : value :=
  match dict_get (lit "_requires") (n_conf nd) with
  | Some v => v
  | None =>
      match dict_get (lit "_requires") (s_conf sc) with
      | Some v => v
      | None =>
          match dict_get (lit "_requires") (fx_conf fx) with
          | Some v => v
          | None => VList []
          end
      end
  end.

(** [Node._find_func(name, code)] *)
Definition _find_func (name : pystr) (code : option value) : M Flux Func :=
  let* fx := get in
  match dict_get name (fx_funcs fx) with
  | Some f => ret f
  | None =>
      let* f := lift (find_func name code) in
      let* _ := modify (fun fx => with_funcs (dict_set name f (fx_funcs fx)) fx) in
      ret f
  end.

(** The loop of [_setup_node] that registers the links in the graph. *)
Fixpoint link_nodes (self : node_id) (fx0 : Flux) (links : list Link)
    : M Flux unit :=
  match links with
  | [] => ret tt
  | link :: rest =>
      let* _ := (if negb (l_source link =? self)%nat
                 then in_graph (graph.add_link (repr_link fx0) link)
                 else ret tt) in
      link_nodes self fx0 rest
  end.

(** [_setup_node], from the requirements to the synthetic signature:
    what is done before the sources of the links are set up. *)
Definition setup_own (fuel : nat) (self : node_id) : M Flux unit :=
  let* nd := the_node self in
  let* sc := the_scope (n_scope nd) in
  let* fx := get in
  let* _ := lift (install (_requires nd sc fx)) in
  let* fname := dict_item (lit "_func") (n_conf nd) in
  let* fname := as_str fname in
  let* f := _find_func fname (dict_get (lit "_code") (n_conf nd)) in
  let* _ := match func.code f with
            | Some (c :: code) =>
                update_node self
                  (fun nd => set_conf (dict_set (lit "_code") (VStr (c :: code))
                                         (n_conf nd)) nd)
            | _ => ret tt
            end in
  let* _ := update_node self (set_func f) in
  let* nd := the_node self in
  let* crumb := _node_crumb self in
  let* fx := get in
  let find := fun link => fst (_find_node fuel self link fx) in
  let '(r, bs) :=
    conf.rewrite (conf.RewriteBaseConf self crumb find) (VDict (n_conf nd))
                 {| conf.bs_next := fx_next_id fx; conf.bs_links := [] |} in
  let* base_conf := lift r in
  let* _ := modify (with_next_id (conf.bs_next bs)) in
  let* _ := update_node self (set_links (conf.bs_links bs)) in
  let* _ := update_node self (set_base_conf base_conf) in
  let* node_conf :=
    lift (run (conf.rewrite (conf.RewriteNodeConf (func.defs f)) base_conf)) in
  let* _ := update_node self (set_node_conf node_conf) in
  let* fx := get in
  let* args_conf :=
    lift (run (conf.rewrite (conf.RewriteArgsConf (func.defs f) (repr_link fx))
                            node_conf)) in
  let* _ := update_node self (set_args_conf args_conf) in
  let* _ := in_graph (graph.add_node self) in
  let* fx := get in
  let* _ := link_nodes self fx (conf.bs_links bs) in
  let* args := as_dict args_conf in
  lift (func.fake_sign f args).

(** The end of [_setup_node]: the hash view and the hash. *)
Definition setup_hash (self : node_id) : M Flux unit :=
  let* nd := the_node self in
  let* fx := get in
  let* base := dict_item (lit "_base") (n_conf nd) in
  let* node_conf := match n_node_conf nd with
                    | Some c => ret c
                    | None => raise dangling
                    end in
  let* base_conf := match n_base_conf nd with
                    | Some c => ret c
                    | None => raise dangling
                    end in
  let* hash_conf := lift (hash_conf_of (_slug fx) link_pickle (str_value base) node_conf) in
  let* _ := update_node self (set_hash_conf hash_conf) in
  let* node_dict := as_dict node_conf in
  let* base_dict := as_dict base_conf in
  let* (h, base_dict', node_dict') := lift (_setup_hash hash_conf base_dict node_dict) in
  let* _ := update_node self (set_hash h) in
  let* _ := update_node self (set_base_conf (VDict base_dict')) in
  update_node self (set_node_conf (VDict node_dict')).

(** [Node._setup_node(branch)] *)
Fixpoint _setup_node (fuel : nat) (self : node_id) (branch : list node_id)
    : M Flux unit :=
  match fuel with
  | O => raise out_of_fuel
  | S fuel' =>
      let* nd := the_node self in
      match n_node_conf nd with
      | Some _ => ret tt
      | None =>
          let* _ := setup_own fuel self in
          let* nd := the_node self in
          let branch := branch ++ [self] in
          let* _ :=
            (fix ensure_branch (links : list Link) : M Flux unit :=
               match links with
               | [] => ret tt
               | link :: rest =>
                   let* _ :=
                     (if negb (l_source link =? self)%nat then
                        let node := l_source link in
                        if in_branch node branch
                        then loop_detected (branch ++ [node]) node
                        else _setup_node fuel' node branch
                      else ret tt) in
                   ensure_branch rest
               end)
              match n_links nd with
              | Some links => links
              | None => []
              end in
          setup_hash self
      end
  end.

(** [Scope._setup_nodes()] *)
Definition _setup_nodes (fuel : nat) (self : nat) : M Flux unit :=
  let* sc := the_scope self in
  for_each (fun n => _setup_node fuel n []) (map snd (s_nodes sc)).

(** [Flow._setup_flow()] *)
Definition _setup_flow (fuel : nat) : M Flux unit :=
  let* fx := get in
  let scopes := map snd (fx_scopes fx) in
  let* _ := for_each (_merge_scope fuel) scopes in
  let* _ := for_each (_merge_nodes fuel) scopes in
  for_each (_setup_nodes fuel) scopes.

(** [Flux.make_flow(conf, props)] *)
Definition make_flow (fuel : nat) (conf : dict) (props : option dict) : M Flux unit :=
  let* _ := _add_flow conf props in
  _setup_flow fuel.
End Setup.


(** *** [node.py]: the properties of a node *)

(** [a / b] on paths: [b] is a plain relative name and [a] is in normal
    form, so that [pathlib] has nothing to collapse and the path is the
    two joined by a slash. *)
Definition path_join (a b : pystr) : pystr := a ++ lit "/" ++ b.

(** [conf.get(k, default)], tested for truth. *)
Definition conf_flag (k : pystr) (default : bool) (c : dict) : bool :=
  match dict_get k c with
  | Some v => conf.truthy v
  | None => default
  end.

(** [Node._cachable] and [Node._dumpable] *)
Definition _cachable (nd : Node) : bool := conf_flag (lit "_cache") true (n_conf nd).
Definition _dumpable (nd : Node) : bool := conf_flag (lit "_dump") false (n_conf nd).

(** [Node._readonly]: of the node, else of its scope, else of the flow. *)
Definition _readonly (nd : Node) (sc : Scope) (fx : Flux) : bool :=
  match dict_get (lit "_readonly") (n_conf nd) with
  | Some v => conf.truthy v
  | None =>
      match dict_get (lit "_readonly") (s_conf sc) with
      | Some v => conf.truthy v
      | None => conf_flag (lit "_readonly") false (fx_conf fx)
      end
  end.

(** [Node._path]: of the node, else of its scope, else of the flow, else
    the name of the scope. *)
Definition _path (nd : Node) (sc : Scope) (fx : Flux) : pystr :=
  match dict_get (lit "_path") (n_conf nd) with
  | Some v => str_value v
  | None =>
      match dict_get (lit "_path") (s_conf sc) with
      | Some v => str_value v
      | None =>
          match dict_get (lit "_path") (fx_conf fx) with
          | Some v => str_value v
          | None => s_name sc
          end
      end
  end.

(** [Node._base_dir] *)
Definition _base_dir (self : node_id) : M Flux pystr :=
  let* nd := the_node self in
  let* sc := the_scope (n_scope nd) in
  let* fx := get in
  ret (path_join (fx_data_dir fx) (_path nd sc fx)).

(** [self._slug], in the monad. *)
Definition the_slug (self : node_id) : M Flux pystr :=
  let* nd := the_node self in lift (slug_of nd).

(** [Node._work_dir], [Node._data_file], [Node._conf_file],
    [Node._lock_dir] and [Node._lock_file] *)
Definition _work_dir (self : node_id) : M Flux pystr :=
  let* d := _base_dir self in
  let* slug := the_slug self in
  ret (path_join d slug).

Definition _data_file (self : node_id) : M Flux pystr :=
  let* d := _base_dir self in
  let* slug := the_slug self in
  ret (path_join d (slug ++ lit ".data")).

Definition _conf_file (self : node_id) : M Flux pystr :=
  let* d := _base_dir self in
  let* slug := the_slug self in
  ret (path_join d (slug ++ lit ".json")).

Definition _lock_dir (self : node_id) : M Flux pystr :=
  let* d := _base_dir self in ret (path_join d (lit ".lock")).

Definition _lock_file (self : node_id) : M Flux pystr :=
  let* d := _lock_dir self in
  let* slug := the_slug self in
  ret (path_join d (slug ++ lit ".lock")).

(** An operation on the file system of the flux. *)
Definition in_fs {A} (c : M os.fs A) : M Flux A :=
  fun fx => let '(r, f) := c (fx_fs fx) in (r, with_fs f fx).

(** [path.is_dir()] *)
Definition is_dir (path : pystr) : M Flux bool :=
  let* fx := get in ret (os.is_dir path (fx_fs fx)).

(** [Node.data], [None] for [Node.empty] *)
Definition data (self : node_id) : M Flux (option value) :=
  let* slug := the_slug self in
  let* fx := get in
  ret (dict_get slug (fx_cache fx)).

(** [self.data = v] *)
Definition set_data (self : node_id) (v : value) : M Flux unit :=
  let* slug := the_slug self in
  modify (fun fx => with_cache (dict_set slug v (fx_cache fx)) fx).

(** [Node._cached] *)
Definition _cached (self : node_id) : M Flux bool :=
  let* d := data self in
  ret (match d with Some _ => true | None => false end).

(** [Node._dumped] *)
Definition _dumped (self : node_id) : M Flux bool :=
  let* f := _data_file self in
  let* fx := get in
  ret (os.is_file f (fx_fs fx)).

(** [Node._done]: [(cachable and cached) or (dumpable and dumped)] *)
Definition _done (self : node_id) : M Flux bool :=
  let* nd := the_node self in
  let* c := (if _cachable nd then _cached self else ret false) in
  if c : bool then ret true
  else if _dumpable nd then _dumped self else ret false.

(** [Node._deps()]: the sources of the links, but the node itself. *)
Definition _deps (self : node_id) (nd : Node) : list node_id :=
  fold_left (fun acc link =>
               if negb (l_source link =? self)%nat
               then graph.oset_add Nat.eqb (l_source link) acc else acc)
            match n_links nd with
            | Some links => links
            | None => []
            end [].

(** [Node._flow_conf()]; a node and its dependencies are of the one flow. *)
Fixpoint _flow_conf (fuel : nat) (self : node_id)
    : M Flux (list (pystr * dict)) :=
  match fuel with
  | O => raise out_of_fuel
  | S fuel' =>
      let* nd := the_node self in
      let* sc := the_scope (n_scope nd) in
      let* fx := get in
      let* base_conf := match n_base_conf nd with
                        | Some c => ret c
                        | None => raise dangling
                        end in
      let* own := lift (run (conf.rewrite (conf.RewriteFlowConf (repr_link fx))
                                          base_conf)) in
      let scope_conf := [(n_name nd, own)] in
      let scope_path := match dict_get (lit "_path") (s_conf sc) with
                        | Some v => v
                        | None =>
                            match dict_get (lit "_path") (fx_conf fx) with
                            | Some v => v
                            | None => VStr (s_name sc)
                            end
                        end in
      let scope_conf :=
        if negb (py_eq scope_path (VStr (s_name sc)))
        then dict_set (lit "_path") scope_path scope_conf else scope_conf in
      let flow_conf := [(s_name sc, scope_conf)] in
      (fix merge (deps : list node_id) (flow_conf : list (pystr * dict))
         : M Flux (list (pystr * dict)) :=
         match deps with
         | [] => ret flow_conf
         | n :: rest =>
             let* sub := _flow_conf fuel' n in
             merge rest
               (fold_left
                  (fun flow_conf kv =>
                     let old := match dict_get (fst kv) flow_conf with
                                | Some d => d
                                | None => []
                                end in
                     dict_set (fst kv) (dict_update old (snd kv)) flow_conf)
                  sub flow_conf)
         end) (_deps self nd) flow_conf
  end.

(** The value of [Node._flow_conf()] as a dict of dicts. *)
Definition flow_conf_value (c : list (pystr * dict)) : value :=
  VDict (map (fun kv => (fst kv, VDict (snd kv))) c).

(** *** [node.py]: calling a node *)

Section Call.
(** The Python environment of a call: [find_func] as in [Setup];
    [pickle] and [unpickle] are [cloudpickle.dump] and
    [cloudpickle.load]; [json_pretty] is [json.dump(_, sort_keys=True,
    indent=4)]; [map_simpleeval] is the evaluator of the expressions of
    links; [environ], [expanduser] and [is_word] are as in
    [RewriteCallConf]. *)
Context (find_func : pystr -> option value -> res Func)
        (pickle : value -> res (list Z))
        (unpickle : list Z -> res value)
        (json_pretty : value -> res pystr)
        (map_simpleeval : value -> pystr -> res value)
        (environ : pystr -> option pystr)
        (expanduser : pystr -> pystr)
        (is_word : pychar -> bool).

(** [Link.resolve(value, ref)]; [fx] is the flux when the call view is
    made. *)
Definition resolve (fx : Flux) (vals : list (node_id * (value * value)))
    (link : Link) : M os.fs value :=
  let '(value, ref) :=
    match List.find (fun e => (fst e =? l_source link)%nat) vals with
    | Some (_, vr) => vr
    | None => (VNone, VNone)
    end in
  if ((l_kind link =? 64) || (l_kind link =? 38))%N then
    let input := if (l_kind link =? 64)%N then value else ref in
    match l_value link with
    | Some (c :: rest) =>
        if (c =? 47)%N then
          let* path :=
            (if pystr_eqb rest (lit ".") then as_str value
             else if startswith (lit ".") rest then
               let path := tl rest in
               if startswith (lit ":") path then
                 let* p := lift (map_simpleeval input (tl path)) in
                 match p with
                 | VStr p => ret p
                 | _ => raise (Exn AssertionError
                                 (lit "expression must return a string") None)
                 end
               else ret path
             else ret rest) in
          let* dir := lift (fst (_work_dir (l_source link) fx)) in
          let* _ := os.makedirs dir in
          ret (VStr (path_join dir path))
        else if (c =? 58)%N then lift (map_simpleeval input rest)
        else ret input
    | _ => ret input
    end
  else raise (Exn ValueError
                (lit "unknown assignment: " ++ repr_link fx link) None).

(** [Func.find(name).func(v)], through the cache [self.funcs], for the
    coercion of [RewriteCallConf]. *)
Definition coerce_with (fx : Flux) (name : pystr) (v : value) : res value :=
  match dict_get name (fx_funcs fx) with
  | Some f => func.func f [v] []
  | None => res_bind (find_func name None) (fun f => func.func f [v] [])
  end.

(** [Node._call_conf(vals)] *)
Definition _call_conf (self : node_id) (vals : list (node_id * (value * value)))
    : M Flux value :=
  let* nd := the_node self in
  let* fx := get in
  let* f := match n_func nd with
            | Some f => ret f
            | None => raise dangling
            end in
  let* node_conf := match n_node_conf nd with
                    | Some c => ret c
                    | None => raise dangling
                    end in
  in_fs (conf.rewrite
           (conf.RewriteCallConf (coerce_with fx) (func.pars f) (resolve fx vals)
                                 environ expanduser is_word)
           node_conf).

(** The logger of the flux, an object. *)
Definition the_logger : value := VObj (lit "Logger") 0 None None.

(** [Node._call_func(vals, *args, **kwargs)]; a value of the model is
    neither a coroutine nor a generator. *)
Definition _call_func (self : node_id) (vals : list (node_id * (value * value)))
    (args : list value) (kwargs : dict) : M Flux value :=
  let* call_conf := _call_conf self vals in
  let* call_conf := as_dict call_conf in
  let call_conf :=
    match dict_get (lit "_logger") call_conf with
    | Some VNone => dict_set (lit "_logger") the_logger call_conf
    | _ => call_conf
    end in
  let* nd := the_node self in
  let* f := match n_func nd with
            | Some f => ret f
            | None => raise dangling
            end in
  lift (func.call f args (dict_update kwargs call_conf)).

(** [Node._load_data()], when the data file exists. *)
Definition _load_data (self : node_id) : M Flux value :=
  let* f := _data_file self in
  let* fx := get in
  match os.read_bytes f (fx_fs fx) with
  | Some b => lift (unpickle b)
  | None => raise (Exn FileNotFoundError f None)
  end.

(** [Node._dump_conf()] *)
Definition _dump_conf (fuel : nat) (self : node_id) : M Flux unit :=
  let* d := _base_dir self in
  let* _ := in_fs (os.makedirs d) in
  let* f := _conf_file self in
  let* c := _flow_conf fuel self in
  let* text := lift (json_pretty (flow_conf_value c)) in
  let* b := lift (utils.utf8_encode text) in
  in_fs (os.write_bytes f b).

(** [Node._dump_data(data)]: written to a temporary file, then renamed. *)
Definition _dump_data (self : node_id) (v : value) : M Flux unit :=
  let* d := _base_dir self in
  let* _ := in_fs (os.makedirs d) in
  let* f := _data_file self in
  let temp_file := f ++ lit ".tmp" in
  let* b := lift (pickle v) in
  let* _ := in_fs (os.write_bytes temp_file b) in
  in_fs (os.rename temp_file f).

(** [Node._call_now(vals)] *)
Definition _call_now (fuel : nat) (self : node_id)
    (vals : list (node_id * (value * value))) : M Flux value :=
  let* v := data self in
  let* nd := the_node self in
  if _cachable nd && match v with Some _ => true | None => false end then
    match v with
    | Some v => ret v
    | None => raise dangling
    end
  else
    let* dumped := (if _dumpable nd then _dumped self else ret false) in
    if dumped : bool then
      let* v := _load_data self in
      let* _ := (if _cachable nd then set_data self v else ret tt) in
      ret v
    else
      let* v := _call_func self vals [] [] in
      let* _ :=
        (if _dumpable nd then
           let* _ := _dump_conf fuel self in _dump_data self v
         else
           let* w := _work_dir self in
           let* isd := is_dir w in
           if isd : bool then _dump_conf fuel self else ret tt) in
      let* _ := (if _cachable nd then set_data self v else ret tt) in
      ret v.

(** [Node._call_later(vals)]: the reference to the node, a function that
    calls it when it is called.  It is a new object. *)
Definition _call_later (self : node_id) (vals : list (node_id * (value * value)))
    : M Flux value :=
  let* fx := get in
  let* _ := put (with_next_id (S (fx_next_id fx)) fx) in
  ret (VObj (lit "function") (Z.of_nat (fx_next_id fx)) None None).

(** [Node._lock()], and entering and leaving the lock that it returns.
    One process runs; the lock is free. *)
Definition _lock (self : node_id) : M Flux unit :=
  let* nd := the_node self in
  let* w := _work_dir self in
  let* isd := is_dir w in
  if _dumpable nd || isd then
    let* d := _lock_dir self in
    let* _ := in_fs (os.makedirs d) in
    let* f := _lock_file self in
    let* fx := get in
    if os.is_file f (fx_fs fx) then ret tt
    else in_fs (os.write_bytes f [])
  else ret tt.

(** [(node._dumpable and not node._dumped) and node._readonly], the test
    that [_call_node] makes before its [try]. *)
Definition call_node_blocked (node : node_id) : M Flux bool :=
  let* nd := the_node node in
  let* sc := the_scope (n_scope nd) in
  let* fx := get in
  if _dumpable nd then
    let* dumped := _dumped node in
    ret (negb dumped && _readonly nd sc fx)
  else ret false.

(** The body of the [try] of [_call_node]. *)
Definition call_node_body (fuel : nat) (node : node_id)
    (byval_sources byref_sources : list node_id)
    (vals : list (node_id * (value * value)))
    : M Flux (node_id * (value * value)) :=
  let needs_val := in_branch node byval_sources in
  let needs_ref := in_branch node byref_sources in
  let* _ := _lock node in
  let* v := (if needs_val then _call_now fuel node vals else ret VNone) in
  let* r := (if needs_ref then _call_later node vals else ret VNone) in
  ret (node, (v, r)).

(** [Node._call_node(node, byval_sources, byref_sources, vals)] *)
Definition _call_node (fuel : nat) (node : node_id)
    (byval_sources byref_sources : list node_id)
    (vals : list (node_id * (value * value)))
    : M Flux (node_id * (value * value)) :=
  let* blocked := call_node_blocked node in
  if blocked : bool then
    let* r := repr_node node in
    raise (Exn FlowError (lit "node read-only: " ++ r) None)
  else
    try_except
      (call_node_body fuel node byval_sources byref_sources vals)
      (fun e => is_Exception (exn_cls e))
      (fun e =>
         let* r := repr_node node in
         raise (Exn FlowError (lit "call failed: " ++ r) (Some e))).
End Call.

Section Run.
Context (find_func : pystr -> option value -> res Func)
        (pickle : value -> res (list Z))
        (unpickle : list Z -> res value)
        (json_pretty : value -> res pystr)
        (map_simpleeval : value -> pystr -> res value)
        (environ : pystr -> option pystr)
        (expanduser : pystr -> pystr)
        (is_word : pychar -> bool).

(** [pool_run(tasks)] as [Node._call] consumes it, for one schedule of
    the pool: the tasks that are ready run one after the other, in the
    order of the dict.  [tasks] maps a node to the dependencies it still
    waits for, [results] to the results of those that are done.  The
    loop ends when the task of [self] has run. *)
Fixpoint pool_run (fuel : nat) (self : node_id)
    (run_task : node_id -> list (node_id * (value * value))
                -> M Flux (node_id * (value * value)))
    (tasks : list (node_id * list node_id))
    (results : list (node_id * list (node_id * (value * value))))
    : M Flux value :=
  match fuel with
  | O => raise out_of_fuel
  | S fuel' =>
      match List.find (fun t => match snd t with [] => true | _ => false end) tasks with
      | None =>
          match tasks with
          | [] => ret VNone
          | _ => raise out_of_fuel
          end
      | Some (k, _) =>
          let vals := match List.find (fun e => (fst e =? k)%nat) results with
                      | Some (_, rs) => rs
                      | None => []
                      end in
          let* r := run_task k vals in
          if (fst r =? self)%nat then ret (fst (snd r))
          else
            let tasks := List.filter (fun t => negb (fst t =? k)%nat) tasks in
            let results :=
              fold_left
                (fun results t =>
                   if in_branch k (snd t) then
                     let old := match List.find (fun e => (fst e =? fst t)%nat) results with
                                | Some (_, rs) => rs
                                | None => []
                                end in
                     (fst t, old ++ [r])
                       :: List.filter (fun e => negb (fst e =? fst t)%nat) results
                   else results)
                tasks results in
            let tasks :=
              map (fun t => (fst t, List.filter (fun d => negb (d =? k)%nat) (snd t)))
                  tasks in
            pool_run fuel' self run_task tasks results
      end
  end.

(** The tasks of [Node._call]: a node that is done waits for nothing. *)
Fixpoint make_tasks (nodes : list node_id) : M Flux (list (node_id * list node_id)) :=
  match nodes with
  | [] => ret []
  | n :: rest =>
      let* nd := the_node n in
      let* done := _done n in
      let* tasks := make_tasks rest in
      ret ((n, if done : bool then [] else _deps n nd) :: tasks)
  end.

(** [Node._call()] *)
Definition _call (fuel : nat) (self : node_id) : M Flux value :=
  let* fx := get in
  let* (nodes, links) :=
    graph.tree (fx_graph fx) _done repr_node false fuel self (-1) in
  let byval_sources :=
    graph.oset_add Nat.eqb self
      (map l_source (List.filter (fun l => (l_kind l =? 64)%N) links)) in
  let byref_sources :=
    map l_source (List.filter (fun l => (l_kind l =? 38)%N) links) in
  let* tasks := make_tasks nodes in
  pool_run fuel self
    (fun n vals =>
       _call_node find_func pickle unpickle json_pretty map_simpleeval
                  environ expanduser is_word fuel n
                  byval_sources byref_sources vals)
    tasks [].

(** [Node.__call__()] without arguments.  The flux has no sync
    directory, which [_wait_for_job] asserts. *)
Definition call (fuel : nat) (self : node_id) : M Flux value :=
  let* nd := the_node self in
  let* sc := the_scope (n_scope nd) in
  let* fx := get in
  let* _ :=
    (if conf_flag (lit "_agent") false (n_conf nd) then
       let* done := _done self in
       if negb done && negb (_readonly nd sc fx)
       then raise (Exn AssertionError (lit "sync_dir is not set") None)
       else ret tt
     else ret tt) in
  _call fuel self.
End Run.

End node.

(** ** Statements about the graph *)

(** Every link that the graph holds joins two different nodes of the
    graph. *)
Definition graph_ok (g : graph.Graph) : Prop :=
  forall l, In l (graph.edges g) ->
    l_source l <> l_target l
    /\ In (l_source l) (graph._nodes g) /\ In (l_target l) (graph._nodes g).

(** The graph that [add_link] leaves behind when it returns. *)
Definition after_add_link (link : Link) (g : graph.Graph) : graph.Graph :=
  let out := if negb (graph.adj_mem (l_source link) (graph._outgoing g))
             then graph.adj_set (l_source link) [] (graph._outgoing g)
             else graph._outgoing g in
  let inc := if negb (graph.adj_mem (l_target link) (graph._incoming g))
             then graph.adj_set (l_target link) [] (graph._incoming g)
             else graph._incoming g in
  {| graph._nodes := graph.oset_add Nat.eqb (l_target link)
                       (graph.oset_add Nat.eqb (l_source link) (graph._nodes g));
     graph._outgoing := graph.adj_add (l_source link) link out;
     graph._incoming := graph.adj_add (l_target link) link inc |}.

(** [link] is registered in the graph: it is an outgoing link of its
    source and an incoming link of its target. *)
Definition registered (link : Link) (g : graph.Graph) : Prop :=
  (exists ls, graph.adj_get (l_source link) (graph._outgoing g) = Some ls
              /\ existsb (graph.link_eqb link) ls = true)
  /\ (exists ls, graph.adj_get (l_target link) (graph._incoming g) = Some ls
                 /\ existsb (graph.link_eqb link) ls = true).

(** ** Statements about the file helpers *)






(** A file system with a source of five bytes and a destination of three,
    each in its directory. *)
Definition fs_stale : os.fs :=
  {| os.fs_names := {[ lit "data/src" := 0%nat; lit "sync/dst" := 1%nat ]};
     os.fs_inodes := {[ 0%nat := [1; 2; 3; 4; 5]%Z; 1%nat := [9; 9; 9]%Z ]};
     os.fs_dirs := {[ lit "data"; lit "sync" ]};
     os.fs_next := 2; os.fs_can_link := true |}.

(** The directory [dir] is there or [os.makedirs] can make it: the path is
    not empty, and neither it nor a directory above it is a regular
    file. *)
Definition can_make_dir (dir : pystr) (f : os.fs) : bool :=
  negb (pystr_eqb dir [])
  && forallb (fun a => negb (os.is_file a f)) (dir :: os.ancestors dir).

(** A file system with nothing in it. *)
Definition fs_empty : os.fs :=
  {| os.fs_names := ∅; os.fs_inodes := ∅; os.fs_dirs := ∅;
     os.fs_next := 0; os.fs_can_link := true |}.

(** ** [tests/test/function.py] and the environment of the tests *)

Module tests.
Import func node.

(** [def foo(a, b, *c, d, e=None, **kwargs)] *)
Definition foo_sign : Signature :=
  [ {| p_name := lit "a"; p_kind := POSITIONAL_OR_KEYWORD; p_default := None |};
    {| p_name := lit "b"; p_kind := POSITIONAL_OR_KEYWORD; p_default := None |};
    {| p_name := lit "c"; p_kind := VAR_POSITIONAL; p_default := None |};
    {| p_name := lit "d"; p_kind := KEYWORD_ONLY; p_default := None |};
    {| p_name := lit "e"; p_kind := KEYWORD_ONLY; p_default := Some VNone |};
    {| p_name := lit "kwargs"; p_kind := VAR_KEYWORD; p_default := None |} ].

(** [return a, b, c, d, e, kwargs]; Python itself raises [TypeError] when
    [a], [b] or [d] is not given. *)
Definition foo_body (pos : list value) (kw : dict) : res value :=
  match pos with
  | a :: b :: c =>
      match dict_get (lit "d") kw with
      | Some d =>
          let e := match dict_get (lit "e") kw with
                   | Some e => e
                   | None => VNone
                   end in
          Ok (VTuple [a; b; VTuple c; d; e;
                      VDict (dict_del (lit "e") (dict_del (lit "d") kw))])
      | None =>
          Raise (Exn TypeError
                   (lit "foo() missing 1 required keyword-only argument: 'd'") None)
      end
  | _ => Raise (Exn TypeError
                  (lit "foo() missing required positional arguments") None)
  end.

(** The keys of the configurations of the tests are identifiers, so
    [Func.fake_sign] makes a parameter of each and does not raise. *)
Definition foo : Func :=
  {| name := lit "test.function.foo"; func := foo_body;
     code := None; sign := Some foo_sign;
     coerce := fun _ v => v; fake_sign := fun _ => Ok tt |}.

(** The builtin [dict], called with keywords; [inspect] finds no
    signature for it. *)
Definition py_dict : Func :=
  {| name := lit "dict";
     func := fun pos kw => Ok (VDict kw);
     code := None; sign := None;
     coerce := fun _ v => v; fake_sign := fun _ => Ok tt |}.

(** [Func.find(name, code)] for the two functions above. *)
Definition find (n : pystr) (code : option value) : res Func :=
  if pystr_eqb n (lit "test.function.foo") then Ok foo
  else if pystr_eqb n (lit "dict") then Ok py_dict
  else Raise (Exn TypeError (lit "Function not found: " ++ n) None).

(** No node of the tests has [_requires], and none holds an object. *)
Definition install (requirements : value) : res unit := Ok tt.
Definition link_pickle (l : Link) : option (list Z) := None.

(** [flow(conf)] on a new flux. *)
Definition flow (conf : dict) : res unit * Flux :=
  make_flow find install link_pickle 16 conf None
            (new_flux [] (lit ".") fs_empty).

(** The node [scope.name] of a flux. *)
Definition node_named (scope name : pystr) (fx : Flux) : option Node :=
  List.find (fun nd => pystr_eqb (n_name nd) name
                       && match lookup_scope (n_scope nd) fx with
                          | Some sc => pystr_eqb (s_name sc) scope
                          | None => false
                          end)
            (fx_node_tab fx).

(** [{'test': {'foo@test.function.foo': args}}] *)
Definition conf_foo (args : dict) : dict :=
  [(lit "test", VDict [(lit "foo@test.function.foo", VDict args)])].

Definition abd : dict :=
  [(lit "a", VStr (lit "a")); (lit "b", VStr (lit "b")); (lit "d", VStr (lit "d"))].

(** The environment of a call in the tests: nothing is dumped, so
    nothing is pickled; no link has an expression; no variable of the
    environment is read, no value of the tests has a [$] in it, so the
    word characters that [call_foo] passes, those of ASCII, are never
    asked for. *)
Definition pickle (v : value) : res (list Z) :=
  Raise (Exn TypeError (lit "cannot pickle") None).
Definition unpickle (b : list Z) : res value :=
  Raise (Exn TypeError (lit "cannot unpickle") None).
Definition json_pretty (v : value) : res pystr := json.dumps true v.
Definition map_simpleeval (v : value) (expr : pystr) : res value :=
  Raise (Exn TypeError (lit "no expression") None).
Definition environ (k : pystr) : option pystr := None.
Definition expanduser (p : pystr) : pystr := p.

(** [flow(conf).test.foo()], where [test.foo] is the first node. *)
Definition call_foo (conf : dict) : res value * Flux :=
  let '(r, fx) := flow conf in
  match r with
  | Ok _ => call find pickle unpickle json_pretty map_simpleeval environ
                 expanduser is_word 16 0 fx
  | Raise e => (Raise e, fx)
  end.

(** The configuration of [test_call_required_args_failure]: the argument
    [b] is missing. *)
Definition conf_missing : dict :=
  conf_foo [(lit "a", VStr (lit "a")); (lit "d", VStr (lit "d"))].

End tests.

(** ** Statements about the hash of a node *)

(** The shape that the specification asks of a given [_hash]: the whole
    string is one to eight characters of [a-z0-9]. *)
Definition spec_hash_shape (s : pystr) : bool :=
  (1 <=? length s)%nat && (length s <=? 8)%nat && forallb node.is_hash_char s.

(** A configuration of the tests with a [_hash] that is too long and has
    other characters in it. *)
Definition long_hash : pystr := lit "6c9cc6b0-not a hash".

Definition conf_long_hash : dict :=
  tests.conf_foo (tests.abd ++ [(lit "_hash", VStr long_hash)]).

(** The configuration of [test_loop_detection_cycle]: two nodes that link
    to one another. *)
Definition conf_loop : dict :=
  [(lit "test",
    VDict [(lit "a@dict", VDict [(lit "a", VStr (lit "@b"))]);
           (lit "b@dict", VDict [(lit "b", VStr (lit "@a"))])])].

(** Two nodes that are the base of one another. *)
Definition conf_base_loop : dict :=
  [(lit "test", VDict [(lit "a@b", VDict []); (lit "b@a", VDict [])])].

(** Two scopes that are the base of one another. *)
Definition conf_scope_loop : dict :=
  [(lit "a@b", VDict []); (lit "b@a", VDict [])].

(** A configuration of the tests whose node is to be dumped and may not
    be called: [_dump] and [_readonly] are set. *)
Definition conf_read_only : dict :=
  tests.conf_foo
    (tests.abd ++ [(lit "_dump", VBool true); (lit "_readonly", VBool true)]).

(** An item whose key is no comment. *)
Definition not_comment (kv : pystr * value) : bool :=
  negb (startswith (lit "#") (fst kv)).

(** The keys of a mapping of the hash view, where it is one. *)
Definition keys_of (v : value) : list pystr :=
  match v with
  | VDict d => dict_keys d
  | _ => []
  end.

(** The argument [a] of [foo] is a mapping with a comment in it, or the
    same mapping without the comment. *)
Definition conf_nested_comment : dict :=
  tests.conf_foo [(lit "a", VDict [(lit "#note", VStr (lit "x")); (lit "k", VInt 1)]);
                  (lit "b", VStr (lit "b")); (lit "d", VStr (lit "d"))].

Definition conf_nested_plain : dict :=
  tests.conf_foo [(lit "a", VDict [(lit "k", VInt 1)]);
                  (lit "b", VStr (lit "b")); (lit "d", VStr (lit "d"))].

(** A comment among the arguments of the node itself. *)
Definition conf_top_comment : dict :=
  tests.conf_foo (tests.abd ++ [(lit "#note", VStr (lit "@nowhere"))]).

(** [node._hash_conf] and [node._hash] of the node [test.foo] after
    [flow(conf)]. *)
Definition hash_view_of (conf : dict) : option value :=
  match tests.node_named (lit "test") (lit "foo") (snd (tests.flow conf)) with
  | Some nd => node.n_hash_conf nd
  | None => None
  end.

Definition hash_of (conf : dict) : option pystr :=
  match tests.node_named (lit "test") (lit "foo") (snd (tests.flow conf)) with
  | Some nd => node.n_hash nd
  | None => None
  end.

(** ** Statements about the args view *)

(** [v == d or self._json_coerce(v) == self._json_coerce(d)] holds. *)
Definition equal_default (v d : value) : Prop :=
  py_eq v d = true
  \/ exists v' d', run (conf._json_coerce v) = Ok v'
                   /\ run (conf._json_coerce d) = Ok d'
                   /\ py_eq v' d' = true.

(** Keys in increasing order, as [sorted] leaves the keys of a [dict]. *)
Fixpoint increasing (ks : list pystr) : bool :=
  match ks with
  | [] => true
  | a :: rest =>
      match rest with
      | b :: _ => pystr_ltb a b
      | [] => true
      end && increasing rest
  end.

Definition sorted_by_key (d : dict) : bool := increasing (dict_keys d).

(** The mappings of [v] are sorted by key down to [n] levels below [v],
    comments apart. *)
Fixpoint sorted_to (n : nat) (v : value) {struct n} : bool :=
  match v with
  | VDict d =>
      sorted_by_key d
      && match n with
         | O => true
         | S n' => forallb (fun kv => startswith (lit "#") (fst kv)
                                      || sorted_to n' (snd kv)) d
         end
  | VList l | VTuple l =>
      match n with
      | O => true
      | S n' => forallb (sorted_to n') l
      end
  | _ => true
  end.

(** The argument [a] of [foo] holds a mapping at depth 3 whose keys are
    not in order. *)
Definition deep_dict : value :=
  VDict [(lit "x", VDict [(lit "w", VDict [(lit "z", VInt 1); (lit "y", VInt 2)])])].

Definition conf_deep : dict :=
  tests.conf_foo [(lit "a", deep_dict); (lit "b", VStr (lit "b")); (lit "d", VStr (lit "d"))].

(** [node._args_conf] of the node [test.foo] after [flow(conf)]. *)
Definition args_view_of (conf : dict) : option value :=
  match tests.node_named (lit "test") (lit "foo") (snd (tests.flow conf)) with
  | Some nd => node.n_args_conf nd
  | None => None
  end.

(** [v[k]] where [v] is a mapping. *)
Definition item (k : pystr) (v : option value) : option value :=
  match v with
  | Some (VDict d) => dict_get k d
  | _ => None
  end.

(** The order of [sorted(d.items(), key=lambda i: i[0])]. *)
Definition key_le {V : Type} (p q : pystr * V) : Prop :=
  pystr_leb (fst p) (fst q) = true.

(** The keys of a Python [dict] are distinct. *)
Fixpoint distinct (ks : list pystr) : bool :=
  match ks with
  | [] => true
  | k :: rest => negb (existsb (pystr_eqb k) rest) && distinct rest
  end.

(** ** Statements about the hash *)

(** A digit of lowercase hexadecimal, and the number that a string of
    them stands for. *)
Definition is_lower_hex (c : pychar) : bool :=
  (((48 <=? c) && (c <=? 57)) || ((97 <=? c) && (c <=? 102)))%N.

Definition hex_digit_value (c : pychar) : Z :=
  if (c <? 58)%N then Z.of_N c - 48 else Z.of_N c - 87.

Definition hex_value (s : pystr) : Z :=
  fold_left (fun a c => 16 * a + hex_digit_value c)%Z s 0%Z.

(** No zero stands before the first digit that counts. *)
Definition not_padded (s : pystr) : bool :=
  match s with
  | [] => false
  | [_] => true
  | c :: _ => negb (c =? 48)%N
  end.

(** The same tree with the items of its mappings in another order. *)
Inductive reordered : value -> value -> Prop :=
| reordered_refl v : reordered v v
| reordered_list l l' :
    Forall2 reordered l l' -> reordered (VList l) (VList l')
| reordered_tuple l l' :
    Forall2 reordered l l' -> reordered (VTuple l) (VTuple l')
| reordered_dict d d' d'' :
    distinct (dict_keys d) = true ->
    Forall2 (fun p q => fst p = fst q /\ reordered (snd p) (snd q)) d d' ->
    Permutation d' d'' ->
    reordered (VDict d) (VDict d'').

(** A literal in which ['] is written for the double quote. *)
Definition dq (s : string) : pystr :=
  map (fun c => if (c =? 39)%N then 34%N else c) (lit s).

(** The hash view of the node [test.foo] of the tests as [json.dumps]
    writes it, and as it is without the space after [,] and [:]. *)
Definition foo_dump : pystr :=
  dq "{'foo': {'a': 'a', 'b': 'b', 'd': 'd', 'e': null}}".

Definition foo_dump_compact : pystr :=
  dq "{'foo':{'a':'a','b':'b','d':'d','e':null}}".

(** ['_hash' not in self._node_conf] for the node [self] of a flux. *)
Definition no_given_hash (self : node_id) (fx : node.Flux) : bool :=
  match node.lookup_node self fx with
  | Some nd =>
      match node.n_node_conf nd with
      | Some (VDict nc) => negb (dict_mem (lit "_hash") nc)
      | _ => false
      end
  | None => false
  end.

(** The flux of [flow(conf)] where [_setup_node] of its first node is
    about to make the hash: the flow is added, the scopes and the nodes
    are merged, and the node has its views and no links. *)
Definition flux_before_hash (conf : dict) : res unit * node.Flux :=
  (let* _ := node._add_flow conf None in
   let* fx := get in
   let scopes := map snd (node.fx_scopes fx) in
   let* _ := node.for_each (node._merge_scope 16) scopes in
   let* _ := node.for_each (node._merge_nodes 16) scopes in
   node.setup_own tests.find tests.install 16 0)
    (node.new_flux [] (lit ".") fs_empty).

(** ** Statements about [copy_props] *)

(** [[foo, bar] -> foo.bar.], the prefix that [copy_props] makes of its
    [prefixes], and nothing where there are none. *)
Definition prefix_of (prefixes : list pystr) : pystr :=
  match prefixes with
  | [] => []
  | _ => join (lit ".") prefixes ++ lit "."
  end.

(** ** Statements about [_split_args] *)

(** A keyword that [_split_args] leaves among the keyword arguments: the
    name of a keyword-only parameter or of [**kwargs], or no name of a
    parameter at all. *)
Definition stays_keyword (sign : func.Signature) (k : pystr) : bool :=
  match func.find_param k sign with
  | Some p =>
      match func.p_kind p with
      | func.KEYWORD_ONLY | func.VAR_KEYWORD => true
      | _ => false
      end
  | None => true
  end.

(** An item whose key is no meta key, that is, does not begin with [_]. *)
Definition not_meta (kv : pystr * value) : bool :=
  negb (startswith (lit "_") (fst kv)).

(** A value that every rewriter of the base class returns as it is: a
    string, a number, a truth value or [None]. *)
Definition plain_value (v : value) : bool :=
  match v with
  | VNone | VBool _ | VInt _ | VFloat _ | VStr _ => true
  | _ => false
  end.

(** ** Statements about the strings that are links *)

(** The name of a node in a link, after the sigil [kind]: it is not
    empty, does not begin with the sigil again, and holds no line break,
    none of [/], [|] and [:], and no [#]. *)
Definition link_name_ok (kind : pychar) (name : pystr) : bool :=
  match name with
  | [] => false
  | c :: _ =>
      negb (kind =? c)%N
      && forallb (fun c => negb (conf.is_newline c || conf.is_suffix_start c
                                 || (c =? 35)%N)) name
  end.

(** What follows the name: nothing, or one of [/], [|] and [:] and a
    text with no line break and no [#]. *)
Definition link_suffix_ok (suffix : pystr) : bool :=
  match suffix with
  | [] => true
  | c :: rest =>
      conf.is_suffix_start c
      && forallb (fun c => negb (conf.is_newline c || (c =? 35)%N)) rest
  end.

(** A key under which a value may reach the function: no comment, no
    conversion type, and one that begins with [_] only where it names a
    parameter of the function. *)
Definition call_key_ok (func_pars : list pystr) (k : pystr) : bool :=
  negb (startswith (lit "#") k)
  && negb (startswith (lit "_type.") k)
  && (negb (startswith (lit "_") k) || existsb (pystr_eqb k) func_pars).

(** Neither a link nor an object nor a tuple is in [v], but for what
    stands under a comment. *)
Fixpoint no_object (v : value) : bool :=
  match v with
  | VList l => forallb no_object l
  | VDict d =>
      forallb (fun kv => startswith (lit "#") (fst kv) || no_object (snd kv)) d
  | VTuple _ | VLink _ | VObj _ _ _ _ => false
  | _ => true
  end.

(** The dumpable configuration as a function of the value, [depth] being
    the depth of [v]: a list or a tuple is the list of its elements
    rewritten; a mapping keeps its items in their order but [_agent] at
    depth 1, the value under a comment as it is and the other values
    rewritten; a link is its string down to depth 2 and [None] below; an
    object is [None]; everything else is kept. *)
Fixpoint flow_conf_spec (link_str : Link -> pystr) (depth : Z) (v : value)
    {struct v} : value :=
  match v with
  | VList l | VTuple l => VList (map (flow_conf_spec link_str (depth + 1)) l)
  | VDict d =>
      VDict
        (dict_of_items
           (List.filter
              (fun kv => negb ((depth + 1 =? 1)%Z && pystr_eqb (fst kv) (lit "_agent")))
              (map (fun kv => (fst kv,
                               if startswith (lit "#") (fst kv) then snd kv
                               else flow_conf_spec link_str (depth + 1) (snd kv)))
                   d)))
  | VLink l => if (depth <=? 2)%Z then VStr (link_str l) else VNone
  | VObj _ _ _ _ => VNone
  | _ => v
  end.

(** The nodes that the outgoing links of the graph lead to, and the nodes
    that its incoming links come from. *)
Definition targets (g : graph.Graph) : list node_id :=
  map l_target (concat (map snd (graph._outgoing g))).

Definition sources (g : graph.Graph) : list node_id :=
  map l_source (concat (map snd (graph._incoming g))).

(** The nodes of [us] that are not on the branch. *)
Definition unseen (us branch : list node_id) : list node_id :=
  List.filter (fun u => negb (existsb (Nat.eqb u) branch)) us.

(** What [tree] may return from [node] when it began with [nodes] and
    [links]: these and the node are kept, every new link is a link of
    the graph, and not an internal one where these are left out, and
    every new node is at an end of a link of the graph. *)
Definition tree_result (g : graph.Graph) (omit_internal : bool)
    (nodes : list node_id) (links : list Link) (node : option node_id)
    (ns : list node_id) (ls : list Link) : Prop :=
  incl nodes ns /\ incl links ls
  /\ (forall n, node = Some n -> In n ns)
  /\ (forall l, In l ls ->
        In l links
        \/ In l (graph.edges g) /\ (omit_internal = true -> internal l = false))
  /\ (forall n, In n ns ->
        In n nodes \/ node = Some n
        \/ exists l, In l (graph.edges g) /\ (n = l_source l \/ n = l_target l)).

(** The [RecursionError] of a loop. *)
Definition loop_detected (msg : pystr) : exn :=
  Exn RecursionError (lit "loop detected: " ++ msg) None.

(** The loop [for link in self._outgoing[node]] of [Graph._tree], and the
    one over [self._incoming[node]]: [next] is the end of the link that
    the walk goes to, [branch] the branch with the node at its end, [trail]
    the order in which a loop is named, [sep] the arrow between its names,
    and [rec] the call of [_tree] for the next node. *)
Section TreeWalk.
Context {St : Type} (repr_node : node_id -> M St pystr) (omit_internal : bool)
        (next : Link -> node_id) (sep : pystr)
        (trail : list node_id -> list node_id) (branch : list node_id)
        (rec : node_id -> list node_id -> list Link
               -> M St (list node_id * list Link)).

Fixpoint tree_walk (out : list Link) (nodes : list node_id) (links : list Link)
    : M St (list node_id * list Link) :=
  match out with
  | [] => ret (nodes, links)
  | link :: rest =>
      if omit_internal && internal link then tree_walk rest nodes links
      else
        let target := next link in
        if existsb (Nat.eqb target) branch then
          let* names := graph.loop_names repr_node (trail (branch ++ [target])) target in
          raise (Exn RecursionError
                   (lit "loop detected: " ++ join sep names) None)
        else
          let links := graph.oset_add graph.link_eqb link links in
          let* (nodes, links) := rec target nodes links in
          tree_walk rest nodes links
  end.
End TreeWalk.

(** The links that the walk of [tree] follows out of a node. *)
Definition out_links (g : graph.Graph) (omit_internal : bool) (n : node_id)
    : list Link :=
  List.filter (fun l => negb (omit_internal && internal l))
    match graph.adj_get n (graph._outgoing g) with
    | Some out => out
    | None => []
    end.

(** A chain of such links that begins at [n]. *)
Fixpoint is_walk (g : graph.Graph) (omit_internal : bool) (n : node_id)
    (path : list Link) : Prop :=
  match path with
  | [] => True
  | l :: p => In l (out_links g omit_internal n)
              /\ is_walk g omit_internal (l_target l) p
  end.

(** Two small graphs as [add_link] builds them: one link from node 0 to
    node 1, and with it a second link back. *)
Definition link_of (id : nat) (source target : node_id) : Link :=
  {| l_id := id; l_source := source; l_target := target;
     l_param := Some (lit "x"); l_value := None; l_kind := 64%N |}.

Definition graph_line : graph.Graph :=
  {| graph._nodes := [0; 1]%nat;
     graph._outgoing := [(0%nat, [link_of 0 0 1])];
     graph._incoming := [(1%nat, [link_of 0 0 1])] |}.

Definition graph_loop : graph.Graph :=
  {| graph._nodes := [0; 1]%nat;
     graph._outgoing := [(0%nat, [link_of 0 0 1]); (1%nat, [link_of 1 1 0])];
     graph._incoming := [(1%nat, [link_of 0 0 1]); (0%nat, [link_of 1 1 0])] |}.

(** A function of two positional parameters,
    [def pair(a, b): return a, b]. *)
Definition pair_sign : func.Signature :=
  [ {| func.p_name := lit "a"; func.p_kind := func.POSITIONAL_OR_KEYWORD;
       func.p_default := None |};
    {| func.p_name := lit "b"; func.p_kind := func.POSITIONAL_OR_KEYWORD;
       func.p_default := None |} ].

Definition pair_body (pos : list value) (kw : dict) : res value :=
  match pos, kw with
  | [a; b], [] => Ok (VTuple [a; b])
  | _, _ => Raise (Exn TypeError (lit "pair() takes two arguments") None)
  end.

Definition pair : func.Func :=
  {| func.name := lit "pair"; func.func := pair_body;
     func.code := None; func.sign := Some pair_sign;
     func.coerce := fun _ v => v; func.fake_sign := fun _ => Ok tt |}.




(** The scope [test] with a node [foo], and a flux that holds it under
    its name. *)
Definition scope_foo : node.Scope :=
  {| node.s_name := lit "test"; node.s_conf := [];
     node.s_props := []; node.s_nodes := [(lit "foo", 0%nat)];
     node.s_base_scope := None |}.

Definition flux_foo : node.Flux :=
  node.with_scopes [(lit "test", 0%nat)]
    (node.with_scope_tab [scope_foo] (node.new_flux [] (lit "data") fs_empty)).

(** * Properties *)

(** ** The graph: [add_link] *)

Section GraphFacts.
Import graph.

#[local] Arguments adj_mem : simpl never.

Lemma oset_add_keeps {A} (eqb : A -> A -> bool) x y (d : list A) :
  In y d -> In y (oset_add eqb x d).
Proof.
  unfold oset_add. destruct (existsb (eqb x) d); intros H; [exact H|].
  apply in_or_app. now left.
Qed.

Lemma oset_add_node_in x (d : list node_id) : In x (oset_add Nat.eqb x d).
Proof.
  unfold oset_add. destruct (existsb (Nat.eqb x) d) eqn:E.
  - apply existsb_exists in E. destruct E as [y [Hy Heq]].
    apply Nat.eqb_eq in Heq. now subst.
  - apply in_or_app. right. now left.
Qed.

Lemma oset_add_link_inv link l (d : list Link) :
  In l (oset_add link_eqb link d) -> l = link \/ In l d.
Proof.
  unfold oset_add. destruct (existsb (link_eqb link) d); intros H.
  - now right.
  - apply in_app_or in H. destruct H as [H|[H|[]]]; auto.
Qed.

Lemma oset_add_link_has link (d : list Link) :
  existsb (link_eqb link) (oset_add link_eqb link d) = true.
Proof.
  unfold oset_add. destruct (existsb (link_eqb link) d) eqn:E; [exact E|].
  rewrite existsb_app. simpl. unfold link_eqb at 2. rewrite Nat.eqb_refl.
  now rewrite orb_true_r.
Qed.

Lemma adj_set_fresh_edges n adj l :
  In l (concat (map snd (adj_set n [] adj))) -> adj_mem n adj = false ->
  In l (concat (map snd adj)).
Proof.
  induction adj as [|[m ls] adj IH]; simpl; intros H Hm.
  - destruct H.
  - unfold adj_mem in Hm. simpl in Hm. apply orb_false_elim in Hm.
    destruct Hm as [Hm1 Hm2]. rewrite Hm1 in H. simpl in H.
    apply in_app_or in H. apply in_or_app. destruct H as [H|H]; auto.
Qed.

Lemma adj_add_edges n link adj l :
  In l (concat (map snd (adj_add n link adj))) ->
  l = link \/ In l (concat (map snd adj)).
Proof.
  induction adj as [|[m ls] adj IH]; simpl; intros H.
  - destruct H.
  - destruct (m =? n)%nat; simpl in H; apply in_app_or in H.
    + destruct H as [H|H].
      * apply oset_add_link_inv in H. destruct H; auto.
        right. apply in_or_app. auto.
      * right. apply in_or_app. auto.
    + destruct H as [H|H].
      * right. apply in_or_app. auto.
      * destruct (IH H); auto. right. apply in_or_app. auto.
Qed.

Lemma adj_get_set n ls adj : adj_get n (adj_set n ls adj) = Some ls.
Proof.
  induction adj as [|[m old] adj IH]; simpl.
  - now rewrite Nat.eqb_refl.
  - destruct (m =? n)%nat eqn:E; simpl; rewrite E; auto.
Qed.

Lemma adj_mem_get n adj : adj_mem n adj = true -> exists ls, adj_get n adj = Some ls.
Proof.
  induction adj as [|[m old] adj IH]; simpl; [discriminate|].
  unfold adj_mem. simpl. destruct (m =? n)%nat; eauto.
Qed.

Lemma adj_add_get n link adj ls :
  adj_get n adj = Some ls ->
  adj_get n (adj_add n link adj) = Some (oset_add link_eqb link ls).
Proof.
  induction adj as [|[m old] adj IH]; simpl; [discriminate|].
  destruct (m =? n)%nat eqn:E; simpl; rewrite E; auto.
  intros H. now inversion H.
Qed.

Lemma add_link_self link_str link g :
  l_source link = l_target link ->
  add_link link_str link g
  = (Raise (Exn RecursionError
              (lit "Link failed: " ++ link_str link ++ lit " (self reference)")
              None), g).
Proof.
  intros Heq. unfold add_link. apply Nat.eqb_eq in Heq. now rewrite Heq.
Qed.

Lemma add_link_ok link_str link g :
  l_source link <> l_target link ->
  add_link link_str link g = (Ok tt, after_add_link link g).
Proof.
  intros Hne. unfold add_link. apply Nat.eqb_neq in Hne. rewrite Hne.
  unfold bind, modify, after_add_link. simpl.
  destruct (adj_mem (l_source link) (_outgoing g)) eqn:E1;
    destruct (adj_mem (l_target link) (_incoming g)) eqn:E2;
    cbn; rewrite ?E1, ?E2; reflexivity.
Qed.

Lemma after_add_link_edges link g l :
  In l (edges (after_add_link link g)) -> l = link \/ In l (edges g).
Proof.
  unfold edges, after_add_link. simpl. intros H.
  apply in_app_or in H. destruct H as [H|H]; apply adj_add_edges in H;
    destruct H as [H|H]; auto; right; apply in_or_app.
  - left. destruct (adj_mem (l_source link) (_outgoing g)) eqn:E; simpl in H; auto.
    eapply adj_set_fresh_edges; eauto.
  - right. destruct (adj_mem (l_target link) (_incoming g)) eqn:E; simpl in H; auto.
    eapply adj_set_fresh_edges; eauto.
Qed.

Lemma after_add_link_registered link g : registered link (after_add_link link g).
Proof.
  unfold registered, after_add_link. simpl. split.
  - destruct (adj_mem (l_source link) (_outgoing g)) eqn:E; simpl.
    + destruct (adj_mem_get _ _ E) as [ls Hls].
      eexists. split; [apply adj_add_get; eauto|]. apply oset_add_link_has.
    + eexists. split; [apply adj_add_get; apply adj_get_set|].
      apply oset_add_link_has.
  - destruct (adj_mem (l_target link) (_incoming g)) eqn:E; simpl.
    + destruct (adj_mem_get _ _ E) as [ls Hls].
      eexists. split; [apply adj_add_get; eauto|]. apply oset_add_link_has.
    + eexists. split; [apply adj_add_get; apply adj_get_set|].
      apply oset_add_link_has.
Qed.

Lemma after_add_link_graph_ok link g :
  l_source link <> l_target link -> graph_ok g -> graph_ok (after_add_link link g).
Proof.
  intros Hne Hok l Hl. apply after_add_link_edges in Hl. destruct Hl as [->|Hl].
  - split; [exact Hne|]. split; simpl.
    + apply oset_add_keeps. apply oset_add_node_in.
    + apply oset_add_node_in.
  - destruct (Hok l Hl) as [H1 [H2 H3]].
    split; [exact H1|].
    split; simpl; do 2 apply oset_add_keeps; assumption.
Qed.

(** The loop of [_setup_node] over the links of a node, which all have
    the node as target, adds each link but those of the node to itself;
    [add_link] never raises there. *)
Lemma link_nodes_graph_ok self fx0 links :
  forall fx,
    (forall l, In l links -> l_target l = self) ->
    graph_ok (node.fx_graph fx) ->
    exists g', node.link_nodes self fx0 links fx = (Ok tt, node.with_graph g' fx)
               /\ graph_ok g'.
Proof.
  induction links as [|link rest IH]; intros fx Ht Hok.
  - exists (node.fx_graph fx). split; [|exact Hok].
    simpl. unfold ret. now destruct fx.
  - simpl. unfold bind.
    destruct (l_source link =? self)%nat eqn:E; simpl.
    + unfold ret. apply IH; [intros; apply Ht; now right|exact Hok].
    + unfold node.in_graph.
      assert (Hne : l_source link <> l_target link).
      { rewrite (Ht link) by now left. now apply Nat.eqb_neq. }
      rewrite (add_link_ok _ _ _ Hne).
      destruct (IH (node.with_graph (after_add_link link (node.fx_graph fx)) fx))
        as [g' [Hrun Hg']].
      * intros; apply Ht; now right.
      * simpl. now apply after_add_link_graph_ok.
      * exists g'. split; [|exact Hg']. rewrite Hrun. now destruct fx.
Qed.

(** C8. Adding a link whose source is its target raises [RecursionError]
    and leaves the graph as it was; adding any other link returns with
    both ends among the nodes of the graph and the link in the outgoing
    links of its source and the incoming links of its target; so, if no
    link of the graph joined a node to itself before [add_link], none
    does after it, and all ends of links are nodes of the graph. *)
Theorem add_link_keeps_graph_ok
    (link_str : Link -> pystr) (g : Graph) (link : Link) :
  graph_ok g ->
  (l_source link = l_target link ->
     exists msg,
       add_link link_str link g = (Raise (Exn RecursionError msg None), g))
  /\ (l_source link <> l_target link ->
      exists g',
        add_link link_str link g = (Ok tt, g')
        /\ In (l_source link) (_nodes g') /\ In (l_target link) (_nodes g')
        /\ registered link g'
        /\ graph_ok g').
Proof.
  intros Hok. split.
  - intros Heq. eexists. now apply add_link_self.
  - intros Hne. exists (after_add_link link g).
    split; [now apply add_link_ok|].
    split; [simpl; apply oset_add_keeps; apply oset_add_node_in|].
    split; [simpl; apply oset_add_node_in|].
    split; [apply after_add_link_registered|].
    now apply after_add_link_graph_ok.
Qed.

Lemma graph_ok_empty : graph_ok graph.empty.
Proof. intros l H. destruct H. Qed.

Lemma add_link_keeps_graph_ok_witness :
  graph_ok graph.empty
  /\ exists g',
       add_link (fun _ => []) {| l_id := 0; l_source := 0; l_target := 1;
                                 l_param := None; l_value := None;
                                 l_kind := 64%N |} graph.empty = (Ok tt, g')
       /\ graph_ok g'.
Proof.
  split; [exact graph_ok_empty|].
  destruct (add_link_keeps_graph_ok (fun _ => []) graph.empty
              {| l_id := 0; l_source := 0; l_target := 1; l_param := None;
                 l_value := None; l_kind := 64%N |} graph_ok_empty)
    as [_ H].
  destruct H as [g' [H1 [_ [_ [_ H2]]]]]; [simpl; lia|].
  exists g'. split; assumption.
Defined.
End GraphFacts.

Ltac dlia := Z.div_mod_to_equations; lia.

(** ** The file helpers *)

Section FileFacts.
Import utils.

Lemma res_bind_ok {A B} (r : res A) (k : A -> res B) b :
  res_bind r k = Ok b -> exists a, r = Ok a /\ k a = Ok b.
Proof. destruct r; simpl; [eauto|discriminate]. Qed.

(** *** UTF-8 *)






(** *** Paths *)

Lemma pystr_eqb_eq a b : pystr_eqb a b = true <-> a = b.
Proof.
  revert b. induction a as [|c a IH]; intros [|d b]; simpl; split; try easy.
  - intros H. apply andb_prop in H. destruct H as [H1 H2].
    apply N.eqb_eq in H1. apply IH in H2. now subst.
  - intros [= -> ->]. rewrite N.eqb_refl. now apply IH.
Qed.

Lemma pystr_eqb_false a b : a <> b -> pystr_eqb a b = false.
Proof.
  intros H. destruct (pystr_eqb a b) eqn:E; [|reflexivity].
  now apply pystr_eqb_eq in E.
Qed.

Lemma head_of_basename p : os.head_of p ++ os.basename p = p.
Proof.
  unfold os.basename. induction p as [|c r IH]; [reflexivity|].
  cbn [os.head_of]. destruct (existsb (N.eqb 47) (c :: r)); [|reflexivity].
  cbn [length skipn app]. now rewrite IH.
Qed.

Lemma head_of_no_slash p s :
  existsb (N.eqb 47) s = false -> os.head_of (p ++ s) = os.head_of p.
Proof.
  intros Hs. induction p as [|c r IH].
  - destruct s as [|d s]; [reflexivity|]. cbn [app os.head_of]. now rewrite Hs.
  - cbn [app os.head_of]. rewrite IH.
    replace (existsb (N.eqb 47) (c :: r ++ s)) with (existsb (N.eqb 47) (c :: r));
      [reflexivity|].
    cbn [existsb]. f_equal. rewrite existsb_app, Hs. now rewrite orb_false_r.
Qed.

Lemma head_of_ends p : os.head_of p = [] \/ exists h, os.head_of p = h ++ [47%N].
Proof.
  induction p as [|c r IH]; [now left|].
  cbn [os.head_of]. destruct (existsb (N.eqb 47) (c :: r)) eqn:E; [|now left].
  right. destruct IH as [IH|[h IH]]; rewrite IH.
  - exists []. cbn [existsb] in E.
    destruct (existsb (N.eqb 47) r) eqn:Er.
    + destruct r as [|d r]; [discriminate|]. cbn [os.head_of] in IH.
      rewrite Er in IH. discriminate.
    + rewrite orb_false_r in E. apply N.eqb_eq in E. now subst.
  - now exists (c :: h).
Qed.

Lemma rstrip_slash_snoc h : os.rstrip_slash (h ++ [47%N]) = os.rstrip_slash h.
Proof.
  induction h as [|c h IH]; [reflexivity|].
  cbn [app os.rstrip_slash]. now rewrite IH.
Qed.

Lemma rstrip_slash_prefix s : exists t, os.rstrip_slash s ++ t = s.
Proof.
  induction s as [|c s [t IH]]; [now exists []|].
  cbn [os.rstrip_slash]. destruct (os.rstrip_slash s) as [|d r].
  - destruct (c =? 47)%N; [now exists (c :: s)|now exists s].
  - exists t. cbn [app] in *. now rewrite IH.
Qed.

Lemma dirname_prefix p : exists t, os.dirname p ++ t = p.
Proof.
  unfold os.dirname. destruct (forallb (N.eqb 47) (os.head_of p)).
  - exists (os.basename p). apply head_of_basename.
  - destruct (rstrip_slash_prefix (os.head_of p)) as [t Ht].
    exists (t ++ os.basename p). rewrite app_assoc, Ht. apply head_of_basename.
Qed.

Lemma dirname_le p : (length (os.dirname p) <= length p)%nat.
Proof.
  destruct (dirname_prefix p) as [t Ht]. rewrite <- Ht at 2.
  rewrite length_app. lia.
Qed.

(** Only a path of slashes is its own directory. *)
Lemma dirname_fixed p : os.dirname p = p -> forallb (N.eqb 47) p = true.
Proof.
  unfold os.dirname. destruct (forallb (N.eqb 47) (os.head_of p)) eqn:E; intros H.
  - now rewrite H in E.
  - exfalso. destruct (head_of_ends p) as [Hn|[h Hh]].
    + rewrite Hn in E. discriminate.
    + rewrite Hh, rstrip_slash_snoc in H.
      destruct (rstrip_slash_prefix h) as [t Ht].
      pose proof (head_of_basename p) as Hp. rewrite Hh in Hp.
      apply (f_equal (@length _)) in Hp, Ht, H.
      rewrite !length_app in Hp. rewrite length_app in Ht. simpl in Hp. lia.
Qed.

Lemma above_shorter n : forall q a,
  In a (os.above n q) -> (length a < length q)%nat.
Proof.
  induction n as [|n IH]; intros q a; [easy|]. cbn [os.above].
  destruct (pystr_eqb (os.dirname q) []); [easy|]. cbn [orb].
  destruct (pystr_eqb (os.dirname q) q) eqn:E; [easy|].
  assert (Hd : (length (os.dirname q) < length q)%nat).
  { destruct (dirname_prefix q) as [t Ht]. destruct t as [|x t].
    - rewrite app_nil_r in Ht. apply pystr_eqb_eq in Ht. congruence.
    - rewrite <- Ht at 2. rewrite length_app. simpl. lia. }
  intros [<-|H]; [exact Hd|]. apply IH in H. lia.
Qed.

(** A path that is not made of slashes is none of the directories that
    [os.makedirs] makes for its directory. *)
Lemma not_in_made p :
  forallb (N.eqb 47) p = false ->
  ~ In p (os.dirname p :: os.ancestors (os.dirname p)).
Proof.
  intros Hp [H|H].
  - apply dirname_fixed in H. congruence.
  - apply above_shorter in H. pose proof (dirname_le p). lia.
Qed.

(** A path below its directory is longer than what is made for the
    directory. *)
Lemma longer_not_in_made d p :
  (length d < length p)%nat -> ~ In p (d :: os.ancestors d).
Proof.
  intros Hl [H|H]; [subst; lia|]. apply above_shorter in H. lia.
Qed.

(** The paths of slashes in normal form: the root only. *)
Lemma normal_slashes p :
  os.is_normal p = true -> forallb (N.eqb 47) p = true -> p = lit "/".
Proof.
  unfold os.is_normal. intros Hn Hs.
  destruct (pystr_eqb p (lit "/")) eqn:E; [now apply pystr_eqb_eq in E|].
  exfalso. cbn [orb] in Hn. destruct p as [|c p]; [discriminate|].
  cbn [forallb] in Hs. apply andb_prop in Hs. destruct Hs as [Hc Hs].
  apply N.eqb_eq in Hc. subst c.
  change (startswith (lit "/") (47%N :: p)) with true in Hn. cbn [tl] in Hn.
  destruct p as [|c p]; [discriminate|].
  cbn [forallb] in Hs. apply andb_prop in Hs. destruct Hs as [Hc Hs].
  apply N.eqb_eq in Hc. subst c. discriminate.
Qed.

Lemma components_cons p : exists x xs, os.components p = x :: xs.
Proof.
  induction p as [|c r [x [xs IH]]]; [now exists [], []|].
  cbn [os.components]. rewrite IH. destruct (c =? 47)%N; eauto.
Qed.

Lemma components_no_slash r :
  existsb (N.eqb 47) r = false -> os.components r = [r].
Proof.
  induction r as [|c r IH]; [reflexivity|]. cbn [existsb os.components].
  intros H. apply orb_false_elim in H. destruct H as [Hc Hr].
  rewrite N.eqb_sym in Hc. rewrite Hc, (IH Hr). reflexivity.
Qed.

Lemma components_slash r :
  existsb (N.eqb 47) r = true -> exists x y ys, os.components r = x :: y :: ys.
Proof.
  induction r as [|c r IH]; [discriminate|]. cbn [existsb os.components].
  rewrite (N.eqb_sym 47 c). destruct (c =? 47)%N; cbn [orb]; intros H.
  - destruct (components_cons r) as [x [xs E]]. rewrite E. eauto.
  - destruct (IH H) as [x [y [ys E]]]. rewrite E. eauto.
Qed.

Lemma basename_components p : os.basename p = List.last (os.components p) [].
Proof.
  unfold os.basename. induction p as [|c r IH]; [reflexivity|].
  cbn [os.head_of os.components existsb]. rewrite (N.eqb_sym 47 c).
  destruct (c =? 47)%N eqn:Ec; cbn [orb].
  - cbn [length skipn]. rewrite IH.
    destruct (components_cons r) as [x [xs E]]. rewrite E. reflexivity.
  - destruct (existsb (N.eqb 47) r) eqn:Er.
    + cbn [length skipn]. rewrite IH.
      destruct (components_slash r Er) as [x [y [ys E]]]. rewrite E. reflexivity.
    + rewrite (components_no_slash r Er). reflexivity.
Qed.

(** A path in normal form that is not the root has a name. *)
Lemma normal_name p :
  os.is_normal p = true -> p <> lit "/" -> os.basename p <> [].
Proof.
  unfold os.is_normal. intros Hn Hr.
  rewrite pystr_eqb_false in Hn by exact Hr. cbn [orb] in Hn.
  assert (Hb : os.basename p
               = os.basename (if startswith (lit "/") p then tl p else p)).
  { destruct p as [|c p]; [reflexivity|].
    change (startswith (lit "/") (c :: p)) with ((47 =? c)%N && true).
    destruct (47 =? c)%N eqn:Ec; [|reflexivity].
    cbn [andb tl]. unfold os.basename. cbn [os.head_of existsb]. now rewrite Ec. }
  rewrite Hb, basename_components.
  set (q := if startswith (lit "/") p then tl p else p) in *.
  assert (Hl : forall l : list pystr, l <> [] -> forallb os.is_name l = true ->
                 List.last l [] <> []).
  { induction l as [|x l IH]; [easy|]. intros _ H.
    cbn [forallb] in H. apply andb_prop in H. destruct H as [Hx Hl].
    destruct l as [|y l]; [|apply IH; [discriminate|exact Hl]].
    simpl. intros ->. discriminate. }
  apply Hl; [|exact Hn].
  destruct q as [|c q]; [discriminate|]. simpl.
  destruct (c =? 47)%N; [discriminate|]. destruct (os.components q); discriminate.
Qed.

(** *** Reading and writing bytes *)

Lemma read_bytes_is_file src f b : os.read_bytes src f = Some b -> os.is_file src f = true.
Proof.
  unfold os.read_bytes, os.is_file.
  destruct (os.fs_names f !! src); [reflexivity|discriminate].
Qed.


(** [os.makedirs] where it can make the directory: the files stay, the
    directory and those above it are there. *)
Lemma makedirs_ok dir f :
  can_make_dir dir f = true ->
  os.makedirs dir f
  = (Ok tt, os.with_dirs (list_to_set (dir :: os.ancestors dir) ∪ os.fs_dirs f) f).
Proof.
  unfold can_make_dir, os.makedirs. intros H.
  apply andb_prop in H. destruct H as [Hn H]. apply negb_true_iff in Hn. rewrite Hn.
  cbn [forallb] in H. apply andb_prop in H. destruct H as [Hd Ha].
  apply negb_true_iff in Hd. rewrite Hd.
  destruct (existsb (fun a => os.is_file a f) (os.ancestors dir)) eqn:E; [|reflexivity].
  exfalso. apply existsb_exists in E. destruct E as [a [Hin Hf]].
  rewrite List.forallb_forall in Ha. specialize (Ha a Hin). now rewrite Hf in Ha.
Qed.

Lemma is_dir_made dir l D f :
  os.is_file dir f = false ->
  os.is_dir dir (os.with_dirs (list_to_set (dir :: l) ∪ D) f) = true.
Proof.
  intros H. unfold os.is_dir, os.is_file in *. cbn [os.with_dirs os.fs_names os.fs_dirs].
  destruct (os.fs_names f !! dir); [discriminate|]. cbn [negb andb].
  rewrite bool_decide_eq_true_2; [now rewrite orb_true_r|].
  apply elem_of_union_l, elem_of_list_to_set, elem_of_cons. now left.
Qed.

Lemma is_dir_not_made p l f :
  os.is_dir p f = false -> ~ In p l ->
  os.is_dir p (os.with_dirs (list_to_set l ∪ os.fs_dirs f) f) = false.
Proof.
  unfold os.is_dir, os.is_file. cbn [os.with_dirs os.fs_names os.fs_dirs].
  intros H Hin. destruct (os.fs_names f !! p); [reflexivity|].
  cbn [negb andb] in *. apply orb_false_elim in H. destruct H as [H Hd].
  rewrite H. cbn [orb]. apply bool_decide_eq_false in Hd.
  apply bool_decide_eq_false. intros Hx. apply elem_of_union in Hx.
  destruct Hx as [Hx|Hx]; [|now apply Hd].
  apply elem_of_list_to_set, list_elem_of_In in Hx. now apply Hin.
Qed.



(** *** What [writelines] does before it writes *)


(** *** The text that [writelines] writes *)





(** *** The lines that [readlines] reads *)




Lemma rstrip_newline l : rstrip (l ++ [10%N]) = rstrip l.
Proof. unfold rstrip. rewrite rev_app_distr. reflexivity. Qed.







(** *** [copy_file] *)

Lemma copy_file_existing src dst f b :
  os.read_bytes src f = Some b -> os.is_file dst f = true ->
  copy_file src dst f = (Ok tt, f).
Proof.
  intros Hs Hd. unfold copy_file, bind, get.
  rewrite (read_bytes_is_file _ _ _ Hs). simpl. rewrite Hd.
  unfold os.lstat_size. rewrite Hs. cbn beta iota. rewrite Hs. cbn beta iota.
  unfold ret. rewrite Z.eqb_refl. reflexivity.
Qed.

(** C7. The code at the failing input: a destination of three bytes is
    left as it is when the source has five, for the size that [copy_file]
    takes for that of the destination is the size of the source. *)
Theorem copy_file_keeps_stale_destination :
  os.read_bytes (lit "data/src") fs_stale = Some [1; 2; 3; 4; 5]%Z
  /\ os.read_bytes (lit "sync/dst") fs_stale = Some [9; 9; 9]%Z
  /\ copy_file (lit "data/src") (lit "sync/dst") fs_stale = (Ok tt, fs_stale).
Proof.
  split; [vm_compute; reflexivity|]. split; [vm_compute; reflexivity|].
  apply (copy_file_existing _ _ _ [1; 2; 3; 4; 5]%Z); vm_compute; reflexivity.
Qed.
End FileFacts.

Section CopyFacts.
Import utils.

Ltac fs_simpl :=
  cbn [os.with_names os.with_dirs os.fs_names os.fs_inodes os.fs_dirs
       os.fs_next os.fs_can_link].

Lemma tmp_differs (dst : pystr) : dst ++ lit ".tmp" <> dst.
Proof.
  intros H. apply (f_equal (@length _)) in H. rewrite length_app in H.
  simpl in H. lia.
Qed.

Lemma is_dir_same p f g :
  os.fs_names g !! p = os.fs_names f !! p -> os.fs_dirs g = os.fs_dirs f ->
  os.is_dir p g = os.is_dir p f.
Proof. intros H1 H2. unfold os.is_dir, os.is_file. now rewrite H1, H2. Qed.

(** [os.link] to a free name in a directory that is there. *)
Lemma link_free src dst f i :
  os.fs_names f !! src = Some i ->
  os.is_file dst f = false -> os.is_dir dst f = false ->
  os.is_dir (os.parent dst) f = true ->
  os.link src dst f
  = if os.fs_can_link f
    then (Ok tt, os.with_names (<[dst := i]> (os.fs_names f)) f)
    else (Raise (Exn OSError dst None), f).
Proof.
  intros Hs Hf Hd Hp. unfold os.link. rewrite Hs, Hf, Hd, Hp. cbn [orb negb].
  now destruct (os.fs_can_link f).
Qed.

(** [os.rename] of a regular file to a free name in a directory that is
    there. *)
Lemma rename_free tmp dst f k :
  os.fs_names f !! tmp = Some k ->
  os.fs_names f !! dst = None -> os.is_dir dst f = false ->
  os.is_dir (os.parent dst) f = true ->
  os.rename tmp dst f
  = (Ok tt, os.with_names (<[dst := k]> (delete tmp (os.fs_names f))) f).
Proof.
  intros Ht Hf Hd Hp. unfold os.rename. now rewrite Ht, Hd, Hf, Hp.
Qed.

(** [dst.with_name(dst.name + s)] of a path that has a name. *)
Lemma with_name_suffix dst s (f : os.fs) :
  dst <> lit "." -> os.basename dst <> [] ->
  with_name dst (os.name dst ++ s) f = (Ok (dst ++ s), f).
Proof.
  intros Hdot Hb. unfold with_name, os.name.
  rewrite (pystr_eqb_false dst (lit ".")) by exact Hdot.
  rewrite pystr_eqb_false by exact Hb.
  unfold ret. now rewrite app_assoc, head_of_basename.
Qed.

Lemma parent_suffix dst s :
  existsb (N.eqb 47) s = false -> os.parent (dst ++ s) = os.parent dst.
Proof.
  intros H. unfold os.parent, os.dirname. now rewrite head_of_no_slash.
Qed.

(** The directories that [os.makedirs] makes for the parent of a path
    that is no directory do not include the path, nor a longer one. *)
Lemma not_in_made_parent dst s :
  dst <> lit "." -> forallb (N.eqb 47) dst = false ->
  ~ In (dst ++ s) (os.parent dst :: os.ancestors (os.parent dst)).
Proof.
  intros Hdot Hns. unfold os.parent.
  destruct (os.dirname dst) as [|c d] eqn:E.
  - change (os.ancestors (lit ".")) with (@nil pystr).
    intros [H|[]]. destruct dst as [|x dst]; [discriminate|].
    destruct dst as [|y dst]; [|discriminate].
    destruct s; [|discriminate]. cbn [app] in H. now apply Hdot.
  - rewrite <- E. destruct s as [|x s].
    + rewrite app_nil_r. now apply not_in_made.
    + apply longer_not_in_made. pose proof (dirname_le dst).
      rewrite length_app. simpl. lia.
Qed.

(** A destination that is neither a file nor a directory gets the bytes
    of the source, by a hard link or, where the file system has none, by
    a copy that is renamed. *)
Lemma copy_file_fresh src dst f b :
  os.read_bytes src f = Some b ->
  os.is_normal dst = true ->
  os.is_file dst f = false ->
  os.is_dir dst f = false ->
  can_make_dir (os.parent dst) f = true ->
  os.is_dir (dst ++ lit ".tmp") f = false ->
  os.fs_names f !! src <> os.fs_names f !! (dst ++ lit ".tmp") ->
  exists f',
    copy_file src dst f = (Ok tt, f')
    /\ os.read_bytes dst f' = Some b
    /\ os.read_bytes src f' = Some b
    /\ (os.fs_can_link f = true ->
        os.fs_names f' !! dst = os.fs_names f !! src
        /\ os.fs_inodes f' = os.fs_inodes f)
    /\ (os.fs_can_link f = false -> os.is_file (dst ++ lit ".tmp") f' = false).
Proof.
  intros Hs Hn Hd Hdd Hp Htd Htmp. unfold copy_file, bind, get.
  rewrite (read_bytes_is_file _ _ _ Hs). cbn [negb]. rewrite Hd. unfold ret.
  rewrite (makedirs_ok _ _ Hp).
  set (f1 := os.with_dirs _ f).
  assert (Hn1 : os.fs_names f1 = os.fs_names f) by reflexivity.
  assert (Hi1 : os.fs_inodes f1 = os.fs_inodes f) by reflexivity.
  assert (Hx1 : os.fs_next f1 = os.fs_next f) by reflexivity.
  assert (Hc1 : os.fs_can_link f1 = os.fs_can_link f) by reflexivity.
  assert (Hroot : dst <> lit "/")
    by (intros ->; unfold os.is_dir in Hdd; rewrite Hd in Hdd; discriminate).
  assert (Hdot : dst <> lit ".")
    by (intros ->; unfold os.is_dir in Hdd; rewrite Hd in Hdd; discriminate).
  assert (Hns : forallb (N.eqb 47) dst = false).
  { destruct (forallb (N.eqb 47) dst) eqn:E; [|reflexivity].
    now destruct (Hroot (normal_slashes dst Hn E)). }
  assert (Hfp : os.is_file (os.parent dst) f = false).
  { unfold can_make_dir in Hp. apply andb_prop in Hp. destruct Hp as [_ Hp].
    cbn [forallb] in Hp. apply andb_prop in Hp. destruct Hp as [Hp _].
    now apply negb_true_iff in Hp. }
  assert (Hd1 : os.is_dir dst f1 = false).
  { apply is_dir_not_made; [exact Hdd|].
    pose proof (not_in_made_parent dst [] Hdot Hns) as H.
    now rewrite app_nil_r in H. }
  assert (Ht1 : os.is_dir (dst ++ lit ".tmp") f1 = false)
    by (apply is_dir_not_made; [exact Htd|now apply not_in_made_parent]).
  assert (Hp1 : os.is_dir (os.parent dst) f1 = true) by now apply is_dir_made.
  clearbody f1.
  unfold os.read_bytes in Hs. unfold os.is_file in Hd.
  destruct (os.fs_names f !! src) as [i|] eqn:Ei; [|discriminate].
  destruct (os.fs_names f !! dst) as [j|] eqn:Ej; [discriminate|].
  assert (Hsd : src <> dst) by (intros ->; congruence).
  assert (Hst : src <> dst ++ lit ".tmp") by (intros ->; congruence).
  assert (Ei1 : os.fs_names f1 !! src = Some i) by now rewrite Hn1.
  assert (Hf1 : os.is_file dst f1 = false)
    by (unfold os.is_file; now rewrite Hn1, Ej).
  unfold try_except, bind.
  rewrite (link_free src dst f1 i Ei1 Hf1 Hd1 Hp1), Hc1.
  destruct (os.fs_can_link f).
  - eexists. split; [reflexivity|]. unfold os.read_bytes. fs_simpl.
    rewrite Hn1, Hi1.
    rewrite lookup_insert_eq, lookup_insert_ne by (intros E; now apply Hsd).
    rewrite Ei. repeat split; try assumption; discriminate.
  - cbn [exn_cls is_OSError].
    rewrite (with_name_suffix dst (lit ".tmp") f1 Hdot (normal_name dst Hn Hroot)).
    unfold os.copy. rewrite Ht1. unfold os.read_bytes.
    rewrite Hn1, Hi1, Ei, Hs. rewrite bool_decide_eq_false_2 by exact Htmp.
    unfold os.write_bytes. rewrite Ht1, Hn1, Hi1, Hx1.
    destruct (os.fs_names f !! (dst ++ lit ".tmp")) as [k|] eqn:Ek.
    + assert (Hik : k <> i) by congruence.
      erewrite rename_free;
        [|fs_simpl; exact Ek|fs_simpl; exact Ej
         |rewrite (is_dir_same dst f1); [exact Hd1|..]; fs_simpl; now rewrite ?Hn1
         |rewrite (is_dir_same (os.parent dst) f1); [exact Hp1|..]; fs_simpl; now rewrite ?Hn1].
      eexists. split; [reflexivity|]. unfold os.read_bytes, os.is_file. fs_simpl.
      split; [now rewrite !lookup_insert_eq|].
      split; [|split; [discriminate|]].
      * rewrite lookup_insert_ne by congruence.
        rewrite lookup_delete_ne by congruence. rewrite Ei.
        now rewrite lookup_insert_ne by exact Hik.
      * intros _. rewrite lookup_insert_ne
          by (intros E; apply (tmp_differs dst); congruence).
        now rewrite lookup_delete_eq.
    + rewrite pystr_eqb_false by (destruct dst; discriminate).
      rewrite (parent_suffix dst (lit ".tmp") eq_refl), Hp1.
      erewrite rename_free;
        [|fs_simpl; apply lookup_insert_eq
         |fs_simpl; rewrite lookup_insert_ne by (apply tmp_differs); exact Ej
         |rewrite (is_dir_same dst f1); [exact Hd1|..]; fs_simpl;
          [rewrite lookup_insert_ne by (apply tmp_differs); now rewrite Hn1
          |reflexivity]
         |rewrite (is_dir_same (os.parent dst) f1); [exact Hp1|..]; fs_simpl;
          [rewrite lookup_insert_ne by (intros E; rewrite E in Ht1; congruence);
           now rewrite Hn1
          |reflexivity]].
      eexists. split; [reflexivity|]. unfold os.read_bytes, os.is_file. fs_simpl.
      split; [now rewrite !lookup_insert_eq|].
      split; [|split; [discriminate|]].
      * rewrite lookup_insert_ne by congruence.
        rewrite lookup_delete_ne by congruence.
        rewrite lookup_insert_ne by congruence. rewrite Ei.
        destruct (decide (os.fs_next f = i)) as [->|Hne].
        -- now rewrite lookup_insert_eq.
        -- now rewrite lookup_insert_ne by exact Hne.
      * intros _. rewrite lookup_insert_ne
          by (intros E; apply (tmp_differs dst); congruence).
        now rewrite lookup_delete_eq.
Qed.

(** The other half of C7 holds: a destination that does not exist gets the
    bytes of the source. *)
Lemma copy_file_new src dst f b :
  os.read_bytes src f = Some b ->
  os.is_normal dst = true ->
  os.is_file dst f = false ->
  os.is_dir dst f = false ->
  can_make_dir (os.parent dst) f = true ->
  os.is_dir (dst ++ lit ".tmp") f = false ->
  os.fs_names f !! src <> os.fs_names f !! (dst ++ lit ".tmp") ->
  exists f', copy_file src dst f = (Ok tt, f') /\ os.read_bytes dst f' = Some b.
Proof.
  intros Hs Hn Hd Hdd Hp Htd Htmp.
  destruct (copy_file_fresh src dst f b Hs Hn Hd Hdd Hp Htd Htmp) as (f' & H1 & H2 & _).
  eauto.
Qed.
End CopyFacts.

(** ** The hash that the configuration gives *)

Section GivenHash.
Import node.

Lemma spec_hash_shape_match s : spec_hash_shape s = true -> match_hash s = true.
Proof.
  unfold spec_hash_shape. destruct s as [|c s]; [discriminate|].
  intros H. apply andb_prop in H. destruct H as [_ H].
  simpl in H. apply andb_prop in H. now destruct H.
Qed.

(** What the code does with a given [_hash]: a string is taken as it is
    when its first character is one of [a-z0-9], and everything else is a
    [ValueError]. *)
Lemma _setup_hash_given hash_conf base_conf node_conf v :
  dict_get (lit "_hash") node_conf = Some v ->
  (exists s, v = VStr s /\ match_hash s = true
             /\ _setup_hash hash_conf base_conf node_conf = Ok (s, base_conf, node_conf))
  \/ ((forall s, v = VStr s -> match_hash s = false)
      /\ exists msg, _setup_hash hash_conf base_conf node_conf
                     = Raise (Exn ValueError msg None)).
Proof.
  intros Hv. unfold _setup_hash. rewrite Hv.
  destruct v as [| | | |s0| | | | |]; try (right; split; [discriminate|eexists; reflexivity]).
  destruct (match_hash s0) eqn:E.
  - left. exists s0. repeat split. exact E.
  - right. split; [|eexists; reflexivity]. intros s [= <-]. exact E.
Qed.

(** C2. The code at the failing input: the [_hash] of the configuration
    has nineteen characters, a hyphen and spaces among them, so it is not
    of the shape [a-z0-9]{1,8}; yet setup returns and the node has that
    string as its hash. *)
Theorem setup_takes_malformed_hash :
  spec_hash_shape long_hash = false
  /\ fst (tests.flow conf_long_hash) = Ok tt
  /\ option_map n_hash
       (tests.node_named (lit "test") (lit "foo") (snd (tests.flow conf_long_hash)))
     = Some (Some long_hash).
Proof. vm_compute. repeat split. Qed.

End GivenHash.

(** ** Mappings *)

Section DictFacts.
Context {V : Type}.
Implicit Types (d : list (pystr * V)) (p : pystr * V).

Lemma dict_set_In k v d p : In p (dict_set k v d) -> p = (k, v) \/ In p d.
Proof.
  induction d as [|[k' v'] d IH]; simpl.
  - intros [<-|[]]. now left.
  - destruct (pystr_eqb k k'); simpl.
    + intros [<-|H]; [now left|right; now right].
    + intros [<-|H]; [right; now left|].
      destruct (IH H) as [->|H']; [now left|right; now right].
Qed.

Lemma dict_update_In b : forall a p, In p (dict_update a b) -> In p a \/ In p b.
Proof.
  unfold dict_update. induction b as [|[k v] b IH]; simpl; intros a p H.
  - now left.
  - destruct (IH _ _ H) as [H'|H']; [|right; now right].
    destruct (dict_set_In _ _ _ _ H') as [->|H'']; [right; now left|now left].
Qed.

Lemma insert_by_key_perm p l : Permutation (insert_by_key p l) (p :: l).
Proof.
  induction l as [|q l IH]; simpl; [reflexivity|].
  destruct (pystr_leb (fst p) (fst q)); [reflexivity|].
  rewrite IH. apply perm_swap.
Qed.

Lemma sorted_items_perm d : Permutation (sorted_items d) d.
Proof.
  induction d as [|p d IH]; simpl; [reflexivity|].
  rewrite insert_by_key_perm. now constructor.
Qed.

Lemma dict_of_items_In d p : In p (dict_of_items d) -> In p d.
Proof.
  unfold dict_of_items. intros H.
  now destruct (dict_update_In _ _ _ H) as [[]|H'].
Qed.
End DictFacts.

Lemma sorted_dict_In (d : dict) p : In p (utils.sorted_dict d) -> In p d.
Proof.
  unfold utils.sorted_dict. intros H. apply dict_of_items_In in H.
  now apply (Permutation_in _ (sorted_items_perm d)).
Qed.

(** ** The hash view *)

Section HashView.
Import conf node.
Context (slug : node_id -> res pystr) (link_pickle : Link -> option (list Z)).

Abbreviation H := (RewriteHashConf slug link_pickle).
#[local] Arguments startswith : simpl never.

(** At depth 1 the loop of [_rewrite_dict] passes over every comment, so
    it does the same on the mapping without them. *)
Lemma hash_loop_filter rw parent parent' items :
  forall acc s,
    _rewrite_dict_loop H rw 1 parent items acc s
    = _rewrite_dict_loop H rw 1 parent' (List.filter not_comment items) acc s.
Proof.
  induction items as [|[k v] rest IH]; intros acc s; [reflexivity|].
  simpl. unfold not_comment at 1. simpl fst.
  unfold bind, RewriteHashConf_discard_item, ret. simpl.
  destruct (startswith (lit "#") k) eqn:E; simpl; [apply IH|].
  unfold bind, RewriteHashConf_discard_item, ret. simpl. rewrite E. simpl.
  destruct (startswith (lit "_") k); simpl; [apply IH|].
  destruct (try_except _ _ _ s) as [[nd|e] s']; [apply IH|reflexivity].
Qed.

(** What the loop leaves in the new mapping at depth 1 came from the
    mapping that it started with or has a key that is no comment. *)
Lemma hash_loop_keys rw parent items :
  forall acc s nd s',
    _rewrite_dict_loop H rw 1 parent items acc s = (Ok nd, s') ->
    forall p, In p nd -> In p acc \/ startswith (lit "#") (fst p) = false.
Proof.
  induction items as [|[k v] rest IH]; intros acc s nd s' Hrun p Hp.
  - injection Hrun as <- _. now left.
  - simpl in Hrun. unfold bind, RewriteHashConf_discard_item, ret in Hrun.
    simpl in Hrun.
    destruct (startswith (lit "#") k) eqn:E; simpl in Hrun.
    + exact (IH _ _ _ _ Hrun p Hp).
    + destruct (startswith (lit "_") k); simpl in Hrun.
      * exact (IH _ _ _ _ Hrun p Hp).
      * destruct (try_except _ _ _ s) as [[nd1|e] s1] eqn:Et; [|discriminate].
        destruct (IH _ _ _ _ Hrun p Hp) as [Hin|Hk]; [|now right].
        unfold try_except in Et.
        destruct (rw k v s) as [[x|e] s2]; simpl in Et.
        -- injection Et as <- _.
           destruct (dict_set_In _ _ _ _ Hin) as [->|Hin']; [now right|now left].
        -- destruct (is_StopRewrite e); [|discriminate].
           injection Et as <- _. now left.
Qed.

(** The loop itself lets no [StopRewrite] out. *)
Lemma hash_loop_raise rw parent items :
  forall acc s e s',
    _rewrite_dict_loop H rw 1 parent items acc s = (Raise e, s') ->
    is_StopRewrite e = false.
Proof.
  induction items as [|[k v] rest IH]; intros acc s e s' Hrun; [discriminate|].
  simpl in Hrun. unfold bind, RewriteHashConf_discard_item, ret in Hrun.
  simpl in Hrun.
  destruct ((startswith (lit "#") k || startswith (lit "_") k)); simpl in Hrun.
  - exact (IH _ _ _ _ Hrun).
  - destruct (try_except _ _ _ s) as [[nd1|e1] s1] eqn:Et.
    + exact (IH _ _ _ _ Hrun).
    + injection Hrun as <- _. unfold try_except in Et.
      destruct ((if negb (startswith (lit "#") k) then rw k v else _) s) as [r s2].
      destruct r as [x|e2]; [discriminate|].
      destruct (is_StopRewrite e2) eqn:E2; [discriminate|].
      now injection Et as <- _.
Qed.

Lemma hash_rewrite_filter d s :
  rewrite H (VDict d) s = rewrite H (VDict (List.filter not_comment d)) s.
Proof.
  unfold rewrite. simpl. unfold try_except, bind.
  now rewrite (hash_loop_filter _ d (List.filter not_comment d) d [] s).
Qed.

(** C3, amended. The hash view of a node is a mapping under its base name
    that has no comment among its keys, and it is the hash view of the
    node configuration without its comments: the keys that begin with [#]
    at depth 1 of the node configuration do not get into the hash view
    and have no part in the hash, which is made from the hash view. *)
Theorem hash_conf_drops_comments (base : pystr) (d : dict) (h : value) :
  hash_conf_of slug link_pickle base (VDict d) = Ok h ->
  (exists hd, h = VDict [(base, VDict hd)]
              /\ forall k, In k (dict_keys hd) -> startswith (lit "#") k = false)
  /\ hash_conf_of slug link_pickle base (VDict (List.filter not_comment d)) = Ok h.
Proof.
  intros Hh. split.
  - unfold hash_conf_of, run, rewrite in Hh. simpl in Hh.
    unfold try_except, bind in Hh.
    destruct (_rewrite_dict_loop _ _ _ _ _ _ _) as [[nd|e] s'] eqn:El.
    + simpl in Hh. injection Hh as <-. eexists. split; [reflexivity|].
      intros k Hk. unfold dict_keys in Hk. apply in_map_iff in Hk.
      destruct Hk as [[k' v] [<- Hin]]. apply sorted_dict_In in Hin.
      destruct (hash_loop_keys _ _ _ _ _ _ _ El _ Hin) as [[]|Hk]. exact Hk.
    + rewrite (hash_loop_raise _ _ _ _ _ _ _ El) in Hh. discriminate.
  - unfold hash_conf_of, run in *. now rewrite <- hash_rewrite_filter.
Qed.
End HashView.

Lemma hash_conf_drops_comments_witness :
  exists h,
    node.hash_conf_of (fun _ => Ok []) (fun _ => None) (lit "foo")
      (VDict (tests.abd ++ [(lit "#note", VStr (lit "@nowhere"))])) = Ok h
    /\ node.hash_conf_of (fun _ => Ok []) (fun _ => None) (lit "foo")
         (VDict (List.filter not_comment
                   (tests.abd ++ [(lit "#note", VStr (lit "@nowhere"))]))) = Ok h.
Proof.
  eexists. split; [vm_compute; reflexivity|].
  apply (hash_conf_drops_comments (fun _ => Ok []) (fun _ => None) (lit "foo")
           (tests.abd ++ [(lit "#note", VStr (lit "@nowhere"))])).
  vm_compute. reflexivity.
Defined.

(** C3 as it is stated fails below depth 1: the comment [#note] in the
    mapping that is the argument [a] is in the hash view, and the hash is
    not the hash of the same configuration without the comment. *)
Lemma nested_comment_is_hashed :
  fst (tests.flow conf_nested_comment) = Ok tt
  /\ (exists hd ad, hash_view_of conf_nested_comment = Some (VDict [(lit "foo", VDict hd)])
        /\ dict_get (lit "a") hd = Some (VDict ad)
        /\ dict_get (lit "#note") ad = Some (VStr (lit "x")))
  /\ hash_of conf_nested_comment = Some (lit "b11eaad0")
  /\ hash_of conf_nested_plain = Some (lit "77eff397")
  /\ hash_of conf_nested_comment <> hash_of conf_nested_plain.
Proof.
  split; [vm_compute; reflexivity|]. split.
  - eexists. eexists. split; [vm_compute; reflexivity|].
    split; vm_compute; reflexivity.
  - split; [vm_compute; reflexivity|]. split; [vm_compute; reflexivity|].
    vm_compute. discriminate.
Qed.

(** A comment among the arguments of the node leaves the hash of the
    tests as it is, whatever its value looks like. *)
Lemma top_comment_is_not_hashed :
  hash_of conf_top_comment = Some (lit "6c9cc6b0")
  /\ hash_of (tests.conf_foo tests.abd) = Some (lit "6c9cc6b0").
Proof. split; vm_compute; reflexivity. Qed.

(** ** The order of strings and sorted mappings *)

Lemma pystr_ltb_irrefl a : pystr_ltb a a = false.
Proof.
  induction a as [|c a IH]; simpl; [reflexivity|].
  now rewrite N.ltb_irrefl, N.eqb_refl, IH.
Qed.

Lemma pystr_ltb_trans a : forall b c,
  pystr_ltb a b = true -> pystr_ltb b c = true -> pystr_ltb a c = true.
Proof.
  induction a as [|x a IH]; intros [|y b] [|z c]; simpl; try easy.
  intros H1 H2.
  apply orb_true_iff in H1. apply orb_true_iff in H2. apply orb_true_iff.
  destruct H1 as [H1|H1], H2 as [H2|H2].
  - left. apply N.ltb_lt in H1, H2. apply N.ltb_lt. lia.
  - apply andb_prop in H2. destruct H2 as [H2 _]. apply N.eqb_eq in H2. subst.
    now left.
  - apply andb_prop in H1. destruct H1 as [H1 _]. apply N.eqb_eq in H1. subst.
    now left.
  - apply andb_prop in H1. destruct H1 as [H1 H1'].
    apply andb_prop in H2. destruct H2 as [H2 H2'].
    apply N.eqb_eq in H1, H2. subst. right.
    rewrite N.eqb_refl. simpl. exact (IH _ _ H1' H2').
Qed.

(** Of two strings one is smaller, or they are the same. *)
Lemma pystr_ltb_total a : forall b,
  pystr_ltb a b = false -> pystr_ltb b a = false -> a = b.
Proof.
  induction a as [|x a IH]; intros [|y b]; simpl; try easy.
  intros H1 H2.
  apply orb_false_iff in H1. apply orb_false_iff in H2.
  destruct H1 as [H1 H1'], H2 as [H2 H2'].
  apply N.ltb_ge in H1, H2. assert (x = y) by lia. subst y.
  rewrite N.eqb_refl in H1', H2'. simpl in H1', H2'.
  f_equal. now apply IH.
Qed.

Lemma pystr_leb_total a b : pystr_leb a b = false -> pystr_leb b a = true.
Proof.
  unfold pystr_leb. intros H. apply negb_false_iff in H.
  apply negb_true_iff. destruct (pystr_ltb a b) eqn:E; [|reflexivity].
  pose proof (pystr_ltb_trans _ _ _ E H) as Ht.
  now rewrite pystr_ltb_irrefl in Ht.
Qed.

Lemma pystr_leb_ltb a b : pystr_leb a b = true -> a <> b -> pystr_ltb a b = true.
Proof.
  unfold pystr_leb. intros H Hne. apply negb_true_iff in H.
  destruct (pystr_ltb a b) eqn:E; [reflexivity|].
  destruct Hne. now apply pystr_ltb_total.
Qed.

Lemma pystr_eqb_refl a : pystr_eqb a a = true.
Proof. now apply pystr_eqb_eq. Qed.

Lemma pystr_eqb_neq a b : a <> b -> pystr_eqb a b = false.
Proof.
  intros H. destruct (pystr_eqb a b) eqn:E; [|reflexivity].
  now apply pystr_eqb_eq in E.
Qed.

Section SortedFacts.
Context {V : Type}.
Implicit Types (d : list (pystr * V)) (p : pystr * V).

Lemma insert_by_key_sorted p d :
  Sorted key_le d -> Sorted key_le (insert_by_key p d).
Proof.
  induction 1 as [|q d Hs IH Hh]; simpl.
  - repeat constructor.
  - destruct (pystr_leb (fst p) (fst q)) eqn:E.
    + constructor; [now constructor|]. now constructor.
    + constructor; [exact IH|].
      destruct d as [|r d]; simpl.
      * constructor. now apply pystr_leb_total.
      * destruct (pystr_leb (fst p) (fst r)).
        -- constructor. now apply pystr_leb_total.
        -- constructor. now inversion Hh.
Qed.

Lemma sorted_items_sorted d : Sorted key_le (sorted_items d).
Proof.
  induction d as [|p d IH]; simpl; [constructor|].
  now apply insert_by_key_sorted.
Qed.

Lemma sorted_nodup_increasing d :
  Sorted key_le d -> List.NoDup (dict_keys d) -> increasing (dict_keys d) = true.
Proof.
  induction 1 as [|p d Hs IH Hh]; simpl; [reflexivity|].
  intros Hnd. inversion Hnd as [|? ? Hnotin Hnd']; subst.
  rewrite (IH Hnd'), andb_true_r.
  destruct d as [|q d]; [reflexivity|]. simpl.
  inversion Hh as [|? ? Hle]; subst. apply pystr_leb_ltb; [exact Hle|].
  intros Heq. apply Hnotin. left. now symmetry.
Qed.

Lemma dict_set_new k v d :
  ~ In k (dict_keys d) -> dict_set k v d = d ++ [(k, v)].
Proof.
  induction d as [|[k' v'] d IH]; simpl; [reflexivity|].
  intros Hn. rewrite pystr_eqb_neq by (intros ->; apply Hn; now left).
  f_equal. apply IH. intros H. apply Hn. now right.
Qed.

Lemma dict_set_keys k v d :
  dict_keys (dict_set k v d)
  = if dict_mem k d then dict_keys d else dict_keys d ++ [k].
Proof.
  unfold dict_mem. induction d as [|[k' v'] d IH]; simpl; [reflexivity|].
  destruct (pystr_eqb k k') eqn:E; simpl.
  - apply pystr_eqb_eq in E. now subst.
  - rewrite IH. now destruct (dict_get k d).
Qed.

Lemma dict_get_None k d : dict_get k d = None -> ~ In k (dict_keys d).
Proof.
  induction d as [|[k' v'] d IH]; simpl; [tauto|].
  destruct (pystr_eqb k k') eqn:E; [discriminate|].
  intros H [->|Hin]; [now rewrite pystr_eqb_refl in E|now apply IH].
Qed.

Lemma dict_set_NoDup k v d :
  List.NoDup (dict_keys d) -> List.NoDup (dict_keys (dict_set k v d)).
Proof.
  intros H. rewrite dict_set_keys. unfold dict_mem.
  destruct (dict_get k d) eqn:E; [exact H|].
  apply List.NoDup_app.
  - exact H.
  - repeat constructor. intros [].
  - intros x Hx [<-|[]]. now apply (dict_get_None _ _ E).
Qed.

Lemma dict_update_NoDup d : forall a : list (pystr * V),
  List.NoDup (dict_keys (a ++ d)) -> dict_update a d = a ++ d.
Proof.
  unfold dict_update. induction d as [|[k v] b IH]; intros a H; simpl.
  - now rewrite app_nil_r.
  - rewrite dict_set_new.
    + rewrite IH; rewrite <- app_assoc; [reflexivity|exact H].
    + unfold dict_keys in *. rewrite map_app in H. simpl in H.
      apply NoDup_remove_2 in H. intros Hin. apply H.
      apply in_or_app. now left.
Qed.

Lemma dict_of_items_NoDup d : List.NoDup (dict_keys d) -> dict_of_items d = d.
Proof. intros H. unfold dict_of_items. now rewrite dict_update_NoDup. Qed.

Lemma NoDup_keys_In k v v' d :
  List.NoDup (dict_keys d) -> In (k, v) d -> In (k, v') d -> v = v'.
Proof.
  induction d as [|[k0 v0] d IH]; simpl; [easy|].
  intros Hnd H1 H2. inversion Hnd as [|? ? Hnotin Hnd']; subst.
  destruct H1 as [H1|H1], H2 as [H2|H2].
  - congruence.
  - injection H1 as -> ->. destruct Hnotin. apply in_map_iff. now exists (k, v').
  - injection H2 as -> ->. destruct Hnotin. apply in_map_iff. now exists (k, v).
  - now apply IH.
Qed.
End SortedFacts.

Lemma sorted_dict_sorted (d : dict) :
  List.NoDup (dict_keys d) ->
  utils.sorted_dict d = sorted_items d /\ sorted_by_key (utils.sorted_dict d) = true.
Proof.
  intros H.
  assert (Hnd : List.NoDup (dict_keys (sorted_items d))).
  { unfold dict_keys. eapply Permutation_NoDup; [|exact H].
    apply Permutation_map. symmetry. apply sorted_items_perm. }
  unfold utils.sorted_dict, sorted_by_key. rewrite dict_of_items_NoDup by exact Hnd.
  split; [reflexivity|]. apply sorted_nodup_increasing; [|exact Hnd].
  apply sorted_items_sorted.
Qed.

(** ** The loops of the rewriter *)

Section LoopFacts.
Import conf.
Context {St : Type} (self : Rewrite St).
#[local] Arguments startswith : simpl never.

Lemma _rewrite_eq k v depth :
  _rewrite self k v depth
  = if (negb (_max_depth self =? -1) && (depth >? _max_depth self))%Z then ret v
    else
      try_except
        (match v with
         | VStr s => rewrite_str self k s depth
         | VNone | VBool _ | VInt _ | VFloat _ => ret v
         | VList l | VTuple l =>
             let* new_list :=
               _rewrite_list_loop
                 (fun v_ => _rewrite self k v_ (depth + 1)%Z) l [] in
             ret (VList new_list)
         | VDict d =>
             let* new_dict :=
               _rewrite_dict_loop self
                 (fun k_ v_ => _rewrite self (Some k_) v_ (depth + 1)%Z)
                 (depth + 1)%Z d d [] in
             rewrite_dict self k new_dict depth
         | VLink _ | VObj _ _ _ _ => rewrite_object self k v depth
         end)
        is_StopRewrite (fun _ => ret VNone).
Proof. destruct v; reflexivity. Qed.

(** Every element of the new list was there before or was returned by
    the rewriter. *)
Lemma list_loop_elements (rw : value -> M St value) (P : value -> Prop) l :
  (forall v s a s', rw v s = (Ok a, s') -> P a) ->
  forall acc s nl s',
    _rewrite_list_loop rw l acc s = (Ok nl, s') ->
    Forall P acc -> Forall P nl.
Proof.
  intros Hrw. induction l as [|v l IH]; intros acc s nl s' Hrun Hacc.
  - injection Hrun as <- _. exact Hacc.
  - simpl in Hrun. unfold bind at 1 in Hrun.
    destruct (try_except _ _ _ s) as [[acc1|e] s1] eqn:Et; [|discriminate].
    apply (IH _ _ _ _ Hrun).
    unfold try_except, bind, ret in Et.
    destruct (rw v s) as [[x|e] s2] eqn:Ex.
    + injection Et as <- _. apply Forall_app. split; [exact Hacc|].
      constructor; [|constructor]. exact (Hrw _ _ _ _ Ex).
    + destruct (is_StopRewrite e); [|discriminate].
      now injection Et as <- _.
Qed.

(** The keys of the new mapping stay distinct. *)
Lemma dict_loop_NoDup rw depth1 parent items :
  forall acc s nd s',
    _rewrite_dict_loop self rw depth1 parent items acc s = (Ok nd, s') ->
    List.NoDup (dict_keys acc) -> List.NoDup (dict_keys nd).
Proof.
  induction items as [|[k v] rest IH]; intros acc s nd s' Hrun Hacc.
  - injection Hrun as <- _. exact Hacc.
  - simpl in Hrun. unfold bind at 1 in Hrun.
    destruct (discard_item self k v depth1 parent s) as [[[|]|e] s0];
      [exact (IH _ _ _ _ Hrun Hacc)| |discriminate].
    unfold bind at 1 in Hrun.
    destruct (try_except _ _ _ s0) as [[acc1|e] s1] eqn:Et; [|discriminate].
    apply (IH _ _ _ _ Hrun).
    unfold try_except, bind, ret in Et.
    destruct ((if negb (startswith (lit "#") k) then rw k v else _) s0)
      as [[x|e] s2].
    + injection Et as <- _. now apply dict_set_NoDup.
    + destruct (is_StopRewrite e); [|discriminate].
      now injection Et as <- _.
Qed.

(** Every item of the new mapping was there before, or it is an item of
    the old one that was not discarded, whose value is as it was under a
    comment and was returned by the rewriter elsewhere. *)
Lemma dict_loop_items rw depth1 parent (P : pystr -> value -> Prop) items :
  (forall k v, In (k, v) items ->
     forall s s0 x s1,
       discard_item self k v depth1 parent s = (Ok false, s0) ->
       (startswith (lit "#") k = true /\ x = v
        \/ startswith (lit "#") k = false /\ rw k v s0 = (Ok x, s1)) ->
       P k x) ->
  forall acc s nd s',
    _rewrite_dict_loop self rw depth1 parent items acc s = (Ok nd, s') ->
    (forall k x, In (k, x) acc -> P k x) ->
    forall k x, In (k, x) nd -> P k x.
Proof.
  induction items as [|[k v] rest IH]; intros HP acc s nd s' Hrun Hacc.
  - injection Hrun as <- _. exact Hacc.
  - simpl in Hrun. unfold bind at 1 in Hrun.
    assert (HP' : forall k v, In (k, v) rest ->
              forall s s0 x s1,
                discard_item self k v depth1 parent s = (Ok false, s0) ->
                (startswith (lit "#") k = true /\ x = v
                 \/ startswith (lit "#") k = false /\ rw k v s0 = (Ok x, s1)) ->
                P k x).
    { intros k' v' Hin. apply HP. now right. }
    destruct (discard_item self k v depth1 parent s) as [[[|]|e] s0] eqn:Ed;
      [exact (IH HP' _ _ _ _ Hrun Hacc)| |discriminate].
    unfold bind at 1 in Hrun.
    destruct (try_except _ _ _ s0) as [[acc1|e] s1] eqn:Et; [|discriminate].
    apply (IH HP' _ _ _ _ Hrun).
    unfold try_except, bind, ret in Et.
    destruct (startswith (lit "#") k) eqn:Ec; simpl in Et.
    + injection Et as <- _. intros k' x' Hin.
      destruct (dict_set_In _ _ _ _ Hin) as [[= -> ->]|Hin']; [|now apply Hacc].
      apply (HP k v (or_introl eq_refl) s s0 v s0 Ed). left. now split.
    + destruct (rw k v s0) as [[x|e] s2] eqn:Ex.
      * injection Et as <- _. intros k' x' Hin.
        destruct (dict_set_In _ _ _ _ Hin) as [[= -> ->]|Hin']; [|now apply Hacc].
        apply (HP k v (or_introl eq_refl) s s0 x s2 Ed). right. now split.
      * destruct (is_StopRewrite e); [|discriminate].
        now injection Et as <- _.
Qed.
End LoopFacts.

Lemma unit_state {A} (c : M unit A) s : c s = (run c, tt).
Proof. unfold run. destruct s. now destruct (c tt) as [r []]. Qed.

Lemma distinct_NoDup ks : distinct ks = true -> List.NoDup ks.
Proof.
  induction ks as [|k ks IH]; simpl; [constructor|].
  intros H. apply andb_prop in H. destruct H as [Hk Hks].
  constructor; [|now apply IH].
  intros Hin. apply negb_true_iff in Hk.
  assert (Hex : existsb (pystr_eqb k) ks = true)
    by (apply existsb_exists; exists k; split; [exact Hin|apply pystr_eqb_refl]).
  congruence.
Qed.

(** ** The args view *)

Section ArgsView.
Import conf.
Context (func_defs : dict) (link_str : Link -> pystr).
Abbreviation A := (RewriteArgsConf func_defs link_str).
#[local] Arguments startswith : simpl never.

(** An argument that is equal to its default is discarded at depth 1. *)
Lemma args_discard_default k v dflt parent s :
  dict_get k func_defs = Some dflt -> equal_default v dflt ->
  RewriteArgsConf_discard_item func_defs k v 1 parent s = (Ok true, s).
Proof.
  intros Hd Heq. destruct s. unfold RewriteArgsConf_discard_item, dict_mem.
  rewrite Hd. simpl.
  destruct (startswith (lit "#") k || startswith (lit "_") k); [reflexivity|].
  destruct Heq as [Heq|[v' [d' [Hv [Hd' Heq]]]]].
  - now rewrite Heq.
  - destruct (py_eq v dflt); [reflexivity|].
    unfold bind. rewrite (unit_state (_json_coerce v)), Hv.
    rewrite (unit_state (_json_coerce dflt)), Hd'. unfold ret. now rewrite Heq.
Qed.

(** What [_rewrite] returns down to depth 2 is sorted from there on. *)
Lemma args_rewrite_sorted n :
  forall k v depth s a s',
    depth = (2 - Z.of_nat n)%Z ->
    _rewrite A k v depth s = (Ok a, s') ->
    sorted_to n a = true.
Proof.
  induction n as [|n IH]; intros k v depth s a s' Hdepth Hrun;
    rewrite _rewrite_eq in Hrun;
    (replace (negb (_max_depth A =? -1) && (depth >? _max_depth A))%Z
       with false in Hrun by (simpl; lia));
    unfold try_except in Hrun.
  - destruct v; simpl in Hrun; unfold Rewrite_rewrite_str, ret, bind in Hrun;
      try (injection Hrun as <- _; reflexivity).
    + destruct (_rewrite_list_loop _ _ _ _) as [[nl|e] s1]; simpl in Hrun.
      * now injection Hrun as <- _.
      * destruct (is_StopRewrite e); [now injection Hrun as <- _|discriminate].
    + destruct (_rewrite_list_loop _ _ _ _) as [[nl|e] s1]; simpl in Hrun.
      * now injection Hrun as <- _.
      * destruct (is_StopRewrite e); [now injection Hrun as <- _|discriminate].
    + destruct (_rewrite_dict_loop _ _ _ _ _ _ _) as [[nd|e] s1] eqn:El;
        simpl in Hrun.
      * injection Hrun as <- _. simpl. rewrite andb_true_r.
        apply sorted_dict_sorted.
        apply (dict_loop_NoDup _ _ _ _ _ _ _ _ _ El). constructor.
      * destruct (is_StopRewrite e); [now injection Hrun as <- _|discriminate].
    + destruct (depth <=? 2)%Z; now injection Hrun as <- _.
  - assert (Hd1 : (depth + 1)%Z = (2 - Z.of_nat n)%Z) by lia.
    destruct v; simpl in Hrun; unfold Rewrite_rewrite_str, ret, bind in Hrun;
      try (injection Hrun as <- _; reflexivity).
    + destruct (_rewrite_list_loop _ _ _ _) as [[nl|e] s1] eqn:El; simpl in Hrun.
      * injection Hrun as <- _. simpl. apply forallb_forall.
        apply (proj1 (List.Forall_forall _ _)).
        eapply list_loop_elements with (P := fun a => sorted_to n a = true);
          [|exact El|constructor].
        intros v0 s0 a0 s0' Hx. exact (IH _ _ _ _ _ _ Hd1 Hx).
      * destruct (is_StopRewrite e); [now injection Hrun as <- _|discriminate].
    + destruct (_rewrite_list_loop _ _ _ _) as [[nl|e] s1] eqn:El; simpl in Hrun.
      * injection Hrun as <- _. simpl. apply forallb_forall.
        apply (proj1 (List.Forall_forall _ _)).
        eapply list_loop_elements with (P := fun a => sorted_to n a = true);
          [|exact El|constructor].
        intros v0 s0 a0 s0' Hx. exact (IH _ _ _ _ _ _ Hd1 Hx).
      * destruct (is_StopRewrite e); [now injection Hrun as <- _|discriminate].
    + destruct (_rewrite_dict_loop _ _ _ _ _ _ _) as [[nd|e] s1] eqn:El;
        simpl in Hrun.
      * injection Hrun as <- _.
        change (sorted_by_key (utils.sorted_dict nd)
                && forallb (fun kv => startswith (lit "#") (fst kv)
                                      || sorted_to n (snd kv))
                           (utils.sorted_dict nd) = true).
        apply andb_true_intro. split.
        -- apply sorted_dict_sorted.
           apply (dict_loop_NoDup _ _ _ _ _ _ _ _ _ El). constructor.
        -- apply forallb_forall. intros [k' x] Hin. apply sorted_dict_In in Hin.
           simpl.
           eapply dict_loop_items
             with (P := fun k x => startswith (lit "#") k || sorted_to n x = true);
             [|exact El|intros ? ? []|exact Hin].
           intros k0 v0 _ t t0 x0 t1 _ [[-> _]|[-> Hx]]; [reflexivity|].
           exact (IH _ _ _ _ _ _ Hd1 Hx).
      * destruct (is_StopRewrite e); [now injection Hrun as <- _|discriminate].
    + destruct (depth <=? 2)%Z; now injection Hrun as <- _.
Qed.

(** C4, amended. Where the args view is made of a node configuration, an
    argument of depth 1 that is equal to the default of its parameter,
    as it is or after both went through JSON, is not among its keys; and
    the args view is sorted by key, as are the mappings down to depth 2
    in it that are not the value of a comment. *)
Theorem args_conf_defaults_and_order (d : dict) (a : value) :
  distinct (dict_keys d) = true ->
  run (rewrite A (VDict d)) = Ok a ->
  (forall k v dflt,
     In (k, v) d -> dict_get k func_defs = Some dflt ->
     equal_default v dflt -> ~ In k (keys_of a))
  /\ sorted_to 2 a = true.
Proof.
  intros Hnd Hrun. apply distinct_NoDup in Hnd. split.
  - unfold run, rewrite in Hrun. rewrite _rewrite_eq in Hrun.
    simpl in Hrun. unfold try_except, bind, ret in Hrun.
    destruct (_rewrite_dict_loop _ _ _ _ _ _ _) as [[nd|e] s1] eqn:El;
      simpl in Hrun.
    + injection Hrun as <-.
      intros k v dflt Hin Hdef Heq Hk.
      unfold keys_of, dict_keys in Hk. apply in_map_iff in Hk.
      destruct Hk as [[k' x] [Hfst Hin']]. simpl in Hfst. subst k'.
      apply sorted_dict_In in Hin'.
      assert (Hne : k <> k); [|now apply Hne].
      eapply dict_loop_items with (P := fun k0 _ => k0 <> k);
        [|exact El|intros ? ? []|exact Hin'].
      intros k0 v0 Hin0 s s0 x0 s2 Hdis _ ->.
      rewrite (NoDup_keys_In _ _ _ _ Hnd Hin0 Hin) in Hdis.
      simpl in Hdis. rewrite (args_discard_default _ _ _ _ _ Hdef Heq) in Hdis.
      discriminate.
    + destruct (is_StopRewrite e); simpl in Hrun; [|discriminate].
      injection Hrun as <-. intros k v dflt _ _ _ [].
  - unfold run in Hrun. pose proof (unit_state (rewrite A (VDict d)) tt) as Hs.
    unfold run in Hs. rewrite Hrun in Hs.
    exact (args_rewrite_sorted 2 None (VDict d) 0 tt a tt eq_refl Hs).
Qed.
End ArgsView.

Lemma args_conf_defaults_and_order_witness :
  exists a,
    run (conf.rewrite (conf.RewriteArgsConf (func.defs tests.foo) (fun _ => []))
           (VDict (tests.abd ++ [(lit "e", VNone)]))) = Ok a
    /\ ~ In (lit "e") (keys_of a)
    /\ sorted_to 2 a = true.
Proof.
  eexists. split; [vm_compute; reflexivity|].
  destruct (args_conf_defaults_and_order (func.defs tests.foo) (fun _ => [])
              (tests.abd ++ [(lit "e", VNone)]) _ eq_refl eq_refl) as [Hdef Hsort].
  split; [|exact Hsort].
  apply (Hdef (lit "e") VNone VNone).
  - simpl. tauto.
  - reflexivity.
  - left. reflexivity.
Defined.

(** C4 as it is stated fails for the order of a mapping at depth 3: the
    args view holds it with its keys [z] and [y] in the order of the
    configuration. *)
Lemma deep_mapping_is_not_sorted :
  fst (tests.flow conf_deep) = Ok tt
  /\ item (lit "w") (item (lit "x") (item (lit "a") (args_view_of conf_deep)))
     = Some (VDict [(lit "z", VInt 1); (lit "y", VInt 2)])
  /\ sorted_by_key [(lit "z", VInt 1); (lit "y", VInt 2)] = false.
Proof. vm_compute. repeat split. Qed.

(** The default [None] of [e] is not in the args view of the tests, and
    another value of [e] is. *)
Lemma default_of_e_is_dropped :
  args_view_of (tests.conf_foo (tests.abd ++ [(lit "e", VNone)])) = Some (VDict tests.abd)
  /\ args_view_of (tests.conf_foo (tests.abd ++ [(lit "e", VInt 0)]))
     = Some (VDict (tests.abd ++ [(lit "e", VInt 0)])).
Proof. split; vm_compute; reflexivity. Qed.

(** ** Hexadecimal *)

Section HexFacts.
Open Scope Z_scope.

Lemma hex_digit_value_digit d :
  0 <= d < 16 -> hex_digit_value (hex_digit d) = d /\ is_lower_hex (hex_digit d) = true.
Proof.
  intros Hd. unfold hex_digit, hex_digit_value, is_lower_hex.
  destruct (Z.ltb_spec d 10).
  - destruct (N.ltb_spec (Z.to_N (48 + d)) 58); [|lia]. split; [lia|].
    apply orb_true_iff. left. apply andb_true_intro.
    split; apply N.leb_le; lia.
  - destruct (N.ltb_spec (Z.to_N (87 + d)) 58); [lia|]. split; [lia|].
    apply orb_true_iff. right. apply andb_true_intro.
    split; apply N.leb_le; lia.
Qed.

Lemma hex_digit_not_zero d : 0 < d < 16 -> (hex_digit d =? 48)%N = false.
Proof.
  intros Hd. unfold hex_digit. apply N.eqb_neq.
  destruct (Z.ltb_spec d 10); lia.
Qed.

Abbreviation step := (fun a c => 16 * a + hex_digit_value c).

Lemma hex_loop_value fuel : forall n acc,
  0 <= n < 16 ^ Z.of_nat fuel ->
  fold_left step (hex_loop fuel n acc) 0 = fold_left step acc n.
Proof.
  induction fuel as [|fuel IH]; intros n acc Hn.
  - simpl in Hn. assert (n = 0) by lia. now subst.
  - rewrite Nat2Z.inj_succ, Z.pow_succ_r in Hn by lia. simpl.
    destruct (hex_digit_value_digit (n mod 16)) as [Hv _]; [dlia|].
    destruct (Z.eqb_spec (n / 16) 0) as [E|E].
    + simpl. rewrite Hv. f_equal. dlia.
    + rewrite IH by dlia. simpl. rewrite Hv. f_equal. dlia.
Qed.

Lemma hex_loop_length fuel : forall n acc m,
  0 <= n < 16 ^ Z.of_nat (S m) ->
  (length acc < length (hex_loop (S fuel) n acc) <= S m + length acc)%nat.
Proof.
  induction fuel as [|fuel IH]; intros n acc m Hn.
  - simpl. destruct (n / 16 =? 0); simpl; lia.
  - rewrite Nat2Z.inj_succ, Z.pow_succ_r in Hn by lia.
    change (hex_loop (S (S fuel)) n acc)
      with (if n / 16 =? 0 then hex_digit (n mod 16) :: acc
            else hex_loop (S fuel) (n / 16) (hex_digit (n mod 16) :: acc)).
    destruct (Z.eqb_spec (n / 16) 0) as [E|E]; [simpl; lia|].
    destruct m as [|m]; [simpl in Hn; dlia|].
    specialize (IH (n / 16) (hex_digit (n mod 16) :: acc) m).
    change (length (hex_digit (n mod 16) :: acc)) with (S (length acc)) in IH.
    lapply IH; [lia|]. dlia.
Qed.

Lemma hex_loop_digits fuel : forall n acc,
  0 <= n -> forallb is_lower_hex acc = true ->
  forallb is_lower_hex (hex_loop fuel n acc) = true.
Proof.
  induction fuel as [|fuel IH]; intros n acc Hn Hacc; [exact Hacc|].
  simpl. destruct (hex_digit_value_digit (n mod 16)) as [_ Hd]; [dlia|].
  destruct (n / 16 =? 0).
  - simpl. now rewrite Hd.
  - apply IH; [dlia|]. simpl. now rewrite Hd.
Qed.

Lemma hex_loop_head fuel : forall n acc,
  0 < n < 16 ^ Z.of_nat fuel ->
  exists c rest, hex_loop fuel n acc = c :: rest /\ (c =? 48)%N = false.
Proof.
  induction fuel as [|fuel IH]; intros n acc Hn.
  - simpl in Hn. lia.
  - rewrite Nat2Z.inj_succ, Z.pow_succ_r in Hn by lia. simpl.
    destruct (Z.eqb_spec (n / 16) 0) as [E|E].
    + eexists. eexists. split; [reflexivity|].
      apply hex_digit_not_zero. dlia.
    + apply IH. dlia.
Qed.

Lemma format_x_fuel n : 0 <= n -> n < 16 ^ Z.of_nat (S (Z.to_nat (Z.log2 n))).
Proof.
  intros Hn. destruct (Z.eq_dec n 0) as [->|Hne]; [reflexivity|].
  rewrite Nat2Z.inj_succ, Z2Nat.id by apply Z.log2_nonneg.
  destruct (Z.log2_spec n) as [_ Hlt]; [lia|].
  eapply Z.lt_le_trans; [exact Hlt|].
  assert (Hl := Z.log2_nonneg n).
  apply Z.pow_le_mono_l. lia.
Qed.

(** [format(n, 'x')] of a number of 32 bits: the digits stand for [n],
    they are lowercase, at most eight, and none is a padding zero. *)
Lemma format_x_32 n :
  0 <= n < 2 ^ 32 ->
  hex_value (format_x n) = n
  /\ (1 <= length (format_x n) <= 8)%nat
  /\ forallb is_lower_hex (format_x n) = true
  /\ not_padded (format_x n) = true.
Proof.
  intros Hn. unfold format_x, hex_value.
  assert (Hf := format_x_fuel n (proj1 Hn)).
  split; [now rewrite hex_loop_value by lia|].
  split; [destruct (hex_loop_length (Z.to_nat (Z.log2 n)) n [] 7);
          [change (16 ^ Z.of_nat 8) with (2 ^ 32); lia|simpl in *; lia]|].
  split; [now apply hex_loop_digits|].
  destruct (Z.eq_dec n 0) as [->|Hne]; [reflexivity|].
  destruct (hex_loop_head (S (Z.to_nat (Z.log2 n))) n []) as [c [rest [-> Hc]]];
    [lia|].
  simpl. rewrite Hc. now destruct rest.
Qed.

Lemma hash32_bytes_hex dump :
  let n := utils.murmurhash dump mod 2 ^ 32 in
  utils.hash32_bytes dump = format_x n
  /\ hex_value (utils.hash32_bytes dump) = n
  /\ (1 <= length (utils.hash32_bytes dump) <= 8)%nat
  /\ forallb is_lower_hex (utils.hash32_bytes dump) = true
  /\ not_padded (utils.hash32_bytes dump) = true.
Proof.
  intros n. unfold utils.hash32_bytes.
  change (Z.shiftl 1 32 - 1) with (Z.ones 32). rewrite Z.land_ones by lia.
  split; [reflexivity|]. apply format_x_32. subst n. apply Z.mod_pos_bound. lia.
Qed.
End HexFacts.

(** ** Sorting is the same for every order of the items *)

Section SortUnique.
Context {V : Type}.
Implicit Types (d : list (pystr * V)) (p : pystr * V).

Lemma sorted_strict d :
  Sorted key_le d -> List.NoDup (dict_keys d) ->
  StronglySorted (fun p q => pystr_ltb (fst p) (fst q) = true) d.
Proof.
  intros Hs Hnd. apply Sorted_StronglySorted.
  - intros p q r. apply pystr_ltb_trans.
  - induction Hs as [|p d Hs IH Hh]; [constructor|].
    inversion Hnd as [|? ? Hnotin Hnd']; subst.
    constructor; [now apply IH|].
    destruct Hh as [|q d Hle]; constructor.
    apply pystr_leb_ltb; [exact Hle|].
    intros Heq. apply Hnotin. left. now symmetry.
Qed.

Lemma strict_sorted_unique d : forall d',
  StronglySorted (fun p q => pystr_ltb (fst p) (fst q) = true) d ->
  StronglySorted (fun p q => pystr_ltb (fst p) (fst q) = true) d' ->
  Permutation d d' -> d = d'.
Proof.
  induction d as [|p d IH]; intros d' Hs Hs' Hp.
  - now apply Permutation_nil in Hp.
  - destruct d' as [|q d'];
      [now apply Permutation_sym, Permutation_nil in Hp|].
    inversion Hs as [|? ? Hs1 Hall]; subst.
    inversion Hs' as [|? ? Hs1' Hall']; subst.
    assert (Heq : p = q).
    { assert (Hin : In p (q :: d')) by (apply (Permutation_in _ Hp); now left).
      assert (Hin' : In q (p :: d))
        by (apply (Permutation_in _ (Permutation_sym Hp)); now left).
      destruct Hin as [->|Hin]; [reflexivity|].
      destruct Hin' as [->|Hin']; [reflexivity|].
      pose proof (proj1 (List.Forall_forall _ _) Hall _ Hin') as H1.
      pose proof (proj1 (List.Forall_forall _ _) Hall' _ Hin) as H2.
      pose proof (pystr_ltb_trans _ _ _ H1 H2) as H3.
      now rewrite pystr_ltb_irrefl in H3. }
    subst q. f_equal. apply IH; [assumption..|].
    now apply Permutation_cons_inv in Hp.
Qed.

Lemma sorted_items_unique d d' :
  List.NoDup (dict_keys d) -> Permutation d d' ->
  sorted_items d = sorted_items d'.
Proof.
  intros Hnd Hp.
  assert (Hk : forall l, Permutation d l -> List.NoDup (dict_keys (sorted_items l))).
  { intros l Hl. unfold dict_keys. eapply Permutation_NoDup; [|exact Hnd].
    apply Permutation_map. rewrite Hl. symmetry. apply sorted_items_perm. }
  apply strict_sorted_unique.
  - apply sorted_strict; [apply sorted_items_sorted|now apply Hk].
  - apply sorted_strict; [apply sorted_items_sorted|now apply Hk].
  - rewrite !sorted_items_perm. exact Hp.
Qed.
End SortUnique.

(** ** The hash *)

Section HashFacts.
Import json.

(** [json.dumps] with [sort_keys=True] writes the same for every order of
    the items of the mappings. *)
Lemma reordered_dumps : forall v v', reordered v v' -> dumps true v = dumps true v'.
Proof.
  fix IH 3. intros v v' H. destruct H as [v|l l' Hl|l l' Hl|d d' d'' Hd Hf Hp].
  - reflexivity.
  - simpl. f_equal. f_equal. clear -IH Hl.
    induction Hl as [|x y l l' Hxy Hl IHl]; simpl; [reflexivity|].
    now rewrite (IH _ _ Hxy), IHl.
  - simpl. f_equal. f_equal. clear -IH Hl.
    induction Hl as [|x y l l' Hxy Hl IHl]; simpl; [reflexivity|].
    now rewrite (IH _ _ Hxy), IHl.
  - simpl. f_equal. f_equal.
    assert (Hm : map (fun kv => (fst kv, dumps true (snd kv))) d
                 = map (fun kv => (fst kv, dumps true (snd kv))) d').
    { clear -IH Hf.
      induction Hf as [|x y l l' [Hk Hxy] Hl IHl]; simpl; [reflexivity|].
      now rewrite Hk, (IH _ _ Hxy), IHl. }
    rewrite Hm. apply sorted_items_unique.
    + rewrite <- Hm. unfold dict_keys. rewrite map_map. simpl.
      now apply distinct_NoDup.
    + now apply Permutation_map.
Qed.
End HashFacts.

Section SetupHash.
Import node.
Context (link_pickle : Link -> option (list Z)).

Lemma nth_error_list_set {A} (x : A) l : forall n y,
  nth_error l n = Some y -> nth_error (list_set n x l) n = Some x.
Proof.
  induction l as [|a l IH]; intros [|n] y H; try discriminate; simpl.
  - reflexivity.
  - now apply (IH n y).
Qed.

Lemma update_node_run n f fx nd :
  lookup_node n fx = Some nd ->
  exists fx', update_node n f fx = (Ok tt, fx')
              /\ lookup_node n fx' = Some (f nd).
Proof.
  intros H. unfold update_node. rewrite H. eexists. split; [reflexivity|].
  unfold lookup_node in *. simpl. now apply (nth_error_list_set _ _ _ nd).
Qed.

Lemma update_node_ok n f fx fx' :
  update_node n f fx = (Ok tt, fx') ->
  exists nd, lookup_node n fx = Some nd /\ lookup_node n fx' = Some (f nd).
Proof.
  unfold update_node. destruct (lookup_node n fx) as [nd|] eqn:E; [|discriminate].
  intros [= <-]. exists nd. split; [reflexivity|].
  unfold lookup_node in *. simpl. now apply (nth_error_list_set _ _ _ nd).
Qed.

Lemma setup_hash_run self fx fx' :
  setup_hash link_pickle self fx = (Ok tt, fx') ->
  exists nd base nc bc hc h bc' nc' nd',
    lookup_node self fx = Some nd
    /\ dict_get (lit "_base") (n_conf nd) = Some base
    /\ n_node_conf nd = Some (VDict nc)
    /\ n_base_conf nd = Some (VDict bc)
    /\ hash_conf_of (_slug fx) link_pickle (str_value base) (VDict nc) = Ok hc
    /\ _setup_hash hc bc nc = Ok (h, bc', nc')
    /\ lookup_node self fx' = Some nd'
    /\ n_conf nd' = n_conf nd
    /\ n_hash_conf nd' = Some hc
    /\ n_hash nd' = Some h.
Proof.
  unfold setup_hash, bind, the_node, get, dict_item. intros H.
  destruct (lookup_node self fx) as [nd|] eqn:En; [|discriminate].
  destruct (dict_get (lit "_base") (n_conf nd)) as [base|] eqn:Eb;
    [|discriminate].
  unfold ret, raise in H.
  destruct (n_node_conf nd) as [ncv|] eqn:Enc; [|discriminate].
  destruct (n_base_conf nd) as [bcv|] eqn:Ebc; [|discriminate].
  unfold lift in H.
  destruct (hash_conf_of _ _ _ ncv) as [hc|e] eqn:Eh; [|discriminate].
  destruct (update_node self (set_hash_conf hc) fx) as [[[]|e] fx1] eqn:E1;
    [|discriminate].
  destruct ncv as [| | | | | | |nc| |]; try discriminate.
  destruct bcv as [| | | | | | |bc| |]; try discriminate.
  simpl in H. unfold ret in H.
  destruct (_setup_hash hc _ _) as [[[h bc'] nc']|e] eqn:Es; [|discriminate].
  destruct (update_node self (set_hash h) fx1) as [[[]|e] fx2] eqn:E2;
    [|discriminate].
  destruct (update_node self (set_base_conf (VDict bc')) fx2) as [[[]|e] fx3] eqn:E3;
    [|discriminate].
  apply update_node_ok in E1, E2, E3, H.
  destruct E1 as [n0 [L0 L1]], E2 as [n1 [L1' L2]], E3 as [n2 [L2' L3]],
    H as [n3 [L3' L4]].
  rewrite L1 in L1'. injection L1' as <-.
  rewrite L2 in L2'. injection L2' as <-.
  rewrite L3 in L3'. injection L3' as <-.
  rewrite En in L0. injection L0 as <-.
  exists nd, base, nc, bc, hc, h, bc', nc'. eexists.
  repeat (split; [first [reflexivity|eassumption]|]). reflexivity.
Qed.

(** C1, amended. Where the node configuration gives no [_hash], the hash
    that setup assigns is [format(n, 'x')] of the 32 bits n of the
    MurmurHash3 of what [json.dumps] with [sort_keys=True] and its own
    separators, a comma and a colon each followed by a space, writes for
    the hash view, which is a mapping with the base name for its one key.
    The hash stands for n in at most eight lowercase hexadecimal digits
    with no zero before them, and every hash view that differs only in
    the order of the items of its mappings has the same hash. *)
Theorem setup_hash_is_murmur_of_dump (self : node_id) (fx fx' : Flux) :
  no_given_hash self fx = true ->
  setup_hash link_pickle self fx = (Ok tt, fx') ->
  exists nd' base view h dump bytes,
    lookup_node self fx' = Some nd'
    /\ dict_get (lit "_base") (n_conf nd') = Some base
    /\ n_hash_conf nd' = Some (VDict [(str_value base, view)])
    /\ n_hash nd' = Some h
    /\ json.dumps true (VDict [(str_value base, view)]) = Ok dump
    /\ utils.utf8_encode dump = Ok bytes
    /\ h = format_x (utils.murmurhash bytes mod 2 ^ 32)
    /\ hex_value h = (utils.murmurhash bytes mod 2 ^ 32)%Z
    /\ (1 <= length h <= 8)%nat
    /\ forallb is_lower_hex h = true
    /\ not_padded h = true
    /\ forall hc', reordered (VDict [(str_value base, view)]) hc' ->
         res_bind (json.dumps true hc') utils.hash32 = Ok h.
Proof.
  intros Hno Hrun.
  destruct (setup_hash_run _ _ _ Hrun)
    as (nd & base & nc & bc & hc & h & bc' & nc' & nd'
        & Hl & Hb & Hnc & Hbc & Hhc & Hs & Hl' & Hc & Hhv & Hh).
  unfold no_given_hash in Hno. rewrite Hl, Hnc in Hno.
  unfold dict_mem in Hno.
  destruct (dict_get (lit "_hash") nc) eqn:Eg; [discriminate|].
  unfold _setup_hash in Hs. rewrite Eg in Hs.
  destruct (json.dumps true hc) as [dump|e] eqn:Ed; [|discriminate].
  simpl in Hs. unfold utils.hash32 in Hs.
  destruct (utils.utf8_encode dump) as [bytes|e] eqn:Eu; [|discriminate].
  simpl in Hs. injection Hs as <- _ _.
  unfold hash_conf_of in Hhc.
  destruct (run _) as [view|e]; [|discriminate]. simpl in Hhc.
  injection Hhc as <-.
  destruct (hash32_bytes_hex bytes) as (F1 & F2 & F3 & F4 & F5).
  exists nd', base, view, (utils.hash32_bytes bytes), dump, bytes.
  rewrite Hc. repeat split; try assumption; try lia.
  intros hc' Hre. rewrite <- (reordered_dumps _ _ Hre), Ed. simpl.
  unfold utils.hash32. now rewrite Eu.
Qed.
End SetupHash.

Lemma setup_hash_is_murmur_of_dump_witness :
  no_given_hash 0 (snd (flux_before_hash (tests.conf_foo tests.abd))) = true
  /\ exists fx',
       node.setup_hash tests.link_pickle 0
         (snd (flux_before_hash (tests.conf_foo tests.abd))) = (Ok tt, fx')
       /\ exists nd' h, node.lookup_node 0 fx' = Some nd'
                        /\ node.n_hash nd' = Some h
                        /\ hex_value h = 1822213808%Z.
Proof.
  assert (Hno : no_given_hash 0 (snd (flux_before_hash (tests.conf_foo tests.abd)))
                = true) by (vm_compute; reflexivity).
  split; [exact Hno|].
  exists (snd (node.setup_hash tests.link_pickle 0
                 (snd (flux_before_hash (tests.conf_foo tests.abd))))).
  assert (Hrun : node.setup_hash tests.link_pickle 0
                   (snd (flux_before_hash (tests.conf_foo tests.abd)))
                 = (Ok tt, snd (node.setup_hash tests.link_pickle 0
                                  (snd (flux_before_hash (tests.conf_foo tests.abd))))))
    by (vm_compute; reflexivity).
  split; [exact Hrun|].
  destruct (setup_hash_is_murmur_of_dump tests.link_pickle 0 _ _ Hno Hrun)
    as (nd' & base & view & h & dump & bytes & Hl & _ & _ & Hh & _ & _ & _ & _).
  exists nd', h. split; [exact Hl|]. split; [exact Hh|].
  vm_compute in Hl. injection Hl as <-. vm_compute in Hh. injection Hh as <-.
  vm_compute. reflexivity.
Defined.

(** C1 as it is stated fails for the white space: the hash of the node
    of the tests is that of a text with a space after every colon and
    comma, and the same text without these has another hash. *)
Lemma hash_is_of_dump_with_spaces :
  hash_of (tests.conf_foo tests.abd) = Some (lit "6c9cc6b0")
  /\ option_map (json.dumps true) (hash_view_of (tests.conf_foo tests.abd))
     = Some (Ok foo_dump)
  /\ In 32%N foo_dump
  /\ utils.hash32 foo_dump = Ok (lit "6c9cc6b0")
  /\ List.filter (fun c => negb (c =? 32)%N) foo_dump = foo_dump_compact
  /\ utils.hash32 foo_dump_compact = Ok (lit "a9c17556").
Proof.
  split; [vm_compute; reflexivity|]. split; [vm_compute; reflexivity|].
  split; [vm_compute; tauto|]. split; [vm_compute; reflexivity|].
  split; vm_compute; reflexivity.
Qed.

(** ** Calls *)

(** [Func.call] raises the [TypeError] of the missing arguments whenever
    [_split_args] finds some. *)
Lemma func_call_missing (f : func.Func) s args kwargs pos var key m ms :
  func.sign f = Some s ->
  func._split_args s args kwargs = Ok (pos, var, key, m :: ms) ->
  func.call f args kwargs
  = Raise (Exn TypeError
             (func.name f ++ lit "() is missing arguments: "
                ++ func.repr_names (m :: ms)) None).
Proof. intros Hs Hsplit. unfold func.call. now rewrite Hs, Hsplit. Qed.

Section CallFacts.
Import node.
Context (find_func : pystr -> option value -> res func.Func)
        (pickle : value -> res (list Z))
        (unpickle : list Z -> res value)
        (json_pretty : value -> res pystr)
        (map_simpleeval : value -> pystr -> res value)
        (environ : pystr -> option pystr)
        (expanduser : pystr -> pystr)
        (is_word : pychar -> bool).

Abbreviation body :=
  (call_node_body find_func pickle unpickle json_pretty map_simpleeval
                  environ expanduser is_word).
Abbreviation call_node :=
  (_call_node find_func pickle unpickle json_pretty map_simpleeval
              environ expanduser is_word).

(** An [Exception] of the body of the [try] is the cause of a
    [FlowError] whose message names the node. *)
Lemma call_node_wraps fuel node byval byref vals fx fx0 e fx1 r :
  call_node_blocked node fx = (Ok false, fx0) ->
  body fuel node byval byref vals fx0 = (Raise e, fx1) ->
  is_Exception (exn_cls e) = true ->
  repr_node node fx1 = (Ok r, fx1) ->
  call_node fuel node byval byref vals fx
  = (Raise (Exn FlowError (lit "call failed: " ++ r) (Some e)), fx1).
Proof.
  intros Hb Hbody He Hr. unfold _call_node, bind. rewrite Hb.
  unfold try_except. rewrite Hbody, He. now rewrite Hr.
Qed.

(** What the body returns is returned, and what is no [Exception] is
    not caught. *)
Lemma call_node_returns fuel node byval byref vals fx fx0 x fx1 :
  call_node_blocked node fx = (Ok false, fx0) ->
  body fuel node byval byref vals fx0 = (Ok x, fx1) ->
  call_node fuel node byval byref vals fx = (Ok x, fx1).
Proof.
  intros Hb Hbody. unfold _call_node, bind. rewrite Hb.
  unfold try_except. now rewrite Hbody.
Qed.

Lemma call_node_lets_through fuel node byval byref vals fx fx0 e fx1 :
  call_node_blocked node fx = (Ok false, fx0) ->
  body fuel node byval byref vals fx0 = (Raise e, fx1) ->
  is_Exception (exn_cls e) = false ->
  call_node fuel node byval byref vals fx = (Raise e, fx1).
Proof.
  intros Hb Hbody He. unfold _call_node, bind. rewrite Hb.
  unfold try_except. now rewrite Hbody, He.
Qed.

(** A node that may not be called gets a [FlowError] of its own, before
    anything is invoked. *)
Lemma call_node_read_only fuel node byval byref vals fx fx0 r :
  call_node_blocked node fx = (Ok true, fx0) ->
  repr_node node fx0 = (Ok r, fx0) ->
  call_node fuel node byval byref vals fx
  = (Raise (Exn FlowError (lit "node read-only: " ++ r) None), fx0).
Proof.
  intros Hb Hr. unfold _call_node, bind. rewrite Hb. now rewrite Hr.
Qed.
End CallFacts.

(** C6, amended. The call [test.foo()] of the configuration without [b]
    raises a [FlowError] whose cause has the message of the missing
    arguments.  Where [_call_node] does not refuse the node, whatever
    [Exception] the lock, the call or the reference in its [try] raises
    is the cause of a [FlowError] with the message [call failed: ] and
    the name of the node.  Where it refuses the node, which is to be
    dumped, is not dumped and is read-only, the [FlowError] has the
    message [node read-only: ] and the name of the node, and no cause. *)
Theorem call_failed_wraps_cause :
  fst (tests.call_foo tests.conf_missing)
  = Raise (Exn FlowError (lit "call failed: test.foo[test.function.foo]")
             (Some (Exn TypeError
                      (lit "test.function.foo() is missing arguments: ['b']")
                      None)))
  /\ (forall find_func pickle unpickle json_pretty map_simpleeval environ
             expanduser is_word fuel node byval byref vals fx fx0 e fx1 r,
        node.call_node_blocked node fx = (Ok false, fx0) ->
        node.call_node_body find_func pickle unpickle json_pretty map_simpleeval
          environ expanduser is_word fuel node byval byref vals fx0
        = (Raise e, fx1) ->
        is_Exception (exn_cls e) = true ->
        node.repr_node node fx1 = (Ok r, fx1) ->
        node._call_node find_func pickle unpickle json_pretty map_simpleeval
          environ expanduser is_word fuel node byval byref vals fx
        = (Raise (Exn FlowError (lit "call failed: " ++ r) (Some e)), fx1))
  /\ (forall find_func pickle unpickle json_pretty map_simpleeval environ
             expanduser is_word fuel node byval byref vals fx fx0 r,
        node.call_node_blocked node fx = (Ok true, fx0) ->
        node.repr_node node fx0 = (Ok r, fx0) ->
        node._call_node find_func pickle unpickle json_pretty map_simpleeval
          environ expanduser is_word fuel node byval byref vals fx
        = (Raise (Exn FlowError (lit "node read-only: " ++ r) None), fx0)).
Proof.
  split; [vm_compute; reflexivity|]. split.
  - intros. now apply call_node_wraps with (fx0 := fx0).
  - intros. now apply call_node_read_only.
Qed.

Lemma call_failed_wraps_cause_witness :
  node.call_node_blocked 0 (snd (tests.flow tests.conf_missing))
  = (Ok false, snd (tests.flow tests.conf_missing))
  /\ exists e fx1,
       node.call_node_body tests.find tests.pickle tests.unpickle
         tests.json_pretty tests.map_simpleeval tests.environ tests.expanduser
         node.is_word 16 0 [0] [] [] (snd (tests.flow tests.conf_missing))
       = (Raise e, fx1)
       /\ exn_cls e = TypeError
       /\ node._call_node tests.find tests.pickle tests.unpickle
            tests.json_pretty tests.map_simpleeval tests.environ tests.expanduser
            node.is_word 16 0 [0] [] [] (snd (tests.flow tests.conf_missing))
          = (Raise (Exn FlowError
                      (lit "call failed: " ++ lit "test.foo[test.function.foo]")
                      (Some e)), fx1).
Proof.
  assert (Hb : node.call_node_blocked 0 (snd (tests.flow tests.conf_missing))
               = (Ok false, snd (tests.flow tests.conf_missing)))
    by (vm_compute; reflexivity).
  split; [exact Hb|].
  exists (Exn TypeError (lit "test.function.foo() is missing arguments: ['b']") None).
  exists (snd (node.call_node_body tests.find tests.pickle tests.unpickle
                 tests.json_pretty tests.map_simpleeval tests.environ
                 tests.expanduser node.is_word 16 0 [0] [] []
                 (snd (tests.flow tests.conf_missing)))).
  assert (Hbody : node.call_node_body tests.find tests.pickle tests.unpickle
                    tests.json_pretty tests.map_simpleeval tests.environ
                    tests.expanduser node.is_word 16 0 [0] [] []
                    (snd (tests.flow tests.conf_missing))
                  = (Raise (Exn TypeError
                              (lit "test.function.foo() is missing arguments: ['b']")
                              None),
                     snd (node.call_node_body tests.find tests.pickle tests.unpickle
                            tests.json_pretty tests.map_simpleeval tests.environ
                            tests.expanduser node.is_word 16 0 [0] [] []
                            (snd (tests.flow tests.conf_missing)))))
    by (vm_compute; reflexivity).
  split; [exact Hbody|]. split; [reflexivity|].
  assert (Hr : node.repr_node 0
                 (snd (node.call_node_body tests.find tests.pickle tests.unpickle
                         tests.json_pretty tests.map_simpleeval tests.environ
                         tests.expanduser node.is_word 16 0 [0] [] []
                         (snd (tests.flow tests.conf_missing))))
               = (Ok (lit "test.foo[test.function.foo]"),
                  snd (node.call_node_body tests.find tests.pickle tests.unpickle
                         tests.json_pretty tests.map_simpleeval tests.environ
                         tests.expanduser node.is_word 16 0 [0] [] []
                         (snd (tests.flow tests.conf_missing)))))
    by (vm_compute; reflexivity).
  assert (He : is_Exception
                 (exn_cls (Exn TypeError
                             (lit "test.function.foo() is missing arguments: ['b']")
                             None)) = true) by reflexivity.
  exact (proj1 (proj2 call_failed_wraps_cause) tests.find tests.pickle tests.unpickle
           tests.json_pretty tests.map_simpleeval tests.environ tests.expanduser
           node.is_word 16 0 [0] [] []
           (snd (tests.flow tests.conf_missing))
           (snd (tests.flow tests.conf_missing))
           (Exn TypeError (lit "test.function.foo() is missing arguments: ['b']") None)
           _ (lit "test.foo[test.function.foo]") Hb Hbody He Hr).
Defined.

(** C6 as it is stated fails: a node that is to be dumped, is not dumped
    and is read-only cannot be called, and the [FlowError] of that has
    another message and no cause. *)
Lemma read_only_call_is_not_wrapped :
  fst (node.call_node_blocked 0 (snd (tests.flow conf_read_only))) = Ok true
  /\ fst (tests.call_foo conf_read_only)
     = Raise (Exn FlowError (lit "node read-only: test.foo[test.function.foo]") None).
Proof. split; vm_compute; reflexivity. Qed.

(** ** Loops *)

(** C5. The configuration of two nodes that link to one another is
    refused with the [RecursionError] of the loop and its trail, and so
    are two nodes that are the base of one another.  Two scopes that are
    the base of one another are not: [Scope._resolve_base] finds the loop
    and makes its message of [s.name], a scope has no such attribute, and
    the setup ends in an [AttributeError]. *)
Theorem scope_base_loop_raises_attribute_error :
  fst (tests.flow conf_loop)
  = Raise (Exn RecursionError
             (lit "Loop detected: [test.a] @ test.b @ [test.a]") None)
  /\ fst (tests.flow conf_base_loop)
     = Raise (Exn RecursionError
                (lit "Loop detected: [test.b] @ test.a @ [test.b]") None)
  /\ fst (tests.flow conf_scope_loop)
     = Raise (Exn AttributeError
                (lit "'Scope' object has no attribute 'name'") None).
Proof. repeat split; vm_compute; reflexivity. Qed.

(** * More properties of the code *)

(** ** [utils.py]: [sorted_dict] and [copy_props] *)

Section MoreDictFacts.
Context {V : Type}.
Implicit Types (d : list (pystr * V)).

Lemma dict_get_set k k' (v : V) d :
  dict_get k (dict_set k' v d)
  = if pystr_eqb k k' then Some v else dict_get k d.
Proof.
  induction d as [|[k0 v0] d IH]; simpl.
  - reflexivity.
  - destruct (pystr_eqb k' k0) eqn:E; simpl.
    + apply pystr_eqb_eq in E. subst k0.
      now destruct (pystr_eqb k k').
    + rewrite IH. destruct (pystr_eqb k k0) eqn:E0; [|reflexivity].
      apply pystr_eqb_eq in E0. subst k0.
      destruct (pystr_eqb k k') eqn:E1; [|reflexivity].
      apply pystr_eqb_eq in E1. subst k'. now rewrite pystr_eqb_refl in E.
Qed.

Lemma dict_mem_set k k' (v : V) d :
  dict_mem k (dict_set k' v d) = pystr_eqb k k' || dict_mem k d.
Proof. unfold dict_mem. rewrite dict_get_set. now destruct (pystr_eqb k k'). Qed.

Lemma dict_get_In k (v : V) d : dict_get k d = Some v -> In (k, v) d.
Proof.
  induction d as [|[k0 v0] d IH]; simpl; [discriminate|].
  destruct (pystr_eqb k k0) eqn:E.
  - apply pystr_eqb_eq in E. subst. intros [= ->]. now left.
  - intros H. right. now apply IH.
Qed.

Lemma In_dict_get k (v : V) d :
  List.NoDup (dict_keys d) -> In (k, v) d -> dict_get k d = Some v.
Proof.
  induction d as [|[k0 v0] d IH]; simpl; [easy|].
  intros Hnd Hin. inversion Hnd as [|? ? Hnotin Hnd']; subst.
  destruct Hin as [[= -> ->]|Hin].
  - now rewrite pystr_eqb_refl.
  - rewrite pystr_eqb_neq; [now apply IH|].
    intros ->. apply Hnotin. apply in_map_iff. now exists (k0, v).
Qed.

(** The keys of a mapping stay where they are when an item is set. *)
Lemma dict_set_keys_app k (v : V) d :
  exists new, dict_keys (dict_set k v d) = dict_keys d ++ new.
Proof.
  rewrite dict_set_keys. destruct (dict_mem k d).
  - exists []. now rewrite app_nil_r.
  - now exists [k].
Qed.
End MoreDictFacts.

Lemma dict_get_absent {V} k (d : list (pystr * V)) :
  ~ In k (dict_keys d) -> dict_get k d = None.
Proof.
  induction d as [|[k0 v0] d IH]; simpl; [reflexivity|].
  intros H. rewrite pystr_eqb_neq by (intros ->; apply H; now left).
  apply IH. intros Hin. apply H. now right.
Qed.

Lemma dict_get_perm {V} k (d d' : list (pystr * V)) :
  List.NoDup (dict_keys d) -> Permutation d d' -> dict_get k d = dict_get k d'.
Proof.
  intros Hnd Hp.
  assert (Hnd' : List.NoDup (dict_keys d'))
    by (unfold dict_keys; eapply Permutation_NoDup; [|exact Hnd];
        now apply Permutation_map).
  destruct (dict_get k d) as [v|] eqn:E.
  - symmetry. apply In_dict_get; [exact Hnd'|].
    apply (Permutation_in _ Hp). now apply dict_get_In.
  - symmetry. apply dict_get_absent. intros Hin.
    apply (dict_get_None _ _ E). unfold dict_keys in *.
    apply (Permutation_in _ (Permutation_map fst (Permutation_sym Hp))). exact Hin.
Qed.

(** X1. [sorted_dict] returns the items of a mapping in the increasing
    order of their keys: the items and what a key stands for are the
    same, and the result is the same for every order in which the items
    were inserted. *)
Theorem sorted_dict_orders_items (d d' : dict) :
  distinct (dict_keys d) = true -> Permutation d d' ->
  Permutation (utils.sorted_dict d) d
  /\ sorted_by_key (utils.sorted_dict d) = true
  /\ (forall k, dict_get k (utils.sorted_dict d) = dict_get k d)
  /\ utils.sorted_dict d' = utils.sorted_dict d.
Proof.
  intros Hd Hp. apply distinct_NoDup in Hd.
  destruct (sorted_dict_sorted d Hd) as [Hs Hinc].
  assert (Hperm : Permutation (utils.sorted_dict d) d)
    by (rewrite Hs; apply sorted_items_perm).
  split; [exact Hperm|]. split; [exact Hinc|]. split.
  - intros k. symmetry. apply dict_get_perm; [exact Hd|now symmetry].
  - assert (Hd' : List.NoDup (dict_keys d'))
      by (unfold dict_keys; eapply Permutation_NoDup; [|exact Hd];
          now apply Permutation_map).
    destruct (sorted_dict_sorted d' Hd') as [Hs' _].
    rewrite Hs, Hs'. symmetry. now apply sorted_items_unique.
Qed.

Lemma sorted_dict_orders_items_witness :
  Permutation (utils.sorted_dict [(lit "b", VInt 1); (lit "a", VInt 2)])
              [(lit "b", VInt 1); (lit "a", VInt 2)]
  /\ utils.sorted_dict [(lit "a", VInt 2); (lit "b", VInt 1)]
     = utils.sorted_dict [(lit "b", VInt 1); (lit "a", VInt 2)].
Proof.
  destruct (sorted_dict_orders_items
              [(lit "b", VInt 1); (lit "a", VInt 2)]
              [(lit "a", VInt 2); (lit "b", VInt 1)]
              eq_refl (perm_swap _ _ _)) as (H1 & _ & _ & H4).
  split; [exact H1|exact H4].
Defined.

Section CopyProps.
Import utils.

(** One turn of the loop of [copy_props]. *)
Lemma copy_props_cons k0 v0 source target prefixes overwrite :
  copy_props (Some ((k0, v0) :: source)) target prefixes overwrite
  = copy_props (Some source)
      (if startswith (prefix_of prefixes) k0 then
         if overwrite
            || negb (dict_mem (skipn (length (prefix_of prefixes)) k0) target)
         then dict_set (skipn (length (prefix_of prefixes)) k0) v0 target
         else target
       else target)
      prefixes overwrite.
Proof.
  unfold copy_props at 1. simpl fold_left.
  destruct prefixes as [|p ps].
  - simpl. destruct source; reflexivity.
  - change (prefix_of (p :: ps)) with (join (lit ".") (p :: ps) ++ lit ".").
    destruct source; reflexivity.
Qed.

Lemma copy_props_nil target prefixes overwrite :
  copy_props (Some []) target prefixes overwrite = target.
Proof. reflexivity. Qed.

Lemma startswith_app p : forall k,
  startswith p k = true <-> k = p ++ skipn (length p) k.
Proof.
  induction p as [|c p IH]; intros k; simpl.
  - now destruct k.
  - destruct k as [|d k]; [easy|]. split.
    + intros H. apply andb_prop in H. destruct H as [H1 H2].
      apply N.eqb_eq in H1. subst d. f_equal. now apply IH.
    + intros [= -> H]. rewrite N.eqb_refl. now apply IH.
Qed.

Lemma skipn_app_prefix (p k : pystr) : skipn (length p) (p ++ k) = k.
Proof. induction p; simpl; auto. Qed.

Lemma copy_props_get prefixes overwrite k source :
  forall target,
    List.NoDup (dict_keys source) ->
    dict_get k (copy_props (Some source) target prefixes overwrite)
    = if overwrite then
        match dict_get (prefix_of prefixes ++ k) source with
        | Some v => Some v
        | None => dict_get k target
        end
      else
        match dict_get k target with
        | Some v => Some v
        | None => dict_get (prefix_of prefixes ++ k) source
        end.
Proof.
  set (p := prefix_of prefixes).
  induction source as [|[k0 v0] source IH]; intros target Hnd.
  - rewrite copy_props_nil. simpl. destruct overwrite; [reflexivity|].
    now destruct (dict_get k target).
  - inversion Hnd as [|? ? Hnotin Hnd']; subst.
    rewrite copy_props_cons, IH by exact Hnd'. fold p. simpl dict_get.
    destruct (pystr_eqb (p ++ k) k0) eqn:E.
    + apply pystr_eqb_eq in E. subst k0.
      assert (Hs : startswith p (p ++ k) = true)
        by (apply startswith_app; now rewrite skipn_app_prefix).
      rewrite Hs, skipn_app_prefix.
      rewrite (dict_get_absent _ _ Hnotin).
      destruct overwrite; simpl.
      * now rewrite dict_get_set, pystr_eqb_refl.
      * unfold dict_mem. destruct (dict_get k target) eqn:Et; simpl.
        -- now rewrite Et.
        -- now rewrite dict_get_set, pystr_eqb_refl.
    + assert (Hne : startswith p k0 = true ->
                    pystr_eqb k (skipn (length p) k0) = false).
      { intros Hs. apply pystr_eqb_neq. intros ->.
        apply startswith_app in Hs. rewrite <- Hs in E.
        now rewrite pystr_eqb_refl in E. }
      destruct (startswith p k0) eqn:Es; [|reflexivity].
      specialize (Hne eq_refl).
      destruct (overwrite || negb (dict_mem (skipn (length p) k0) target));
        [|reflexivity].
      now rewrite dict_get_set, Hne.
Qed.

Lemma copy_props_keys prefixes overwrite source :
  forall target,
    exists new, dict_keys (copy_props (Some source) target prefixes overwrite)
                = dict_keys target ++ new.
Proof.
  induction source as [|[k0 v0] source IH]; intros target.
  - exists []. now rewrite copy_props_nil, app_nil_r.
  - rewrite copy_props_cons.
    destruct (startswith (prefix_of prefixes) k0); [|apply IH].
    destruct (overwrite || negb (dict_mem _ target)); [|apply IH].
    destruct (IH (dict_set (skipn (length (prefix_of prefixes)) k0) v0 target))
      as [new Hnew].
    destruct (dict_set_keys_app (skipn (length (prefix_of prefixes)) k0) v0 target)
      as [new0 Hnew0].
    exists (new0 ++ new). unfold dict in *. rewrite Hnew, Hnew0. now rewrite app_assoc.
Qed.

(** X2. [copy_props] is [target.update] or, without [overwrite],
    [target.setdefault] with the items of [source] whose keys begin with
    the prefix, the prefix taken off; the keys that [target] had stay
    where they are and new ones come after them. *)
Theorem copy_props_updates (source target : dict) (prefixes : list pystr)
    (overwrite : bool) :
  distinct (dict_keys source) = true ->
  (forall k,
     dict_get k (copy_props (Some source) target prefixes overwrite)
     = if overwrite then
         match dict_get (prefix_of prefixes ++ k) source with
         | Some v => Some v
         | None => dict_get k target
         end
       else
         match dict_get k target with
         | Some v => Some v
         | None => dict_get (prefix_of prefixes ++ k) source
         end)
  /\ exists new, dict_keys (copy_props (Some source) target prefixes overwrite)
                 = dict_keys target ++ new.
Proof.
  intros Hd. apply distinct_NoDup in Hd. split.
  - intros k. now apply copy_props_get.
  - apply copy_props_keys.
Qed.
End CopyProps.

Lemma copy_props_updates_witness :
  dict_get (lit "a")
    (utils.copy_props
       (Some [(lit "foo.bar.a", VInt 1); (lit "foo.a", VInt 2); (lit "a", VInt 3)])
       [(lit "a", VInt 0)] [lit "foo"; lit "bar"] true)
  = Some (VInt 1).
Proof.
  destruct (copy_props_updates
              [(lit "foo.bar.a", VInt 1); (lit "foo.a", VInt 2); (lit "a", VInt 3)]
              [(lit "a", VInt 0)] [lit "foo"; lit "bar"] true eq_refl) as [H _].
  rewrite H. reflexivity.
Defined.

(** ** [utils.py]: [writelines], [readlines] and [copy_file] *)

Section MoreFileFacts.
Import utils.
Context (expand_path abspath : pystr -> pystr).


Lemma lstrip_idem s : lstrip (lstrip s) = lstrip s.
Proof.
  induction s as [|c s IH]; simpl; [reflexivity|].
  destruct (isspace c) eqn:E; [exact IH|]. simpl. now rewrite E.
Qed.

Lemma rstrip_idem s : rstrip (rstrip s) = rstrip s.
Proof. unfold rstrip. now rewrite rev_involutive, lstrip_idem. Qed.

Lemma lstrip_forallb (P : pychar -> bool) s :
  forallb P s = true -> forallb P (lstrip s) = true.
Proof.
  induction s as [|c s IH]; simpl; [reflexivity|]. intros H.
  apply andb_prop in H. destruct H as [Hc Hs].
  destruct (isspace c); [now apply IH|]. simpl. now rewrite Hc, Hs.
Qed.

Lemma forallb_rev (P : pychar -> bool) s : forallb P (rev s) = forallb P s.
Proof.
  induction s as [|c s IH]; simpl; [reflexivity|].
  rewrite forallb_app, IH. simpl. rewrite andb_true_r. apply andb_comm.
Qed.

Lemma rstrip_forallb (P : pychar -> bool) s :
  forallb P s = true -> forallb P (rstrip s) = true.
Proof.
  intros H. unfold rstrip. rewrite forallb_rev. apply lstrip_forallb.
  now rewrite forallb_rev.
Qed.

Lemma translate_newlines_no_cr s :
  forallb (fun c => negb (c =? 13)%N) (translate_newlines s) = true.
Proof.
  assert (H : forall n s, (length s <= n)%nat ->
              forallb (fun c => negb (c =? 13)%N) (translate_newlines s) = true).
  { clear s. induction n as [|n IH]; intros [|c s] Hlen; try reflexivity.
    - simpl in Hlen. lia.
    - simpl in Hlen. destruct (N.eqb_spec c 13) as [->|Hc].
      + destruct s as [|d s]; [reflexivity|].
        change (translate_newlines (13%N :: d :: s))
          with (if (d =? 10)%N then 10%N :: translate_newlines s
                else 10%N :: translate_newlines (d :: s)).
        destruct (d =? 10)%N; cbn [forallb]; apply IH; simpl in *; lia.
      + apply N.eqb_neq in Hc.
        change (translate_newlines (c :: s))
          with (if (c =? 13)%N
                then match s with
                     | d :: rest' =>
                         if (d =? 10)%N then 10%N :: translate_newlines rest'
                         else 10%N :: translate_newlines s
                     | [] => [10%N]
                     end
                else c :: translate_newlines s).
        rewrite Hc. cbn [forallb]. rewrite Hc. simpl. apply IH. lia. }
  now apply (H (length s)).
Qed.

(** A line of a text has its characters from the text, and a [\n] only
    as its last character. *)
Lemma file_lines_forallb (P : pychar -> bool) s : forall cur,
  forallb P s = true -> forallb P cur = true ->
  Forall (fun l => forallb P l = true) (file_lines s cur).
Proof.
  induction s as [|c s IH]; intros cur Hs Hcur; simpl.
  - destruct cur; [constructor|]. now repeat constructor.
  - simpl in Hs. apply andb_prop in Hs. destruct Hs as [Hc Hs].
    assert (Hcc : forallb P (cur ++ [c]) = true)
      by (rewrite forallb_app, Hcur; simpl; now rewrite Hc).
    destruct (c =? 10)%N.
    + constructor; [exact Hcc|]. now apply IH.
    + now apply IH.
Qed.

Lemma file_lines_shape s : forall cur,
  forallb (fun c => negb (c =? 10)%N) cur = true ->
  Forall (fun l => exists body,
            forallb (fun c => negb (c =? 10)%N) body = true
            /\ (l = body \/ l = body ++ [10%N]))
         (file_lines s cur).
Proof.
  induction s as [|c s IH]; intros cur Hcur; simpl.
  - destruct cur as [|x cur']; [constructor|].
    constructor; [|constructor]. exists (x :: cur'). split; [exact Hcur|now left].
  - destruct (N.eqb_spec c 10) as [->|Hc].
    + constructor; [|now apply IH]. exists cur. split; [exact Hcur|now right].
    + apply IH. rewrite forallb_app, Hcur. simpl.
      apply N.eqb_neq in Hc. now rewrite Hc.
Qed.

(** X4. [readlines] reads and changes nothing, and no line that it
    returns has white space at its end or a line break in it. *)
Theorem readlines_lines_are_stripped (path : pystr) (skip_rows : nat)
    (f f' : os.fs) (ls : list pystr) :
  readlines expand_path path skip_rows f = (Ok ls, f') ->
  f' = f
  /\ Forall (fun l => rstrip l = l
                      /\ forallb (fun c => negb (c =? 10)%N && negb (c =? 13)%N) l
                         = true) ls.
Proof.
  unfold readlines.
  destruct (os.read_bytes (expand_path path) f) as [b|];
    [|destruct (os.is_dir (expand_path path) f); discriminate].
  destruct (utf8_decode b) as [text|e]; [|discriminate].
  intros [= <- <-]. split; [reflexivity|].
  apply (proj2 (List.Forall_forall _ _)). intros l Hin.
  apply in_map_iff in Hin. destruct Hin as [x [<- Hx]].
  split; [apply rstrip_idem|].
  assert (Hx' : In x (file_lines (translate_newlines text) []))
    by (revert Hx; clear; revert skip_rows;
        induction (file_lines (translate_newlines text) []) as [|a l IH];
        intros [|n]; simpl; auto; intros H; right; now apply (IH n)).
  pose proof (proj1 (List.Forall_forall _ _)
                (file_lines_forallb (fun c => negb (c =? 13)%N)
                   (translate_newlines text) []
                   (translate_newlines_no_cr text) eq_refl) _ Hx') as Hcr.
  pose proof (proj1 (List.Forall_forall _ _)
                (file_lines_shape (translate_newlines text) [] eq_refl) _ Hx')
    as [body [Hbody Hshape]].
  assert (Hboth : forallb (fun c => negb (c =? 10)%N && negb (c =? 13)%N)
                    (rstrip body) = true).
  { apply rstrip_forallb. destruct Hshape as [->| ->].
    - clear -Hbody Hcr. induction body as [|c body IH]; [reflexivity|].
      simpl in *. apply andb_prop in Hbody. destruct Hbody as [H1 H2].
      apply andb_prop in Hcr. destruct Hcr as [H3 H4].
      now rewrite H1, H3, IH.
    - rewrite forallb_app in Hcr. apply andb_prop in Hcr. destruct Hcr as [Hcr _].
      clear -Hbody Hcr. induction body as [|c body IH]; [reflexivity|].
      simpl in *. apply andb_prop in Hbody. destruct Hbody as [H1 H2].
      apply andb_prop in Hcr. destruct Hcr as [H3 H4].
      now rewrite H1, H3, IH. }
  destruct Hshape as [->| ->]; [exact Hboth|].
  now rewrite rstrip_newline.
Qed.
End MoreFileFacts.

Lemma readlines_lines_are_stripped_witness :
  utils.readlines (fun p => p) (lit "m.sync") 0
    (snd (os.write_bytes (lit "m.sync")
            [97; 32; 13; 10; 10; 98; 32; 99; 9]%Z fs_empty))
  = (Ok [lit "a"; []; lit "b c"],
     snd (os.write_bytes (lit "m.sync")
            [97; 32; 13; 10; 10; 98; 32; 99; 9]%Z fs_empty))
  /\ Forall (fun l => utils.rstrip l = l
                      /\ forallb (fun c => negb (c =? 10)%N && negb (c =? 13)%N) l
                         = true)
            [lit "a"; []; lit "b c"].
Proof.
  assert (H : utils.readlines (fun p => p) (lit "m.sync") 0
                (snd (os.write_bytes (lit "m.sync")
                        [97; 32; 13; 10; 10; 98; 32; 99; 9]%Z fs_empty))
              = (Ok [lit "a"; []; lit "b c"],
                 snd (os.write_bytes (lit "m.sync")
                        [97; 32; 13; 10; 10; 98; 32; 99; 9]%Z fs_empty)))
    by (vm_compute; reflexivity).
  split; [exact H|].
  exact (proj2 (readlines_lines_are_stripped (fun p => p) _ _ _ _ _ H)).
Defined.


Section MoreCopyFacts.
Import utils.

(** X5. Where the destination, a path in normal form, is neither a file
    nor a directory yet and its directory is there or can be made,
    [copy_file] makes it a file with the bytes of the source and leaves
    the source as it is: a second name of the file of the source where
    the file system can link, and a copy that was written under the name
    with [.tmp] and then renamed where it cannot, so that no [.tmp] file
    is left.  The name with [.tmp] is no directory and no other name of
    the source. *)
Theorem copy_file_makes_destination (src dst : pystr) (f : os.fs) (b : list Z) :
  os.read_bytes src f = Some b ->
  os.is_normal dst = true ->
  os.is_file dst f = false ->
  os.is_dir dst f = false ->
  can_make_dir (os.parent dst) f = true ->
  os.is_dir (dst ++ lit ".tmp") f = false ->
  os.fs_names f !! src <> os.fs_names f !! (dst ++ lit ".tmp") ->
  exists f',
    copy_file src dst f = (Ok tt, f')
    /\ os.read_bytes dst f' = Some b
    /\ os.read_bytes src f' = Some b
    /\ (os.fs_can_link f = true ->
        os.fs_names f' !! dst = os.fs_names f !! src
        /\ os.fs_inodes f' = os.fs_inodes f)
    /\ (os.fs_can_link f = false -> os.is_file (dst ++ lit ".tmp") f' = false).
Proof. exact (copy_file_fresh src dst f b). Qed.
End MoreCopyFacts.

Lemma copy_file_makes_destination_witness :
  os.read_bytes (lit "data/src") fs_stale = Some [1; 2; 3; 4; 5]%Z
  /\ os.is_normal (lit "sync/new") = true
  /\ exists f', utils.copy_file (lit "data/src") (lit "sync/new") fs_stale = (Ok tt, f')
                /\ os.read_bytes (lit "sync/new") f' = Some [1; 2; 3; 4; 5]%Z.
Proof.
  assert (H1 : os.read_bytes (lit "data/src") fs_stale = Some [1; 2; 3; 4; 5]%Z)
    by (vm_compute; reflexivity).
  assert (H2 : os.is_normal (lit "sync/new") = true) by (vm_compute; reflexivity).
  assert (H3 : os.is_file (lit "sync/new") fs_stale = false)
    by (vm_compute; reflexivity).
  assert (H4 : os.is_dir (lit "sync/new") fs_stale = false)
    by (vm_compute; reflexivity).
  assert (H5 : can_make_dir (os.parent (lit "sync/new")) fs_stale = true)
    by (vm_compute; reflexivity).
  assert (H6 : os.is_dir (lit "sync/new" ++ lit ".tmp") fs_stale = false)
    by (vm_compute; reflexivity).
  assert (H7 : os.fs_names fs_stale !! lit "data/src"
               <> os.fs_names fs_stale !! (lit "sync/new" ++ lit ".tmp"))
    by (vm_compute; discriminate).
  split; [exact H1|]. split; [exact H2|].
  destruct (copy_file_makes_destination _ _ _ _ H1 H2 H3 H4 H5 H6 H7)
    as (f' & Hc & Hd & _).
  exists f'. split; assumption.
Defined.

(** ** [graph.py]: nodes and links are only added *)

Section MoreGraphFacts.
Import graph.
#[local] Arguments adj_mem : simpl never.

Lemma oset_add_idem {A} (eqb : A -> A -> bool) x (d : list A) :
  eqb x x = true -> oset_add eqb x (oset_add eqb x d) = oset_add eqb x d.
Proof.
  intros Hx. unfold oset_add at 2. destruct (existsb (eqb x) d) eqn:E.
  - unfold oset_add. now rewrite E.
  - unfold oset_add. rewrite existsb_app, E. simpl. now rewrite Hx.
Qed.

Lemma oset_add_prefix {A} (eqb : A -> A -> bool) x (d : list A) :
  exists new, oset_add eqb x d = d ++ new.
Proof.
  unfold oset_add. destruct (existsb (eqb x) d).
  - exists []. now rewrite app_nil_r.
  - now exists [x].
Qed.

Lemma oset_add_present {A} (eqb : A -> A -> bool) x (d : list A) :
  existsb (eqb x) d = true -> oset_add eqb x d = d.
Proof. intros H. unfold oset_add. now rewrite H. Qed.

Lemma oset_add_has {A} (eqb : A -> A -> bool) x (d : list A) :
  eqb x x = true -> existsb (eqb x) (oset_add eqb x d) = true.
Proof.
  intros Hx. unfold oset_add. destruct (existsb (eqb x) d) eqn:E; [exact E|].
  rewrite existsb_app, E. simpl. now rewrite Hx.
Qed.

Lemma existsb_nat_In x (d : list node_id) : In x d -> existsb (Nat.eqb x) d = true.
Proof.
  intros H. apply existsb_exists. exists x. split; [exact H|apply Nat.eqb_refl].
Qed.

(** X6. [add_node] puts the node into the graph and nothing else: the
    nodes that were there stay in their order, the links are untouched,
    and a node that is added again changes nothing. *)
Theorem add_node_only_adds (n : node_id) (g : Graph) :
  exists g',
    add_node n g = (Ok tt, g')
    /\ In n (_nodes g')
    /\ (exists new, _nodes g' = _nodes g ++ new)
    /\ _outgoing g' = _outgoing g /\ _incoming g' = _incoming g
    /\ (graph_ok g -> graph_ok g')
    /\ add_node n g' = (Ok tt, g').
Proof.
  eexists. split; [reflexivity|]. simpl.
  split; [apply oset_add_node_in|].
  split; [apply oset_add_prefix|].
  split; [reflexivity|]. split; [reflexivity|]. split.
  - intros Hok l Hl. destruct (Hok l Hl) as (H1 & H2 & H3).
    split; [exact H1|]. simpl. split; now apply oset_add_keeps.
  - unfold add_node, modify. simpl. f_equal.
    now rewrite oset_add_idem by apply Nat.eqb_refl.
Qed.

Lemma adj_mem_set n m ls adj :
  adj_mem n (adj_set m ls adj) = (m =? n)%nat || adj_mem n adj.
Proof.
  unfold adj_mem. induction adj as [|[k old] adj IH]; simpl.
  - now rewrite orb_false_r.
  - destruct (Nat.eqb_spec k m) as [->|Hkm]; simpl.
    + destruct (m =? n)%nat; reflexivity.
    + rewrite IH. destruct (k =? n)%nat, (m =? n)%nat; reflexivity.
Qed.

Lemma adj_mem_add n m link adj : adj_mem n (adj_add m link adj) = adj_mem n adj.
Proof.
  unfold adj_mem. induction adj as [|[k old] adj IH]; simpl; [reflexivity|].
  destruct (k =? m)%nat; simpl; [reflexivity|]. now rewrite IH.
Qed.

Lemma adj_add_present n link adj ls :
  adj_get n adj = Some ls -> existsb (link_eqb link) ls = true ->
  adj_add n link adj = adj.
Proof.
  induction adj as [|[k old] adj IH]; simpl; [reflexivity|].
  destruct (k =? n)%nat.
  - intros [= ->] H. now rewrite oset_add_present.
  - intros Hg H. f_equal. now apply IH.
Qed.

Lemma link_eqb_refl link : link_eqb link link = true.
Proof. apply Nat.eqb_refl. Qed.

Lemma adj_add_has n link adj :
  adj_mem n adj = true ->
  exists ls, adj_get n (adj_add n link adj) = Some ls
             /\ existsb (link_eqb link) ls = true.
Proof.
  unfold adj_mem. induction adj as [|[k old] adj IH]; simpl; [discriminate|].
  destruct (k =? n)%nat eqn:E; simpl; rewrite E.
  - intros _. eexists. split; [reflexivity|].
    apply oset_add_has, link_eqb_refl.
  - exact IH.
Qed.

Lemma adj_add_edges_keep n link adj l :
  In l (concat (map snd adj)) -> In l (concat (map snd (adj_add n link adj))).
Proof.
  induction adj as [|[k old] adj IH]; simpl; [easy|]. intros H.
  apply in_app_or in H. destruct (k =? n)%nat; simpl; apply in_or_app.
  - destruct H as [H|H]; [left; now apply oset_add_keeps|now right].
  - destruct H as [H|H]; [now left|right; now apply IH].
Qed.

Lemma adj_set_fresh_keep n adj l :
  adj_mem n adj = false ->
  In l (concat (map snd adj)) -> In l (concat (map snd (adj_set n [] adj))).
Proof.
  unfold adj_mem. induction adj as [|[k old] adj IH]; simpl; [easy|].
  intros Hm H. apply orb_false_elim in Hm. destruct Hm as [Hk Hm].
  rewrite Hk. simpl. apply in_app_or in H. apply in_or_app.
  destruct H as [H|H]; [now left|right; now apply IH].
Qed.

Lemma adj_prepared_mem n adj :
  adj_mem n (if negb (adj_mem n adj) then adj_set n [] adj else adj) = true.
Proof.
  destruct (adj_mem n adj) eqn:E; simpl; [exact E|].
  now rewrite adj_mem_set, Nat.eqb_refl.
Qed.

Lemma adj_added_again n link adj :
  adj_mem n adj = true ->
  adj_add n link
    (if negb (adj_mem n (adj_add n link adj))
     then adj_set n [] (adj_add n link adj) else adj_add n link adj)
  = adj_add n link adj.
Proof.
  intros Hm. rewrite adj_mem_add, Hm. simpl.
  destruct (adj_add_has n link adj Hm) as [ls [Hg Hl]].
  now apply (adj_add_present _ _ _ ls).
Qed.

(** X7. [add_link] of a link between two different nodes takes nothing
    away: every node and every link of the graph is still there, and the
    same link added once more leaves the graph as it is. *)
Theorem add_link_only_adds (link_str : Link -> pystr) (link : Link) (g : Graph) :
  l_source link <> l_target link ->
  exists g',
    add_link link_str link g = (Ok tt, g')
    /\ (forall n, In n (_nodes g) -> In n (_nodes g'))
    /\ (forall l, In l (edges g) -> In l (edges g'))
    /\ add_link link_str link g' = (Ok tt, g').
Proof.
  intros Hne. exists (after_add_link link g).
  split; [now apply add_link_ok|]. split; [|split].
  - intros n Hn. simpl. now do 2 apply oset_add_keeps.
  - intros l Hl. unfold edges in *. simpl. apply in_app_or in Hl.
    apply in_or_app. destruct Hl as [Hl|Hl]; [left|right];
      apply adj_add_edges_keep.
    + destruct (adj_mem (l_source link) (_outgoing g)) eqn:E; simpl; [exact Hl|].
      now apply adj_set_fresh_keep.
    + destruct (adj_mem (l_target link) (_incoming g)) eqn:E; simpl; [exact Hl|].
      now apply adj_set_fresh_keep.
  - rewrite add_link_ok by exact Hne. f_equal.
    unfold after_add_link. cbn [_nodes _outgoing _incoming].
    f_equal.
    + rewrite (oset_add_present Nat.eqb (l_source link)).
      * apply oset_add_present, existsb_nat_In, oset_add_node_in.
      * apply existsb_nat_In, oset_add_keeps, oset_add_node_in.
    + apply adj_added_again, adj_prepared_mem.
    + apply adj_added_again, adj_prepared_mem.
Qed.
End MoreGraphFacts.

Lemma add_link_only_adds_witness :
  exists g',
    graph.add_link (fun _ => [])
      {| l_id := 0; l_source := 0; l_target := 1;
         l_param := None; l_value := None; l_kind := 64%N |} graph.empty
    = (Ok tt, g')
    /\ graph.add_link (fun _ => [])
         {| l_id := 0; l_source := 0; l_target := 1;
            l_param := None; l_value := None; l_kind := 64%N |} g'
       = (Ok tt, g').
Proof.
  destruct (add_link_only_adds (fun _ => [])
              {| l_id := 0; l_source := 0; l_target := 1;
                 l_param := None; l_value := None; l_kind := 64%N |}
              graph.empty)
    as (g' & H1 & _ & _ & H2); [simpl; lia|].
  exists g'. split; assumption.
Defined.

(** ** [func.py]: how [_split_args] fills the parameters *)

Ltac cmp :=
  repeat match goal with
         | |- context [(?a <=? ?b)%nat] => destruct (Nat.leb_spec a b)
         | |- context [(?a <? ?b)%nat] => destruct (Nat.ltb_spec a b)
         end;
  simpl; try lia; try reflexivity.

Section SplitArgs.
Import func.

Lemma find_param_nth sign : forall i p,
  List.NoDup (map p_name sign) -> nth_error sign i = Some p ->
  find_param (p_name p) sign = Some p.
Proof.
  induction sign as [|q sign IH]; intros [|i] p Hnd Hn; try discriminate; simpl in *.
  - injection Hn as ->. now rewrite pystr_eqb_refl.
  - inversion Hnd as [|? ? Hnotin Hnd']; subst.
    rewrite pystr_eqb_neq; [now apply (IH i)|].
    intros Heq. apply Hnotin. rewrite <- Heq.
    apply in_map. now apply nth_error_In with i.
Qed.

Lemma nth_names_differ sign i j p q :
  List.NoDup (map p_name sign) ->
  nth_error sign i = Some p -> nth_error sign j = Some q -> i <> j ->
  p_name p <> p_name q.
Proof.
  intros Hnd Hi Hj Hne Heq. apply Hne.
  apply (proj1 (NoDup_nth_error (map p_name sign)) Hnd).
  - rewrite length_map. apply nth_error_Some. congruence.
  - rewrite !nth_error_map, Hi, Hj. simpl. now rewrite Heq.
Qed.

(** The first loop: the parameter at [idx] gets the argument at its
    position, if there is one and the parameter is a positional one. *)
Lemma split_positional_get sign n_pos idx p :
  List.NoDup (map p_name sign) -> nth_error sign idx = Some p ->
  forall args i pos var pos' var',
    split_positional sign n_pos i args pos var = Ok (pos', var') ->
    dict_get (p_name p) pos'
    = if (i <=? idx)%nat && (idx <? n_pos)%nat && (idx <? i + length args)%nat
      then nth_error args (idx - i)
      else dict_get (p_name p) pos.
Proof.
  intros Hnd Hp. induction args as [|v args IH]; intros i pos var pos' var' H.
  - simpl in H. injection H as <- <-. simpl. cmp.
  - simpl in H. destruct (nth_error sign i) as [q|] eqn:Eq; [|discriminate].
    destruct (Nat.ltb_spec i n_pos) as [Hin|Hin].
    + rewrite (IH _ _ _ _ _ H). rewrite dict_get_set. simpl length.
      destruct (Nat.eq_dec idx i) as [->|Hne].
      * assert (q = p) by congruence. subst q. rewrite pystr_eqb_refl.
        rewrite Nat.sub_diag. cmp.
      * rewrite (pystr_eqb_neq _ _ (nth_names_differ _ _ _ _ _ Hnd Hp Eq Hne)).
        cmp. replace (idx - i)%nat with (S (idx - S i)) by lia. reflexivity.
    + injection H as <- _. cmp.
Qed.

(** The second loop: a positional parameter that has no value yet gets
    the one of its keyword, and one that has a value keeps it. *)
Lemma split_keywords_get sign k p :
  find_param k sign = Some p -> is_positional p = true ->
  forall kwargs pos var key pos' var' key',
    List.NoDup (dict_keys kwargs) ->
    split_keywords sign kwargs pos var key = Ok (pos', var', key') ->
    dict_get k pos'
    = match dict_get k pos with
      | Some v => Some v
      | None => dict_get k kwargs
      end.
Proof.
  intros Hf Hpos. induction kwargs as [|[k0 v0] kwargs IH];
    intros pos var key pos' var' key' Hnd H.
  - simpl in H. injection H as <- _ _. simpl. now destruct (dict_get k pos).
  - inversion Hnd as [|? ? Hnotin Hnd']; subst. simpl in H. simpl dict_get.
    destruct (pystr_eqb k k0) eqn:E.
    + apply pystr_eqb_eq in E. subst k0. rewrite Hf in H.
      unfold is_positional in Hpos.
      destruct (p_kind p); try discriminate;
        rewrite (IH _ _ _ _ _ _ Hnd' H); unfold dict_mem;
        (destruct (dict_get k pos) eqn:Eg;
         [now rewrite Eg
         |rewrite dict_get_set, pystr_eqb_refl; reflexivity]).
    + assert (Hkeep : forall pos0,
                dict_get k (if dict_mem k0 pos0 then pos0 else dict_set k0 v0 pos0)
                = dict_get k pos0).
      { intros pos0. destruct (dict_mem k0 pos0); [reflexivity|].
        now rewrite dict_get_set, E. }
      destruct (find_param k0 sign) as [q|].
      * destruct (p_kind q).
        -- rewrite (IH _ _ _ _ _ _ Hnd' H). now rewrite Hkeep.
        -- rewrite (IH _ _ _ _ _ _ Hnd' H). now rewrite Hkeep.
        -- destruct (dict_mem k0 var); [exact (IH _ _ _ _ _ _ Hnd' H)|].
           destruct v0; try discriminate; exact (IH _ _ _ _ _ _ Hnd' H).
        -- exact (IH _ _ _ _ _ _ Hnd' H).
        -- exact (IH _ _ _ _ _ _ Hnd' H).
      * exact (IH _ _ _ _ _ _ Hnd' H).
Qed.

Lemma insert_by_index_perm sign kv l : Permutation (insert_by_index sign kv l) (kv :: l).
Proof.
  induction l as [|q l IH]; simpl; [reflexivity|].
  destruct (_ <=? _)%Z; [reflexivity|]. rewrite IH. apply perm_swap.
Qed.

Lemma sorted_kwargs_perm sign kwargs : Permutation (sorted_kwargs sign kwargs) kwargs.
Proof.
  induction kwargs as [|kv l IH]; simpl; [reflexivity|].
  rewrite insert_by_index_perm. now constructor.
Qed.

Lemma filter_firstn_length {A} (P : A -> bool) (l : list A) n :
  forallb P (firstn n l) = true -> (n <= length l)%nat ->
  (n <= length (List.filter P l))%nat.
Proof.
  revert n. induction l as [|a l IH]; intros [|n] H Hn; simpl in *; try lia.
  apply andb_prop in H. destruct H as [Ha Hl]. rewrite Ha. simpl.
  apply le_n_S. apply IH; [exact Hl|lia].
Qed.

Lemma missing_args_positional sign pos key idx p :
  List.NoDup (map p_name sign) -> nth_error sign idx = Some p ->
  is_positional p = true ->
  In (p_name p) (missing_args sign pos key) <-> dict_mem (p_name p) pos = false.
Proof.
  intros Hnd Hp Hpos. unfold missing_args. rewrite in_flat_map. split.
  - intros [q [Hq Hin]].
    assert (Hname : p_name q = p_name p).
    { destruct (p_kind q); try (now destruct Hin).
      - destruct (dict_mem (p_name q) pos); [now destruct Hin|].
        now destruct Hin as [H|[]].
      - destruct (dict_mem (p_name q) pos); [now destruct Hin|].
        now destruct Hin as [H|[]].
      - destruct (p_default q); [now destruct Hin|].
        destruct (dict_mem (p_name q) key); [now destruct Hin|].
        now destruct Hin as [H|[]]. }
    apply In_nth_error in Hq. destruct Hq as [j Hj].
    destruct (Nat.eq_dec j idx) as [->|Hne].
    + assert (q = p) by congruence. subst q.
      unfold is_positional in Hpos.
      destruct (p_kind p); try discriminate;
        (destruct (dict_mem (p_name p) pos); [now destruct Hin|reflexivity]).
    + now destruct (nth_names_differ _ _ _ _ _ Hnd Hj Hp Hne).
  - intros Hm. exists p. split; [now apply nth_error_In with idx|].
    unfold is_positional in Hpos.
    destruct (p_kind p); try discriminate; rewrite Hm; now left.
Qed.

(** X8. [_split_args] gives a positional parameter the argument at its
    position, whatever the keywords say, and else the argument of its
    keyword; and it reports the parameter as missing exactly when
    neither was given, whether the parameter has a default or not. *)
Theorem split_args_positional (sign : Signature) (args : list value)
    (kwargs pos var key : dict) (missing : list pystr) (idx : nat) (p : Param) :
  distinct (map p_name sign) = true ->
  distinct (dict_keys kwargs) = true ->
  forallb is_positional (firstn (S idx) sign) = true ->
  nth_error sign idx = Some p ->
  _split_args sign args kwargs = Ok (pos, var, key, missing) ->
  dict_get (p_name p) pos
  = match nth_error args idx with
    | Some v => Some v
    | None => dict_get (p_name p) kwargs
    end
  /\ (In (p_name p) missing
      <-> (length args <= idx)%nat /\ dict_mem (p_name p) kwargs = false).
Proof.
  intros Hs Hk Hfirst Hp Hrun.
  apply distinct_NoDup in Hs. apply distinct_NoDup in Hk.
  assert (Hlen : (idx < length sign)%nat) by (apply nth_error_Some; congruence).
  assert (Hn : (idx < length (List.filter is_positional sign))%nat)
    by (apply (filter_firstn_length is_positional sign (S idx) Hfirst); lia).
  assert (Hpos : is_positional p = true).
  { apply (proj1 (forallb_forall _ _) Hfirst).
    apply nth_error_In with idx. rewrite nth_error_firstn.
    destruct (Nat.ltb_spec idx (S idx)); [exact Hp|lia]. }
  unfold _split_args in Hrun.
  destruct (split_positional _ _ _ _ _ _) as [[pos1 var1]|e] eqn:E1; [|discriminate].
  simpl in Hrun.
  destruct (split_keywords _ _ _ _ _) as [[[pos2 var2] key2]|e] eqn:E2;
    [|discriminate].
  simpl in Hrun. injection Hrun as <- <- <- <-.
  assert (Hget : dict_get (p_name p) pos2
                 = match nth_error args idx with
                   | Some v => Some v
                   | None => dict_get (p_name p) kwargs
                   end).
  { assert (Hk' : List.NoDup (dict_keys (sorted_kwargs sign kwargs)))
      by (unfold dict_keys; eapply Permutation_NoDup; [|exact Hk];
          apply Permutation_map; symmetry; apply sorted_kwargs_perm).
    rewrite (split_keywords_get sign (p_name p) p
               (find_param_nth _ _ _ Hs Hp) Hpos _ _ _ _ _ _ _ Hk' E2).
    rewrite (split_positional_get sign _ idx p Hs Hp _ _ _ _ _ _ E1).
    rewrite Nat.sub_0_r. simpl dict_get.
    rewrite (dict_get_perm _ _ _ Hk' (sorted_kwargs_perm sign kwargs)).
    destruct (Nat.ltb_spec idx (length args)) as [Hlt|Hge].
    - destruct (nth_error args idx) as [v|] eqn:Ev.
      + cmp.
      + apply nth_error_None in Ev. lia.
    - rewrite (proj2 (nth_error_None args idx) Hge). cmp. }
  split; [exact Hget|].
  rewrite (missing_args_positional sign pos2 key2 idx p Hs Hp Hpos).
  unfold dict_mem. rewrite Hget.
  destruct (nth_error args idx) as [v|] eqn:Ev.
  - split; [discriminate|]. intros [Hle _].
    apply (proj2 (nth_error_None args idx)) in Hle. congruence.
  - apply nth_error_None in Ev.
    destruct (dict_get (p_name p) kwargs); split; try easy.
Qed.

(** The second loop and the keyword arguments. *)
Lemma split_keywords_key sign k :
  forall kwargs pos var key pos' var' key',
    List.NoDup (dict_keys kwargs) ->
    split_keywords sign kwargs pos var key = Ok (pos', var', key') ->
    dict_get k key'
    = if stays_keyword sign k then
        match dict_get k kwargs with
        | Some v => Some v
        | None => dict_get k key
        end
      else dict_get k key.
Proof.
  induction kwargs as [|[k0 v0] kwargs IH];
    intros pos var key pos' var' key' Hnd H.
  - simpl in H. injection H as _ _ <-. simpl. now destruct (stays_keyword sign k).
  - inversion Hnd as [|? ? Hnotin Hnd']; subst. simpl in H. simpl dict_get.
    assert (Hset : split_keywords sign kwargs pos var (dict_set k0 v0 key)
                   = Ok (pos', var', key') ->
                   stays_keyword sign k0 = true ->
                   dict_get k key'
                   = if stays_keyword sign k then
                       match (if pystr_eqb k k0 then Some v0 else dict_get k kwargs) with
                       | Some v => Some v
                       | None => dict_get k key
                       end
                     else dict_get k key).
    { intros H' Hk0. rewrite (IH _ _ _ _ _ _ Hnd' H'), dict_get_set.
      destruct (pystr_eqb k k0) eqn:E.
      - apply pystr_eqb_eq in E. subst k0. rewrite Hk0.
        now rewrite (dict_get_absent _ _ Hnotin).
      - reflexivity. }
    assert (Hskip : forall pos0 var0,
              split_keywords sign kwargs pos0 var0 key = Ok (pos', var', key') ->
              stays_keyword sign k0 = false ->
              dict_get k key'
              = if stays_keyword sign k then
                  match (if pystr_eqb k k0 then Some v0 else dict_get k kwargs) with
                  | Some v => Some v
                  | None => dict_get k key
                  end
                else dict_get k key).
    { intros pos0 var0 H' Hk0. rewrite (IH _ _ _ _ _ _ Hnd' H').
      destruct (pystr_eqb k k0) eqn:E; [|reflexivity].
      apply pystr_eqb_eq in E. subst k0. now rewrite Hk0. }
    unfold stays_keyword in Hset, Hskip at 1.
    destruct (find_param k0 sign) as [q|].
    + destruct (p_kind q).
      * now apply (Hskip _ _ H).
      * now apply (Hskip _ _ H).
      * destruct (dict_mem k0 var); [now apply (Hskip _ _ H)|].
        destruct v0; try discriminate; now apply (Hskip _ _ H).
      * now apply Hset.
      * now apply Hset.
    + now apply Hset.
Qed.

Lemma missing_args_keyword sign pos key idx p :
  List.NoDup (map p_name sign) -> nth_error sign idx = Some p ->
  p_kind p = KEYWORD_ONLY ->
  In (p_name p) (missing_args sign pos key)
  <-> p_default p = None /\ dict_mem (p_name p) key = false.
Proof.
  intros Hnd Hp Hkind. unfold missing_args. rewrite in_flat_map. split.
  - intros [q [Hq Hin]].
    assert (Hname : p_name q = p_name p).
    { destruct (p_kind q); try (now destruct Hin).
      - destruct (dict_mem (p_name q) pos); [now destruct Hin|].
        now destruct Hin as [H|[]].
      - destruct (dict_mem (p_name q) pos); [now destruct Hin|].
        now destruct Hin as [H|[]].
      - destruct (p_default q); [now destruct Hin|].
        destruct (dict_mem (p_name q) key); [now destruct Hin|].
        now destruct Hin as [H|[]]. }
    apply In_nth_error in Hq. destruct Hq as [j Hj].
    destruct (Nat.eq_dec j idx) as [->|Hne].
    + assert (q = p) by congruence. subst q. rewrite Hkind in Hin.
      destruct (p_default p); [now destruct Hin|].
      destruct (dict_mem (p_name p) key); [now destruct Hin|]. now split.
    + now destruct (nth_names_differ _ _ _ _ _ Hnd Hj Hp Hne).
  - intros [Hd Hm]. exists p. split; [now apply nth_error_In with idx|].
    rewrite Hkind, Hd, Hm. now left.
Qed.

(** X9. [_split_args] passes on as keyword arguments the keywords that
    name a keyword-only parameter, [**kwargs] or no parameter, with their
    values, and no other; a keyword-only parameter is reported missing
    exactly when it has no default and its keyword is not given. *)
Theorem split_args_keywords (sign : Signature) (args : list value)
    (kwargs pos var key : dict) (missing : list pystr) :
  distinct (map p_name sign) = true ->
  distinct (dict_keys kwargs) = true ->
  _split_args sign args kwargs = Ok (pos, var, key, missing) ->
  (forall k, dict_get k key
             = if stays_keyword sign k then dict_get k kwargs else None)
  /\ (forall idx p,
        nth_error sign idx = Some p -> p_kind p = KEYWORD_ONLY ->
        (In (p_name p) missing
         <-> p_default p = None /\ dict_mem (p_name p) kwargs = false)).
Proof.
  intros Hs Hk Hrun.
  apply distinct_NoDup in Hs. apply distinct_NoDup in Hk.
  unfold _split_args in Hrun.
  destruct (split_positional _ _ _ _ _ _) as [[pos1 var1]|e] eqn:E1; [|discriminate].
  simpl in Hrun.
  destruct (split_keywords _ _ _ _ _) as [[[pos2 var2] key2]|e] eqn:E2;
    [|discriminate].
  simpl in Hrun. injection Hrun as <- <- <- <-.
  assert (Hk' : List.NoDup (dict_keys (sorted_kwargs sign kwargs)))
    by (unfold dict_keys; eapply Permutation_NoDup; [|exact Hk];
        apply Permutation_map; symmetry; apply sorted_kwargs_perm).
  assert (Hkey : forall k, dict_get k key2
                           = if stays_keyword sign k then dict_get k kwargs else None).
  { intros k. rewrite (split_keywords_key sign k _ _ _ _ _ _ _ Hk' E2).
    rewrite (dict_get_perm _ _ _ Hk' (sorted_kwargs_perm sign kwargs)).
    simpl. destruct (stays_keyword sign k); [|reflexivity].
    now destruct (dict_get k kwargs). }
  split; [exact Hkey|].
  intros idx p Hp Hkind.
  rewrite (missing_args_keyword sign pos2 key2 idx p Hs Hp Hkind).
  unfold dict_mem. rewrite Hkey. unfold stays_keyword.
  rewrite (find_param_nth _ _ _ Hs Hp), Hkind. reflexivity.
Qed.
End SplitArgs.

Lemma split_args_positional_witness :
  func._split_args
    [ {| func.p_name := lit "a"; func.p_kind := func.POSITIONAL_OR_KEYWORD;
         func.p_default := None |};
      {| func.p_name := lit "b"; func.p_kind := func.POSITIONAL_OR_KEYWORD;
         func.p_default := Some (VInt 1) |} ]
    [VInt 0] [] = Ok ([(lit "a", VInt 0)], [], [], [lit "b"])
  /\ (In (lit "b") [lit "b"]
      <-> (length [VInt 0] <= 1)%nat /\ dict_mem (lit "b") ([] : dict) = false).
Proof.
  assert (H : func._split_args
      [ {| func.p_name := lit "a"; func.p_kind := func.POSITIONAL_OR_KEYWORD;
           func.p_default := None |};
        {| func.p_name := lit "b"; func.p_kind := func.POSITIONAL_OR_KEYWORD;
           func.p_default := Some (VInt 1) |} ]
      [VInt 0] [] = Ok ([(lit "a", VInt 0)], [], [], [lit "b"]))
    by (vm_compute; reflexivity).
  split; [exact H|].
  exact (proj2 (split_args_positional
                  [ {| func.p_name := lit "a";
                       func.p_kind := func.POSITIONAL_OR_KEYWORD;
                       func.p_default := None |};
                    {| func.p_name := lit "b";
                       func.p_kind := func.POSITIONAL_OR_KEYWORD;
                       func.p_default := Some (VInt 1) |} ]
                  [VInt 0] [] [(lit "a", VInt 0)] [] [] [lit "b"] 1
                  {| func.p_name := lit "b";
                     func.p_kind := func.POSITIONAL_OR_KEYWORD;
                     func.p_default := Some (VInt 1) |}
                  eq_refl eq_refl eq_refl eq_refl H)).
Defined.

Lemma split_args_keywords_witness :
  func._split_args tests.foo_sign [VStr (lit "a"); VStr (lit "b")]
    [(lit "x", VInt 1); (lit "a", VInt 2)]
  = Ok ([(lit "a", VStr (lit "a")); (lit "b", VStr (lit "b"))], [],
        [(lit "x", VInt 1)], [lit "d"])
  /\ dict_get (lit "x") [(lit "x", VInt 1)] = Some (VInt 1)
  /\ dict_get (lit "a") [(lit "x", VInt 1)] = None.
Proof.
  assert (H : func._split_args tests.foo_sign [VStr (lit "a"); VStr (lit "b")]
                [(lit "x", VInt 1); (lit "a", VInt 2)]
              = Ok ([(lit "a", VStr (lit "a")); (lit "b", VStr (lit "b"))], [],
                    [(lit "x", VInt 1)], [lit "d"]))
    by (vm_compute; reflexivity).
  split; [exact H|].
  destruct (split_args_keywords tests.foo_sign
              [VStr (lit "a"); VStr (lit "b")]
              [(lit "x", VInt 1); (lit "a", VInt 2)]
              _ _ _ _ eq_refl eq_refl H)
    as [Hkey _].
  split; [exact (Hkey (lit "x"))|exact (Hkey (lit "a"))].
Defined.

(** ** [conf.py]: what a rewriter never does *)

Section MoreLoopFacts.
Import conf.
Context {St : Type} (self : Rewrite St).

Lemma try_except_stop {A} (c : M St A) (a : A) s e s' :
  try_except c is_StopRewrite (fun _ => ret a) s = (Raise e, s') ->
  is_StopRewrite e = false.
Proof.
  unfold try_except. destruct (c s) as [[x|e0] s0]; [discriminate|].
  destruct (is_StopRewrite e0) eqn:E; [discriminate|].
  now intros [= <- _].
Qed.

(** [_rewrite] catches [StopRewrite] itself. *)
Lemma _rewrite_no_stop k v depth s e s' :
  _rewrite self k v depth s = (Raise e, s') -> is_StopRewrite e = false.
Proof.
  rewrite _rewrite_eq.
  destruct (negb (_max_depth self =? -1) && (depth >? _max_depth self))%Z;
    [discriminate|].
  apply try_except_stop.
Qed.

Lemma list_loop_length (rw : value -> M St value) :
  (forall v s e s', rw v s = (Raise e, s') -> is_StopRewrite e = false) ->
  forall l acc s nl s',
    _rewrite_list_loop rw l acc s = (Ok nl, s') ->
    length nl = (length acc + length l)%nat.
Proof.
  intros Hrw. induction l as [|v l IH]; intros acc s nl s' Hrun.
  - injection Hrun as <- _. simpl. lia.
  - simpl in Hrun. unfold bind at 1 in Hrun.
    destruct (try_except _ _ _ s) as [[acc1|e] s1] eqn:Et; [|discriminate].
    rewrite (IH _ _ _ _ Hrun). unfold try_except, bind, ret in Et.
    destruct (rw v s) as [[x|e] s2] eqn:Ex.
    + injection Et as <- _. rewrite length_app. simpl. lia.
    + rewrite (Hrw _ _ _ _ Ex) in Et. discriminate.
Qed.

(** X10. No rewriter lets a [StopRewrite] out of [_rewrite]: where a
    handler raises it, [None] is returned in its place.  So the handlers
    of [_rewrite_list] have nothing to catch, and the list that it
    returns has as many elements as the list or tuple it was given. *)
Theorem rewrite_list_keeps_length (k : option pystr) (depth : Z) (s : St) :
  (forall v e s', _rewrite self k v depth s = (Raise e, s') ->
                  is_StopRewrite e = false)
  /\ (forall l nl s', _rewrite_list self k l depth s = (Ok nl, s') ->
                      length nl = length l).
Proof.
  split.
  - intros v e s'. apply _rewrite_no_stop.
  - intros l nl s' H. unfold _rewrite_list in H.
    apply list_loop_length in H; [exact H|].
    intros v s0 e s0'. apply _rewrite_no_stop.
Qed.
End MoreLoopFacts.

(** An object in a list is [None] in the list that [StopRewriteObjects]
    and [RewriteFlowConf] return. *)
Lemma rewrite_list_keeps_length_witness :
  run (conf._rewrite_list conf.StopRewriteObjects None
         [VInt 1; VObj (lit "object") 7 None None; VInt 2] 0)
  = Ok [VInt 1; VNone; VInt 2]
  /\ length [VInt 1; VNone; VInt 2]
     = length [VInt 1; VObj (lit "object") 7 None None; VInt 2].
Proof.
  assert (H : conf._rewrite_list conf.StopRewriteObjects None
                [VInt 1; VObj (lit "object") 7 None None; VInt 2] 0 tt
              = (Ok [VInt 1; VNone; VInt 2], tt)) by (vm_compute; reflexivity).
  split; [vm_compute; reflexivity|].
  exact (proj2 (rewrite_list_keeps_length conf.StopRewriteObjects None 0 tt) _ _ _ H).
Defined.

(** ** [conf.py]: the hash view and the meta keys *)

Section HashMeta.
Import conf node.
Context (slug : node_id -> res pystr) (link_pickle : Link -> option (list Z)).
Abbreviation HC := (RewriteHashConf slug link_pickle).
#[local] Arguments startswith : simpl never.

Lemma hash_loop_filter_meta rw parent parent' items :
  forall acc s,
    _rewrite_dict_loop HC rw 1 parent items acc s
    = _rewrite_dict_loop HC rw 1 parent' (List.filter not_meta items) acc s.
Proof.
  induction items as [|[k v] rest IH]; intros acc s; [reflexivity|].
  simpl. unfold not_meta at 1. simpl fst.
  unfold bind, RewriteHashConf_discard_item, ret. simpl.
  destruct (startswith (lit "_") k) eqn:E; simpl.
  - rewrite orb_true_r. apply IH.
  - unfold bind, RewriteHashConf_discard_item, ret. simpl. rewrite E.
    rewrite orb_false_r.
    destruct (startswith (lit "#") k); simpl; [apply IH|].
    destruct (try_except _ _ _ s) as [[nd|e] s']; [apply IH|reflexivity].
Qed.

Lemma hash_loop_keys_meta rw parent items :
  forall acc s nd s',
    _rewrite_dict_loop HC rw 1 parent items acc s = (Ok nd, s') ->
    forall p, In p nd -> In p acc \/ startswith (lit "_") (fst p) = false.
Proof.
  induction items as [|[k v] rest IH]; intros acc s nd s' Hrun p Hp.
  - injection Hrun as <- _. now left.
  - simpl in Hrun. unfold bind, RewriteHashConf_discard_item, ret in Hrun.
    simpl in Hrun.
    destruct (startswith (lit "_") k) eqn:E.
    + rewrite orb_true_r in Hrun. exact (IH _ _ _ _ Hrun p Hp).
    + rewrite orb_false_r in Hrun.
      destruct (startswith (lit "#") k) eqn:Ec; simpl in Hrun.
      * exact (IH _ _ _ _ Hrun p Hp).
      * destruct (try_except _ _ _ s) as [[nd1|e] s1] eqn:Et; [|discriminate].
        destruct (IH _ _ _ _ Hrun p Hp) as [Hin|Hk]; [|now right].
        unfold try_except in Et.
        destruct (rw k v s) as [[x|e] s2]; simpl in Et.
        -- injection Et as <- _.
           destruct (dict_set_In _ _ _ _ Hin) as [->|Hin']; [now right|now left].
        -- destruct (is_StopRewrite e); [|discriminate].
           injection Et as <- _. now left.
Qed.

(** X11. The hash view that [RewriteHashConf] makes of a node
    configuration has no key that begins with [_] at its top, and it is
    the hash view of the configuration without the keys that begin with
    [_], such as [_func], [_base], [_path] and [_dump].  This is the step
    from [_node_conf] to [_hash_conf] only: a given [_hash] is taken for
    the hash whatever the view is, and [_func] chooses the defaults that
    are in the node configuration before this step. *)
Theorem hash_conf_ignores_meta (base : pystr) (d : dict) (h : value) :
  hash_conf_of slug link_pickle base (VDict d) = Ok h ->
  (exists hd, h = VDict [(base, VDict hd)]
              /\ forall k, In k (dict_keys hd) -> startswith (lit "_") k = false)
  /\ hash_conf_of slug link_pickle base (VDict (List.filter not_meta d)) = Ok h.
Proof.
  intros Hh. split.
  - unfold hash_conf_of, run, rewrite in Hh. simpl in Hh.
    unfold try_except, bind in Hh.
    destruct (_rewrite_dict_loop _ _ _ _ _ _ _) as [[nd|e] s'] eqn:El.
    + simpl in Hh. injection Hh as <-. eexists. split; [reflexivity|].
      intros k Hk. unfold dict_keys in Hk. apply in_map_iff in Hk.
      destruct Hk as [[k' v] [<- Hin]]. apply sorted_dict_In in Hin.
      destruct (hash_loop_keys_meta _ _ _ _ _ _ _ El _ Hin) as [[]|Hk]. exact Hk.
    + rewrite (hash_loop_raise _ _ _ _ _ _ _ _ _ El) in Hh. discriminate.
  - unfold hash_conf_of, run, rewrite in *. simpl in *.
    unfold try_except, bind in *.
    now rewrite <- (hash_loop_filter_meta _ d (List.filter not_meta d) d [] tt).
Qed.
End HashMeta.

Lemma hash_conf_ignores_meta_witness :
  exists h,
    node.hash_conf_of (fun _ => Ok []) (fun _ => None) (lit "foo")
      (VDict (tests.abd ++ [(lit "_func", VStr (lit "test.function.foo"))])) = Ok h
    /\ node.hash_conf_of (fun _ => Ok []) (fun _ => None) (lit "foo")
         (VDict (List.filter not_meta
                   (tests.abd ++ [(lit "_func", VStr (lit "test.function.foo"))])))
       = Ok h.
Proof.
  eexists. split; [vm_compute; reflexivity|].
  apply (hash_conf_ignores_meta (fun _ => Ok []) (fun _ => None) (lit "foo")
           (tests.abd ++ [(lit "_func", VStr (lit "test.function.foo"))])).
  vm_compute. reflexivity.
Defined.

(** ** [conf.py]: the node configuration and the defaults *)

Lemma dict_update_get {V} (b : list (pystr * V)) : forall a k,
  List.NoDup (dict_keys b) ->
  dict_get k (dict_update a b)
  = match dict_get k b with
    | Some v => Some v
    | None => dict_get k a
    end.
Proof.
  unfold dict_update. induction b as [|[k0 v0] b IH]; intros a k Hnd; simpl.
  - reflexivity.
  - inversion Hnd as [|? ? Hnotin Hnd']; subst.
    rewrite IH by exact Hnd'. simpl. rewrite dict_get_set.
    destruct (pystr_eqb k k0) eqn:E; [|reflexivity].
    apply pystr_eqb_eq in E. subst k0.
    now rewrite (dict_get_absent _ _ Hnotin).
Qed.

Section LoopLookups.
Import conf.
Context {St : Type} (self : Rewrite St).
#[local] Arguments startswith : simpl never.

(** The loop of [_rewrite_dict] lets no [StopRewrite] out where
    [discard_item] raises none. *)
Lemma dict_loop_no_stop rw depth1 parent :
  (forall k v s e s', discard_item self k v depth1 parent s = (Raise e, s') ->
                      is_StopRewrite e = false) ->
  forall items acc s e s',
    _rewrite_dict_loop self rw depth1 parent items acc s = (Raise e, s') ->
    is_StopRewrite e = false.
Proof.
  intros Hd. induction items as [|[k v] rest IH]; intros acc s e s' Hrun;
    [discriminate|].
  simpl in Hrun. unfold bind at 1 in Hrun.
  destruct (discard_item self k v depth1 parent s) as [[[|]|e0] s0] eqn:Ed.
  - exact (IH _ _ _ _ Hrun).
  - unfold bind at 1 in Hrun.
    destruct (try_except _ _ _ s0) as [[acc1|e1] s1] eqn:Et.
    + exact (IH _ _ _ _ Hrun).
    + injection Hrun as <- _. unfold try_except in Et.
      destruct ((let* x := _ in _) s0) as [[x|e2] s2]; [discriminate|].
      destruct (is_StopRewrite e2) eqn:E2; [discriminate|].
      now injection Et as <- _.
  - injection Hrun as <- _. exact (Hd _ _ _ _ _ Ed).
Qed.

(** What the new mapping holds for a key, where the items have distinct
    keys: nothing new for a key that is no key of the items, and for a
    key that is not discarded the value of a comment as it is, and else
    what the rewriter returns, if that does not depend on the state. *)
Lemma dict_loop_get rw depth1 parent k :
  forall items acc s nd s',
    List.NoDup (dict_keys items) ->
    _rewrite_dict_loop self rw depth1 parent items acc s = (Ok nd, s') ->
    match dict_get k items with
    | None => dict_get k nd = dict_get k acc
    | Some v =>
        forall x,
          (forall s0, exists s1, discard_item self k v depth1 parent s0 = (Ok false, s1)) ->
          (startswith (lit "#") k = true /\ x = v
           \/ startswith (lit "#") k = false
              /\ forall s0, exists s1, rw k v s0 = (Ok x, s1)) ->
          dict_get k nd = Some x
    end.
Proof.
  induction items as [|[k0 v0] rest IH]; intros acc s nd s' Hnd Hrun.
  - injection Hrun as <- _. reflexivity.
  - inversion Hnd as [|? ? Hnotin Hnd']; subst.
    simpl in Hrun. unfold bind at 1 in Hrun. simpl dict_get.
    destruct (pystr_eqb k k0) eqn:E.
    + apply pystr_eqb_eq in E. subst k0. intros x Hdis Hx.
      destruct (Hdis s) as [s0 Hd0]. rewrite Hd0 in Hrun.
      unfold bind at 1 in Hrun.
      destruct (try_except _ _ _ s0) as [[acc1|e] s1] eqn:Et; [|discriminate].
      pose proof (IH _ _ _ _ Hnd' Hrun) as Hrest.
      rewrite (dict_get_absent _ _ Hnotin) in Hrest. rewrite Hrest.
      unfold try_except, bind, ret in Et.
      destruct Hx as [[Hc ->]|[Hc Hrw]]; rewrite Hc in Et; simpl in Et.
      * injection Et as <- _. now rewrite dict_get_set, pystr_eqb_refl.
      * destruct (Hrw s0) as [s2 Hx]. rewrite Hx in Et.
        injection Et as <- _. now rewrite dict_get_set, pystr_eqb_refl.
    + assert (Hstep : forall acc1 s1,
                _rewrite_dict_loop self rw depth1 parent rest acc1 s1 = (Ok nd, s') ->
                dict_get k acc1 = dict_get k acc ->
                match dict_get k rest with
                | None => dict_get k nd = dict_get k acc
                | Some v =>
                    forall x,
                      (forall s0, exists s1,
                          discard_item self k v depth1 parent s0 = (Ok false, s1)) ->
                      (startswith (lit "#") k = true /\ x = v
                       \/ startswith (lit "#") k = false
                          /\ forall s0, exists s1, rw k v s0 = (Ok x, s1)) ->
                      dict_get k nd = Some x
                end).
      { intros acc1 s1 Hrun1 Hacc. pose proof (IH _ _ _ _ Hnd' Hrun1) as Hrest.
        destruct (dict_get k rest); [exact Hrest|]. now rewrite Hrest. }
      destruct (discard_item self k0 v0 depth1 parent s) as [[[|]|e] s0];
        [now apply (Hstep _ _ Hrun)| |discriminate].
      unfold bind at 1 in Hrun.
      destruct (try_except _ _ _ s0) as [[acc1|e] s1] eqn:Et; [|discriminate].
      apply (Hstep _ _ Hrun).
      unfold try_except, bind, ret in Et.
      destruct ((if negb (startswith (lit "#") k0) then rw k0 v0 else _) s0)
        as [[x0|e] s2].
      * injection Et as <- _. now rewrite dict_get_set, E.
      * destruct (is_StopRewrite e); [|discriminate]. now injection Et as <- _.
Qed.
End LoopLookups.

Section NodeConf.
Import conf.
Context (func_defs : dict).
Abbreviation NC := (RewriteNodeConf func_defs).
#[local] Arguments startswith : simpl never.

Lemma node_rewrite_plain k v depth s :
  plain_value v = true -> _rewrite NC k v depth s = (Ok v, s).
Proof.
  intros Hv. rewrite _rewrite_eq.
  destruct (negb (_max_depth NC =? -1) && (depth >? _max_depth NC))%Z;
    [reflexivity|].
  destruct v; try discriminate; reflexivity.
Qed.

(** X12. The node configuration is the configuration on top of the
    defaults of the function: a parameter with a default that the
    configuration does not set has its default, and what the
    configuration sets to a string, a number, a truth value or [None]
    under a key that is no comment has that value, default or not. *)
Theorem node_conf_has_defaults (d : dict) (a : value) :
  distinct (dict_keys d) = true ->
  run (rewrite NC (VDict d)) = Ok a ->
  exists nd,
    a = VDict nd
    /\ (forall k dflt,
          dict_get k func_defs = Some dflt -> dict_get k d = None ->
          dict_get k nd = Some dflt)
    /\ (forall k v,
          dict_get k d = Some v -> plain_value v = true ->
          startswith (lit "#") k = false ->
          dict_get k nd = Some v).
Proof.
  intros Hd Hrun. apply distinct_NoDup in Hd.
  unfold run, rewrite in Hrun. rewrite _rewrite_eq in Hrun.
  simpl in Hrun. unfold try_except, bind, ret in Hrun.
  destruct (_rewrite_dict_loop _ _ _ _ _ _ _) as [[nd|e] s1] eqn:El;
    simpl in Hrun.
  - injection Hrun as <-. eexists. split; [reflexivity|].
    assert (Hnd : List.NoDup (dict_keys nd))
      by (apply (dict_loop_NoDup _ _ _ _ _ _ _ _ _ El); constructor).
    split.
    + intros k dflt Hk Hnone. rewrite dict_update_get by exact Hnd.
      pose proof (dict_loop_get NC _ _ d k _ _ _ _ _ Hd El) as Hget.
      rewrite Hnone in Hget. simpl in Hget. now rewrite Hget.
    + intros k v Hk Hv Hc. rewrite dict_update_get by exact Hnd.
      pose proof (dict_loop_get NC _ _ d k _ _ _ _ _ Hd El) as Hget.
      rewrite Hk in Hget. rewrite (Hget v); [reflexivity| |].
      * intros s0. exists s0. unfold discard_item. simpl.
        unfold RewriteNodeConf_discard_item, ret. now rewrite Hc, andb_false_r.
      * right. split; [exact Hc|]. intros s0. exists s0.
        now apply node_rewrite_plain.
  - assert (Hs : is_StopRewrite e = false).
    { eapply (dict_loop_no_stop NC); [|exact El].
      intros k v s e0 s' H. simpl in H.
      unfold RewriteNodeConf_discard_item, ret in H. discriminate H. }
    rewrite Hs in Hrun. discriminate.
Qed.
End NodeConf.

Lemma node_conf_has_defaults_witness :
  exists nd,
    run (conf.rewrite (conf.RewriteNodeConf (func.defs tests.foo)) (VDict tests.abd))
    = Ok (VDict nd)
    /\ dict_get (lit "e") nd = Some VNone
    /\ dict_get (lit "a") nd = Some (VStr (lit "a")).
Proof.
  assert (H : run (conf.rewrite (conf.RewriteNodeConf (func.defs tests.foo))
                     (VDict tests.abd))
              = Ok (VDict [(lit "e", VNone); (lit "a", VStr (lit "a"));
                           (lit "b", VStr (lit "b")); (lit "d", VStr (lit "d"))]))
    by (vm_compute; reflexivity).
  destruct (node_conf_has_defaults (func.defs tests.foo) tests.abd _
              eq_refl H) as (nd & Hnd & Hdef & Hset).
  exists nd. split; [now rewrite H, Hnd|]. split.
  - apply (Hdef (lit "e") VNone); reflexivity.
  - apply (Hset (lit "a") (VStr (lit "a"))); reflexivity.
Defined.

(** ** [conf.py]: the strings that become links *)

Section LinkStrings.
Import conf.

Lemma file_target_no_hash t : forall seen,
  forallb (fun c => negb (c =? 35)%N) t = true -> file_target t seen = None.
Proof.
  induction t as [|c t IH]; intros seen H; simpl; [reflexivity|].
  simpl in H. apply andb_prop in H. destruct H as [Hc Ht].
  destruct (is_newline c); [reflexivity|].
  rewrite (IH _ Ht). apply negb_true_iff in Hc. now rewrite Hc.
Qed.

Lemma dotstar_end_plain t :
  forallb (fun c => negb (is_newline c)) t = true -> dotstar_end t = Some t.
Proof.
  induction t as [|c t IH]; simpl; [reflexivity|]. intros H.
  apply andb_prop in H. destruct H as [Hc Ht]. apply negb_true_iff in Hc.
  now rewrite Hc, (IH Ht).
Qed.

Lemma suffix_end_ok suffix :
  link_suffix_ok suffix = true ->
  suffix_end suffix = Some (match suffix with [] => None | _ => Some suffix end).
Proof.
  destruct suffix as [|c rest]; [reflexivity|]. simpl. intros H.
  apply andb_prop in H. destruct H as [Hc Hrest]. rewrite Hc.
  rewrite dotstar_end_plain; [reflexivity|].
  clear -Hrest. induction rest as [|d rest IH]; [reflexivity|].
  simpl in *. apply andb_prop in Hrest. destruct Hrest as [Hd Hrest].
  rewrite (IH Hrest), andb_true_r.
  apply negb_true_iff in Hd. apply orb_false_elim in Hd. destruct Hd as [Hd _].
  now rewrite Hd.
Qed.

Lemma lazy_target_name name suffix :
  name <> [] ->
  forallb (fun c => negb (is_newline c || is_suffix_start c || (c =? 35)%N)) name
  = true ->
  link_suffix_ok suffix = true ->
  lazy_target (name ++ suffix)
  = Some (name, match suffix with [] => None | _ => Some suffix end).
Proof.
  intros Hne Hname Hs. induction name as [|c name IH]; [congruence|].
  simpl in Hname. apply andb_prop in Hname. destruct Hname as [Hc Hname].
  apply negb_true_iff in Hc. apply orb_false_elim in Hc. destruct Hc as [Hc _].
  apply orb_false_elim in Hc. destruct Hc as [Hnl Hss].
  simpl. rewrite Hnl. destruct name as [|d name].
  - simpl. now rewrite (suffix_end_ok _ Hs).
  - assert (Hd : is_suffix_start d = false).
    { simpl in Hname. apply andb_prop in Hname. destruct Hname as [Hd _].
      apply negb_true_iff in Hd. apply orb_false_elim in Hd. destruct Hd as [Hd _].
      apply orb_false_elim in Hd. now destruct Hd. }
    assert (Hdn : is_newline d = false).
    { simpl in Hname. apply andb_prop in Hname. destruct Hname as [Hd' _].
      apply negb_true_iff in Hd'. apply orb_false_elim in Hd'. destruct Hd' as [Hd' _].
      apply orb_false_elim in Hd'. now destruct Hd'. }
    assert (Hse : suffix_end ((d :: name) ++ suffix) = None).
    { simpl. rewrite Hd. destruct (name ++ suffix); [now rewrite Hdn|reflexivity]. }
    rewrite Hse. rewrite IH; [reflexivity|discriminate|exact Hname].
Qed.

Lemma name_suffix_no_hash kind name suffix :
  link_name_ok kind name = true -> link_suffix_ok suffix = true ->
  forallb (fun c => negb (c =? 35)%N) (name ++ suffix) = true.
Proof.
  intros Hn Hs. rewrite forallb_app. apply andb_true_intro. split.
  - unfold link_name_ok in Hn. destruct name as [|c name]; [discriminate|].
    apply andb_prop in Hn. destruct Hn as [_ Hn]. revert Hn.
    generalize (c :: name). clear. intros l.
    induction l as [|d l IH]; [reflexivity|]. simpl. intros H.
    apply andb_prop in H. destruct H as [Hd Hl]. rewrite (IH Hl), andb_true_r.
    apply negb_true_iff in Hd. apply orb_false_elim in Hd. destruct Hd as [_ Hd].
    now rewrite Hd.
  - destruct suffix as [|c rest]; [reflexivity|]. simpl in *.
    apply andb_prop in Hs. destruct Hs as [Hc Hrest].
    assert (Hc35 : (c =? 35)%N = false).
    { unfold is_suffix_start in Hc.
      destruct (N.eqb_spec c 35) as [->|]; [discriminate|reflexivity]. }
    rewrite Hc35. simpl. clear -Hrest.
    induction rest as [|d l IH]; [reflexivity|]. simpl in *.
    apply andb_prop in Hrest. destruct Hrest as [Hd Hl]. rewrite (IH Hl), andb_true_r.
    apply negb_true_iff in Hd. apply orb_false_elim in Hd. destruct Hd as [_ Hd].
    now rewrite Hd.
Qed.

Lemma match_link_parts kind name suffix :
  ((kind =? 64) || (kind =? 38))%N = true ->
  link_name_ok kind name = true -> link_suffix_ok suffix = true ->
  looks_like_link (kind :: name ++ suffix) = true
  /\ match_link (kind :: name ++ suffix)
     = Some (kind, name, match suffix with [] => None | _ => Some suffix end).
Proof.
  intros Hk Hn Hs. split.
  - unfold link_name_ok in Hn. destruct name as [|c name]; [discriminate|].
    apply andb_prop in Hn. destruct Hn as [Hc _]. simpl. now rewrite Hk, Hc.
  - unfold match_link. rewrite Hk.
    rewrite (file_target_no_hash _ _ (name_suffix_no_hash _ _ _ Hn Hs)).
    unfold link_name_ok in Hn. destruct name as [|c name]; [discriminate|].
    apply andb_prop in Hn. destruct Hn as [_ Hn].
    now rewrite (lazy_target_name (c :: name) suffix) by (assumption || discriminate).
Qed.

Context (target : node_id) (crumb : pystr) (find_node : pystr -> res node_id).

(** X13. Down to depth 2 [RewriteBaseConf] makes a link of a string
    that is a sigil [@] or [&], the name of a node and nothing more or a
    suffix that begins with [/], [|] or [:]: the link goes from the node
    that [_find_node] finds for the name, or from the node itself for the
    name [.], to the node itself, has the key as its parameter and the
    suffix as its value, and is appended to the links of the node. *)
Theorem rewrite_str_makes_link (k : option pystr) (kind : pychar)
    (name suffix : pystr) (depth : Z) (st : base_state) (n : node_id) :
  ((kind =? 64) || (kind =? 38))%N = true ->
  link_name_ok kind name = true ->
  link_suffix_ok suffix = true ->
  (depth <=? 2)%Z = true ->
  (if pystr_eqb name (lit ".") then Ok target else find_node name) = Ok n ->
  RewriteBaseConf_rewrite_str target crumb find_node k (kind :: name ++ suffix)
    depth st
  = (Ok (VLink {| l_id := bs_next st; l_source := n; l_target := target;
                  l_param := k;
                  l_value := match suffix with [] => None | _ => Some suffix end;
                  l_kind := kind |}),
     {| bs_next := S (bs_next st);
        bs_links := bs_links st
                      ++ [{| l_id := bs_next st; l_source := n; l_target := target;
                             l_param := k;
                             l_value := match suffix with
                                        | [] => None
                                        | _ => Some suffix
                                        end;
                             l_kind := kind |}] |}).
Proof.
  intros Hk Hn Hs Hd Hfind.
  destruct (match_link_parts kind name suffix Hk Hn Hs) as [Hlooks Hmatch].
  unfold RewriteBaseConf_rewrite_str. rewrite Hd, Hlooks, Hmatch. simpl andb.
  cbv iota. unfold bind.
  destruct (pystr_eqb name (lit ".")).
  - injection Hfind as <-. reflexivity.
  - rewrite Hfind. reflexivity.
Qed.
End LinkStrings.

Lemma rewrite_str_makes_link_witness :
  conf.RewriteBaseConf_rewrite_str 1 (lit "test.b") (fun _ => Ok 0) (Some (lit "x"))
    (lit "@a/out.txt") 1 {| conf.bs_next := 5; conf.bs_links := [] |}
  = (Ok (VLink {| l_id := 5; l_source := 0; l_target := 1;
                  l_param := Some (lit "x"); l_value := Some (lit "/out.txt");
                  l_kind := 64%N |}),
     {| conf.bs_next := 6;
        conf.bs_links := [{| l_id := 5; l_source := 0; l_target := 1;
                             l_param := Some (lit "x");
                             l_value := Some (lit "/out.txt");
                             l_kind := 64%N |}] |}).
Proof.
  exact (rewrite_str_makes_link 1 (lit "test.b") (fun _ => Ok 0) (Some (lit "x"))
           64%N (lit "a") (lit "/out.txt") 1
           {| conf.bs_next := 5; conf.bs_links := [] |} 0
           eq_refl eq_refl eq_refl eq_refl eq_refl).
Defined.

(** ** [conf.py]: the keys that reach the function *)

Lemma sequence_items_keys {A} (l : list (pystr * res A)) : forall items,
  json.sequence_items l = Ok items -> map fst items = map fst l.
Proof.
  induction l as [|[k [a|e]] t IH]; simpl; intros items H.
  - now injection H as <-.
  - destruct (json.sequence_items t) as [t'|e]; simpl in H; [|discriminate].
    injection H as <-. simpl. f_equal. now apply IH.
  - discriminate.
Qed.

Section CallKeys.
Import conf.
Context (call_func : pystr -> value -> res value)
        (func_pars : list pystr)
        (resolve : Link -> M os.fs value)
        (environ : pystr -> option pystr)
        (expanduser : pystr -> pystr)
        (is_word : pychar -> bool).
Abbreviation CC :=
  (RewriteCallConf call_func func_pars resolve environ expanduser is_word).
#[local] Arguments startswith : simpl never.

Lemma call_loop_keys rw d : forall nd s s',
  _rewrite_dict_loop CC rw 1 d d [] s = (Ok nd, s') ->
  forall k x, In (k, x) nd ->
    In k (dict_keys d)
    /\ (startswith (lit "_type.") k = true \/ call_key_ok func_pars k = true).
Proof.
  intros nd s s' Hrun.
  apply (dict_loop_items CC rw 1 d
           (fun k _ => In k (dict_keys d)
                       /\ (startswith (lit "_type.") k = true
                           \/ call_key_ok func_pars k = true))
           d) with (acc := []) (s := s) (s' := s'); [|exact Hrun|intros ? ? []].
  intros k v Hin s1 s0 x s2 Hd _. split.
  - unfold dict_keys. apply in_map_iff. now exists (k, v).
  - simpl in Hd. unfold RewriteCallConf_discard_item in Hd. simpl in Hd.
    destruct (startswith (lit "_type.") k) eqn:Et; [now left|right].
    unfold call_key_ok. rewrite Et.
    destruct (startswith (lit "#") k); simpl in *; [discriminate|].
    destruct (startswith (lit "_") k); simpl in *; [|reflexivity].
    destruct (existsb (pystr_eqb k) func_pars); simpl in *;
      [reflexivity|discriminate].
Qed.

(** X14. What [RewriteCallConf] hands to the function has only keys of
    the node configuration, and among them no comment, no [_type.] key,
    and no key that begins with [_] unless it is a parameter of the
    function. *)
Theorem call_conf_keys_are_arguments (d : dict) (c : value) (f f' : os.fs) :
  rewrite CC (VDict d) f = (Ok c, f') ->
  forall k, In k (keys_of c) ->
    In k (dict_keys d) /\ call_key_ok func_pars k = true.
Proof.
  unfold rewrite. simpl. unfold try_except, bind. intros H.
  destruct (_rewrite_dict_loop _ _ _ _ _ _ _) as [[nd|e] s1] eqn:El.
  - pose proof (call_loop_keys _ _ _ _ _ El) as Hk.
    assert (Hfil : forall k,
              In k (dict_keys
                      (List.filter
                         (fun kv => negb (startswith (lit "_type.") (fst kv))) nd)) ->
              In k (dict_keys d) /\ call_key_ok func_pars k = true).
    { intros k Hin. unfold dict_keys in Hin. apply in_map_iff in Hin.
      destruct Hin as [[k' x] [<- Hin]]. apply filter_In in Hin.
      destruct Hin as [Hin Hn]. simpl in *.
      destruct (Hk _ _ Hin) as [Hd [Ht|Hok]]; [|now split].
      rewrite Ht in Hn. discriminate. }
    unfold RewriteCallConf_rewrite_dict in H. simpl in H.
    destruct (fold_left _ nd []) as [|ty tys] eqn:Ety.
    + unfold ret in H. injection H as <- _. exact Hfil.
    + unfold bind, lift in H.
      destruct (json.sequence_items _) as [items|e] eqn:Es.
      * unfold ret in H. injection H as <- _. intros k Hin. apply Hfil.
        simpl in Hin. unfold dict_keys in Hin. apply in_map_iff in Hin.
        destruct Hin as [p [<- Hp]]. apply dict_of_items_In in Hp.
        apply sequence_items_keys in Es. rewrite map_map in Es. simpl in Es.
        apply (in_map fst) in Hp. rewrite Es in Hp. exact Hp.
      * destruct (is_StopRewrite e); [|discriminate].
        unfold ret in H. injection H as <- _. intros k [].
  - simpl in H. destruct (is_StopRewrite e); [|discriminate].
    unfold ret in H. injection H as <- _. intros k [].
Qed.


Lemma dict_get_filter_key {V} (P : pystr -> bool) k : forall d : list (pystr * V),
  P k = true -> dict_get k (List.filter (fun kv => P (fst kv)) d) = dict_get k d.
Proof.
  intros d Hk. induction d as [|[k' v'] d IH]; simpl; [reflexivity|].
  destruct (pystr_eqb k k') eqn:E.
  - apply pystr_eqb_eq in E. subst k'. rewrite Hk. simpl.
    now rewrite pystr_eqb_refl.
  - destruct (P k'); simpl; [now rewrite E|exact IH].
Qed.

Lemma filter_keys_NoDup {V} (P : pystr * V -> bool) : forall d,
  List.NoDup (dict_keys d) -> List.NoDup (dict_keys (List.filter P d)).
Proof.
  induction d as [|[k v] d IH]; simpl; intros H; [constructor|].
  inversion H as [|? ? Hn Hd]; subst.
  destruct (P (k, v)); simpl; [|now apply IH].
  constructor; [|now apply IH].
  intros Hin. apply Hn. unfold dict_keys in *. apply in_map_iff in Hin.
  destruct Hin as [p [Hp Hin]]. apply filter_In in Hin.
  apply in_map_iff. exists p. now split.
Qed.

(** The conversion types that are read off the keys: none for [k] where
    [_type.k] is no key. *)
Lemma types_get k : forall (nd types : dict),
  dict_get (lit "_type." ++ k) nd = None -> dict_get k types = None ->
  dict_get k
    (fold_left (fun types kv =>
                  if startswith (lit "_type.") (fst kv)
                  then dict_set (skipn 6 (fst kv)) (snd kv) types
                  else types) nd types) = None.
Proof.
  induction nd as [|[k' v'] nd IH]; intros types Hnd Hty; [exact Hty|].
  cbn [fold_left fst snd]. cbn [dict_get] in Hnd.
  destruct (pystr_eqb (lit "_type." ++ k) k') eqn:E; [discriminate|].
  apply IH; [exact Hnd|].
  destruct (startswith (lit "_type.") k') eqn:Es; [|exact Hty].
  rewrite dict_get_set.
  destruct (pystr_eqb k (skipn 6 k')) eqn:E'; [|exact Hty].
  apply pystr_eqb_eq in E'. apply startswith_app in Es.
  change (length (lit "_type.")) with 6%nat in Es. rewrite <- E' in Es.
  subst k'. now rewrite pystr_eqb_refl in E.
Qed.

Lemma coerced_items_get k (types : dict) : forall (d : dict) items,
  dict_get k types = None ->
  json.sequence_items
    (map (fun kv => (fst kv, _coerce call_func (snd kv) (dict_get (fst kv) types))) d)
  = Ok items ->
  dict_get k items = dict_get k d.
Proof.
  induction d as [|[k' v'] d IH]; intros items Hty Hs; simpl in Hs.
  - now injection Hs as <-.
  - destruct (_coerce call_func v' (dict_get k' types)) as [x|e] eqn:Ec;
      [|discriminate].
    destruct (json.sequence_items _) as [t|e] eqn:Et; simpl in Hs; [|discriminate].
    injection Hs as <-. simpl.
    destruct (pystr_eqb k k') eqn:E; [|now apply IH].
    apply pystr_eqb_eq in E. subst k'. rewrite Hty in Ec. simpl in Ec.
    now injection Ec as <-.
Qed.

(** [rewrite_dict] at depth 0 keeps what stands under a key that has no
    conversion type. *)
Lemma call_rewrite_dict_get key (nd cd : dict) s s' k :
  List.NoDup (dict_keys nd) ->
  startswith (lit "_type.") k = false ->
  dict_get (lit "_type." ++ k) nd = None ->
  RewriteCallConf_rewrite_dict call_func key nd 0 s = (Ok (VDict cd), s') ->
  dict_get k cd = dict_get k nd.
Proof.
  intros Hnd Hk Hty H. unfold RewriteCallConf_rewrite_dict in H. simpl in H.
  pose proof (types_get k nd [] Hty eq_refl) as Htypes.
  pose proof (dict_get_filter_key
                (fun k => negb (startswith (lit "_type.") k)) k nd) as Hf.
  cbv beta in Hf. rewrite Hk in Hf. specialize (Hf eq_refl).
  destruct (fold_left _ nd []) as [|ty tys] eqn:Ety.
  - unfold ret in H. injection H as <- _. exact Hf.
  - unfold bind, lift in H.
    destruct (json.sequence_items _) as [items|e] eqn:Es; [|discriminate].
    unfold ret in H. injection H as <- _.
    rewrite dict_of_items_NoDup.
    + rewrite <- Hf. exact (coerced_items_get k _ _ _ Htypes Es).
    + apply sequence_items_keys in Es. rewrite map_map in Es. simpl in Es.
      unfold dict_keys. unfold dict in *. rewrite Es.
      apply (filter_keys_NoDup _ nd Hnd).
Qed.

Lemma call_discard_kept k v parent s :
  call_key_ok func_pars k = true ->
  discard_item CC k v 1 parent s = (Ok false, s).
Proof.
  unfold call_key_ok. intros H. simpl. unfold RewriteCallConf_discard_item. simpl.
  destruct (startswith (lit "_type.") k); [reflexivity|].
  destruct (startswith (lit "#") k); [discriminate|]. simpl in *.
  destruct (startswith (lit "_") k); [|reflexivity]. simpl in *.
  now rewrite H.
Qed.

(** What the call view holds for a key of the configuration that the
    function takes, given what [_rewrite] makes of its value at depth 1. *)
Lemma call_conf_get (d cd : dict) (f f' : os.fs) k v x :
  distinct (dict_keys d) = true ->
  rewrite CC (VDict d) f = (Ok (VDict cd), f') ->
  call_key_ok func_pars k = true ->
  dict_get (lit "_type." ++ k) d = None ->
  dict_get k d = Some v ->
  (forall s, _rewrite CC (Some k) v 1 s = (Ok x, s)) ->
  dict_get k cd = Some x.
Proof.
  intros Hd H Hk Hty Hv Hx.
  assert (Hc : startswith (lit "#") k = false /\ startswith (lit "_type.") k = false).
  { unfold call_key_ok in Hk.
    destruct (startswith (lit "#") k); [discriminate|].
    destruct (startswith (lit "_type.") k); [discriminate|]. now split. }
  destruct Hc as [Hc Ht].
  unfold rewrite in H. rewrite _rewrite_eq in H. simpl in H.
  unfold try_except, bind in H.
  destruct (_rewrite_dict_loop _ _ _ _ _ _ _) as [[nd|e] s1] eqn:El.
  - assert (Hnd : List.NoDup (dict_keys nd)).
    { apply (dict_loop_NoDup CC _ _ _ _ _ _ _ _ El). constructor. }
    assert (Hg : dict_get k nd = Some x).
    { pose proof (dict_loop_get CC
                    (fun k_ v_ => _rewrite CC (Some k_) v_ (0 + 1)%Z)
                    (0 + 1)%Z d k d [] f nd s1 (distinct_NoDup _ Hd) El) as Hl.
      rewrite Hv in Hl. apply Hl.
      - intros s0. exists s0. now apply call_discard_kept.
      - right. split; [exact Hc|]. intros s0. exists s0. apply Hx. }
    assert (Htn : dict_get (lit "_type." ++ k) nd = None).
    { destruct (dict_get (lit "_type." ++ k) nd) as [y|] eqn:Ey; [|reflexivity].
      apply dict_get_In in Ey.
      destruct (call_loop_keys _ _ _ _ _ El _ _ Ey) as [Hin _].
      apply dict_get_None in Hty. contradiction. }
    destruct (RewriteCallConf_rewrite_dict call_func None nd 0 s1)
      as [[c|e] s2] eqn:Er.
    + injection H as -> _.
      rewrite (call_rewrite_dict_get _ _ _ _ _ _ Hnd Ht Htn Er). exact Hg.
    + destruct (is_StopRewrite e); discriminate.
  - simpl in H. destruct (is_StopRewrite e); discriminate.
Qed.

(** X16. Where [RewriteCallConf] returns a mapping, a key that the
    function takes and that has no conversion type stands in it for the
    value of the configuration itself, if that is a number, a truth value
    or [None], and for the string without its first character, if that
    begins with [@@], [&&] or [$$] and goes on: an escaped string reaches
    the function as the literal it stands for, and no variable of the
    environment is looked up for it. *)
Theorem call_conf_passes_values (d cd : dict) (f f' : os.fs) (k : pystr) :
  distinct (dict_keys d) = true ->
  rewrite CC (VDict d) f = (Ok (VDict cd), f') ->
  call_key_ok func_pars k = true ->
  dict_get (lit "_type." ++ k) d = None ->
  (forall v, dict_get k d = Some v -> plain_value v = true ->
             (forall s, v <> VStr s) -> dict_get k cd = Some v)
  /\ (forall c e r, dict_get k d = Some (VStr (c :: c :: e :: r)) ->
        ((c =? 64) || (c =? 38) || (c =? 36))%N = true -> is_newline e = false ->
        dict_get k cd = Some (VStr (c :: e :: r))).
Proof.
  intros Hd H Hk Hty. split.
  - intros v Hv Hp Hs.
    apply (call_conf_get d cd f f' k v v Hd H Hk Hty Hv).
    intros s. rewrite _rewrite_eq. simpl.
    destruct v; try discriminate; try reflexivity.
    now destruct (Hs s0).
  - intros c e r Hv Hc He.
    apply (call_conf_get d cd f f' k _ _ Hd H Hk Hty Hv).
    intros s. rewrite _rewrite_eq. simpl. unfold try_except.
    unfold RewriteCallConf_rewrite_str. simpl.
    rewrite Hc, N.eqb_refl, He. reflexivity.
Qed.

End CallKeys.

Lemma call_conf_keys_are_arguments_witness :
  conf.rewrite
    (conf.RewriteCallConf (fun _ v => Ok v) [lit "a"; lit "_x"]
       (fun _ => ret VNone) (fun _ => None) (fun p => p) (fun _ => false))
    (VDict [(lit "a", VInt 1); (lit "#a", VInt 0);
            (lit "_func", VStr (lit "test.function.foo")); (lit "_x", VInt 3)])
    fs_empty
  = (Ok (VDict [(lit "a", VInt 1); (lit "_x", VInt 3)]), fs_empty)
  /\ call_key_ok [lit "a"; lit "_x"] (lit "_x") = true.
Proof.
  assert (H : conf.rewrite
                (conf.RewriteCallConf (fun _ v => Ok v) [lit "a"; lit "_x"]
                   (fun _ => ret VNone) (fun _ => None) (fun p => p)
                   (fun _ => false))
                (VDict [(lit "a", VInt 1); (lit "#a", VInt 0);
                        (lit "_func", VStr (lit "test.function.foo"));
                        (lit "_x", VInt 3)])
                fs_empty
              = (Ok (VDict [(lit "a", VInt 1); (lit "_x", VInt 3)]), fs_empty))
    by (vm_compute; reflexivity).
  split; [exact H|].
  exact (proj2 (call_conf_keys_are_arguments
                  (fun _ v => Ok v) [lit "a"; lit "_x"]
                  (fun _ => ret VNone) (fun _ => None) (fun p => p)
                  (fun _ => false) _ _ _ _ H (lit "_x")
                  (or_intror (or_introl eq_refl)))).
Defined.

Lemma call_conf_passes_values_witness :
  conf.rewrite
    (conf.RewriteCallConf (fun _ v => Ok v) [lit "a"; lit "n"]
       (fun _ => ret VNone) (fun _ => None) (fun p => p) (fun _ => false))
    (VDict [(lit "a", VStr (lit "@@x")); (lit "n", VInt 3)]) fs_empty
  = (Ok (VDict [(lit "a", VStr (lit "@x")); (lit "n", VInt 3)]), fs_empty)
  /\ dict_get (lit "a") [(lit "a", VStr (lit "@x")); (lit "n", VInt 3)]
     = Some (VStr (lit "@x")).
Proof.
  assert (H : conf.rewrite
                (conf.RewriteCallConf (fun _ v => Ok v) [lit "a"; lit "n"]
                   (fun _ => ret VNone) (fun _ => None) (fun p => p)
                   (fun _ => false))
                (VDict [(lit "a", VStr (lit "@@x")); (lit "n", VInt 3)]) fs_empty
              = (Ok (VDict [(lit "a", VStr (lit "@x")); (lit "n", VInt 3)]),
                 fs_empty))
    by (vm_compute; reflexivity).
  split; [exact H|].
  exact (proj2 (call_conf_passes_values
                  (fun _ v => Ok v) [lit "a"; lit "n"]
                  (fun _ => ret VNone) (fun _ => None) (fun p => p)
                  (fun _ => false)
                  [(lit "a", VStr (lit "@@x")); (lit "n", VInt 3)]
                  [(lit "a", VStr (lit "@x")); (lit "n", VInt 3)]
                  fs_empty fs_empty (lit "a") eq_refl H eq_refl eq_refl)
               64%N 120%N [] eq_refl eq_refl eq_refl).
Defined.

(** ** [conf.py]: the configuration that is dumped *)

(** Induction on a value with the values inside it. *)
Lemma value_nested_ind (P : value -> Prop) :
  P VNone -> (forall b, P (VBool b)) -> (forall n, P (VInt n)) ->
  (forall f, P (VFloat f)) -> (forall s, P (VStr s)) ->
  (forall l, Forall P l -> P (VList l)) ->
  (forall l, Forall P l -> P (VTuple l)) ->
  (forall d, Forall (fun kv => P (snd kv)) d -> P (VDict d)) ->
  (forall l, P (VLink l)) -> (forall t i p d, P (VObj t i p d)) ->
  forall v, P v.
Proof.
  intros Hn Hb Hi Hf Hs Hl Ht Hd Hk Ho. fix IH 1.
  intros [ | b | n | f | s | l | l | d | l | t i p d].
  - exact Hn.
  - apply Hb.
  - apply Hi.
  - apply Hf.
  - apply Hs.
  - apply Hl. induction l as [|x l IHl]; constructor; [apply IH|exact IHl].
  - apply Ht. induction l as [|x l IHl]; constructor; [apply IH|exact IHl].
  - apply Hd. induction d as [|[k x] d IHd]; constructor; [apply IH|exact IHd].
  - apply Hk.
  - apply Ho.
Qed.

Lemma forallb_dict_set {V} (Q : pystr * V -> bool) k x : forall d,
  Q (k, x) = true -> forallb Q d = true -> forallb Q (dict_set k x d) = true.
Proof.
  induction d as [|[k' x'] d IH]; simpl; intros Hq Hd.
  - now rewrite Hq.
  - apply andb_prop in Hd. destruct Hd as [H1 H2].
    destruct (pystr_eqb k k'); simpl.
    + now rewrite Hq, H2.
    + now rewrite H1, IH.
Qed.

Section FlowConf.
Import conf.
Context (link_str : Link -> pystr).
Abbreviation FC := (RewriteFlowConf link_str).
#[local] Arguments startswith : simpl never.

Lemma flow_list_loop (rw : value -> M unit value) l :
  Forall (fun x => forall s, exists a, rw x s = (Ok a, s) /\ no_object a = true) l ->
  forall acc s, forallb no_object acc = true ->
  exists nl, _rewrite_list_loop rw l acc s = (Ok nl, s)
             /\ forallb no_object nl = true.
Proof.
  induction 1 as [|x l Hx _ IH]; intros acc s Hacc; simpl.
  - now exists acc.
  - unfold bind at 1. unfold try_except, bind.
    destruct (Hx s) as [a [-> Ha]]. unfold ret.
    apply IH. rewrite forallb_app, Hacc. simpl. now rewrite Ha.
Qed.

Lemma flow_dict_loop (rw : pystr -> value -> M unit value) depth1 parent items :
  Forall (fun kv => forall k s, exists a,
            rw k (snd kv) s = (Ok a, s) /\ no_object a = true) items ->
  forall acc s,
    forallb (fun kv => startswith (lit "#") (fst kv) || no_object (snd kv)) acc
    = true ->
    exists nd,
      _rewrite_dict_loop FC rw depth1 parent items acc s = (Ok nd, s)
      /\ forallb (fun kv => startswith (lit "#") (fst kv) || no_object (snd kv)) nd
         = true.
Proof.
  induction 1 as [|[k v] items Hx _ IH]; intros acc s Hacc; simpl.
  - now exists acc.
  - unfold bind at 1. unfold RewriteFlowConf_discard_item, ret at 1.
    destruct ((depth1 =? 1)%Z && pystr_eqb k (lit "_agent")); [now apply IH|].
    unfold bind at 1. unfold try_except, bind.
    destruct (startswith (lit "#") k) eqn:Ec; simpl.
    + unfold ret. apply IH. apply forallb_dict_set; [|exact Hacc].
      simpl. now rewrite Ec.
    + simpl in Hx. destruct (Hx k s) as [a [-> Ha]]. unfold ret. apply IH.
      apply forallb_dict_set; [|exact Hacc]. simpl in *. rewrite Ha.
      apply orb_true_r.
Qed.

Lemma flow_rewrite_plain : forall v k depth s,
  exists a, _rewrite FC k v depth s = (Ok a, s) /\ no_object a = true.
Proof.
  induction v as [ | b | n | f | str | l IHl | l IHl | d IHd | lk | t i p od]
    using value_nested_ind; intros k depth s; rewrite _rewrite_eq; simpl;
    unfold try_except.
  - now exists VNone.
  - now exists (VBool b).
  - now exists (VInt n).
  - now exists (VFloat f).
  - now exists (VStr str).
  - unfold bind.
    destruct (flow_list_loop (fun v_ => _rewrite FC k v_ (depth + 1)%Z) l) with
      (acc := @nil value) (s := s) as [nl [-> Hnl]]; [|reflexivity|].
    + eapply List.Forall_impl; [|exact IHl]. intros x Hx s0. apply Hx.
    + now exists (VList nl).
  - unfold bind.
    destruct (flow_list_loop (fun v_ => _rewrite FC k v_ (depth + 1)%Z) l) with
      (acc := @nil value) (s := s) as [nl [-> Hnl]]; [|reflexivity|].
    + eapply List.Forall_impl; [|exact IHl]. intros x Hx s0. apply Hx.
    + now exists (VList nl).
  - unfold bind.
    destruct (flow_dict_loop
                (fun k_ v_ => _rewrite FC (Some k_) v_ (depth + 1)%Z)
                (depth + 1)%Z d d) with (acc := @nil (pystr * value)) (s := s)
      as [nd [-> Hnd]]; [|reflexivity|].
    + eapply List.Forall_impl; [|exact IHd]. intros x Hx k0 s0. apply Hx.
    + now exists (VDict nd).
  - unfold RewriteFlowConf_rewrite_object.
    destruct (depth <=? 2)%Z.
    + now exists (VStr (link_str lk)).
    + now exists VNone.
  - now exists VNone.
Qed.

Lemma flow_list_spec (rw : value -> M unit value) (g : value -> value) l :
  Forall (fun x => forall s, rw x s = (Ok (g x), s)) l ->
  forall acc s, _rewrite_list_loop rw l acc s = (Ok (acc ++ map g l), s).
Proof.
  induction 1 as [|x l Hx _ IH]; intros acc s; simpl.
  - now rewrite app_nil_r.
  - unfold bind at 1. unfold try_except, bind. rewrite Hx. unfold ret.
    rewrite IH. now rewrite <- app_assoc.
Qed.

Lemma flow_dict_spec (rw : pystr -> value -> M unit value) (g : value -> value)
    depth1 parent items :
  Forall (fun kv => forall k s, rw k (snd kv) s = (Ok (g (snd kv)), s)) items ->
  forall acc s,
    _rewrite_dict_loop FC rw depth1 parent items acc s
    = (Ok (dict_update acc
             (List.filter
                (fun kv => negb ((depth1 =? 1)%Z && pystr_eqb (fst kv) (lit "_agent")))
                (map (fun kv => (fst kv,
                                 if startswith (lit "#") (fst kv) then snd kv
                                 else g (snd kv)))
                     items))), s).
Proof.
  induction 1 as [|[k v] items Hx _ IH]; intros acc s; simpl.
  - reflexivity.
  - unfold bind at 1. unfold RewriteFlowConf_discard_item, ret at 1.
    destruct ((depth1 =? 1)%Z && pystr_eqb k (lit "_agent")); [now apply IH|].
    unfold bind at 1. unfold try_except, bind. simpl.
    destruct (startswith (lit "#") k); simpl.
    + unfold ret. now rewrite IH.
    + rewrite Hx. unfold ret. now rewrite IH.
Qed.

Lemma flow_rewrite_spec : forall v k depth s,
  _rewrite FC k v depth s = (Ok (flow_conf_spec link_str depth v), s).
Proof.
  induction v as [ | b | n | f | str | l IHl | l IHl | d IHd | lk | t i p od]
    using value_nested_ind; intros k depth s; rewrite _rewrite_eq; simpl;
    unfold try_except; try reflexivity.
  - unfold bind.
    rewrite (flow_list_spec (fun v_ => _rewrite FC k v_ (depth + 1)%Z)
               (flow_conf_spec link_str (depth + 1)) l); [reflexivity|].
    eapply List.Forall_impl; [|exact IHl]. intros x Hx s0. apply Hx.
  - unfold bind.
    rewrite (flow_list_spec (fun v_ => _rewrite FC k v_ (depth + 1)%Z)
               (flow_conf_spec link_str (depth + 1)) l); [reflexivity|].
    eapply List.Forall_impl; [|exact IHl]. intros x Hx s0. apply Hx.
  - unfold bind.
    rewrite (flow_dict_spec (fun k_ v_ => _rewrite FC (Some k_) v_ (depth + 1)%Z)
               (flow_conf_spec link_str (depth + 1)) (depth + 1)%Z d d);
      [reflexivity|].
    eapply List.Forall_impl; [|exact IHd]. intros x Hx k0 s0. apply Hx.
  - unfold RewriteFlowConf_rewrite_object. now destruct (depth <=? 2)%Z.
Qed.

(** X15. [RewriteFlowConf] fails on no value and returns what
    [flow_conf_spec] says: the items of a mapping in their order, without
    [_agent] at depth 1 and with every other key kept; the value under a
    comment as it is; every link down to depth 2 as its string, every
    other link and every object as [None]; every tuple as a list.  So
    what it returns holds no link, no object and no tuple but under a
    comment. *)
Theorem flow_conf_has_no_objects (v : value) :
  run (rewrite FC v) = Ok (flow_conf_spec link_str 0 v)
  /\ no_object (flow_conf_spec link_str 0 v) = true.
Proof.
  assert (H : run (rewrite FC v) = Ok (flow_conf_spec link_str 0 v))
    by (unfold run, rewrite; now rewrite flow_rewrite_spec).
  split; [exact H|].
  destruct (flow_rewrite_plain v None 0%Z tt) as [a [Ha Hn]].
  unfold run, rewrite in H. rewrite Ha in H. simpl in H. now injection H as <-.
Qed.

End FlowConf.

(** ** [graph.py]: the walk of [tree] *)

Lemma unseen_le us b t :
  (length (unseen us (b ++ [t])) <= length (unseen us b))%nat.
Proof.
  unfold unseen, node_id. induction us as [|u us IH]; simpl; [lia|].
  rewrite existsb_app. destruct (existsb (Nat.eqb u) b); simpl; [exact IH|].
  destruct (u =? t)%nat; simpl; lia.
Qed.

Lemma unseen_less us b t :
  In t us -> existsb (Nat.eqb t) b = false ->
  (length (unseen us (b ++ [t])) < length (unseen us b))%nat.
Proof.
  intros Hin Hb. unfold unseen, node_id in *.
  induction us as [|u us IH]; [destruct Hin|].
  simpl. rewrite existsb_app. destruct Hin as [->|Hin].
  - rewrite Hb. simpl. rewrite Nat.eqb_refl. simpl.
    pose proof (unseen_le us b t) as Hle. unfold unseen, node_id in Hle. lia.
  - specialize (IH Hin). destruct (existsb (Nat.eqb u) b); simpl; [exact IH|].
    destruct (u =? t)%nat; simpl; lia.
Qed.

Lemma unseen_twice us b t : unseen us ((b ++ [t]) ++ [t]) = unseen us (b ++ [t]).
Proof.
  unfold unseen, node_id. apply filter_ext. intros u. rewrite !existsb_app.
  simpl. now destruct (existsb (Nat.eqb u) b), (u =? t)%nat.
Qed.

Lemma unseen_length us b : (length (unseen us b) <= length us)%nat.
Proof. unfold unseen. apply filter_length_le. Qed.

Section TreeFacts.
Import graph.
Context {St : Type} (self : Graph).

(** [_tree] with its two loops by their name. *)
Lemma _tree_eq (until_done : node_id -> M St bool)
    (repr_node : node_id -> M St pystr) (omit_internal : bool)
    fuel node direction nodes links branch :
  _tree self until_done repr_node omit_internal (S fuel) node direction
    nodes links branch
  = let nodes := oset_add Nat.eqb node nodes in
    let* done := until_done node in
    if done : bool then ret (nodes, links)
    else
      let* (nodes, links, branch) :=
        (if (direction =? 0)%Z || (direction =? 1)%Z then
           let branch := branch ++ [node] in
           let* (nodes, links) :=
             tree_walk repr_node omit_internal l_target (lit " -> ")
               (fun t => t) branch
               (fun target nodes links =>
                  _tree self until_done repr_node omit_internal fuel target 1
                    nodes links branch)
               match adj_get node (_outgoing self) with
               | Some out => out
               | None => []
               end nodes links in
           ret (nodes, links, branch)
         else ret (nodes, links, branch)) in
      if (direction =? 0)%Z || (direction =? -1)%Z then
        let branch := branch ++ [node] in
        tree_walk repr_node omit_internal l_source (lit " <- ")
          (@rev node_id) branch
          (fun source nodes links =>
             _tree self until_done repr_node omit_internal fuel source (-1)
               nodes links branch)
          match adj_get node (_incoming self) with
          | Some inc => inc
          | None => []
          end nodes links
      else ret (nodes, links).
Proof. reflexivity. Qed.


Context (name : node_id -> pystr) (omit_internal : bool).
Abbreviation walk_tree :=
  (_tree self (fun _ => ret false) (fun n => ret (name n)) omit_internal).

Lemma loop_names_run trail closing (s : St) :
  exists names,
    loop_names (fun n => ret (name n)) trail closing s = (Ok names, s).
Proof.
  induction trail as [|n rest [names IH]]; simpl.
  - now exists [].
  - unfold bind, ret in *. rewrite IH. eauto.
Qed.

Lemma adj_get_In n adj ls l :
  adj_get n adj = Some ls -> In l ls -> In l (concat (map snd adj)).
Proof.
  induction adj as [|[m old] adj IH]; simpl; [discriminate|].
  intros H Hl. apply in_or_app.
  destruct (m =? n)%nat; [injection H as ->; now left|right; now apply IH].
Qed.

Lemma tree_result_refl nodes links :
  tree_result self omit_internal nodes links None nodes links.
Proof.
  repeat split; try (intros x Hx; exact Hx); try discriminate; intros; now left.
Qed.

(** One round of a loop: the link is taken, the walk from its end
    returns, and the rest of the loop follows. *)
Lemma tree_result_step nodes links link t ns1 ls1 ns ls :
  In link (edges self) -> omit_internal && internal link = false ->
  t = l_source link \/ t = l_target link ->
  tree_result self omit_internal nodes (oset_add link_eqb link links) (Some t)
    ns1 ls1 ->
  tree_result self omit_internal ns1 ls1 None ns ls ->
  tree_result self omit_internal nodes links None ns ls.
Proof.
  intros Hin Hi Ht (A1 & B1 & C1 & D1 & E1) (A2 & B2 & _ & D2 & E2).
  repeat split.
  - intros x Hx. apply A2, A1, Hx.
  - intros x Hx. apply B2, B1. now apply oset_add_keeps.
  - discriminate.
  - intros l Hl. destruct (D2 l Hl) as [Hl1|Hg]; [|now right].
    destruct (D1 l Hl1) as [Hl0|Hg]; [|now right].
    apply oset_add_link_inv in Hl0. destruct Hl0 as [->|Hl0]; [right|now left].
    split; [exact Hin|]. intros ->. simpl in Hi. exact Hi.
  - intros n Hn. destruct (E2 n Hn) as [Hn1|[Hn1|Hn1]];
      [|discriminate|now right; right].
    destruct (E1 n Hn1) as [Hn0|[Hn0|Hn0]]; [now left| |now right; right].
    injection Hn0 as ->. right. right. now exists link.
Qed.

Lemma tree_walk_run next sep trail branch rec OUT :
  (forall l, In l OUT -> In l (edges self)) ->
  (forall l, next l = l_source l \/ next l = l_target l) ->
  (forall l, In l OUT -> existsb (Nat.eqb (next l)) branch = false ->
     forall nodes links s,
       (exists ns ls,
          rec (next l) nodes links s = (Ok (ns, ls), s)
          /\ tree_result self omit_internal nodes links (Some (next l)) ns ls)
       \/ (exists msg, rec (next l) nodes links s = (Raise (loop_detected msg), s))) ->
  forall out, incl out OUT -> forall nodes links (s : St),
    (exists ns ls,
       tree_walk (fun n => ret (name n)) omit_internal next sep trail branch rec
         out nodes links s = (Ok (ns, ls), s)
       /\ tree_result self omit_internal nodes links None ns ls)
    \/ (exists msg,
          tree_walk (fun n => ret (name n)) omit_internal next sep trail branch rec
            out nodes links s = (Raise (loop_detected msg), s)).
Proof.
  intros Hedges Hend Hrec. induction out as [|link rest IH]; intros Hout nodes links s.
  - left. exists nodes, links. split; [reflexivity|apply tree_result_refl].
  - assert (Hrest : incl rest OUT) by (intros x Hx; apply Hout; now right).
    assert (Hlink : In link OUT) by (apply Hout; now left).
    cbn [tree_walk].
    destruct (omit_internal && internal link) eqn:Ei; [now apply IH|].
    cbv zeta.
    destruct (existsb (Nat.eqb (next link)) branch) eqn:Eb.
    + right.
      destruct (loop_names_run (trail (branch ++ [next link])) (next link) s)
        as [names Hn].
      exists (join sep names). unfold bind. unfold node_id in *. rewrite Hn.
      reflexivity.
    + unfold bind.
      destruct (Hrec link Hlink Eb nodes (oset_add link_eqb link links) s)
        as [(ns1 & ls1 & Hr & Hres)|(msg & Hr)]; rewrite Hr; cbv beta iota.
      * destruct (IH Hrest ns1 ls1 s) as [(ns & ls & Hw & Hres')|(msg & Hw)].
        -- left. exists ns, ls. split; [exact Hw|].
           exact (tree_result_step _ _ _ _ _ _ _ _ (Hedges _ Hlink) Ei (Hend link)
                    Hres Hres').
        -- right. now exists msg.
      * right. now exists msg.
Qed.

Lemma ret_run {A} (x : A) (s : St) : ret x s = (Ok x, s).
Proof. reflexivity. Qed.

Lemma tree_result_trans nodes links n1 l1 ns ls :
  tree_result self omit_internal nodes links None n1 l1 ->
  tree_result self omit_internal n1 l1 None ns ls ->
  tree_result self omit_internal nodes links None ns ls.
Proof.
  intros (A1 & B1 & _ & D1 & E1) (A2 & B2 & _ & D2 & E2). repeat split.
  - intros x Hx. apply A2, A1, Hx.
  - intros x Hx. apply B2, B1, Hx.
  - discriminate.
  - intros l Hl. destruct (D2 l Hl) as [Hl1|Hg]; [|now right]. now apply D1.
  - intros n Hn. destruct (E2 n Hn) as [Hn1|[Hn1|Hn1]];
      [|discriminate|now right; right].
    destruct (E1 n Hn1) as [Hn0|[Hn0|Hn0]];
      [now left|discriminate|now right; right].
Qed.

Lemma tree_result_node node nodes links ns ls :
  tree_result self omit_internal (oset_add Nat.eqb node nodes) links None ns ls ->
  tree_result self omit_internal nodes links (Some node) ns ls.
Proof.
  intros (A & B & _ & D & E). repeat split.
  - intros x Hx. apply A. now apply oset_add_keeps.
  - exact B.
  - intros n [= <-]. apply A, oset_add_node_in.
  - exact D.
  - intros n Hn. destruct (E n Hn) as [Hn0|[Hn0|Hn0]];
      [|discriminate|now right; right].
    unfold oset_add in Hn0. destruct (existsb (Nat.eqb node) nodes); [now left|].
    apply in_app_or in Hn0. destruct Hn0 as [Hn0|[<-|[]]]; [now left|].
    right. now left.
Qed.

Lemma tree_run : forall fuel node direction nodes links branch (s : St),
  (0 < fuel)%nat ->
  ((direction =? 0)%Z || (direction =? 1)%Z = true ->
   (length (unseen (targets self) (branch ++ [node])) < fuel)%nat) ->
  ((direction =? 0)%Z || (direction =? -1)%Z = true ->
   (length (unseen (sources self) (branch ++ [node])) < fuel)%nat) ->
  (exists ns ls,
     walk_tree fuel node direction nodes links branch s = (Ok (ns, ls), s)
     /\ tree_result self omit_internal nodes links (Some node) ns ls)
  \/ (exists msg,
        walk_tree fuel node direction nodes links branch s
        = (Raise (loop_detected msg), s)).
Proof.
  induction fuel as [|fuel IH]; intros node direction nodes links branch s H0 H1 H2;
    [lia|].
  rewrite _tree_eq. cbv zeta.
  set (nodes0 := oset_add Nat.eqb node nodes).
  set (OUT := match adj_get node (_outgoing self) with Some out => out | None => [] end).
  set (INC := match adj_get node (_incoming self) with Some inc => inc | None => [] end).
  assert (Wout : (direction =? 0)%Z || (direction =? 1)%Z = true ->
            forall nodes1 links1,
              (exists ns ls,
                 tree_walk (fun n => ret (name n)) omit_internal l_target
                   (lit " -> ") (fun t => t) (branch ++ [node])
                   (fun target nodes links =>
                      walk_tree fuel target 1 nodes links (branch ++ [node]))
                   OUT nodes1 links1 s = (Ok (ns, ls), s)
                 /\ tree_result self omit_internal nodes1 links1 None ns ls)
              \/ (exists msg,
                    tree_walk (fun n => ret (name n)) omit_internal l_target
                      (lit " -> ") (fun t => t) (branch ++ [node])
                      (fun target nodes links =>
                         walk_tree fuel target 1 nodes links (branch ++ [node]))
                      OUT nodes1 links1 s = (Raise (loop_detected msg), s))).
  { intros E1 nodes1 links1. specialize (H1 E1).
    assert (Hout : forall l, In l OUT -> In l (concat (map snd (_outgoing self)))).
    { intros l Hl. unfold OUT in Hl.
      destruct (adj_get node (_outgoing self)) as [out|] eqn:Eo; [|destruct Hl].
      exact (adj_get_In _ _ _ _ Eo Hl). }
    apply (tree_walk_run l_target (lit " -> ") (fun t => t) (branch ++ [node]) _ OUT).
    - intros l Hl. unfold edges. apply in_or_app. left. now apply Hout.
    - intros l. now right.
    - intros l Hl Hb nodes2 links2 s2.
      assert (Hless : (length (unseen (targets self) ((branch ++ [node]) ++ [l_target l]))
                       < length (unseen (targets self) (branch ++ [node])))%nat).
      { apply unseen_less; [|exact Hb]. unfold targets. apply in_map. now apply Hout. }
      apply IH; [lia|intros _; lia|discriminate].
    - intros x Hx. exact Hx. }
  assert (Winc : (direction =? 0)%Z || (direction =? -1)%Z = true ->
            forall b, unseen (sources self) b = unseen (sources self) (branch ++ [node]) ->
            forall nodes1 links1,
              (exists ns ls,
                 tree_walk (fun n => ret (name n)) omit_internal l_source
                   (lit " <- ") (@rev node_id) b
                   (fun source nodes links =>
                      walk_tree fuel source (-1) nodes links b)
                   INC nodes1 links1 s = (Ok (ns, ls), s)
                 /\ tree_result self omit_internal nodes1 links1 None ns ls)
              \/ (exists msg,
                    tree_walk (fun n => ret (name n)) omit_internal l_source
                      (lit " <- ") (@rev node_id) b
                      (fun source nodes links =>
                         walk_tree fuel source (-1) nodes links b)
                      INC nodes1 links1 s = (Raise (loop_detected msg), s))).
  { intros E2 b Hb nodes1 links1. specialize (H2 E2).
    assert (Hinc : forall l, In l INC -> In l (concat (map snd (_incoming self)))).
    { intros l Hl. unfold INC in Hl.
      destruct (adj_get node (_incoming self)) as [inc|] eqn:Eo; [|destruct Hl].
      exact (adj_get_In _ _ _ _ Eo Hl). }
    apply (tree_walk_run l_source (lit " <- ") (@rev node_id) b _ INC).
    - intros l Hl. unfold edges. apply in_or_app. right. now apply Hinc.
    - intros l. now left.
    - intros l Hl Hb' nodes2 links2 s2.
      assert (Hless : (length (unseen (sources self) (b ++ [l_source l]))
                       < length (unseen (sources self) b))%nat).
      { apply unseen_less; [|exact Hb']. unfold sources. apply in_map. now apply Hinc. }
      rewrite Hb in Hless.
      apply IH; [lia|discriminate|intros _; lia].
    - intros x Hx. exact Hx. }
  match goal with
  | |- (exists ns ls, ?c = _ /\ _) \/ _ => remember c as r eqn:Er
  end.
  unfold bind in Er. rewrite ret_run in Er. cbv beta iota in Er.
  destruct ((direction =? 0)%Z || (direction =? 1)%Z) eqn:E1.
  - destruct (Wout eq_refl nodes0 links) as [(n1 & l1 & Hw & R1)|(msg & Hw)];
      rewrite Hw in Er; rewrite ?ret_run in Er; cbv beta iota in Er;
      [|right; now exists msg].
    destruct ((direction =? 0)%Z || (direction =? -1)%Z) eqn:E2.
    + destruct (Winc eq_refl ((branch ++ [node]) ++ [node])
                  (unseen_twice _ _ _) n1 l1)
        as [(ns & ls & Hw2 & R2)|(msg & Hw2)];
        rewrite Hw2 in Er; [left|right; now exists msg].
      exists ns, ls. split; [exact Er|].
      apply tree_result_node. exact (tree_result_trans _ _ _ _ _ _ R1 R2).
    + rewrite ret_run in Er. left. exists n1, l1. split; [exact Er|].
      now apply tree_result_node.
  - rewrite ret_run in Er. cbv beta iota in Er.
    destruct ((direction =? 0)%Z || (direction =? -1)%Z) eqn:E2.
    + destruct (Winc eq_refl (branch ++ [node]) eq_refl nodes0 links)
        as [(ns & ls & Hw2 & R2)|(msg & Hw2)];
        rewrite Hw2 in Er; [left|right; now exists msg].
      exists ns, ls. split; [exact Er|]. now apply tree_result_node.
    + rewrite ret_run in Er. left. exists nodes0, links. split; [exact Er|].
      apply tree_result_node, tree_result_refl.
Qed.

Lemma targets_length : (length (targets self) <= length (edges self))%nat.
Proof. unfold targets, edges. rewrite length_map, length_app. lia. Qed.

Lemma sources_length : (length (sources self) <= length (edges self))%nat.
Proof. unfold sources, edges. rewrite length_map, length_app. lia. Qed.

(** [tree] with enough fuel returns or raises the error of a loop. *)
Lemma tree_run_top (fuel : nat) (node : node_id) (direction : Z)
    (s : St) :
  (length (edges self) < fuel)%nat ->
  (exists ns ls,
     tree self (fun _ => ret false) (fun n => ret (name n)) omit_internal
       fuel node direction s = (Ok (ns, ls), s))
  \/ (exists msg,
        tree self (fun _ => ret false) (fun n => ret (name n)) omit_internal
          fuel node direction s = (Raise (loop_detected msg), s)).
Proof.
  intros Hfuel. unfold tree.
  pose proof targets_length as Ht. pose proof sources_length as Hs.
  pose proof (unseen_length (targets self) ([] ++ [node])) as Ht'.
  pose proof (unseen_length (sources self) ([] ++ [node])) as Hs'.
  destruct (tree_run fuel node direction [] [] [] s) as
    [(ns & ls & Hr & _)|(msg & Hr)]; try lia.
  - left. now exists ns, ls.
  - right. now exists msg.
Qed.

(** X17. [tree] from a node, with [until_done] left at [False], comes to
    an end on every graph: it returns, or it raises the [RecursionError]
    of a loop.  What it returns has the node among its nodes, only links
    of the graph among its links, none of them internal where these are
    to be left out, and every other node is at an end of a link of the
    graph. *)
Theorem tree_ends_within_graph (fuel : nat) (node : node_id) (direction : Z)
    (s : St) :
  (length (edges self) < fuel)%nat ->
  (exists ns ls,
     tree self (fun _ => ret false) (fun n => ret (name n)) omit_internal
       fuel node direction s = (Ok (ns, ls), s)
     /\ In node ns
     /\ (forall l, In l ls ->
           In l (edges self) /\ (omit_internal = true -> internal l = false))
     /\ (forall n, In n ns ->
           n = node
           \/ exists l, In l (edges self) /\ (n = l_source l \/ n = l_target l)))
  \/ (exists msg,
        tree self (fun _ => ret false) (fun n => ret (name n)) omit_internal
          fuel node direction s = (Raise (loop_detected msg), s)).
Proof.
  intros Hfuel. unfold tree.
  pose proof targets_length as Ht. pose proof sources_length as Hs.
  pose proof (unseen_length (targets self) ([] ++ [node])) as Ht'.
  pose proof (unseen_length (sources self) ([] ++ [node])) as Hs'.
  destruct (tree_run fuel node direction [] [] [] s) as
    [(ns & ls & Hr & (A & B & C & D & E))|(msg & Hr)]; try lia.
  - left. exists ns, ls. split; [exact Hr|]. split; [now apply C|]. split.
    + intros l Hl. destruct (D l Hl) as [[]|Hg]. exact Hg.
    + intros n Hn. destruct (E n Hn) as [[]|[[= ->]|Hl]]; [now left|now right].
  - right. now exists msg.
Qed.

(** A loop that returns has followed every link that is not left out:
    its end was not on the branch, and the walk from there returned. *)
Lemma tree_walk_ok next sep trail branch rec :
  forall out nodes links (s : St) r s',
    tree_walk (fun n => ret (name n)) omit_internal next sep trail branch rec
      out nodes links s = (Ok r, s') ->
    forall l, In l out -> omit_internal && internal l = false ->
      existsb (Nat.eqb (next l)) branch = false
      /\ exists nodes1 links1 s1 r1 s2,
           rec (next l) nodes1 links1 s1 = (Ok r1, s2).
Proof.
  induction out as [|link rest IH]; intros nodes links s r s' H l Hl Hi;
    [destruct Hl|].
  cbn [tree_walk] in H. cbv zeta in H.
  destruct (omit_internal && internal link) eqn:Ei.
  - destruct Hl as [->|Hl]; [congruence|]. exact (IH _ _ _ _ _ H l Hl Hi).
  - destruct (existsb (Nat.eqb (next link)) branch) eqn:Eb.
    + unfold bind in H.
      destruct (loop_names_run (trail (branch ++ [next link])) (next link) s)
        as [names Hn].
      unfold node_id in *. rewrite Hn in H. discriminate.
    + unfold bind in H.
      destruct (rec (next link) nodes (oset_add link_eqb link links) s)
        as [[[n1 l1]|e] s1] eqn:Er; [|discriminate].
      destruct Hl as [<-|Hl].
      * split; [exact Eb|]. eauto 10.
      * exact (IH _ _ _ _ _ H l Hl Hi).
Qed.

(** Where the walk along the outgoing links returns, no chain of links
    from the node comes to a node twice, nor back to the branch. *)
Lemma tree_ok_walks : forall fuel node direction nodes links branch (s : St) r s',
  (direction =? 0)%Z || (direction =? 1)%Z = true ->
  walk_tree fuel node direction nodes links branch s = (Ok r, s') ->
  forall path, is_walk self omit_internal node path ->
    List.NoDup (map l_target path)
    /\ forall l, In l path -> ~ In (l_target l) (branch ++ [node]).
Proof.
  induction fuel as [|fuel IH]; intros node direction nodes links branch s r s' E1 H;
    [discriminate|].
  rewrite _tree_eq in H. cbv zeta in H. unfold bind in H.
  rewrite ret_run in H. cbv beta iota in H. rewrite E1 in H.
  destruct (tree_walk _ _ _ _ _ _ _ _ _ _ s) as [[[n1 l1]|e] s1] eqn:Ew;
    [|discriminate].
  clear H. intros [|l p] Hp.
  - split; [constructor|intros l []].
  - destruct Hp as [Hl Hp]. unfold out_links in Hl. apply filter_In in Hl.
    destruct Hl as [Hl Hi]. apply negb_true_iff in Hi.
    destruct (tree_walk_ok _ _ _ _ _ _ _ _ _ _ _ Ew l Hl Hi)
      as [Hb (nodes1 & links1 & s2 & r1 & s3 & Hr)].
    destruct (IH (l_target l) 1%Z _ _ _ _ _ _ eq_refl Hr p Hp) as [Hnd Hnot].
    assert (Hb' : ~ In (l_target l) (branch ++ [node])).
    { intros Hin. apply existsb_nat_In in Hin. congruence. }
    split.
    + simpl. constructor; [|exact Hnd].
      intros Hin. apply in_map_iff in Hin. destruct Hin as [l' [Ht Hl']].
      apply (Hnot l' Hl'). rewrite Ht. apply in_or_app. right. now left.
    + intros l' [<-|Hl']; [exact Hb'|].
      intros Hin. apply (Hnot l' Hl'). apply in_or_app. now left.
Qed.

(** X18. [tree] along the outgoing links finds every loop: where a chain
    of links that it follows leads from the node to a node a second
    time, it does not return but raises the [RecursionError] of a
    loop. *)
Theorem tree_finds_loop (fuel : nat) (node : node_id) (direction : Z)
    (path : list Link) (s : St) :
  (length (edges self) < fuel)%nat ->
  (direction =? 0)%Z || (direction =? 1)%Z = true ->
  is_walk self omit_internal node path ->
  ~ List.NoDup (node :: map l_target path) ->
  exists msg,
    tree self (fun _ => ret false) (fun n => ret (name n)) omit_internal
      fuel node direction s = (Raise (loop_detected msg), s).
Proof.
  intros Hfuel E1 Hp Hloop.
  destruct (tree_run_top fuel node direction s Hfuel)
    as [(ns & ls & Hr)|Hr]; [|exact Hr].
  exfalso. apply Hloop. unfold tree in Hr.
  destruct (tree_ok_walks _ _ _ _ _ _ _ _ _ E1 Hr path Hp) as [Hnd Hnot].
  constructor; [|exact Hnd].
  intros Hin. apply in_map_iff in Hin. destruct Hin as [l [Ht Hl]].
  apply (Hnot l Hl). rewrite Ht. now left.
Qed.

End TreeFacts.

Lemma tree_ends_within_graph_witness :
  (length (graph.edges graph_line) < 3)%nat
  /\ graph.tree graph_line (fun _ => ret false) (fun _ => ret []) false
       3 1%nat (-1) tt
     = (Ok ([1; 0]%nat, [link_of 0 0 1]), tt).
Proof.
  split; [simpl; lia|].
  destruct (tree_ends_within_graph graph_line (fun _ => []) false 3 1%nat (-1) tt
              ltac:(simpl; lia))
    as [(ns & ls & H & _)|(msg & H)]; reflexivity.
Defined.

Lemma tree_finds_loop_witness :
  is_walk graph_loop false 0%nat [link_of 0 0 1; link_of 1 1 0]
  /\ exists msg,
       graph.tree graph_loop (fun _ => ret false) (fun _ => ret (lit "n")) false
         5 0%nat 1 tt
       = (Raise (loop_detected msg), tt).
Proof.
  assert (Hw : is_walk graph_loop false 0%nat [link_of 0 0 1; link_of 1 1 0]).
  { simpl. repeat split; now left. }
  split; [exact Hw|].
  apply (tree_finds_loop graph_loop (fun _ => lit "n") false 5 0%nat 1
           [link_of 0 0 1; link_of 1 1 0] tt).
  - simpl. lia.
  - reflexivity.
  - exact Hw.
  - intros H. inversion H as [|? ? Hn _]. apply Hn. simpl. right. now left.
Defined.

(** ** [func.py]: the call of a function of positional parameters *)

Lemma strict_sorted_unique_by {A} (R : A -> A -> Prop) :
  (forall x, ~ R x x) -> (forall x y z, R x y -> R y z -> R x z) ->
  forall l l', StronglySorted R l -> StronglySorted R l' -> Permutation l l' ->
               l = l'.
Proof.
  intros Hirr Htr. induction l as [|p l IH]; intros l' Hs Hs' Hp.
  - now apply Permutation_nil in Hp.
  - destruct l' as [|q l'];
      [now apply Permutation_sym, Permutation_nil in Hp|].
    inversion Hs as [|? ? Hs1 Hall]; subst.
    inversion Hs' as [|? ? Hs1' Hall']; subst.
    assert (Heq : p = q).
    { assert (Hin : In p (q :: l')) by (apply (Permutation_in _ Hp); now left).
      assert (Hin' : In q (p :: l))
        by (apply (Permutation_in _ (Permutation_sym Hp)); now left).
      destruct Hin as [->|Hin]; [reflexivity|].
      destruct Hin' as [->|Hin']; [reflexivity|].
      pose proof (proj1 (List.Forall_forall _ _) Hall _ Hin') as H1.
      pose proof (proj1 (List.Forall_forall _ _) Hall' _ Hin) as H2.
      destruct (Hirr _ (Htr _ _ _ H1 H2)). }
    subst q. f_equal. apply IH; [assumption..|].
    now apply Permutation_cons_inv in Hp.
Qed.

Lemma strongly_sorted_filter {A} (R : A -> A -> Prop) (P : A -> bool) l :
  StronglySorted R l -> StronglySorted R (List.filter P l).
Proof.
  induction 1 as [|a l Hs IH Hall]; simpl; [constructor|].
  destruct (P a); [|exact IH]. constructor; [exact IH|].
  apply List.Forall_forall. intros x Hx. apply filter_In in Hx.
  exact (proj1 (List.Forall_forall _ _) Hall x (proj1 Hx)).
Qed.

Section CallByPosition.
Import func.
Context (sign : Signature).
Hypothesis Hnames : List.NoDup (map p_name sign).

Abbreviation idx k := (param_index k sign 0).
Abbreviation idx_le :=
  (fun a b : pystr * value => (idx (fst a) <= idx (fst b))%Z).
Abbreviation idx_lt :=
  (fun a b : pystr * value => (idx (fst a) < idx (fst b))%Z).

Lemma param_index_skip k : forall pre suf i,
  ~ In k (map p_name pre) ->
  param_index k (pre ++ suf) i = param_index k suf (i + Z.of_nat (length pre))%Z.
Proof.
  induction pre as [|q pre IH]; intros suf i Hn; simpl.
  - f_equal. lia.
  - rewrite pystr_eqb_neq by (intros ->; apply Hn; now left).
    rewrite IH by (intros H; apply Hn; now right). f_equal. lia.
Qed.

Lemma param_index_at pre p suf :
  sign = pre ++ p :: suf -> idx (p_name p) = Z.of_nat (length pre).
Proof.
  intros Hs. pose proof Hnames as Hnd. rewrite Hs in *.
  rewrite param_index_skip.
  - simpl. now rewrite pystr_eqb_refl.
  - rewrite map_app in Hnd. simpl in Hnd.
    apply List.NoDup_remove_2 in Hnd. intros H. apply Hnd.
    apply in_or_app. now left.
Qed.

Lemma param_index_absent k : forall s i,
  find_param k s = None -> param_index k s i = (-1)%Z.
Proof.
  induction s as [|q s IH]; intros i H; simpl in *; [reflexivity|].
  destruct (pystr_eqb k (p_name q)); [discriminate|]. now apply IH.
Qed.

Lemma find_param_split k : forall s p,
  find_param k s = Some p -> exists pre suf, s = pre ++ p :: suf /\ p_name p = k.
Proof.
  induction s as [|q s IH]; intros p H; simpl in H; [discriminate|].
  destruct (pystr_eqb k (p_name q)) eqn:E.
  - injection H as ->. apply pystr_eqb_eq in E. now exists [], s.
  - destruct (IH p H) as (pre & suf & -> & Hn). now exists (q :: pre), suf.
Qed.

(** The index tells the parameters apart. *)
Lemma idx_inj k k' p p' :
  find_param k sign = Some p -> find_param k' sign = Some p' ->
  idx k = idx k' -> k = k'.
Proof.
  intros H H' He.
  destruct (find_param_split _ _ _ H) as (pre & suf & Hs & <-).
  destruct (find_param_split _ _ _ H') as (pre' & suf' & Hs' & <-).
  rewrite (param_index_at _ _ _ Hs), (param_index_at _ _ _ Hs') in He.
  assert (Hl : length pre = length pre') by lia.
  rewrite Hs' in Hs. apply (f_equal (fun l => nth_error l (length pre))) in Hs.
  rewrite nth_error_app2 in Hs by lia.
  rewrite (nth_error_app2 pre) in Hs by lia.
  rewrite Hl, Nat.sub_diag in Hs. simpl in Hs. now injection Hs as ->.
Qed.

Lemma insert_by_index_sorted kv l :
  Sorted idx_le l -> Sorted idx_le (insert_by_index sign kv l).
Proof.
  induction 1 as [|q d Hs IH Hh]; simpl.
  - repeat constructor.
  - destruct (Z.leb_spec (idx (fst kv)) (idx (fst q))) as [E|E].
    + constructor; [now constructor|]. now constructor.
    + constructor; [exact IH|].
      destruct d as [|r d]; simpl.
      * constructor. lia.
      * destruct (Z.leb_spec (idx (fst kv)) (idx (fst r))).
        -- constructor. lia.
        -- constructor. now inversion Hh.
Qed.

Lemma sorted_kwargs_sorted kwargs : Sorted idx_le (sorted_kwargs sign kwargs).
Proof.
  induction kwargs as [|kv l IH]; simpl; [constructor|].
  now apply insert_by_index_sorted.
Qed.

(** Keywords that name parameters, in the order of the signature. *)
Lemma sorted_kwargs_strict kwargs :
  List.NoDup (dict_keys kwargs) ->
  (forall k, In k (dict_keys kwargs) -> find_param k sign <> None) ->
  StronglySorted idx_lt (sorted_kwargs sign kwargs).
Proof.
  intros Hnd Hk.
  assert (Hnd' : List.NoDup (dict_keys (sorted_kwargs sign kwargs))).
  { unfold dict_keys. eapply Permutation_NoDup; [|exact Hnd].
    apply Permutation_map. symmetry. apply sorted_kwargs_perm. }
  assert (Hk' : forall k, In k (dict_keys (sorted_kwargs sign kwargs)) ->
                          find_param k sign <> None).
  { intros k Hin. apply Hk. unfold dict_keys in *.
    eapply Permutation_in; [|exact Hin].
    apply Permutation_map, sorted_kwargs_perm. }
  pose proof (sorted_kwargs_sorted kwargs) as Hs.
  apply Sorted_StronglySorted; [intros a b c; lia|].
  induction Hs as [|a l Hs IH Hh]; [constructor|].
  inversion Hnd' as [|? ? Hnotin Hnd'']; subst.
  constructor.
  - apply IH; [exact Hnd''|]. intros k Hin. apply Hk'. now right.
  - destruct Hh as [|b l Hle]; constructor.
    destruct (Z.eq_dec (idx (fst a)) (idx (fst b))) as [He|Hne]; [|lia].
    exfalso. apply Hnotin. left.
    destruct (find_param (fst a) sign) as [p|] eqn:Ea;
      [|destruct (Hk' (fst a)); [now left|exact Ea]].
    destruct (find_param (fst b) sign) as [p'|] eqn:Eb;
      [|destruct (Hk' (fst b)); [right; now left|exact Eb]].
    symmetry. exact (idx_inj _ _ _ _ Ea Eb He).
Qed.

(** The first loop, where all arguments find a positional parameter:
    the parameters from [pre] on take the arguments in their order. *)
Lemma split_positional_all n_pos : forall args pre suf pos var,
  sign = pre ++ suf ->
  (length pre + length args <= n_pos)%nat -> (length args <= length suf)%nat ->
  dict_keys pos = map p_name pre ->
  split_positional sign n_pos (length pre) args pos var
  = Ok (pos ++ combine (map p_name suf) args, var).
Proof.
  induction args as [|v args IH]; intros pre suf pos var Hs Hn Hl Hk; simpl.
  - destruct (map p_name suf); now rewrite app_nil_r.
  - destruct suf as [|p suf]; [simpl in Hl; lia|].
    assert (Hp : nth_error sign (length pre) = Some p).
    { rewrite Hs, nth_error_app2 by lia. now rewrite Nat.sub_diag. }
    rewrite Hp. simpl in Hn, Hl.
    destruct (Nat.ltb_spec (length pre) n_pos) as [_|Hge]; [|lia].
    assert (Hnew : ~ In (p_name p) (dict_keys pos)).
    { rewrite Hk. pose proof Hnames as Hnd. rewrite Hs, map_app in Hnd.
      simpl in Hnd. apply List.NoDup_remove_2 in Hnd. intros H. apply Hnd.
      apply in_or_app. now left. }
    rewrite (dict_set_new _ _ _ Hnew).
    replace (S (length pre)) with (length (pre ++ [p]))
      by (rewrite length_app; simpl; lia).
    rewrite (IH (pre ++ [p]) suf).
    + simpl. now rewrite <- app_assoc.
    + now rewrite <- app_assoc.
    + rewrite length_app. simpl. lia.
    + lia.
    + unfold dict_keys in *. rewrite !map_app, Hk. reflexivity.
Qed.

(** The second loop, where every keyword names a positional parameter:
    the keywords that are not set yet follow in their order. *)
Lemma split_keywords_all : forall kwargs pos var key,
  List.NoDup (dict_keys kwargs) ->
  (forall k, In k (dict_keys kwargs) ->
     exists p, find_param k sign = Some p /\ is_positional p = true) ->
  split_keywords sign kwargs pos var key
  = Ok (pos ++ List.filter (fun kv => negb (dict_mem (fst kv) pos)) kwargs,
        var, key).
Proof.
  induction kwargs as [|[k v] kwargs IH]; intros pos var key Hnd Hk; simpl.
  - now rewrite app_nil_r.
  - inversion Hnd as [|? ? Hnotin Hnd']; subst.
    destruct (Hk k) as [p [Hf Hp]]; [now left|]. rewrite Hf.
    assert (Hrest : forall k0, In k0 (dict_keys kwargs) ->
              exists p0, find_param k0 sign = Some p0 /\ is_positional p0 = true).
    { intros k0 Hin. apply Hk. now right. }
    assert (Hgo : split_keywords sign kwargs
                    (if dict_mem k pos then pos else dict_set k v pos) var key
                  = Ok (pos ++ (if negb (dict_mem k pos)
                                then (k, v) :: List.filter
                                       (fun kv => negb (dict_mem (fst kv) pos)) kwargs
                                else List.filter
                                       (fun kv => negb (dict_mem (fst kv) pos)) kwargs),
                        var, key)).
    { rewrite (IH _ var key Hnd' Hrest).
      destruct (dict_mem k pos) eqn:Em; simpl; [reflexivity|].
      assert (Hnew : ~ In k (dict_keys pos)).
      { apply dict_get_None. unfold dict_mem in Em.
        now destruct (dict_get k pos). }
      rewrite (dict_set_new _ _ _ Hnew), <- app_assoc. simpl.
      assert (E : List.filter (fun kv => negb (dict_mem (fst kv) (pos ++ [(k, v)])))
                    kwargs
                  = List.filter (fun kv => negb (dict_mem (fst kv) pos)) kwargs).
      { apply filter_ext_in. intros [k0 v0] Hin. simpl. f_equal.
        unfold dict_mem. rewrite <- (dict_set_new _ _ _ Hnew), dict_get_set.
        rewrite pystr_eqb_neq; [reflexivity|].
        intros ->. apply Hnotin. unfold dict_keys. apply in_map_iff.
        now exists (k, v0). }
      now rewrite E. }
    unfold is_positional in Hp.
    destruct (p_kind p); try discriminate; exact Hgo.
Qed.

Lemma sorted_suffix (g : Param -> value) : forall suf pre,
  sign = pre ++ suf ->
  StronglySorted idx_lt (map (fun p => (p_name p, g p)) suf).
Proof.
  induction suf as [|a suf IH]; intros pre Hs; simpl; constructor.
  - apply (IH (pre ++ [a])). now rewrite <- app_assoc.
  - apply List.Forall_forall. intros x Hx. apply in_map_iff in Hx.
    destruct Hx as [q [<- Hq]]. apply in_split in Hq.
    destruct Hq as (a1 & a2 & ->). simpl.
    rewrite (param_index_at pre a (a1 ++ q :: a2) Hs).
    rewrite (param_index_at (pre ++ a :: a1) q a2)
      by (rewrite Hs, <- app_assoc; reflexivity).
    rewrite length_app. simpl. lia.
Qed.

Lemma combine_mem k : forall (names : list pystr) (args : list value),
  dict_mem k (combine names args) = true
  <-> exists i, (i < length args)%nat /\ nth_error names i = Some k.
Proof.
  unfold dict_mem.
  induction names as [|k0 names IH]; intros [|v args]; simpl.
  - split; [discriminate|intros (i & Hi & _); lia].
  - split; [discriminate|intros ([|i] & _ & H); discriminate].
  - split; [discriminate|intros (i & Hi & _); lia].
  - destruct (pystr_eqb k k0) eqn:E.
    + apply pystr_eqb_eq in E. subst k0. split; [|reflexivity].
      intros _. exists 0%nat. split; [lia|reflexivity].
    + rewrite IH. split.
      * intros (i & Hi & Hn). exists (S i). split; [lia|exact Hn].
      * intros ([|i] & Hi & Hn); simpl in Hn.
        -- injection Hn as ->. now rewrite pystr_eqb_refl in E.
        -- exists i. split; [lia|exact Hn].
Qed.

Lemma nth_error_combine {A B} : forall (l : list A) (l' : list B) i a b,
  nth_error l i = Some a -> nth_error l' i = Some b ->
  nth_error (combine l l') i = Some (a, b).
Proof.
  induction l as [|x l IH]; intros [|y l'] [|i] a b Ha Hb; try discriminate;
    simpl in *.
  - now injection Ha as ->; injection Hb as ->.
  - now apply IH.
Qed.

Lemma find_param_at k p :
  find_param k sign = Some p ->
  exists i, nth_error sign i = Some p /\ p_name p = k.
Proof.
  intros H. destruct (find_param_split _ _ _ H) as (pre & suf & Hs & Hn).
  exists (length pre). split; [|exact Hn].
  rewrite Hs, nth_error_app2 by lia. now rewrite Nat.sub_diag.
Qed.

(** The keywords that the second loop adds are those of the parameters
    that no argument is left for, in the order of the signature. *)
Lemma keywords_of_rest (args : list value) (kwargs : dict) :
  List.NoDup (dict_keys kwargs) ->
  (forall k, In k (dict_keys kwargs) -> find_param k sign <> None) ->
  (forall i p, nth_error sign i = Some p -> (length args <= i)%nat ->
               dict_mem (p_name p) kwargs = true) ->
  List.filter (fun kv => negb (dict_mem (fst kv) (combine (map p_name sign) args)))
    (sorted_kwargs sign kwargs)
  = map (fun p => (p_name p,
                   match dict_get (p_name p) kwargs with
                   | Some v => v
                   | None => VNone
                   end))
        (skipn (length args) sign).
Proof.
  intros Hnd Hk Hall.
  assert (Hperm := sorted_kwargs_perm sign kwargs).
  assert (Hnd' : List.NoDup (dict_keys (sorted_kwargs sign kwargs))).
  { unfold dict_keys. eapply Permutation_NoDup; [|exact Hnd].
    apply Permutation_map. now symmetry. }
  apply (strict_sorted_unique_by idx_lt).
  - intros x. lia.
  - intros x y z. lia.
  - apply strongly_sorted_filter. now apply sorted_kwargs_strict.
  - apply (sorted_suffix _ _ (firstn (length args) sign)).
    now rewrite firstn_skipn.
  - apply Permutation.NoDup_Permutation.
    + apply (List.NoDup_map_inv fst). apply (filter_keys_NoDup _ _ Hnd').
    + apply (List.NoDup_map_inv fst). rewrite map_map. simpl.
      pose proof Hnames as Hn.
      rewrite <- (firstn_skipn (length args) sign), map_app in Hn.
      exact (List.NoDup_app_remove_l _ _ Hn).
    + intros [k v]. rewrite filter_In, in_map_iff. simpl. split.
      * intros [Hin Hm]. apply negb_true_iff in Hm.
        assert (Hin' : In (k, v) kwargs) by (eapply Permutation_in; eassumption).
        assert (Hg : dict_get k kwargs = Some v) by now apply In_dict_get.
        destruct (find_param k sign) as [p|] eqn:Ef.
        2:{ destruct (Hk k); [|exact Ef]. unfold dict_keys. apply in_map_iff.
            now exists (k, v). }
        destruct (find_param_at _ _ Ef) as (i & Hi & Hname).
        exists p. rewrite Hname, Hg. split; [reflexivity|].
        destruct (Nat.lt_ge_cases i (length args)) as [Hlt|Hge].
        -- assert (Ht : dict_mem k (combine (map p_name sign) args) = true).
           { apply combine_mem. exists i. split; [exact Hlt|].
             now rewrite nth_error_map, Hi, <- Hname. }
           congruence.
        -- apply (nth_error_In _ (i - length args)).
           rewrite nth_error_skipn. now replace (length args + (i - length args))%nat
             with i by lia.
      * intros (p & [= <- <-] & Hp).
        apply In_nth_error in Hp. destruct Hp as [j Hj].
        rewrite nth_error_skipn in Hj.
        pose proof (Hall _ _ Hj ltac:(lia)) as Hm. unfold dict_mem in Hm.
        destruct (dict_get (p_name p) kwargs) as [v|] eqn:Eg; [|discriminate].
        split.
        -- eapply Permutation_in; [symmetry; exact Hperm|].
           now apply dict_get_In.
        -- apply negb_true_iff.
           destruct (dict_mem (p_name p) (combine (map p_name sign) args)) eqn:Em;
             [|reflexivity].
           apply combine_mem in Em. destruct Em as (i & Hi & Hn).
           exfalso. assert (Hij : i = (length args + j)%nat); [|lia].
           apply (proj1 (List.NoDup_nth_error (map p_name sign)) Hnames).
           ++ apply nth_error_Some. congruence.
           ++ rewrite Hn, nth_error_map, Hj. reflexivity.
Qed.

End CallByPosition.

Lemma filter_all {A} (P : A -> bool) (l : list A) :
  forallb P l = true -> List.filter P l = l.
Proof.
  induction l as [|a l IH]; simpl; [reflexivity|].
  intros H. apply andb_prop in H. destruct H as [-> H]. now rewrite IH.
Qed.

Lemma missing_args_none s pos key :
  forallb func.is_positional s = true ->
  (forall p, In p s -> dict_mem (func.p_name p) pos = true) ->
  func.missing_args s pos key = [].
Proof.
  unfold func.missing_args. induction s as [|p s IH]; simpl; [reflexivity|].
  intros H Hin. apply andb_prop in H. destruct H as [Hp Hs].
  rewrite IH by (try exact Hs; intros q Hq; apply Hin; now right).
  rewrite (Hin p) by now left.
  unfold func.is_positional in Hp. now destruct (func.p_kind p).
Qed.

(** X19. A function whose parameters are all positional ones and have
    different names, called with no more arguments than it has
    parameters, with keywords that each name a parameter, and with an
    argument or a keyword for every parameter, is called with one value
    for each parameter, in the order of the signature and with no
    keyword: the argument at the place of the parameter, or else the
    keyword of its name, converted to the type of the parameter.  So in
    such a call a keyword changes no argument that is given by place, and
    the order of the keywords changes nothing. *)
Theorem call_binds_by_position (f : func.Func) (s : func.Signature)
    (args : list value) (kwargs : dict) :
  func.sign f = Some s ->
  distinct (map func.p_name s) = true ->
  distinct (dict_keys kwargs) = true ->
  forallb func.is_positional s = true ->
  (length args <= length s)%nat ->
  (forall k, In k (dict_keys kwargs) -> func.find_param k s <> None) ->
  (forall i p, nth_error s i = Some p -> (length args <= i)%nat ->
               dict_mem (func.p_name p) kwargs = true) ->
  exists vals,
    func.call f args kwargs = func.func f vals []
    /\ length vals = length s
    /\ forall i p, nth_error s i = Some p ->
         nth_error vals i
         = option_map (func.coerce f (func.p_name p))
             match nth_error args i with
             | Some v => Some v
             | None => dict_get (func.p_name p) kwargs
             end.
Proof.
  intros Hsign Hn Hkw Hpos Hlen Hk Hall.
  apply distinct_NoDup in Hn. apply distinct_NoDup in Hkw.
  set (pos1 := combine (map func.p_name s) args).
  set (rest := map (fun p => (func.p_name p,
                              match dict_get (func.p_name p) kwargs with
                              | Some v => v
                              | None => VNone
                              end))
                   (skipn (length args) s)).
  assert (Hsplit : func._split_args s args kwargs = Ok (pos1 ++ rest, [], [], [])).
  { unfold func._split_args. rewrite (filter_all _ _ Hpos).
    pose proof (split_positional_all s Hn (length s) args [] s [] []
                  eq_refl ltac:(simpl; lia) Hlen eq_refl) as Hsp.
    cbn [length app] in Hsp. rewrite Hsp.
    cbn [res_bind]. fold pos1.
    rewrite (split_keywords_all s).
    - cbn [res_bind]. unfold pos1.
      rewrite (keywords_of_rest s Hn args kwargs Hkw Hk Hall). fold pos1 rest.
      rewrite missing_args_none; [reflexivity|exact Hpos|].
      intros p Hp. unfold dict_mem.
      destruct (dict_get (func.p_name p) (pos1 ++ rest)) eqn:Eg; [reflexivity|].
      exfalso. apply dict_get_None in Eg. apply Eg.
      unfold dict_keys, pos1, rest. rewrite map_app, map_map. simpl.
      apply In_nth_error in Hp. destruct Hp as [i Hi].
      apply in_or_app.
      destruct (Nat.lt_ge_cases i (length args)) as [Hlt|Hge].
      + left. destruct (nth_error args i) as [a|] eqn:Ea;
          [|apply nth_error_None in Ea; lia].
        apply (in_map fst _ (func.p_name p, a)).
        apply (nth_error_In _ i). apply nth_error_combine; [|exact Ea].
        now rewrite nth_error_map, Hi.
      + right. apply in_map. apply (nth_error_In _ (i - length args)).
        rewrite nth_error_skipn.
        now replace (length args + (i - length args))%nat with i by lia.
    - unfold dict_keys. eapply Permutation_NoDup; [|exact Hkw].
      apply Permutation_map. symmetry. apply sorted_kwargs_perm.
    - intros k Hin.
      assert (Hin' : In k (dict_keys kwargs)).
      { unfold dict_keys in *. eapply Permutation_in; [|exact Hin].
        apply Permutation_map, sorted_kwargs_perm. }
      destruct (func.find_param k s) as [p|] eqn:Ef; [|destruct (Hk k Hin' Ef)].
      exists p. split; [reflexivity|].
      destruct (find_param_at s _ _ Ef) as (i & Hi & _).
      apply nth_error_In in Hi.
      exact (proj1 (forallb_forall _ _) Hpos p Hi). }
  exists (map (fun kv => func.coerce f (fst kv) (snd kv)) (pos1 ++ rest)).
  split; [|split].
  - unfold func.call. rewrite Hsign, Hsplit. cbn [res_bind]. simpl dict_get.
    cbv iota beta. now rewrite map_map.
  - rewrite length_map, length_app. unfold pos1, rest.
    rewrite length_combine, !length_map, length_skipn. lia.
  - intros i p Hi. rewrite nth_error_map.
    destruct (Nat.lt_ge_cases i (length args)) as [Hlt|Hge].
    + destruct (nth_error args i) as [a|] eqn:Ea;
        [|apply nth_error_None in Ea; lia].
      rewrite nth_error_app1
        by (unfold pos1; rewrite length_combine, length_map; lia).
      unfold pos1. erewrite nth_error_combine; [reflexivity| |exact Ea].
      now rewrite nth_error_map, Hi.
    + assert (Ea : nth_error args i = None) by now apply nth_error_None.
      rewrite Ea.
      assert (Hl1 : length pos1 = length args)
        by (unfold pos1; rewrite length_combine, length_map; lia).
      rewrite nth_error_app2 by lia. rewrite Hl1. unfold rest.
      rewrite nth_error_map, nth_error_skipn.
      replace (length args + (i - length args))%nat with i by lia.
      rewrite Hi. simpl.
      pose proof (Hall _ _ Hi Hge) as Hm. unfold dict_mem in Hm.
      now destruct (dict_get (func.p_name p) kwargs).
Qed.

Lemma call_binds_by_position_witness :
  exists vals,
    func.call pair [VInt 1] [(lit "b", VInt 2)] = func.func pair vals []
    /\ nth_error vals 0 = Some (VInt 1) /\ nth_error vals 1 = Some (VInt 2).
Proof.
  assert (Hk : forall k, In k (dict_keys [(lit "b", VInt 2)]) ->
                         func.find_param k pair_sign <> None).
  { intros k [<-|[]]. discriminate. }
  assert (Hall : forall i p, nth_error pair_sign i = Some p ->
                   (length [VInt 1] <= i)%nat ->
                   dict_mem (func.p_name p) [(lit "b", VInt 2)] = true).
  { intros [|[|[|i]]] p H Hle; simpl in *; try lia; try discriminate.
    now injection H as <-. }
  destruct (call_binds_by_position pair pair_sign [VInt 1] [(lit "b", VInt 2)]
              eq_refl eq_refl eq_refl eq_refl ltac:(simpl; lia) Hk Hall)
    as (vals & Hc & _ & Hv).
  exists vals. split; [exact Hc|]. split.
  - exact (Hv 0%nat _ eq_refl).
  - exact (Hv 1%nat _ eq_refl).
Defined.

(** ** [func.py]: more arguments than positional parameters *)

Section Surplus.
Import func.
Context (sign : Signature).




End Surplus.


(** ** [scope.py]: the nodes of a scope and its properties *)


Section AddNode.
Import node.



End AddNode.


(** ** [utils.py]: the hashes that the code computes *)

Lemma lower_hex_hash_char s :
  forallb is_lower_hex s = true -> forallb node.is_hash_char s = true.
Proof.
  induction s as [|c s IH]; simpl; [reflexivity|].
  intros H. apply andb_prop in H. destruct H as [Hc Hs]. rewrite (IH Hs).
  rewrite andb_true_r. unfold is_lower_hex in Hc. unfold node.is_hash_char.
  apply orb_prop in Hc. destruct Hc as [Hc|Hc];
    apply andb_prop in Hc; destruct Hc as [H1 H2];
    apply N.leb_le in H1; apply N.leb_le in H2.
  - apply orb_true_iff. right. apply andb_true_iff. split; apply N.leb_le; lia.
  - apply orb_true_iff. left. apply andb_true_iff. split; apply N.leb_le; lia.
Qed.

Lemma format_x_shape n : (0 <= n < 2 ^ 32)%Z -> spec_hash_shape (format_x n) = true.
Proof.
  intros Hn. destruct (format_x_32 n Hn) as (_ & Hl & Hd & _).
  unfold spec_hash_shape. rewrite (lower_hex_hash_char _ Hd), andb_true_r.
  apply andb_true_iff. split; apply Nat.leb_le; lia.
Qed.

(** X22. Every hash that the code computes itself, [hash32] of bytes or
    of a string and [fake_hash] of an object, is a string of one to eight
    characters of [a-z0-9]: it has in full the form that is asked of a
    given [_hash] and that the slug of a link is matched with. *)
Theorem computed_hash_is_well_formed :
  (forall dump, spec_hash_shape (utils.hash32_bytes dump) = true)
  /\ (forall obj_id, spec_hash_shape (utils.fake_hash obj_id) = true)
  /\ (forall s h, utils.hash32 s = Ok h ->
                  spec_hash_shape h = true /\ node.match_hash h = true).
Proof.
  assert (Hland : forall z, (0 <= Z.land z (Z.shiftl 1 32 - 1) < 2 ^ 32)%Z).
  { intros z. change (Z.shiftl 1 32 - 1)%Z with (Z.ones 32).
    rewrite Z.land_ones by lia. apply Z.mod_pos_bound. lia. }
  assert (H1 : forall dump, spec_hash_shape (utils.hash32_bytes dump) = true).
  { intros dump. apply format_x_shape, Hland. }
  split; [exact H1|]. split.
  - intros obj_id. apply format_x_shape, Hland.
  - intros s h H. unfold utils.hash32 in H.
    destruct (utils.utf8_encode s) as [bs|e]; [|discriminate].
    simpl in H. injection H as <-. split; [apply H1|].
    apply spec_hash_shape_match, H1.
Qed.

(** ** [scope.py]: finding a node by its name *)

Section FindNode.
Import node.

Lemma split1_absent c : forall s,
  forallb (fun d => negb (c =? d)%N) s = true -> split1 c s = None.
Proof.
  induction s as [|d s IH]; simpl; [reflexivity|].
  intros H. apply andb_prop in H. destruct H as [Hd Hs].
  apply negb_true_iff in Hd. rewrite Hd. now rewrite IH.
Qed.

Lemma split1_parts c : forall s a b,
  split1 c s = Some (a, b) -> s = a ++ c :: b.
Proof.
  induction s as [|d s IH]; intros a b H; simpl in H; [discriminate|].
  destruct (N.eqb_spec c d) as [->|Hne].
  - now injection H as <- <-.
  - destruct (split1 c s) as [[a' b']|]; [|discriminate].
    injection H as <- <-. simpl. f_equal. now apply IH.
Qed.

(** A string that ends where [$] lets it end is its part before that
    end, with a newline after it or without. *)
Lemma before_end_cases s : s = before_end s \/ s = before_end s ++ [10%N].
Proof.
  unfold before_end. destruct (rev s) as [|c r] eqn:E; [now left|].
  destruct (N.eqb_spec c 10) as [->|Hne]; [right|now left].
  rewrite <- (rev_involutive s), E. reflexivity.
Qed.

Lemma words_without c s :
  is_word c = false -> (c =? 10)%N = false -> is_words (before_end s) = true ->
  forallb (fun d => negb (c =? d)%N) s = true.
Proof.
  intros Hc Hn Hw. unfold is_words in Hw. apply andb_prop in Hw.
  destruct Hw as [_ Hw].
  assert (Hb : forallb (fun d => negb (c =? d)%N) (before_end s) = true).
  { apply forallb_forall. intros d Hd.
    pose proof (proj1 (forallb_forall _ _) Hw d Hd) as Hwd.
    apply negb_true_iff. destruct (N.eqb_spec c d) as [->|]; [congruence|reflexivity]. }
  destruct (before_end_cases s) as [E|E]; rewrite E; [exact Hb|].
  rewrite forallb_app, Hb. simpl. now rewrite Hn.
Qed.

(** X23. A name of word characters is found as the node of that name in
    the scope itself, before any base of the scope is asked; and a name
    [scope.node] as the node of that name in the scope of that name of
    the flow. *)
Theorem find_node_by_name (fuel : nat) (self : nat) (link : pystr) (fx : Flux)
    (sc : Scope) (n : node_id) :
  lookup_scope self fx = Some sc -> (0 < fuel)%nat ->
  (match_name link = true -> dict_get link (s_nodes sc) = Some n ->
   scope_find_node fuel self link fx = (Ok n, fx))
  /\ (forall scope_name node_name s sc',
        match_scope_node link = Some (scope_name, node_name) ->
        dict_get scope_name (fx_scopes fx) = Some s ->
        lookup_scope s fx = Some sc' ->
        dict_get node_name (s_nodes sc') = Some n ->
        scope_find_node fuel self link fx = (Ok n, fx)).
Proof.
  intros Hsc Hfuel. destruct fuel as [|fuel]; [lia|]. split.
  - intros Hm Hn. unfold match_name in Hm.
    assert (H35 : split1 35 link = None)
      by (apply split1_absent, words_without; [reflexivity..|exact Hm]).
    assert (H46 : split1 46 link = None)
      by (apply split1_absent, words_without; [reflexivity..|exact Hm]).
    unfold scope_find_node, bind, the_scope, get. rewrite Hsc.
    unfold match_slug, match_file_node, match_scope_node, match_name.
    rewrite H35, H46, Hm. cbn [find_in_bases]. unfold bind, the_scope.
    rewrite Hsc, Hn. reflexivity.
  - intros scope_name node_name s sc' Hm Hs Hsc' Hn.
    assert (H35 : split1 35 link = None).
    { unfold match_scope_node in Hm.
      destruct (split1 46 link) as [[a b]|] eqn:E; [|discriminate].
      destruct (is_words a && is_words (before_end b)) eqn:Ew; [|discriminate].
      apply andb_prop in Ew. destruct Ew as [Ha Hb].
      apply split1_parts in E. subst link. apply split1_absent.
      rewrite forallb_app. cbn [forallb].
      rewrite (words_without 35 b eq_refl eq_refl Hb), !andb_true_r.
      unfold is_words in Ha. apply andb_prop in Ha. destruct Ha as [_ Ha].
      apply forallb_forall. intros d Hd.
      pose proof (proj1 (forallb_forall _ _) Ha d Hd) as Hwd.
      apply negb_true_iff.
      destruct (N.eqb_spec 35 d) as [<-|]; [discriminate|reflexivity]. }
    unfold scope_find_node, bind, the_scope, get. rewrite Hsc.
    unfold match_slug, match_file_node. rewrite H35, Hm.
    cbn [find_in_scopes]. unfold bind, get, the_scope.
    rewrite Hs, Hsc', Hn. reflexivity.
Qed.

End FindNode.

Lemma find_node_by_name_witness :
  node.scope_find_node 1 0 (lit "foo") flux_foo = (Ok 0%nat, flux_foo)
  /\ node.scope_find_node 1 0 (lit "test.foo") flux_foo = (Ok 0%nat, flux_foo).
Proof.
  split.
  - exact (proj1 (find_node_by_name 1 0 (lit "foo") flux_foo scope_foo 0%nat
                    eq_refl ltac:(lia)) eq_refl eq_refl).
  - exact (proj2 (find_node_by_name 1 0 (lit "test.foo") flux_foo scope_foo 0%nat
                    eq_refl ltac:(lia))
             (lit "test") (lit "foo") 0%nat scope_foo eq_refl eq_refl eq_refl eq_refl).
Defined.
